(* ===== verification/_CoqProject ===== *)
-Q . S2P
Prelude.v
GoTime.v
GoNet.v
Sha256.v
Packet.v
Replay.v
ControlAuth.v
Base64.v
Text.v
Identity.v
Service.v
Diagnostics.v
DirectoryWire.v
DirectoryPack.v
Server.v
Membership.v
Send.v
Floor.v
Relay.v
Directory.v
Steps.v
RelaySpec.v
FloorSpec.v
ExpirySpec.v
HandlerSpec.v
Handshake.v
Takeover.v
DirectorySpec.v
DirectoryAnswers.v
DirectoryConfig.v
PrivateControl.v
PrivateState.v
StateFile.v
PrivateSnapshot.v
PrivateFrames.v
PrivateLink.v
PrivateSpec.v
PrivateAnswers.v
SecretFiles.v
PolicyFiles.v
Management.v
ManagementSpec.v
ManagementGrants.v
ManagementAnswers.v
ManagementAudit.v
KeyFiles.v
LinkStart.v
Start.v
Running.v
