(* ===== verification/Prelude.v ===== *)
(** * The IncomUdon Relay, verified

    IncomUdon-Server is the push-to-talk Relay of the IncomUdon voice system, a Go
    program of one package.  Clients send it datagrams: control packets that join
    and leave channels, take and give back the floor and announce codec
    configurations, and media packets, which it forwards inside a channel.  This
    library is a shallow embedding of its core: every operation of the code is a
    Rocq function on the state it works on, in the vocabulary of the source.

    ** The program and its files

    - [src/main.go], [src/control_auth.go]: the server.  [Server] has its state
      ([peer], [channel], [server]); [Membership] the sections that create,
      refresh, authorize and remove registrations; [Send] what it sends; [Floor]
      push-to-talk, Floor Interrupt and the expiry loops; [Relay] the packet
      handlers, the receive loop, the cleanup tick and (from [src/management.go])
      the revocation of service admissions.
    - [Packet]: the wire format, [parsePacket] and the packet builders.
    - [ControlAuth], [Replay]: Control Authentication, that is keys, HMAC tags,
      challenges, cookies, provisional sessions, the nonces of the Relay, and the
      sliding windows of [src/control_auth.go] and [src/directory_v3.go].
    - [Base64], [Identity]: [src/identity_admission.go], identity tickets.
    - [Service]: [src/service_admission.go], service grants and their revocation.
    - [Diagnostics]: [src/relay_diagnostics.go], the floor interrupt counters.
    - [src/directory_v3.go], the Directory: [DirectoryWire] has its keys, envelopes
      and the opening and sealing of datagrams; [DirectoryPack] the division of
      answers into fragments and of snapshots into pages; [Directory] its tables,
      every section under its lock, the senders and the workers; [DirectoryConfig]
      the loading of its keys and names.
    - The private control link, over which a management service revokes admissions
      and watches the Relay: [PrivateControl] has the messages, frames and tables of
      [src/private_control.go]; [PrivateState] the state file of
      [src/private_control_state.go] and [StateFile] the system calls that write it, on a
      disk that may crash; [PrivateSnapshot] the snapshots of
      [src/private_control_snapshot.go]; [PrivateLink] the command handlers and the
      connection loop, which run on the server, the link and the file together.
    - The management API of [src/management.go]: [SecretFiles] has the permission check
      of [src/secret_file_permissions.go]; [PolicyFiles] the CSV files of the API and of
      the private control link, and the signing key; [Management] the plane with its
      permissions, events, audit and grants, the HTTP handlers and the start.
    - The start of the Relay: [KeyFiles] has the policies and key files of Control
      Authentication and of the two admissions; [LinkStart] the state path, the
      listeners and peers of the private control link ([src/private_control_state_path.go],
      [src/private_control_state_path_unix.go], [src/private_control_uds_linux.go]) and
      [startPrivateControlLink]; [Start] [main] of [src/main.go], from the environment to
      the running parts.
    - [Running]: the running Relay, that is the state of all parts, the goroutines of the
      program with their calls from one part into another, and the transitions of all parts.
    - [GoTime], [GoNet], [Sha256], [Text]: what the code uses of Go's [time], [net],
      [crypto], [strings], [strconv] and [encoding/csv] packages.

    How they call each other: the receive loop ([Relay]) hands a datagram to the
    packet handlers or to the Directory, which reads participants from the server;
    a handler asks [ControlAuth], [Identity] and [Service]; the server publishes
    events into the link ([PrivateLink.deliver]); a revocation of the link installs a
    deny rule in [Service] and evicts registrations of the server; the management API
    reads the server and issues the grants that [Service] validates.

    ** How the code is modelled

    Fixed-width integers are [Z] with the wrap-around written out ([u8] .. [u64]),
    byte slices are [list Z], and an index out of range is [None].  A Go map is a
    [gmap]; the order in which [range] visits it is any permutation of its entries
    ([RangeOrder]), so a theorem holds for every order Go may choose.

    The server is concurrent: the receive loop, the cleanup loop and the
    management calls take [s.mu] for short sections.  Each section is a pure
    function [server -> A * server]; a handler is a program of the monad [M],
    which runs sections one after the other and collects what is sent.  [Steps]
    has one transition per section ([server_step]) and shows that every handler is
    a run of transitions; an invariant of the transitions therefore holds however
    the sections of different goroutines interleave.  The properties of a single
    handler are stated for a run of it that is not interrupted.  The clock is read
    where the code reads it, each site with a reading of its own ([clk n]); an
    instant is nanoseconds since the zero time of Go.

    The parts meet in [Running]: a goroutine is an operation on the state of all of them,
    and [relay_step] is a transition of any part.  What an operation of the server calls in
    the plane and in the Directory is an output of the server, and is performed when the
    operation is done; the server does not read these parts, so it cannot tell.  A sender
    reads the fields of the peers it sends to when it lists them ([channelPeers]); the Go
    code reads them through the pointers shortly after, without the lock.

    A directory on the disk ([StateFile]) has for every name the entries it had since the
    last synchronisation: a crash keeps one of them, and any content of a file that was not
    synchronised, which is what POSIX leaves open.

    Ed25519 verification, AES-GCM, JSON, the sort of Go, the results of file writes
    and randomness are interfaces ([Ed25519], [AEAD], [TicketJSON], [GrantJSON],
    [DirectoryJSON], [PrivateControlJSON], [PrivateStateJSON], [GrantMarshal],
    [CursorJSON], [RFC3339], [CSV], [FileSystem], [HostPaths], [TLSFiles], [Durations],
    [SliceSort], [Entropy], [Environment], [DirectoryEnvironment], [PrivateEnvironment], [DiskEnvironment],
    [Ed25519Keys]) with the documented behaviour as laws.  That a signature verifies is a law
    of the keys Go makes from a seed only ([Ed25519Correct]): a signing key of 64 bytes is
    read as it is, so what the plane signs is said to verify when the halves of that key
    match ([halves_match]).  SHA-256, HMAC, HKDF and base64url are written out and evaluated
    on the repository's own test vectors.  Recursion is structural but for four loops
    with fuel: [newRelayInstanceID_loop] has the 32 attempts of the code, the
    packing of fragments and pages as much as rows and doublings, with a
    distinct result out of fuel that is shown not to occur, [scan_value] one more than
    the tokens and [serve] one more than the bytes, which is shown to be enough
    ([validatePrivateControlJSON_correct], [connection_terminates]).

    ** What is shown

    - The wire format: [parsePacket] accepts exactly the encodings of well-formed
      packets and never panics; authenticated packets round-trip; ticket segments
      have one spelling.
    - Authentication: accepted packets carry the HMAC of a configured key, replay
      windows implement their specification, cookies are used once, nonces of the Relay
      are never reused; an honest client completes the handshake whatever the others do
      in between ([Handshake]).
    - Admission: an admission comes from a validated ticket or grant and a proof
      of possession; revocations fail closed; the tables are bounded.
    - The server under any interleaving ([RelaySpec]): the floor is bounded,
      registrations are well-formed, the codec cache is sound, channels do not
      interfere.
    - The floor ([FloorSpec]): the decision of a Floor Interrupt, and that it does
      not depend on the order of Go's maps.
    - Expiry and revocation ([ExpirySpec]): exactly what is removed, reported and
      kept.
    - The handlers ([HandlerSpec]): who gets media, which packets have no effect,
      what JOIN, PING and SERVER_CFG do.  A registration taken over by another sender
      strands its talker ([Takeover]).
    - The Directory: only a holder of the channel key is heard ([DirectoryWire]),
      nothing is replayed, its tables are bounded under any interleaving and a
      registration belongs to its client ([DirectorySpec]); answers are complete or one
      error ([DirectoryPack], [DirectoryAnswers]); a Directory that starts is
      configured soundly ([DirectoryConfig]).
    - The private control link: frames and their JSON are accepted exactly when they
      are well-formed ([PrivateFrames]); under any interleaving its tables are bounded
      and a revocation is executed once ([PrivateSpec]); a revocation executed without
      another goroutine in between is installed and on disk when it is acknowledged,
      writing the state file is atomic under a crash ([StateFile]), what a restart restores, after a crash too, when it fails, and how two
      writes that cross lose one of them ([PrivateAnswers]); snapshots are the state
      ([PrivateSnapshot]).
    - The management API: a plane that starts has a well-formed policy and signs under a
      key ID whose public key at the Relay is the public half of its key; only a known
      service gets an answer, which is what it asked for and may see; queues are bounded
      and the audit keeps the newest records under any interleaving
      ([ManagementAnswers]); a grant it issues validates, with the rights of the ACL,
      when the halves of the key match ([ManagementGrants]); pages of the audit neither repeat nor skip a record
      ([ManagementAudit]); secret files are private ([SecretFiles]).
    - The start: a Relay that starts is configured soundly and its parts fit together
      ([Start]); a private control link starts only on
      private paths ([LinkStart]); and without any configuration the Relay starts.
    - The running Relay ([Running]): every goroutine is a run of transitions; the
      invariants and the configuration of all parts hold together under any interleaving;
      and a grant the management API issues with a key whose halves match is accepted by
      the service admission of the same Relay in every later state, until it expires.

    ** What is not modelled

    Sockets, TLS handshakes, the credentials of a peer, [flag.Parse], signals and logging
    are input and output of the operating system: what they yield is an argument.  The
    other lines that are not translated are the log lines, the closing of the parts at the
    end of [main], and what the build tags replace on Windows, where the private control
    link with a state file refuses to start. *)

From Stdlib Require Export Ascii.
From stdpp Require Export base gmap sets list strings option.
From stdpp Require Export sorting pretty.
From Stdlib Require Export ZArith Lia.

#[global] Set Default Goal Selector "!".
#[global] Open Scope Z_scope.
Declare Scope go_scope.
Delimit Scope go_scope with go.

(** ** Machine integers

    Go's [uint8], [uint16], [uint32] and [uint64] are [Z] with the truncation
    of a conversion or of an arithmetic operation written out. *)

Definition u8 (z : Z) : Z := z mod 2 ^ 8.
Definition u16 (z : Z) : Z := z mod 2 ^ 16.
Definition u32 (z : Z) : Z := z mod 2 ^ 32.
Definition u64 (z : Z) : Z := z mod 2 ^ 64.

(** [int64] wraps to the signed representative. *)
Definition i64 (z : Z) : Z := (z + 2 ^ 63) mod 2 ^ 64 - 2 ^ 63.

Definition is_u8 (z : Z) : Prop := 0 <= z < 2 ^ 8.
Definition is_u16 (z : Z) : Prop := 0 <= z < 2 ^ 16.
Definition is_u32 (z : Z) : Prop := 0 <= z < 2 ^ 32.
Definition is_u64 (z : Z) : Prop := 0 <= z < 2 ^ 64.

(** [flag_set v f] is Go's [v&f != 0]. *)
Definition flag_set (v f : Z) : bool := negb (Z.land v f =? 0).

(** ** Bytes

    A [[]byte] is a list of [Z]; [bytes_ok] says every element is a byte. *)

Definition bytes_ok (l : list Z) : Prop := Forall is_u8 l.

(** [len] is Go's [len]. *)
Definition len {A} (l : list A) : Z := Z.of_nat (length l).

(** [slice l lo hi] is Go's [l[lo:hi]] of a slice whose capacity is its length:
    [None] is the run-time panic of an index out of range. *)
Definition slice {A} (l : list A) (lo hi : Z) : option (list A) :=
  if (0 <=? lo) && (lo <=? hi) && (hi <=? len l)
  then Some (take (Z.to_nat (hi - lo)) (drop (Z.to_nat lo) l))
  else None.

(** [index l i] is Go's [l[i]], [None] the panic. *)
Definition index {A} (l : list A) (i : Z) : option A :=
  if 0 <=? i then l !! Z.to_nat i else None.

(** [sub l lo n] is [l[lo:lo+n]] where the code has already compared lengths. *)
Definition sub {A} (l : list A) (lo n : nat) : list A := take n (drop lo l).

(** [binary.BigEndian.PutUint16/32/64] and [Uint16/32/64], by byte count. *)
Fixpoint put_be (n : nat) (v : Z) : list Z :=
  match n with
  | O => []
  | S k => (v / 256 ^ Z.of_nat k) mod 256 :: put_be k v
  end.

Definition get_be (l : list Z) : Z := fold_left (fun acc b => acc * 256 + b) l 0.

(** [make([]byte, n)]. *)
Definition zeros (n : nat) : list Z := replicate n 0.

(** Equality of byte strings ([bytes.Equal], [subtle.ConstantTimeCompare = 1],
    [==] of byte arrays). *)
Definition bytes_eqb (a b : list Z) : bool := bool_decide (a = b).

(** The bytes of a Go string literal. *)
Definition str_bytes (s : string) : list Z :=
  (fun c => Z.of_N (Ascii.N_of_ascii c)) <$> String.list_ascii_of_string s.

(** The Go string of some bytes. *)
Definition string_of_bytes (l : list Z) : string :=
  String.string_of_list_ascii ((fun z => Ascii.ascii_of_N (Z.to_N z)) <$> l).

Lemma str_string_of_bytes l : bytes_ok l -> str_bytes (string_of_bytes l) = l.
Proof.
  intros Hl. unfold str_bytes, string_of_bytes. rewrite String.list_ascii_of_string_of_list_ascii, <- list_fmap_compose.
  induction Hl as [|z l Hz _ IH]; [done|]. cbn [fmap list_fmap]. f_equal; [|exact IH]. unfold is_u8 in Hz. cbn.
  rewrite Ascii.N_ascii_embedding; lia.
Qed.

Lemma string_of_str_bytes s : string_of_bytes (str_bytes s) = s.
Proof.
  transitivity (String.string_of_list_ascii (String.list_ascii_of_string s)); [|apply String.string_of_list_ascii_of_string].
  unfold str_bytes, string_of_bytes. rewrite <- list_fmap_compose. f_equal.
  induction (String.list_ascii_of_string s) as [|c l IH]; [done|]. cbn [fmap list_fmap]. f_equal; [|exact IH].
  cbn. by rewrite N2Z.id, Ascii.ascii_N_embedding.
Qed.

#[export] Instance str_bytes_inj : Inj (=) (=) str_bytes.
Proof. intros s t E. by rewrite <- (string_of_str_bytes s), E, string_of_str_bytes. Qed.

(** ** Iteration order of Go maps

    [range] over a Go map visits every entry once, in an order the language does
    not fix.  A definition that ranges over a map takes the order from this
    interface; its theorems hold for every instance. *)

Class RangeOrder := {
  range : forall {K} `{Countable K} {A}, gmap K A -> list (K * A);
  range_perm : forall {K} `{Countable K} {A} (m : gmap K A),
    range m ≡ₚ map_to_list m
}.

(** The order stdpp lists a map in is one of the admissible orders. *)
#[refine] Definition listing_order : RangeOrder :=
  {| range := fun K _ _ A m => map_to_list m |}.
Proof. done. Defined.

(** ** Effects

    A handler of the server reads and writes a state [S], sends datagrams and
    publishes events (its outputs [O], in order) and returns a value. *)

Definition M (S O A : Type) : Type := S -> A * S * list O.

Definition ret {S O A} (a : A) : M S O A := fun s => (a, s, []).

Definition bind {S O A B} (m : M S O A) (f : A -> M S O B) : M S O B :=
  fun s =>
    let '(a, s1, o1) := m s in
    let '(b, s2, o2) := f a s1 in
    (b, s2, o1 ++ o2).

Definition gets {S O A} (f : S -> A) : M S O A := fun s => (f s, s, []).
Definition modify {S O} (f : S -> S) : M S O unit := fun s => (tt, f s, []).
Definition emit {S O} (o : O) : M S O unit := fun s => (tt, s, [o]).

(** A critical section: one read-modify-write of the state. *)
Definition atomically {S O A} (f : S -> A * S) : M S O A :=
  fun s => let '(a, s') := f s in (a, s', []).

Declare Scope eff_scope.
Delimit Scope eff_scope with eff.
Notation "'let!' x := m 'in' k" := (bind m (fun x => k))
  (at level 10, x name, k at level 200) : eff_scope.
Notation "'let!' ' p := m 'in' k" := (bind m (fun x => match x with p => k end))
  (at level 10, p strict pattern, k at level 200) : eff_scope.
Notation "m ;;; k" := (bind m (fun _ => k))
  (at level 100, right associativity) : eff_scope.
Notation "'when' b 'do' m" := (if b then m else ret tt)
  (at level 10, b at level 9, m at level 99) : eff_scope.

(** [for _, x := range l { f(x) }]. *)
Fixpoint for_each {S O A} (l : list A) (f : A -> M S O unit) : M S O unit :=
  match l with
  | [] => ret tt
  | x :: l' => bind (f x) (fun _ => for_each l' f)
  end.

Definition result {S O A} (m : M S O A) (s : S) : A := fst (fst (m s)).
Definition final {S O A} (m : M S O A) (s : S) : S := snd (fst (m s)).
Definition outs {S O A} (m : M S O A) (s : S) : list O := snd (m s).

Section effects.
Context {S O : Type}.

Lemma run_eta {A} (m : M S O A) s : m s = (result m s, final m s, outs m s).
Proof. unfold result, final, outs. by destruct (m s) as [[??]?]. Qed.

Lemma final_bind {A B} (m : M S O A) (f : A -> M S O B) s :
  final (bind m f) s = final (f (result m s)) (final m s).
Proof.
  unfold final, result, bind. destruct (m s) as [[a s1] o1]; simpl.
  by destruct (f a s1) as [[??]?].
Qed.

Lemma result_bind {A B} (m : M S O A) (f : A -> M S O B) s :
  result (bind m f) s = result (f (result m s)) (final m s).
Proof.
  unfold final, result, bind. destruct (m s) as [[a s1] o1]; simpl.
  by destruct (f a s1) as [[??]?].
Qed.

Lemma outs_bind {A B} (m : M S O A) (f : A -> M S O B) s :
  outs (bind m f) s = outs m s ++ outs (f (result m s)) (final m s).
Proof.
  unfold outs, final, result, bind. destruct (m s) as [[a s1] o1]; simpl.
  by destruct (f a s1) as [[??]?].
Qed.

(** [steps R m]: every state change [m] makes is a run of [R]-steps. *)
Definition steps (R : relation S) {A} (m : M S O A) : Prop :=
  forall s, rtc R s (final m s).

(** [reads_only m]: [m] leaves the state alone. *)
Definition reads_only {A} (m : M S O A) : Prop := forall s, final m s = s.

(** [only P m]: every output of [m] satisfies [P]. *)
Definition only (P : O -> Prop) {A} (m : M S O A) : Prop :=
  forall s, Forall P (outs m s).

Lemma steps_bind R {A B} (m : M S O A) (f : A -> M S O B) :
  steps R m -> (forall a, steps R (f a)) -> steps R (bind m f).
Proof. intros Hm Hf s. rewrite final_bind. etrans; [apply Hm | apply Hf]. Qed.

Lemma steps_reads_only R {A} (m : M S O A) : reads_only m -> steps R m.
Proof. intros H s. by rewrite H. Qed.

Lemma steps_for_each R {A} (l : list A) (f : A -> M S O unit) :
  (forall x, steps R (f x)) -> steps R (for_each l f).
Proof.
  intros H. induction l as [|x l IH]; simpl; [by intros s|].
  by apply steps_bind.
Qed.

Lemma reads_only_ret {A} (a : A) : reads_only (ret a : M S O A).
Proof. done. Qed.
Lemma reads_only_gets {A} (f : S -> A) : reads_only (gets f : M S O A).
Proof. done. Qed.
Lemma reads_only_emit (o : O) : reads_only (emit o : M S O unit).
Proof. done. Qed.
Lemma reads_only_bind {A B} (m : M S O A) (f : A -> M S O B) :
  reads_only m -> (forall a, reads_only (f a)) -> reads_only (bind m f).
Proof. intros Hm Hf s. by rewrite final_bind, Hf, Hm. Qed.
Lemma reads_only_for_each {A} (l : list A) (f : A -> M S O unit) :
  (forall x, reads_only (f x)) -> reads_only (for_each l f).
Proof.
  intros H. induction l as [|x l IH]; simpl; [done|].
  by apply reads_only_bind.
Qed.

Lemma only_bind P {A B} (m : M S O A) (f : A -> M S O B) :
  only P m -> (forall a, only P (f a)) -> only P (bind m f).
Proof. intros Hm Hf s. rewrite outs_bind. by apply Forall_app_2; [apply Hm|apply Hf]. Qed.
Lemma only_ret P {A} (a : A) : only P (ret a : M S O A).
Proof. intros s. constructor. Qed.
Lemma only_gets P {A} (f : S -> A) : only P (gets f : M S O A).
Proof. intros s. constructor. Qed.
Lemma only_modify P f : only P (modify f : M S O unit).
Proof. intros s. constructor. Qed.
Lemma only_atomically P {A} (f : S -> A * S) : only P (atomically f : M S O A).
Proof. intros s. unfold outs, atomically. destruct (f s). constructor. Qed.
Lemma only_emit (P : O -> Prop) o : P o -> only P (emit o : M S O unit).
Proof. intros H s. by repeat constructor. Qed.
Lemma only_for_each P {A} (l : list A) (f : A -> M S O unit) :
  (forall x, only P (f x)) -> only P (for_each l f).
Proof.
  intros H. induction l as [|x l IH]; simpl; [apply only_ret|].
  by apply only_bind.
Qed.

(** An invariant of the step relation is an invariant of every handler made
    of its steps. *)
Lemma steps_invariant (R : relation S) (I : S -> Prop) {A} (m : M S O A) s :
  (forall s1 s2, R s1 s2 -> I s1 -> I s2) -> steps R m -> I s -> I (final m s).
Proof.
  intros HR Hm. generalize (Hm s). generalize (final m s).
  induction 1; eauto.
Qed.
End effects.

Create HintDb effects.
#[export] Hint Resolve steps_bind steps_reads_only steps_for_each reads_only_ret
  reads_only_gets reads_only_emit reads_only_bind reads_only_for_each
  only_bind only_ret only_gets only_modify only_atomically only_for_each : effects.

(** Split the branches of a handler and close the pieces with the database. *)
Ltac effects :=
  repeat first
    [ progress intros
    | progress cbv zeta
    | solve [eauto with effects nocore]
    | apply steps_bind | apply steps_for_each
    | apply reads_only_bind | apply reads_only_for_each
    | apply only_bind | apply only_for_each
    | case_match ].

(** ** Shared lemmas: slices and big-endian integers *)

Lemma len_app {A} (l k : list A) : len (l ++ k) = len l + len k.
Proof. unfold len. rewrite length_app. lia. Qed.

Lemma len_nonneg {A} (l : list A) : 0 <= len l.
Proof. unfold len. lia. Qed.

Lemma slice_Some {A} (l : list A) lo hi :
  0 <= lo -> lo <= hi -> hi <= len l ->
  slice l lo hi = Some (take (Z.to_nat (hi - lo)) (drop (Z.to_nat lo) l)).
Proof.
  intros. unfold slice.
  by rewrite !(proj2 (Z.leb_le _ _)) by lia.
Qed.

(** The slices and indices a parser takes, in terms of [sub] and [nth]. *)
Lemma slice_sub {A} (l : list A) lo hi :
  0 <= lo <= hi -> hi <= len l ->
  slice l lo hi = Some (sub l (Z.to_nat lo) (Z.to_nat (hi - lo))).
Proof. intros. by apply slice_Some; lia. Qed.

Lemma index_nth (l : list Z) i :
  0 <= i < len l -> index l i = Some (nth (Z.to_nat i) l 0).
Proof.
  intros. unfold index, len in *. rewrite (proj2 (Z.leb_le _ _)) by lia.
  destruct (lookup_lt_is_Some_2 l (Z.to_nat i)) as [x Hx]; [lia|].
  rewrite Hx. f_equal. symmetry. apply nth_lookup_Some with (1 := Hx).
Qed.

Lemma slice_len {A} (l k : list A) lo hi :
  slice l lo hi = Some k -> len k = hi - lo.
Proof.
  unfold slice, len. repeat case_match; intros; simplify_eq.
  rewrite length_take, length_drop.
  repeat match goal with H : _ && _ = true |- _ => apply andb_true_iff in H as [??] end.
  rewrite Z.leb_le in *. unfold len in *. lia.
Qed.

Lemma length_put_be n v : length (put_be n v) = n.
Proof. revert v. induction n as [|n IH]; intros v; simpl; [done|]. by rewrite IH. Qed.

Lemma length_zeros n : length (zeros n) = n.
Proof. apply length_replicate. Qed.

Lemma bytes_ok_put_be n v : bytes_ok (put_be n v).
Proof.
  induction n as [|n IH]; simpl; constructor; [|done].
  unfold is_u8. change (2 ^ 8) with 256. apply Z.mod_pos_bound. lia.
Qed.

Lemma bytes_ok_zeros n : bytes_ok (zeros n).
Proof. apply Forall_replicate. unfold is_u8. lia. Qed.

Lemma get_be_foldl acc l :
  fold_left (fun a b => a * 256 + b) l acc = acc * 256 ^ len l + get_be l.
Proof.
  unfold get_be. revert acc. induction l as [|b l IH]; intros acc; simpl.
  - unfold len; simpl. lia.
  - rewrite (IH (acc * 256 + b)), (IH (0 * 256 + b)).
    unfold len. rewrite length_cons, Nat2Z.inj_succ, Z.pow_succ_r by lia. lia.
Qed.

Lemma get_be_cons b l : get_be (b :: l) = b * 256 ^ len l + get_be l.
Proof. unfold get_be at 1; simpl. rewrite get_be_foldl. lia. Qed.

Lemma get_put_be n v : get_be (put_be n v) = v mod 256 ^ Z.of_nat n.
Proof.
  induction n as [|n IH]; [by rewrite Z.mod_1_r|].
  cbn [put_be]. rewrite get_be_cons, IH. unfold len. rewrite length_put_be.
  rewrite Nat2Z.inj_succ, Z.pow_succ_r by lia.
  rewrite (Z.mul_comm 256), Z.rem_mul_r by lia. lia.
Qed.

Lemma get_put_be_small n v :
  0 <= v < 256 ^ Z.of_nat n -> get_be (put_be n v) = v.
Proof. intros. rewrite get_put_be. by apply Z.mod_small. Qed.

Lemma get_be_bound l : bytes_ok l -> 0 <= get_be l < 256 ^ len l.
Proof.
  induction 1 as [|b l Hb _ IH]; [by compute|].
  rewrite get_be_cons. unfold is_u8, len in *.
  rewrite length_cons, Nat2Z.inj_succ, Z.pow_succ_r by lia. nia.
Qed.

Lemma mod_split_inj q a b x y :
  0 <= a < q -> 0 <= b < q -> a + q * x = b + q * y -> a = b /\ x = y.
Proof. intros. assert (x = y) by nia. split; lia. Qed.

(** [put_be n] depends only on the low [n] bytes. *)
Lemma put_be_mod_eq n v w :
  v mod 256 ^ Z.of_nat n = w mod 256 ^ Z.of_nat n -> put_be n v = put_be n w.
Proof.
  revert v w. induction n as [|n IH]; intros v w E; [done|]. cbn [put_be].
  rewrite Nat2Z.inj_succ, Z.pow_succ_r, (Z.mul_comm 256) in E by lia.
  rewrite !Z.rem_mul_r in E by lia.
  apply mod_split_inj in E as [E1 E2]; [|apply Z.mod_pos_bound; lia..].
  f_equal; [done | by apply IH].
Qed.

Lemma put_get_be l : bytes_ok l -> put_be (length l) (get_be l) = l.
Proof.
  induction 1 as [|b l Hb Hl IH]; [done|]. cbn [length put_be].
  rewrite get_be_cons. pose proof (get_be_bound l Hl) as Hg. unfold len in *.
  set (P := 256 ^ Z.of_nat (length l)) in *.
  assert (0 < P) by (unfold P; lia).
  f_equal.
  - rewrite Z.div_add_l, (Z.div_small (get_be l)) by lia.
    rewrite Z.add_0_r. apply Z.mod_small. exact Hb.
  - etrans; [|exact IH]. apply put_be_mod_eq. fold P.
    by rewrite Z.add_comm, Z.mod_add by lia.
Qed.

Create HintDb bytes.
Create Rewrite HintDb bytes.
#[export] Hint Rewrite length_put_be length_zeros @length_app @length_take @length_drop : bytes.

(** Turn the boolean guards of a definition into propositions. *)
Ltac gobool :=
  repeat match goal with
  | H : negb _ = true |- _ => apply negb_true_iff in H
  | H : negb _ = false |- _ => apply negb_false_iff in H
  | H : _ && _ = true |- _ => apply andb_true_iff in H as [??]
  | H : _ || _ = false |- _ => apply orb_false_iff in H as [??]
  | H : (_ =? _) = true |- _ => apply Z.eqb_eq in H
  | H : (_ =? _) = false |- _ => apply Z.eqb_neq in H
  | H : (_ <? _) = true |- _ => apply Z.ltb_lt in H
  | H : (_ <? _) = false |- _ => apply Z.ltb_ge in H
  | H : (_ <=? _) = true |- _ => apply Z.leb_le in H
  | H : (_ <=? _) = false |- _ => apply Z.leb_gt in H
  | H : bool_decide _ = true |- _ => apply bool_decide_eq_true in H
  | H : bool_decide _ = false |- _ => apply bool_decide_eq_false in H
  end.

(** ** Sub-slices of a concatenation *)

Lemma sub_skip {A} (l k : list A) lo n :
  (length l <= lo)%nat -> sub (l ++ k) lo n = sub k (lo - length l) n.
Proof. intros. unfold sub. by rewrite drop_app_ge. Qed.

Lemma sub_here {A} (l k : list A) n : n = length l -> sub (l ++ k) 0 n = l.
Proof. intros ->. unfold sub. by rewrite drop_0, take_app_length. Qed.

Lemma sub_all {A} (l : list A) lo n :
  (lo = 0)%nat -> (length l <= n)%nat -> sub l lo n = l.
Proof. intros -> ?. unfold sub. by rewrite drop_0, take_ge. Qed.

Lemma length_sub {A} (l : list A) lo n :
  (lo + n <= length l)%nat -> length (sub l lo n) = n.
Proof. intros. unfold sub. rewrite length_take, length_drop. lia. Qed.

Lemma bytes_ok_sub l lo n : bytes_ok l -> bytes_ok (sub l lo n).
Proof. intros. unfold sub. by apply Forall_take, Forall_drop. Qed.

Lemma sub_sub_app {A} (l : list A) lo n k :
  sub l lo n ++ sub l (lo + n) k = sub l lo (n + k).
Proof. unfold sub. by rewrite <- drop_drop, <- take_take_drop. Qed.

Lemma get_be_u16 l : bytes_ok l -> length l = 2%nat -> is_u16 (get_be l).
Proof. intros H E. pose proof (get_be_bound l H) as Hb. unfold len in Hb. by rewrite E in Hb. Qed.
Lemma get_be_u32 l : bytes_ok l -> length l = 4%nat -> is_u32 (get_be l).
Proof. intros H E. pose proof (get_be_bound l H) as Hb. unfold len in Hb. by rewrite E in Hb. Qed.
Lemma get_be_u64 l : bytes_ok l -> length l = 8%nat -> is_u64 (get_be l).
Proof. intros H E. pose proof (get_be_bound l H) as Hb. unfold len in Hb. by rewrite E in Hb. Qed.

Lemma put_get_be_n n l : bytes_ok l -> length l = n -> put_be n (get_be l) = l.
Proof. intros H <-. by apply put_get_be. Qed.

#[export] Hint Resolve bytes_ok_put_be bytes_ok_zeros bytes_ok_sub
  get_be_u16 get_be_u32 get_be_u64 : bytes.

(** A decidable fact about every byte, by exhaustion. *)
Lemma byte_exhaust (P : Z -> bool) (p : Z) :
  forallb P (seqZ 0 256) = true -> is_u8 p -> P p = true.
Proof.
  intros H Hp. rewrite forallb_forall in H. apply H, list_elem_of_In, elem_of_seqZ.
  unfold is_u8 in Hp. lia.
Qed.
