(* ===== verification/GoTime.v ===== *)
(** * Instants and durations

    The part of Go's [time] package the Relay uses.  An instant is the number of
    nanoseconds since the zero [time.Time] (1 January of year 1, UTC), so the
    zero value is [0]; a duration is a number of nanoseconds.  The reading of
    the clock is an argument of every definition that calls [time.Now]. *)

From S2P Require Import Prelude.

Abbreviation time := Z.
Abbreviation duration := Z.

Definition Nanosecond : duration := 1.
Definition Millisecond : duration := 1000000.
Definition Second : duration := 1000000000.
Definition Minute : duration := 60 * Second.

(** Seconds from the zero time to the Unix epoch. *)
Definition unix_to_internal : Z := 62135596800.

(** [time.Time{}], [t.IsZero()], [t.After(u)], [t.Before(u)], [t.Add(d)]. *)
Definition zero_time : time := 0.
Definition IsZero (t : time) : bool := t =? zero_time.
Definition After (t u : time) : bool := u <? t.
Definition Before (t u : time) : bool := t <? u.
Definition Add (t : time) (d : duration) : time := t + d.

(** [t.Sub(u)] saturates at the least and greatest [int64]. *)
Definition Sub (t u : time) : duration := Z.max (- 2 ^ 63) (Z.min (2 ^ 63 - 1) (t - u)).

(** [time.Unix(s, 0)]: the seconds are kept as an [int64] counted from year 1. *)
Definition Unix (s : Z) : time := i64 (s + unix_to_internal) * Second.

(** [t.Unix()]. *)
Definition toUnix (t : time) : Z := i64 (t / Second - unix_to_internal).

Lemma After_true t u : After t u = true <-> u < t.
Proof. apply Z.ltb_lt. Qed.
Lemma After_false t u : After t u = false <-> t <= u.
Proof. apply Z.ltb_ge. Qed.
Lemma Before_true t u : Before t u = true <-> t < u.
Proof. apply Z.ltb_lt. Qed.
Lemma Before_false t u : Before t u = false <-> u <= t.
Proof. apply Z.ltb_ge. Qed.
Lemma IsZero_true t : IsZero t = true <-> t = 0.
Proof. apply Z.eqb_eq. Qed.
Lemma IsZero_false t : IsZero t = false <-> t <> 0.
Proof. apply Z.eqb_neq. Qed.

(** An instant whose second is a 63-bit number after the epoch. *)
Definition sane_time (t : time) : Prop :=
  unix_to_internal * Second <= t < (unix_to_internal + 2 ^ 62) * Second.

Lemma i64_small z : - 2 ^ 63 <= z < 2 ^ 63 -> i64 z = z.
Proof. intros. unfold i64. rewrite Z.mod_small; lia. Qed.

Lemma Unix_small s : 0 <= s < 2 ^ 62 -> Unix s = (s + unix_to_internal) * Second.
Proof. intros. unfold Unix. rewrite i64_small; unfold unix_to_internal; lia. Qed.

Lemma toUnix_Unix s : 0 <= s < 2 ^ 62 -> toUnix (Unix s) = s.
Proof.
  intros. unfold toUnix. rewrite Unix_small by done.
  rewrite Z.div_mul by (unfold Second; lia).
  rewrite i64_small; lia.
Qed.

Lemma toUnix_bound t : - 2 ^ 63 <= toUnix t < 2 ^ 63.
Proof.
  unfold toUnix, i64. generalize (t / Second - unix_to_internal) as z. intros z.
  pose proof (Z.mod_pos_bound (z + 2 ^ 63) (2 ^ 64) ltac:(lia)). lia.
Qed.

Lemma toUnix_sane t : sane_time t -> toUnix t = t / Second - unix_to_internal.
Proof.
  unfold sane_time, unix_to_internal, Second. intros [Hlo Hhi].
  unfold toUnix, unix_to_internal, Second. apply i64_small.
  pose proof (Z.div_mod t 1000000000 ltac:(lia)).
  pose proof (Z.mod_pos_bound t 1000000000 ltac:(lia)). lia.
Qed.

(** Truncating an instant to its second never moves it forward. *)
Lemma Unix_toUnix_le t : sane_time t -> Unix (toUnix t) <= t < Unix (toUnix t) + Second.
Proof.
  intros Ht. rewrite toUnix_sane by done.
  unfold sane_time, unix_to_internal, Second in *.
  pose proof (Z.div_mod t 1000000000 ltac:(lia)).
  pose proof (Z.mod_pos_bound t 1000000000 ltac:(lia)).
  rewrite Unix_small; unfold unix_to_internal, Second; lia.
Qed.

Create Rewrite HintDb gotime.
#[export] Hint Rewrite After_true After_false Before_true Before_false IsZero_true IsZero_false : gotime.

(** Turn the boolean comparisons of instants in the context and the goal into
    inequalities. *)
Ltac gotime :=
  repeat match goal with
  | H : After _ _ = true |- _ => apply After_true in H
  | H : After _ _ = false |- _ => apply After_false in H
  | H : Before _ _ = true |- _ => apply Before_true in H
  | H : Before _ _ = false |- _ => apply Before_false in H
  | H : IsZero _ = true |- _ => apply IsZero_true in H
  | H : IsZero _ = false |- _ => apply IsZero_false in H
  | H : negb _ = true |- _ => apply negb_true_iff in H
  | H : negb _ = false |- _ => apply negb_false_iff in H
  | H : _ && _ = true |- _ => apply andb_true_iff in H as [??]
  | H : _ || _ = false |- _ => apply orb_false_iff in H as [??]
  end.

(** ** Expiry of map entries

    [for k, v := range m { if !deadline(v).After(now) { delete(m, k) } }]: the
    entries whose deadline is after [now] stay. *)

Definition purge {K} `{Countable K} {A} (deadline : A -> time) (now : time) (m : gmap K A) : gmap K A :=
  filter (fun kv => now < deadline (kv.2)) m.

Section purge.
Context {K} `{Countable K} {A : Type} (deadline : A -> time).
Implicit Types m : gmap K A.

Lemma lookup_purge now m k v :
  purge deadline now m !! k = Some v <-> m !! k = Some v /\ now < deadline v.
Proof. unfold purge. by rewrite map_lookup_filter_Some. Qed.

Lemma lookup_purge_None now m k :
  m !! k = None -> purge deadline now m !! k = None.
Proof. intros Hk. apply map_lookup_filter_None. by left. Qed.

Lemma lookup_purge_live now m k v :
  m !! k = Some v -> now < deadline v -> purge deadline now m !! k = Some v.
Proof. intros. by apply lookup_purge. Qed.

Lemma purge_subseteq now m : purge deadline now m ⊆ m.
Proof. apply map_filter_subseteq. Qed.

Lemma size_purge now m : (size (purge deadline now m) <= size m)%nat.
Proof. apply map_subseteq_size, purge_subseteq. Qed.

Lemma purge_live now m :
  (forall k v, m !! k = Some v -> now < deadline v) -> purge deadline now m = m.
Proof. intros Hl. apply map_filter_id. intros k v Hk. by apply (Hl k). Qed.

Lemma purge_idemp now m : purge deadline now (purge deadline now m) = purge deadline now m.
Proof. apply purge_live. intros k v Hk. by apply lookup_purge in Hk as [_ ?]. Qed.
End purge.

(** Bounded insertion: a map filled only behind a capacity check stays bounded. *)
Lemma size_insert_bound {K} `{Countable K} {A} (m : gmap K A) k (v : A) (n : nat) :
  (size m < n)%nat -> (size (<[k := v]> m) <= n)%nat.
Proof.
  intros Hm. destruct (m !! k) eqn:E.
  - rewrite map_size_insert_Some by eauto. lia.
  - rewrite map_size_insert_None by done. lia.
Qed.

Lemma size_delete_le {K} `{Countable K} {A} (m : gmap K A) k :
  (size (delete k m) <= size m)%nat.
Proof. apply map_subseteq_size, delete_subseteq. Qed.

Lemma size_insert_mem {K} `{Countable K} {A} (m : gmap K A) k (v : A) :
  is_Some (m !! k) -> size (<[k := v]> m) = size m.
Proof. intros. by apply map_size_insert_Some. Qed.
