(* ===== verification/GoNet.v ===== *)
(** * UDP endpoints

    The part of Go's [net] package the Relay uses: [net.UDPAddr], its [String]
    (the key of every per-endpoint map of the server), [IP.To4], [IP.To16],
    [IP.Equal], and the two helpers [peerMapKey] and [sameUDPEndpoint]. *)

From S2P Require Import Prelude.

(** [net.IP] is a byte slice of length 0 (nil), 4 or 16. *)
Record UDPAddr := { IP : list Z; Port : Z; Zone : string }.

#[export] Instance UDPAddr_eq_dec : EqDecision UDPAddr.
Proof. solve_decision. Defined.

Definition v4InV6Prefix : list Z := [0;0;0;0;0;0;0;0;0;0;255;255].

Definition To4 (ip : list Z) : option (list Z) :=
  if (length ip =? 4)%nat then Some ip
  else if (length ip =? 16)%nat && bytes_eqb (take 12 ip) v4InV6Prefix
  then Some (drop 12 ip) else None.

Definition To16 (ip : list Z) : option (list Z) :=
  if (length ip =? 4)%nat then Some (v4InV6Prefix ++ ip)
  else if (length ip =? 16)%nat then Some ip else None.

(** [ip.Equal(x)]: an IPv4 address equals its IPv4-mapped IPv6 form. *)
Definition IP_Equal (ip x : list Z) : bool :=
  if (length ip =? length x)%nat then bytes_eqb ip x
  else if (length ip =? 4)%nat && (length x =? 16)%nat
  then bytes_eqb (take 12 x) v4InV6Prefix && bytes_eqb ip (drop 12 x)
  else if (length ip =? 16)%nat && (length x =? 4)%nat
  then bytes_eqb (take 12 ip) v4InV6Prefix && bytes_eqb (drop 12 ip) x
  else false.

Definition itoa (z : Z) : string := pretty z.

Definition hex_digit (d : Z) : string :=
  if d <? 10 then itoa d
  else String (Ascii.ascii_of_N (Z.to_N (87 + d))) EmptyString.

(** Lower-case hexadecimal with no leading zero. *)
Fixpoint hex_go (fuel : nat) (v : Z) (acc : string) : string :=
  match fuel with
  | O => acc
  | S k => if v <? 16 then (hex_digit v +:+ acc)%string
           else hex_go k (v / 16) (hex_digit (v mod 16) +:+ acc)%string
  end.
Definition appendHex (v : Z) : string := hex_go 4 v EmptyString.

(** The eight 16-bit groups of an IPv6 address. *)
Fixpoint groups16 (ip : list Z) : list Z :=
  match ip with
  | a :: b :: ip' => a * 256 + b :: groups16 ip'
  | _ => []
  end.

(** The length of the run of zero groups at the head. *)
Fixpoint zero_run (gs : list Z) : nat :=
  match gs with
  | g :: gs' => if g =? 0 then S (zero_run gs') else O
  | [] => O
  end.

(** The first longest run of at least two zero groups, as (start, end);
    (255, 255) when there is none. *)
Fixpoint longest_run (i : nat) (gs : list Z) (best : nat * nat) : nat * nat :=
  match gs with
  | [] => best
  | g :: gs' =>
      let l := zero_run gs in
      let best' := if (2 <=? l)%nat && (snd best - fst best <? l)%nat
                   then (i, i + l)%nat else best in
      longest_run (S i) gs' best'
  end.

Fixpoint join_colon (l : list string) : string :=
  match l with
  | [] => EmptyString
  | [x] => x
  | x :: l' => (x +:+ ":" +:+ join_colon l')%string
  end.

(** [netip.Addr.String] of a 16-byte address that is not IPv4-mapped. *)
Definition string6 (ip : list Z) : string :=
  let gs := groups16 ip in
  let '(zs, ze) := longest_run 0 gs (255, 255)%nat in
  if (zs =? 255)%nat then join_colon (appendHex <$> gs)
  else (join_colon (appendHex <$> take zs gs) +:+ "::" +:+
        join_colon (appendHex <$> drop ze gs))%string.

Definition string4 (ip : list Z) : string :=
  match ip with
  | [a; b; c; d] => (itoa a +:+ "." +:+ itoa b +:+ "." +:+ itoa c +:+ "." +:+ itoa d)%string
  | _ => EmptyString
  end.

Definition hex2 (b : Z) : string := (hex_digit (b / 16) +:+ hex_digit (b mod 16))%string.

(** [IP.String]; the empty string for the nil address, as [ipEmptyString]. *)
Definition IP_String (ip : list Z) : string :=
  match ip with
  | [] => EmptyString
  | _ =>
      match To4 ip with
      | Some ip4 => string4 ip4
      | None =>
          if (length ip =? 16)%nat then string6 ip
          else ("?" +:+ foldr (fun b s => hex2 b +:+ s) EmptyString ip)%string
      end
  end.

Fixpoint has_colon (s : string) : bool :=
  match s with
  | EmptyString => false
  | String c s' => bool_decide (c = ":"%char) || has_colon s'
  end.

Definition JoinHostPort (host port : string) : string :=
  if has_colon host then ("[" +:+ host +:+ "]:" +:+ port)%string
  else (host +:+ ":" +:+ port)%string.

(** [UDPAddr.String]. *)
Definition UDPAddr_String (a : UDPAddr) : string :=
  let ip := IP_String (IP a) in
  if bool_decide (Zone a = EmptyString) then JoinHostPort ip (itoa (Port a))
  else JoinHostPort (ip +:+ "%" +:+ Zone a)%string (itoa (Port a)).

(** A [*net.UDPAddr] is an option; [nil] has the empty key. *)
Definition peerMapKey (addr : option UDPAddr) : string :=
  match addr with
  | None => EmptyString
  | Some a => UDPAddr_String a
  end.

Definition sameUDPEndpoint (left right : option UDPAddr) : bool :=
  match left, right with
  | Some l, Some r =>
      (Port l =? Port r) && bool_decide (Zone l = Zone r) && IP_Equal (IP l) (IP r)
  | _, _ => false
  end.

(** A copy with its own IP slice; on values it is the identity. *)
Definition cloneUDPAddr (value : option UDPAddr) : option UDPAddr :=
  match value with
  | None => None
  | Some a => Some {| IP := IP a; Port := Port a; Zone := Zone a |}
  end.

Example string_v4 : UDPAddr_String {| IP := [127;0;0;1]; Port := 50000; Zone := "" |} = "127.0.0.1:50000".
Proof. vm_compute. reflexivity. Qed.
Example string_v6 : UDPAddr_String {| IP := [32;1;13;184;0;0;0;0;0;0;0;0;0;0;0;1]; Port := 9; Zone := "" |} = "[2001:db8::1]:9".
Proof. vm_compute. reflexivity. Qed.
Example string_v6_zone : UDPAddr_String {| IP := [254;128;0;0;0;0;0;0;0;0;0;0;0;0;0;10]; Port := 1; Zone := "eth0" |} = "[fe80::a%eth0]:1".
Proof. vm_compute. reflexivity. Qed.

(** ** Lemmas *)

Lemma JoinHostPort_nonempty h p : JoinHostPort h p <> EmptyString.
Proof. unfold JoinHostPort. case_match; [done|]. by destruct h. Qed.

(** A non-nil endpoint never has the empty key. *)
Lemma peerMapKey_nonempty a : peerMapKey (Some a) <> EmptyString.
Proof. simpl. unfold UDPAddr_String. case_bool_decide; apply JoinHostPort_nonempty. Qed.

Lemma peerMapKey_eqb_empty a :
  bool_decide (peerMapKey (Some a) = EmptyString) = false.
Proof. apply bool_decide_eq_false, peerMapKey_nonempty. Qed.

Lemma cloneUDPAddr_id a : cloneUDPAddr a = a.
Proof. by destruct a as [[]|]. Qed.

Lemma IP_Equal_refl ip : IP_Equal ip ip = true.
Proof. unfold IP_Equal. rewrite Nat.eqb_refl. by apply bool_decide_eq_true. Qed.

Lemma sameUDPEndpoint_refl a : sameUDPEndpoint (Some a) (Some a) = true.
Proof. simpl. by rewrite Z.eqb_refl, bool_decide_eq_true_2, IP_Equal_refl. Qed.

