(* ===== verification/Sha256.v ===== *)
(** * SHA-256 and HMAC-SHA-256

    [crypto/sha256] and [crypto/hmac] as executable functions (FIPS 180-4 and
    RFC 2104), so that the packets the Relay authenticates can be evaluated. *)

From S2P Require Import Prelude.

Definition rotr (n x : Z) : Z := Z.lor (Z.shiftr x n) (u32 (Z.shiftl x (32 - n))).
Definition Ch (x y z : Z) : Z := Z.lxor (Z.land x y) (Z.land (2 ^ 32 - 1 - x) z).
Definition Maj (x y z : Z) : Z :=
  Z.lxor (Z.land x y) (Z.lxor (Z.land x z) (Z.land y z)).
Definition Sigma0 (x : Z) : Z := Z.lxor (rotr 2 x) (Z.lxor (rotr 13 x) (rotr 22 x)).
Definition Sigma1 (x : Z) : Z := Z.lxor (rotr 6 x) (Z.lxor (rotr 11 x) (rotr 25 x)).
Definition sigma0 (x : Z) : Z := Z.lxor (rotr 7 x) (Z.lxor (rotr 18 x) (Z.shiftr x 3)).
Definition sigma1 (x : Z) : Z := Z.lxor (rotr 17 x) (Z.lxor (rotr 19 x) (Z.shiftr x 10)).

(** The constants of FIPS 180-4 by their definition: the first 32 bits of the
    fractional parts of the square and cube roots of the first primes. *)
Definition primes : list Z :=
  filter (fun p => Forall (fun d => p mod d <> 0) (seqZ 2 (Z.sqrt p - 1))) (seqZ 2 310).

(** The largest [r] below [2 ^ n] with [r ^ e <= x]. *)
Fixpoint root_below (n : nat) (e x r : Z) : Z :=
  match n with
  | O => r
  | S k =>
      let r' := r + 2 ^ Z.of_nat k in
      root_below k e x (if r' ^ e <=? x then r' else r)
  end.

Definition frac_root (e p : Z) : Z := u32 (root_below 40 e (p * 2 ^ (32 * e)) 0).

Definition K256 : list Z := Eval vm_compute in frac_root 3 <$> primes.

Record hstate := HState { ha : Z; hb : Z; hc : Z; hd : Z; he : Z; hf : Z; hg : Z; hh : Z }.

Definition H0 : hstate := Eval vm_compute in
  let h i := frac_root 2 (nth i primes 0) in
  HState (h 0%nat) (h 1%nat) (h 2%nat) (h 3%nat) (h 4%nat) (h 5%nat) (h 6%nat) (h 7%nat).

(** Message padding: the bit 1, zeros, and the length in bits. *)
Definition sha_pad (m : list Z) : list Z :=
  m ++ 128 :: zeros (Z.to_nat ((55 - len m) mod 64)) ++ put_be 8 (8 * len m).

(** The message schedule, newest word first. *)
Fixpoint schedule (n : nat) (rev_w : list Z) : list Z :=
  match n with
  | O => rev_w
  | S k =>
      let g i := nth i rev_w 0 in
      schedule k (u32 (sigma1 (g 1%nat) + g 6%nat + sigma0 (g 14%nat) + g 15%nat) :: rev_w)
  end.

Definition sha_round (s : hstate) (kw : Z * Z) : hstate :=
  let t1 := hh s + Sigma1 (he s) + Ch (he s) (hf s) (hg s) + fst kw + snd kw in
  let t2 := Sigma0 (ha s) + Maj (ha s) (hb s) (hc s) in
  HState (u32 (t1 + t2)) (ha s) (hb s) (hc s) (u32 (hd s + t1)) (he s) (hf s) (hg s).

Fixpoint words (n : nat) (b : list Z) : list Z :=
  match n with
  | O => []
  | S k => get_be (take 4 b) :: words k (drop 4 b)
  end.

Definition sha_block (s : hstate) (b : list Z) : hstate :=
  let w := rev (schedule 48 (rev (words 16 b))) in
  let r := fold_left sha_round (combine K256 w) s in
  HState (u32 (ha s + ha r)) (u32 (hb s + hb r)) (u32 (hc s + hc r)) (u32 (hd s + hd r))
         (u32 (he s + he r)) (u32 (hf s + hf r)) (u32 (hg s + hg r)) (u32 (hh s + hh r)).

Fixpoint sha_blocks (n : nat) (s : hstate) (b : list Z) : hstate :=
  match n with
  | O => s
  | S k => sha_blocks k (sha_block s (take 64 b)) (drop 64 b)
  end.

Definition hstate_bytes (s : hstate) : list Z :=
  put_be 4 (ha s) ++ put_be 4 (hb s) ++ put_be 4 (hc s) ++ put_be 4 (hd s) ++
  put_be 4 (he s) ++ put_be 4 (hf s) ++ put_be 4 (hg s) ++ put_be 4 (hh s).

(** [sha256.Sum256]. *)
Definition sha256 (m : list Z) : list Z :=
  let p := sha_pad m in
  hstate_bytes (sha_blocks (length p / 64) H0 p).

(** [hmac.New(sha256.New, key)], [Write(m)], [Sum(nil)]. *)
Definition hmac_sha256 (key m : list Z) : list Z :=
  let k := if 64 <? len key then sha256 key else key in
  let k0 := k ++ zeros (64 - length k) in
  sha256 ((Z.lxor 0x5c <$> k0) ++ sha256 ((Z.lxor 0x36 <$> k0) ++ m)).

Example sha256_abc :
  sha256 (str_bytes "abc") = put_be 32 0xba7816bf8f01cfea414140de5dae2223b00361a396177a9cb410ff61f20015ad.
Proof. vm_compute. reflexivity. Qed.

Example hmac_rfc4231_2 :
  hmac_sha256 (str_bytes "Jefe") (str_bytes "what do ya want for nothing?")
  = put_be 32 0x5bdcc146bf60754e6a042426089575c75a003f089d2739839dec58b964ec3843.
Proof. vm_compute. reflexivity. Qed.

Lemma length_hstate_bytes s : length (hstate_bytes s) = 32%nat.
Proof. unfold hstate_bytes. by rewrite !length_app, !length_put_be. Qed.

Lemma length_sha256 m : length (sha256 m) = 32%nat.
Proof. apply length_hstate_bytes. Qed.

Lemma bytes_ok_hstate s : bytes_ok (hstate_bytes s).
Proof. unfold hstate_bytes. repeat apply Forall_app_2; apply bytes_ok_put_be. Qed.

Lemma bytes_ok_sha256 m : bytes_ok (sha256 m).
Proof. apply bytes_ok_hstate. Qed.

Lemma length_hmac k m : length (hmac_sha256 k m) = 32%nat.
Proof. apply length_sha256. Qed.

Lemma bytes_ok_hmac k m : bytes_ok (hmac_sha256 k m).
Proof. apply bytes_ok_sha256. Qed.

#[export] Hint Rewrite length_sha256 length_hmac : bytes.

(** Proofs use only the length of a digest and that it is made of bytes. *)
#[global] Opaque sha256 hmac_sha256.
