(* ===== verification/Packet.v ===== *)
(** * Packet framing

    The wire format of the Version 1 Relay protocol ([main.go]): the packet
    types, the fixed header, the three framings (plain, secured, AES-GCM v2
    media), parsing and the packets the Relay builds. *)

From S2P Require Import Prelude.

(** ** Constants of [main.go] *)

Definition protocolVersion : Z := 1.
Definition fixedHeaderSize : Z := 16.
Definition securityHeaderExtensionSize : Z := 12.
Definition aesGCMV2MediaHeaderSize : Z := 20.
Definition aesGCMV2HeaderSize : Z := fixedHeaderSize + aesGCMV2MediaHeaderSize.
Definition authTagSize : Z := 16.
Definition packetFlagAESGCMV2HeaderAAD : Z := Z.shiftl 1 0.
Definition packetFlagControlAuthV1 : Z := Z.shiftl 1 1.
Definition maxUDPDatagramBytes : Z := 1200.
Definition maxActiveTalkersV1 : Z := 16.
Definition maxTalkMaximumSecondsV1 : Z := 0xFFFF.
Definition udpNearLimitBytes : Z := 1150.

Definition pktAudio : Z := 0x01.
Definition pktPttOn : Z := 0x02.
Definition pktPttOff : Z := 0x03.
Definition pktKeepalive : Z := 0x04.
Definition pktJoin : Z := 0x05.
Definition pktLeave : Z := 0x06.
Definition pktTalkGrant : Z := 0x07.
Definition pktTalkRelease : Z := 0x08.
Definition pktTalkDeny : Z := 0x09.
Definition pktKeyExchange : Z := 0x0A.
Definition pktCodecConfig : Z := 0x0B.
Definition pktFec : Z := 0x0C.
Definition pktServerCfg : Z := 0x0D.
Definition pktPing : Z := 0x0E.
Definition pktPong : Z := 0x0F.
Definition pktAuthHello : Z := 0x10.
Definition pktAuthChallenge : Z := 0x11.
Definition pktIdentityBegin : Z := 0x12.
Definition pktIdentityChallenge : Z := 0x13.
Definition pktIdentityProof : Z := 0x14.
Definition pktIdentityDeny : Z := 0x15.
Definition pktServiceBegin : Z := 0x16.
Definition pktServiceChallenge : Z := 0x17.
Definition pktServiceProof : Z := 0x18.
Definition pktServiceDeny : Z := 0x19.
Definition pktPttRequest : Z := 0x1A.

Definition talkReleaseClientPttOff : Z := 0x00.
Definition talkReleaseServerTimeout : Z := 0x01.
Definition talkReleaseMembershipTimeout : Z := 0x02.
Definition talkReleaseClientLeave : Z := 0x03.
Definition talkReleaseServerPolicy : Z := 0x04.
Definition talkReleaseIdentityExpired : Z := 0x05.
Definition talkReleaseServiceRevoked : Z := 0x06.
Definition talkReleasePreempted : Z := 0x07.
Definition talkReleaseServiceExpired : Z := 0x08.

(** ** Data *)

Record packetHeader := {
  Version : Z; PType : Z; HeaderLen : Z; ChannelId : Z; SenderId : Z; Seq : Z; Flags : Z
}.

Record securityHeader := {
  ControlNonce : Z; MediaNonceBase : list Z; MediaCounter : Z; KeyID : Z
}.

Record parsedPacket := {
  Header : packetHeader; Sec : securityHeader;
  Payload : list Z; Tag : list Z; Raw : list Z
}.

(** The zero value of [securityHeader]. *)
Definition zero_sec : securityHeader :=
  {| ControlNonce := 0; MediaNonceBase := zeros 12; MediaCounter := 0; KeyID := 0 |}.

Definition acceptsUDPDatagramSize (size : Z) : bool :=
  (0 <=? size) && (size <=? maxUDPDatagramBytes).

(** ** Parsing

    The outer [None] is a run-time panic (a slice or index out of range), the
    inner [None] the result [(parsedPacket{}, false)]. *)

Definition parsePacketPayload (data : list Z) (header : packetHeader)
    (sec : securityHeader) (payloadOffset : Z) : option (option parsedPacket) :=
  let payloadLen := len data - payloadOffset - authTagSize in
  if payloadLen <? 0 then Some None
  else
    payload ← slice data payloadOffset (payloadOffset + payloadLen);
    tag ← slice data (payloadOffset + payloadLen) (len data);
    Some (Some {| Header := header; Sec := sec; Payload := payload; Tag := tag; Raw := data |}).

Definition parsePacket (data : list Z) (noCrypto : bool) : option (option parsedPacket) :=
  if len data <? fixedHeaderSize then Some None
  else
    version ← index data 0;
    ptype ← index data 1;
    hl ← slice data 2 4;
    ch ← slice data 4 8;
    sid ← slice data 8 12;
    sq ← slice data 12 14;
    fl ← slice data 14 16;
    let header := {| Version := version; PType := ptype; HeaderLen := get_be hl;
      ChannelId := get_be ch; SenderId := get_be sid; Seq := get_be sq; Flags := get_be fl |} in
    if ((PType header =? pktAudio) || (PType header =? pktFec))
       && flag_set (Flags header) packetFlagAESGCMV2HeaderAAD
    then
      if negb (HeaderLen header =? aesGCMV2HeaderSize)
         || (len data <? aesGCMV2HeaderSize + authTagSize)
      then Some None
      else
        kid ← slice data 32 36;
        ctr ← slice data 28 32;
        base ← slice data 16 28;
        parsePacketPayload data header
          {| ControlNonce := 0; MediaNonceBase := base;
             MediaCounter := get_be ctr; KeyID := get_be kid |} aesGCMV2HeaderSize
    else if HeaderLen header =? fixedHeaderSize + securityHeaderExtensionSize
    then
      if len data <? fixedHeaderSize + securityHeaderExtensionSize + authTagSize
      then Some None
      else
        nonce ← slice data 16 24;
        kid ← slice data 24 28;
        parsePacketPayload data header
          {| ControlNonce := get_be nonce; MediaNonceBase := zeros 12;
             MediaCounter := 0; KeyID := get_be kid |}
          (fixedHeaderSize + securityHeaderExtensionSize)
    else if negb (HeaderLen header =? fixedHeaderSize) || negb noCrypto
    then Some None
    else
      payload ← slice data fixedHeaderSize (len data);
      Some (Some {| Header := header; Sec := zero_sec; Payload := payload; Tag := []; Raw := data |}).

(** ** Packets the Relay builds *)

Definition header_bytes (h : packetHeader) : list Z :=
  [u8 (Version h); u8 (PType h)] ++ put_be 2 (HeaderLen h) ++ put_be 4 (ChannelId h)
  ++ put_be 4 (SenderId h) ++ put_be 2 (Seq h) ++ put_be 2 (Flags h).

Definition buildRelayControlPacket (pktType channelId senderId : Z) (payload : list Z)
    (noCrypto : bool) (sequence : Z) : list Z :=
  let headerLen := if noCrypto then fixedHeaderSize
                   else fixedHeaderSize + securityHeaderExtensionSize in
  let header := header_bytes {| Version := protocolVersion; PType := pktType;
    HeaderLen := headerLen; ChannelId := channelId; SenderId := senderId;
    Seq := sequence; Flags := 0 |} in
  if noCrypto then header ++ payload
  else header ++ zeros (Z.to_nat securityHeaderExtensionSize) ++ payload
       ++ zeros (Z.to_nat authTagSize).

Definition buildControlPacket (pktType channelId senderId : Z) (payload : list Z)
    (noCrypto : bool) : list Z :=
  buildRelayControlPacket pktType channelId senderId payload noCrypto 0.

Definition talkPayload (talkerId : Z) : list Z :=
  take 4 (put_be 4 talkerId ++ [0]).

Definition talkReleasePayload (talkerId reason : Z) : list Z :=
  put_be 4 talkerId ++ [u8 reason].

Definition buildTalkPacket (pktType channelId talkerId : Z) (noCrypto : bool) : list Z :=
  buildControlPacket pktType channelId talkerId (talkPayload talkerId) noCrypto.

Definition buildTalkReleasePacket (channelId talkerId reason : Z) (noCrypto : bool) : list Z :=
  buildControlPacket pktTalkRelease channelId talkerId (talkReleasePayload talkerId reason) noCrypto.

(** ** Names *)

Definition talkReleaseReasonName (reason : Z) : string :=
  if reason =? talkReleaseClientPttOff then "CLIENT_PTT_OFF"
  else if reason =? talkReleaseServerTimeout then "SERVER_TALK_TIMEOUT"
  else if reason =? talkReleaseMembershipTimeout then "MEMBERSHIP_TIMEOUT"
  else if reason =? talkReleaseClientLeave then "CLIENT_LEAVE"
  else if reason =? talkReleaseServerPolicy then "SERVER_POLICY"
  else if reason =? talkReleaseIdentityExpired then "IDENTITY_EXPIRED"
  else if reason =? talkReleaseServiceRevoked then "SERVICE_ADMISSION_REVOKED"
  else if reason =? talkReleasePreempted then "PREEMPTED"
  else if reason =? talkReleaseServiceExpired then "SERVICE_ADMISSION_EXPIRED"
  else "UNKNOWN".

Definition pkt_names : list (Z * string) :=
  [(pktAudio, "audio"); (pktPttOn, "ptt_on"); (pktPttOff, "ptt_off");
   (pktPttRequest, "ptt_request"); (pktKeepalive, "keepalive"); (pktJoin, "join");
   (pktLeave, "leave"); (pktTalkGrant, "talk_grant"); (pktTalkRelease, "talk_release");
   (pktTalkDeny, "talk_deny"); (pktKeyExchange, "key_exchange");
   (pktCodecConfig, "codec_config"); (pktFec, "fec"); (pktServerCfg, "server_config");
   (pktAuthHello, "auth_hello"); (pktAuthChallenge, "auth_challenge");
   (pktIdentityBegin, "identity_begin"); (pktIdentityChallenge, "identity_challenge");
   (pktIdentityProof, "identity_proof"); (pktIdentityDeny, "identity_deny");
   (pktServiceBegin, "service_admission_begin");
   (pktServiceChallenge, "service_admission_challenge");
   (pktServiceProof, "service_admission_proof"); (pktServiceDeny, "service_admission_deny")].

(** The [switch] of [pktTypeName], first matching case. *)
Fixpoint switch_name (t : Z) (cases : list (Z * string)) : string :=
  match cases with
  | [] => "unknown"
  | (c, n) :: cases' => if t =? c then n else switch_name t cases'
  end.

Definition pktTypeName (t : Z) : string := switch_name t pkt_names.

Record codecConfig := { pcmOnly : bool; codecId : Z; codecMode : Z }.

Definition parseCodecConfigPayload (payload : list Z) : option (option codecConfig) :=
  if negb (len payload =? 19) then Some None
  else
    flags ← index payload 0;
    codec ← index payload 1;
    modeb ← slice payload 2 6;
    let pcm := flag_set flags 1 in
    Some (Some {| pcmOnly := pcm; codecId := if pcm then 0 else codec; codecMode := get_be modeb |}).

Definition codecName (c : Z) : string :=
  if c =? 0 then "pcm" else if c =? 1 then "codec2" else if c =? 2 then "opus" else "unknown".

(** ** The wire format, as a specification

    [frame_bytes] writes out the bytes of a packet of each framing, and
    [wf_packet] says which packets the format has. *)

Definition is_media_v2 (h : packetHeader) : bool :=
  ((PType h =? pktAudio) || (PType h =? pktFec)) && flag_set (Flags h) packetFlagAESGCMV2HeaderAAD.

Definition ext_bytes (p : parsedPacket) : list Z :=
  if HeaderLen (Header p) =? 36
  then MediaNonceBase (Sec p) ++ put_be 4 (MediaCounter (Sec p)) ++ put_be 4 (KeyID (Sec p))
  else if HeaderLen (Header p) =? 28
  then put_be 8 (ControlNonce (Sec p)) ++ put_be 4 (KeyID (Sec p))
  else [].

Definition frame_bytes (p : parsedPacket) : list Z :=
  header_bytes (Header p) ++ ext_bytes p ++ Payload p ++ Tag p.

Definition wf_header (h : packetHeader) : Prop :=
  is_u8 (Version h) /\ is_u8 (PType h) /\ is_u16 (HeaderLen h) /\ is_u32 (ChannelId h) /\
  is_u32 (SenderId h) /\ is_u16 (Seq h) /\ is_u16 (Flags h).

Definition wf_media (p : parsedPacket) : Prop :=
  is_media_v2 (Header p) = true /\ HeaderLen (Header p) = 36 /\ ControlNonce (Sec p) = 0 /\
  length (MediaNonceBase (Sec p)) = 12%nat /\ bytes_ok (MediaNonceBase (Sec p)) /\
  is_u32 (MediaCounter (Sec p)) /\ is_u32 (KeyID (Sec p)) /\
  length (Tag p) = 16%nat /\ bytes_ok (Tag p).

Definition wf_secured (p : parsedPacket) : Prop :=
  is_media_v2 (Header p) = false /\ HeaderLen (Header p) = 28 /\ is_u64 (ControlNonce (Sec p)) /\
  MediaNonceBase (Sec p) = zeros 12 /\ MediaCounter (Sec p) = 0 /\ is_u32 (KeyID (Sec p)) /\
  length (Tag p) = 16%nat /\ bytes_ok (Tag p).

Definition wf_plain (noCrypto : bool) (p : parsedPacket) : Prop :=
  is_media_v2 (Header p) = false /\ HeaderLen (Header p) = 16 /\ noCrypto = true /\
  Sec p = zero_sec /\ Tag p = [].

Definition wf_packet (noCrypto : bool) (p : parsedPacket) : Prop :=
  wf_header (Header p) /\ bytes_ok (Payload p) /\ Raw p = frame_bytes p /\
  (wf_media p \/ wf_secured p \/ wf_plain noCrypto p).

(** ** Lemmas *)

Lemma header_split (data : list Z) :
  16 <= len data ->
  exists b0 b1 b2 b3 b4 b5 b6 b7 b8 b9 b10 b11 b12 b13 b14 b15 rest,
    data = b0 :: b1 :: b2 :: b3 :: b4 :: b5 :: b6 :: b7 :: b8 :: b9 :: b10 :: b11
           :: b12 :: b13 :: b14 :: b15 :: rest.
Proof.
  unfold len. intros.
  do 16 (destruct data as [|? data]; [simpl in *; lia|]). eauto 20.
Qed.

(** The header fields a parse reads are the bytes of the data. *)
Definition header_of (data : list Z) : packetHeader :=
  {| Version := nth 0 data 0; PType := nth 1 data 0; HeaderLen := get_be (sub data 2 2);
     ChannelId := get_be (sub data 4 4); SenderId := get_be (sub data 8 4);
     Seq := get_be (sub data 12 2); Flags := get_be (sub data 14 2) |}.

(** Once the sixteen header bytes are there, parsing is a choice of framing. *)
Lemma parsePacket_unfold data noCrypto :
  16 <= len data ->
  parsePacket data noCrypto =
    let header := header_of data in
    if is_media_v2 header then
      if negb (HeaderLen header =? 36) || (len data <? 52) then Some None
      else parsePacketPayload data header
             {| ControlNonce := 0; MediaNonceBase := sub data 16 12;
                MediaCounter := get_be (sub data 28 4); KeyID := get_be (sub data 32 4) |} 36
    else if HeaderLen header =? 28 then
      if len data <? 44 then Some None
      else parsePacketPayload data header
             {| ControlNonce := get_be (sub data 16 8); MediaNonceBase := zeros 12;
                MediaCounter := 0; KeyID := get_be (sub data 24 4) |} 28
    else if negb (HeaderLen header =? 16) || negb noCrypto then Some None
    else Some (Some {| Header := header; Sec := zero_sec; Payload := drop 16 data;
                       Tag := []; Raw := data |}).
Proof.
  intros Hlen. unfold parsePacket.
  change fixedHeaderSize with 16. change aesGCMV2HeaderSize with 36.
  change authTagSize with 16. change securityHeaderExtensionSize with 12.
  rewrite (proj2 (Z.ltb_ge _ _)) by lia.
  rewrite !index_nth by lia. cbn [mbind option_bind].
  rewrite (slice_sub data 2 4), (slice_sub data 4 8), (slice_sub data 8 12),
    (slice_sub data 12 14), (slice_sub data 14 16) by lia.
  cbn [mbind option_bind]. fold (header_of data). cbn zeta.
  unfold is_media_v2.
  destruct (_ && flag_set _ _).
  - destruct (negb _ || _) eqn:E; [done|]. gobool.
    by rewrite (slice_sub data 32 36), (slice_sub data 28 32), (slice_sub data 16 28) by lia.
  - destruct (HeaderLen _ =? _) eqn:E1; [|destruct (negb _ || _); [done|]].
    + destruct (len data <? _) eqn:E2; [done|]. gobool.
      by rewrite (slice_sub data 16 24), (slice_sub data 24 28) by lia.
    + rewrite slice_Some by lia. cbn [mbind option_bind].
      change (Z.to_nat 16) with 16%nat. rewrite take_ge; [done|].
      rewrite length_drop. unfold len in *. lia.
Qed.

Ltac bytes_lit :=
  repeat (apply Forall_cons_2; [assumption|]); apply Forall_nil_2.

Lemma parsePacketPayload_eq data header sec off :
  0 <= off -> off + 16 <= len data ->
  parsePacketPayload data header sec off =
    Some (Some {| Header := header; Sec := sec;
      Payload := sub data (Z.to_nat off) (Z.to_nat (len data - off - 16));
      Tag := sub data (Z.to_nat (len data - 16)) 16; Raw := data |}).
Proof.
  intros. unfold parsePacketPayload. change authTagSize with 16.
  rewrite (proj2 (Z.ltb_ge _ _)) by lia.
  rewrite !slice_sub by lia. cbn [mbind option_bind]. do 2 f_equal. f_equal; f_equal; lia.
Qed.

Lemma header_bytes_of data :
  bytes_ok data -> 16 <= len data -> header_bytes (header_of data) = take 16 data.
Proof.
  intros Hok Hlen.
  destruct (header_split data Hlen) as (b0&b1&b2&b3&b4&b5&b6&b7&b8&b9&b10&b11&b12&b13&b14&b15&rest&->).
  unfold header_bytes, header_of. cbn [Version PType HeaderLen ChannelId SenderId Seq Flags].
  cbn [nth sub take drop].
  do 16 (apply Forall_cons in Hok as [? Hok]).
  rewrite !put_get_be_n by (done || bytes_lit).
  unfold u8, is_u8 in *. by rewrite !Z.mod_small by lia.
Qed.

Lemma header_of_bytes h rest : wf_header h -> header_of (header_bytes h ++ rest) = h.
Proof.
  intros (?&?&?&?&?&?&?). unfold header_of.
  change (sub (header_bytes h ++ rest) 2 2) with (put_be 2 (HeaderLen h)).
  change (sub (header_bytes h ++ rest) 4 4) with (put_be 4 (ChannelId h)).
  change (sub (header_bytes h ++ rest) 8 4) with (put_be 4 (SenderId h)).
  change (sub (header_bytes h ++ rest) 12 2) with (put_be 2 (Seq h)).
  change (sub (header_bytes h ++ rest) 14 2) with (put_be 2 (Flags h)).
  cbn [nth header_bytes app]. rewrite !get_put_be_small by done.
  unfold u8, is_u8 in *. rewrite !Z.mod_small by done. by destruct h.
Qed.

Lemma wf_header_of data : bytes_ok data -> 16 <= len data -> wf_header (header_of data).
Proof.
  intros Hok Hlen. unfold len in *.
  assert (Hn : forall i, (i < length data)%nat -> is_u8 (nth i data 0)).
  { intros i Hi. eapply Forall_nth; eauto. }
  unfold wf_header, header_of; cbn.
  split_and!; try (apply Hn; lia); cbn;
    solve [ apply get_be_u16; [by apply bytes_ok_sub | apply length_sub; lia]
          | apply get_be_u32; [by apply bytes_ok_sub | apply length_sub; lia] ].
Qed.

Lemma len_header_bytes h : len (header_bytes h) = 16.
Proof. done. Qed.

(** The payload and the tag behind a prefix. *)
Lemma parsePacketPayload_app pre pay tag header sec :
  length tag = 16%nat ->
  parsePacketPayload (pre ++ pay ++ tag) header sec (len pre) =
    Some (Some {| Header := header; Sec := sec; Payload := pay; Tag := tag;
                  Raw := pre ++ pay ++ tag |}).
Proof.
  intros Ht. assert (Hlen : len (pre ++ pay ++ tag) = len pre + len pay + 16).
  { rewrite !len_app. unfold len. rewrite Ht. lia. }
  pose proof (len_nonneg pre). pose proof (len_nonneg pay).
  rewrite parsePacketPayload_eq, Hlen by lia.
  unfold len in *. do 2 f_equal. f_equal.
  - rewrite sub_skip by lia. replace (_ - _)%nat with 0%nat by lia. apply sub_here. lia.
  - rewrite app_assoc, sub_skip by (rewrite length_app; lia).
    apply sub_all; rewrite ?length_app; lia.
Qed.

(** Parsing what the format writes out, framing by framing. *)
Section parse_frame.
Context (p : parsedPacket) (Hh : wf_header (Header p)) (Hraw : Raw p = frame_bytes p).

Let pre := header_bytes (Header p) ++ ext_bytes p.

Lemma frame_pre : Raw p = pre ++ Payload p ++ Tag p.
Proof. rewrite Hraw. unfold frame_bytes, pre. by rewrite <- !app_assoc. Qed.

Lemma frame_header : header_of (Raw p) = Header p.
Proof. rewrite Hraw. unfold frame_bytes. by apply header_of_bytes. Qed.

Lemma frame_len : len (Raw p) = 16 + len (ext_bytes p) + len (Payload p) + len (Tag p).
Proof. rewrite Hraw. unfold frame_bytes. rewrite !len_app, len_header_bytes. lia. Qed.

Lemma frame_sub lo n :
  (16 <= lo)%nat ->
  sub (Raw p) lo n = sub (ext_bytes p ++ Payload p ++ Tag p) (lo - 16) n.
Proof. intros. rewrite Hraw. unfold frame_bytes. by rewrite sub_skip. Qed.

Lemma frame_fixed : 16 <= len (Raw p).
Proof.
  rewrite frame_len. pose proof (len_nonneg (ext_bytes p)).
  pose proof (len_nonneg (Payload p)). pose proof (len_nonneg (Tag p)). lia.
Qed.

Lemma parse_media noCrypto : wf_media p -> parsePacket (Raw p) noCrypto = Some (Some p).
Proof.
  intros (Hm & Hhl & Hn & Hb & _ & Hc & Hk & Ht & _).
  assert (Hext : ext_bytes p = MediaNonceBase (Sec p) ++ put_be 4 (MediaCounter (Sec p))
                               ++ put_be 4 (KeyID (Sec p))).
  { unfold ext_bytes. by rewrite Hhl. }
  assert (Hle : len (ext_bytes p) = 20).
  { rewrite Hext. unfold len. rewrite !length_app, !length_put_be, Hb. done. }
  rewrite parsePacket_unfold by apply frame_fixed. cbn zeta.
  rewrite frame_header, Hm, Hhl.
  rewrite (proj2 (Z.ltb_ge _ _)); cbn [negb orb Z.eqb Z.compare Pos.compare Pos.compare_cont].
  2: { rewrite frame_len, Hle. pose proof (len_nonneg (Payload p)). unfold len. rewrite Ht. lia. }
  rewrite !frame_sub by lia. rewrite Hext, <- !app_assoc.
  cbn [Nat.sub]. rewrite sub_here by done.
  rewrite (sub_skip (MediaNonceBase _)), Hb by lia. rewrite sub_here by done.
  rewrite (sub_skip (MediaNonceBase _)), Hb by lia.
  rewrite (sub_skip (put_be 4 _)), sub_here by done.
  rewrite !get_put_be_small by done.
  rewrite frame_pre. replace 36 with (len pre) at 1.
  2: { unfold pre. by rewrite len_app, Hle, len_header_bytes. }
  rewrite parsePacketPayload_app by done. rewrite <- frame_pre.
  do 2 f_equal. destruct p as [? [] ? ? ?]; cbn in *. by subst.
Qed.

Lemma parse_secured noCrypto : wf_secured p -> parsePacket (Raw p) noCrypto = Some (Some p).
Proof.
  intros (Hm & Hhl & Hn & Hb & Hc & Hk & Ht & _).
  assert (Hext : ext_bytes p = put_be 8 (ControlNonce (Sec p)) ++ put_be 4 (KeyID (Sec p))).
  { unfold ext_bytes. by rewrite Hhl. }
  assert (Hle : len (ext_bytes p) = 12).
  { by rewrite Hext. }
  rewrite parsePacket_unfold by apply frame_fixed. cbn zeta.
  rewrite frame_header, Hm, Hhl. cbn [Z.eqb Pos.eqb].
  rewrite (proj2 (Z.ltb_ge _ _)).
  2: { rewrite frame_len, Hle. pose proof (len_nonneg (Payload p)). unfold len. rewrite Ht. lia. }
  rewrite !frame_sub by lia. rewrite Hext, <- !app_assoc.
  cbn [Nat.sub]. rewrite sub_here by done.
  rewrite (sub_skip (put_be 8 _)), sub_here by done.
  rewrite !get_put_be_small by done.
  rewrite frame_pre. replace 28 with (len pre) at 1.
  2: { unfold pre. by rewrite len_app, Hle, len_header_bytes. }
  rewrite parsePacketPayload_app by done. rewrite <- frame_pre.
  do 2 f_equal. destruct p as [? [] ? ? ?]; cbn in *. by subst.
Qed.

Lemma parse_plain noCrypto :
  wf_plain noCrypto p -> parsePacket (Raw p) noCrypto = Some (Some p).
Proof.
  intros (Hm & Hhl & -> & Hs & Ht).
  rewrite parsePacket_unfold by apply frame_fixed. cbn zeta.
  rewrite frame_header, Hm, Hhl. cbn [Z.eqb Pos.eqb negb orb].
  rewrite frame_pre. unfold pre, ext_bytes. rewrite Hhl, Ht, app_nil_r.
  cbn [Z.eqb Pos.eqb]. rewrite app_nil_r.
  rewrite drop_app_ge by done. rewrite <- Hs, <- Ht.
  assert (E : header_bytes (Header p) ++ Payload p = Raw p).
  { rewrite frame_pre. unfold pre, ext_bytes. rewrite Hhl, Ht.
    cbn [Z.eqb Pos.eqb]. by rewrite !app_nil_r. }
  rewrite E. by destruct p.
Qed.
End parse_frame.

Lemma parse_frame noCrypto p :
  wf_packet noCrypto p -> parsePacket (Raw p) noCrypto = Some (Some p).
Proof.
  intros (Hh & _ & Hraw & [H|[H|H]]);
    [eapply parse_media | eapply parse_secured | eapply parse_plain]; eauto.
Qed.

(** What a successful parse returns. *)
Lemma parsePacketPayload_Some data header sec off p :
  0 <= off -> parsePacketPayload data header sec off = Some (Some p) ->
  off + 16 <= len data /\ p = {| Header := header; Sec := sec;
         Payload := sub data (Z.to_nat off) (Z.to_nat (len data - off - 16));
         Tag := sub data (Z.to_nat (len data - 16)) 16; Raw := data |}.
Proof.
  intros Hoff E. assert (off + 16 <= len data) as Hl.
  { unfold parsePacketPayload in E. case_match; [done|]. gobool.
    change authTagSize with 16 in *. lia. }
  rewrite parsePacketPayload_eq in E by done. by simplify_eq.
Qed.

Lemma take16_sub (data : list Z) off n :
  (16 <= off)%nat -> (n = off - 16)%nat -> take 16 data ++ sub data 16 n = sub data 0 off.
Proof. intros. subst. change (take 16 data) with (sub data 0 16). rewrite sub_sub_app. f_equal. lia. Qed.

(** The parts of a tagged packet put together again. *)
Lemma frame_join (data : list Z) off :
  16 <= off -> off + 16 <= len data ->
  take 16 data ++ sub data 16 (Z.to_nat (off - 16)) ++
  sub data (Z.to_nat off) (Z.to_nat (len data - off - 16)) ++
  sub data (Z.to_nat (len data - 16)) 16 = data.
Proof.
  intros. rewrite app_assoc, (take16_sub data (Z.to_nat off)) by lia.
  rewrite app_assoc. replace (Z.to_nat off) with (0 + Z.to_nat off)%nat at 2 by lia.
  rewrite sub_sub_app.
  replace (Z.to_nat (len data - 16)) with (0 + (Z.to_nat off + Z.to_nat (len data - off - 16)))%nat by lia.
  rewrite sub_sub_app. unfold len in *. apply sub_all; lia.
Qed.

Lemma parse_wf data noCrypto p :
  bytes_ok data -> parsePacket data noCrypto = Some (Some p) -> wf_packet noCrypto p /\ Raw p = data.
Proof.
  intros Hok E.
  assert (Hlen : 16 <= len data).
  { unfold parsePacket in E. case_match; [done|]. gobool. exact H. }
  pose proof (wf_header_of data Hok Hlen) as Hwf.
  pose proof (header_bytes_of data Hok Hlen) as Hhb.
  assert (Hl : len data = Z.of_nat (length data)) by done.
  rewrite parsePacket_unfold in E by done. cbn zeta in E.
  destruct (is_media_v2 _) eqn:Hm; [|destruct (_ =? 28) eqn:Hhl].
  - destruct (negb _ || _) eqn:Hg; [done|]. gobool.
    apply parsePacketPayload_Some in E as [Hl2 ->]; [|done].
    split; [|done]. unfold wf_packet, wf_media, frame_bytes, ext_bytes;
      cbn [Header Sec Payload Tag Raw MediaNonceBase MediaCounter KeyID ControlNonce];
      rewrite Hhb, H; cbn [Z.eqb Pos.eqb].
    split_and!; eauto with bytes.
    + rewrite !put_get_be_n by (eauto with bytes || (apply length_sub; lia)).
      rewrite !sub_sub_app. cbn [Nat.add].
      symmetry. apply (frame_join data 36); lia.
    + left. split_and!; eauto with bytes; try (apply length_sub; lia);
        apply get_be_u32; eauto with bytes; apply length_sub; lia.
  - destruct (_ <? 44) eqn:Hg; [done|]. gobool.
    apply parsePacketPayload_Some in E as [Hl2 ->]; [|done].
    split; [|done]. unfold wf_packet, wf_secured, frame_bytes, ext_bytes;
      cbn [Header Sec Payload Tag Raw MediaNonceBase MediaCounter KeyID ControlNonce];
      rewrite Hhb, Hhl; cbn [Z.eqb Pos.eqb].
    split_and!; eauto with bytes.
    + rewrite !put_get_be_n by (eauto with bytes || (apply length_sub; lia)).
      rewrite sub_sub_app. cbn [Nat.add].
      symmetry. apply (frame_join data 28); lia.
    + right; left. split_and!; eauto with bytes; try (apply length_sub; lia);
        (apply get_be_u64 || apply get_be_u32); eauto with bytes; apply length_sub; lia.
  - destruct (negb _ || _) eqn:Hg; [done|]. gobool. simplify_eq.
    split; [|done]. unfold wf_packet, wf_plain, frame_bytes, ext_bytes;
      cbn [Header Sec Payload Tag Raw MediaNonceBase MediaCounter KeyID ControlNonce];
      rewrite Hhb, H; cbn [Z.eqb Pos.eqb].
    split_and!; eauto.
    + by apply Forall_drop.
    + rewrite app_nil_r. symmetry. apply (take_drop 16).
    + right; right. done.
Qed.

(** ** Properties *)

(** C26. The parser accepts exactly the packets of the wire format, and reads
    back every field: a byte string parses to [p] if and only if [p] is
    well-formed and the string is its encoding. *)
Theorem parsePacket_correct data noCrypto p :
  bytes_ok data ->
  parsePacket data noCrypto = Some (Some p) <-> wf_packet noCrypto p /\ Raw p = data.
Proof.
  intros Hok. split; [by apply parse_wf|].
  intros [Hwf <-]. by apply parse_frame.
Qed.

(** No byte string makes the parser panic: every slice it takes is in range. *)
Theorem parsePacket_no_panic data noCrypto :
  exists r, parsePacket data noCrypto = Some r.
Proof.
  destruct (decide (16 <= len data)) as [Hl|Hl].
  - rewrite parsePacket_unfold by done. cbn zeta.
    repeat case_match; eauto; gobool; rewrite parsePacketPayload_eq by lia; eauto.
  - exists None. unfold parsePacket. change fixedHeaderSize with 16.
    by rewrite (proj2 (Z.ltb_lt _ _)) by lia.
Qed.

(** A JOIN of sender 7 on channel 100 without security extension. *)
Definition sample_join : list Z := [1; 5; 0; 16; 0; 0; 0; 100; 0; 0; 0; 7; 0; 0; 0; 0].

Lemma parsePacket_correct_witness :
  exists p, parsePacket sample_join true = Some (Some p) /\ wf_packet true p /\ Raw p = sample_join /\
    ChannelId (Header p) = 100 /\ SenderId (Header p) = 7.
Proof.
  destruct (parsePacket sample_join true) as [[p|]|] eqn:E; [|by vm_compute in E..].
  exists p. assert (bytes_ok sample_join) as Hok by (by repeat constructor).
  split_and!; [done| | | |].
  - exact (proj1 (proj1 (parsePacket_correct sample_join true p Hok) E)).
  - exact (proj2 (proj1 (parsePacket_correct sample_join true p Hok) E)).
  - vm_compute in E. by injection E as <-.
  - vm_compute in E. by injection E as <-.
Defined.
