(* ===== verification/Replay.v ===== *)
(** * Replay windows

    The 64-counter replay window of Control Authentication
    ([acceptReplayCounter], [control_auth.go]) and of the Directory
    ([directoryReplayState.accept], [directory_v3.go]), their abstract
    specification as a set of accepted counters, and the refinement. *)

From S2P Require Import Prelude.

Definition controlReplayWindow : Z := 64.
Definition directoryReplayWindowSize : Z := 64.

(** The pointers [highest *uint32] and [seen *uint64] are the state. *)
Record window := { highest : Z; seen : Z }.

Definition acceptReplayCounter (w : window) (counter : Z) : bool * window :=
  if highest w <? counter then
    let delta := u32 (counter - highest w) in
    let seen' := if controlReplayWindow <=? delta then 1
                 else Z.lor (u64 (Z.shiftl (seen w) delta)) 1 in
    (true, {| highest := counter; seen := seen' |})
  else
    let delta := u32 (highest w - counter) in
    if controlReplayWindow <=? delta then (false, w)
    else
      let mask := u64 (Z.shiftl 1 delta) in
      if negb (Z.land (seen w) mask =? 0) then (false, w)
      else (true, {| highest := highest w; seen := Z.lor (seen w) mask |}).

Record directoryReplayState := {
  initialized : bool; d_highest : Z; d_seen : Z
}.

(** The zero value, an absent entry of the replay map. *)
Definition zero_replay : directoryReplayState :=
  {| initialized := false; d_highest := 0; d_seen := 0 |}.

Definition directory_accept (s : directoryReplayState) (sequence : Z)
    : bool * directoryReplayState :=
  if negb (initialized s) then
    (true, {| initialized := true; d_highest := sequence; d_seen := 1 |})
  else if d_highest s <? sequence then
    let delta := u64 (sequence - d_highest s) in
    let seen' := if directoryReplayWindowSize <=? delta then 1
                 else Z.lor (u64 (Z.shiftl (d_seen s) delta)) 1 in
    (true, {| initialized := true; d_highest := sequence; d_seen := seen' |})
  else
    let delta := u64 (d_highest s - sequence) in
    if directoryReplayWindowSize <=? delta then (false, s)
    else
      let mask := u64 (Z.shiftl 1 delta) in
      if negb (Z.land (d_seen s) mask =? 0) then (false, s)
      else (true, {| initialized := true; d_highest := d_highest s;
                     d_seen := Z.lor (d_seen s) mask |}).

(** ** The specification: a set of accepted counters

    A counter is fresh when it is above every accepted counter, or less than 64
    below the highest and not accepted yet. *)

Definition fresh (acc : gset Z) (h c : Z) : Prop :=
  h < c \/ (h - c < 64 /\ c ∉ acc).

#[export] Instance fresh_dec acc h c : Decision (fresh acc h c).
Proof. unfold fresh. apply _. Defined.

Definition spec_accept (st : gset Z * Z) (c : Z) : bool * (gset Z * Z) :=
  let '(acc, h) := st in
  if decide (fresh acc h c) then (true, ({[c]} ∪ acc, Z.max h c)) else (false, st).

(** [window_rep bits h acc]: bit [i] of the window says whether [h - i] was
    accepted, and nothing above [h] was. *)
Record window_rep (bits h : Z) (acc : gset Z) : Prop := {
  rep_bits : forall i, 0 <= i < 64 -> Z.testbit bits i = bool_decide (h - i ∈ acc);
  rep_u64 : is_u64 bits;
  rep_below : forall c, c ∈ acc -> c <= h
}.

(** ** Lemmas *)

Lemma u64_bits z i : 0 <= i < 64 -> Z.testbit (u64 z) i = Z.testbit z i.
Proof. intros. unfold u64. apply Z.mod_pow2_bits_low. lia. Qed.

Lemma is_u64_u64 z : is_u64 (u64 z).
Proof. unfold is_u64, u64. apply Z.mod_pos_bound. lia. Qed.

Lemma is_u64_lor a b : is_u64 a -> is_u64 b -> is_u64 (Z.lor a b).
Proof.
  unfold is_u64. intros [Ha1 Ha2] [Hb1 Hb2].
  assert (0 <= Z.lor a b) as Hn by (apply Z.lor_nonneg; lia).
  split; [done|].
  destruct (Z.eq_dec (Z.lor a b) 0) as [->|Hne]; [lia|].
  apply Z.log2_lt_pow2; [lia|]. rewrite Z.log2_lor by lia.
  assert (forall x, 0 <= x -> x < 2 ^ 64 -> Z.log2 x < 64) as Hlog.
  { intros x ??. destruct (Z.eq_dec x 0) as [->|]; [simpl; lia|]. apply Z.log2_lt_pow2; lia. }
  pose proof (Hlog a). pose proof (Hlog b). lia.
Qed.

Lemma mask_bits d i : 0 <= d < 64 -> 0 <= i < 64 ->
  Z.testbit (u64 (Z.shiftl 1 d)) i = (i =? d).
Proof.
  intros. rewrite u64_bits by done. rewrite Z.shiftl_spec by lia.
  destruct (i =? d) eqn:E; gobool.
  - subst. by rewrite Z.sub_diag.
  - destruct (decide (i < d)); [by rewrite Z.testbit_neg_r by lia|].
    replace 1 with (2 ^ 0) by done. apply Z.pow2_bits_false. lia.
Qed.

(** [seen & mask] tests one bit. *)
Lemma mask_test s d : is_u64 s -> 0 <= d < 64 ->
  negb (Z.land s (u64 (Z.shiftl 1 d)) =? 0) = Z.testbit s d.
Proof.
  intros Hs Hd. destruct (Z.testbit s d) eqn:E.
  - apply negb_true_iff, Z.eqb_neq. intros H0.
    assert (Z.testbit (Z.land s (u64 (Z.shiftl 1 d))) d = true) as Ht.
    { rewrite Z.land_spec, mask_bits, E, Z.eqb_refl by lia. done. }
    rewrite H0, Z.bits_0 in Ht. done.
  - apply negb_false_iff, Z.eqb_eq. apply Z.bits_inj'. intros i Hi. rewrite Z.bits_0, Z.land_spec.
    destruct (decide (i < 64)).
    + rewrite mask_bits by lia. destruct (i =? d) eqn:Ei; [|apply andb_false_r].
      gobool. subst. by rewrite E.
    + unfold u64. rewrite Z.mod_pow2_bits_high by lia. apply andb_false_r.
Qed.

Section window_step.
Context (bits h : Z) (acc : gset Z) (Hrep : window_rep bits h acc).

(** Advancing the window to a higher counter. *)
Lemma window_advance c :
  h < c ->
  window_rep (if 64 <=? c - h then 1 else Z.lor (u64 (Z.shiftl bits (c - h))) 1)
             c ({[c]} ∪ acc).
Proof.
  intros Hc. destruct Hrep as [Hb Hu Hbelow]. split.
  - intros i Hi.
    assert (Hset : h - (i - (c - h)) = c - i) by lia.
    destruct (64 <=? c - h) eqn:E; gobool.
    + destruct (decide (i = 0)) as [->|Hne].
      * symmetry. apply bool_decide_eq_true. set_solver by lia.
      * replace 1 with (2 ^ 0) by done. rewrite Z.pow2_bits_false by lia.
        symmetry. apply bool_decide_eq_false. rewrite elem_of_union, elem_of_singleton.
        intros [?|Hin]; [lia|]. apply Hbelow in Hin. lia.
    + rewrite Z.lor_spec, u64_bits, Z.shiftl_spec by lia.
      destruct (decide (i = 0)) as [->|Hne].
      * rewrite orb_true_r. symmetry. apply bool_decide_eq_true. set_solver by lia.
      * replace (Z.testbit 1 i) with false
          by (symmetry; replace 1 with (2 ^ 0) by done; apply Z.pow2_bits_false; lia).
        rewrite orb_false_r. destruct (decide (i < c - h)).
        -- rewrite Z.testbit_neg_r by lia. symmetry. apply bool_decide_eq_false.
           rewrite elem_of_union, elem_of_singleton.
           intros [?|Hin]; [lia|]. apply Hbelow in Hin. lia.
        -- rewrite Hb, Hset by lia. apply bool_decide_ext. set_solver by lia.
  - case_match; [unfold is_u64; lia|]. apply is_u64_lor; [apply is_u64_u64|unfold is_u64; lia].
  - intros x. rewrite elem_of_union, elem_of_singleton. intros [->|Hin]; [lia|].
    apply Hbelow in Hin. lia.
Qed.

(** Marking a counter inside the window. *)
Lemma window_mark c :
  c <= h -> h - c < 64 ->
  window_rep (Z.lor bits (u64 (Z.shiftl 1 (h - c)))) h ({[c]} ∪ acc).
Proof.
  intros Hc Hw. destruct Hrep as [Hb Hu Hbelow]. split.
  - intros i Hi. rewrite Z.lor_spec, Hb, mask_bits by lia.
    destruct (i =? h - c) eqn:E; gobool.
    + rewrite orb_true_r. symmetry. apply bool_decide_eq_true. subst i.
      rewrite Z.sub_sub_distr, Z.sub_diag. set_solver.
    + rewrite orb_false_r. apply bool_decide_ext.
      rewrite elem_of_union, elem_of_singleton. split; [tauto|]. intros [?|?]; [lia|done].
  - by apply is_u64_lor; [|apply is_u64_u64].
  - intros x. rewrite elem_of_union, elem_of_singleton. intros [->|Hin]; [lia|].
    by apply Hbelow.
Qed.

Lemma window_test c :
  c <= h -> h - c < 64 ->
  negb (Z.land bits (u64 (Z.shiftl 1 (h - c))) =? 0) = bool_decide (c ∈ acc).
Proof.
  intros. destruct Hrep as [Hb Hu _]. rewrite mask_test, Hb by (done || lia).
  f_equal. by rewrite Z.sub_sub_distr, Z.sub_diag.
Qed.
End window_step.

Lemma u32_small z : 0 <= z < 2 ^ 32 -> u32 z = z.
Proof. apply Z.mod_small. Qed.
Lemma u64_small z : 0 <= z < 2 ^ 64 -> u64 z = z.
Proof. apply Z.mod_small. Qed.

Definition rep (w : window) (st : gset Z * Z) : Prop :=
  highest w = st.2 /\ is_u32 (st.2) /\ window_rep (seen w) (st.2) (st.1).

(** One step of the window is one step of the specification. *)
Lemma accept_step w st c :
  rep w st -> is_u32 c ->
  (acceptReplayCounter w c).1 = (spec_accept st c).1 /\
  rep (acceptReplayCounter w c).2 (spec_accept st c).2.
Proof.
  destruct st as [acc h], w as [h' bits]. intros (E & Hh & Hrep) Hc; simpl in E, Hh, Hrep; subst h'.
  unfold acceptReplayCounter, spec_accept, controlReplayWindow; cbn [highest seen].
  unfold is_u32 in *.
  destruct (h <? c) eqn:Hlt; gobool.
  - rewrite u32_small by lia. rewrite decide_True by (left; lia). split; [done|].
    unfold rep; cbn [highest seen fst snd]. rewrite Z.max_r by lia.
    split_and!; [done|unfold is_u32; lia|]. by apply window_advance.
  - rewrite u32_small by lia. destruct (64 <=? h - c) eqn:Hw; gobool.
    + rewrite decide_False by (unfold fresh; lia). done.
    + rewrite (window_test _ _ _ Hrep) by lia. case_bool_decide as Hin.
      * rewrite decide_False by (unfold fresh; intros [?|[_ ?]]; [lia|done]). done.
      * rewrite decide_True by (right; auto with lia). split; [done|].
        unfold rep; cbn [highest seen fst snd]. rewrite Z.max_l by lia.
        split_and!; [done|unfold is_u32; lia|]. by apply window_mark.
Qed.

(** ** Runs *)

(** The decisions on a sequence of counters, and the final window. *)
Fixpoint accept_run (w : window) (cs : list Z) : list bool :=
  match cs with
  | [] => []
  | c :: cs' => let '(b, w') := acceptReplayCounter w c in b :: accept_run w' cs'
  end.

Fixpoint spec_run (st : gset Z * Z) (cs : list Z) : list bool :=
  match cs with
  | [] => []
  | c :: cs' => let '(b, st') := spec_accept st c in b :: spec_run st' cs'
  end.

(** The counters whose decision was [true]. *)
Fixpoint accepted (bs : list bool) (cs : list Z) : list Z :=
  match bs, cs with
  | b :: bs', c :: cs' => if b then c :: accepted bs' cs' else accepted bs' cs'
  | _, _ => []
  end.

(** The window of a new control session: counter [h] was just accepted. *)
Definition first_window (h : Z) : window := {| highest := h; seen := 1 |}.

Lemma first_window_bits h : window_rep 1 h {[h]}.
Proof.
  split.
  - intros i Hi. destruct (decide (i = 0)) as [->|].
    + symmetry. apply bool_decide_eq_true. apply elem_of_singleton. lia.
    + replace 1 with (2 ^ 0) by done. rewrite Z.pow2_bits_false by lia.
      symmetry. apply bool_decide_eq_false. rewrite elem_of_singleton. lia.
  - unfold is_u64. lia.
  - intros c. rewrite elem_of_singleton. lia.
Qed.

Lemma first_window_rep h : is_u32 h -> rep (first_window h) ({[h]}, h).
Proof. intros. split_and!; [done..|apply first_window_bits]. Qed.

Lemma run_refines w st cs :
  rep w st -> Forall is_u32 cs -> accept_run w cs = spec_run st cs.
Proof.
  intros Hrep Hcs. revert w st Hrep. induction Hcs as [|c cs Hc _ IH]; intros w st Hrep; [done|].
  simpl. destruct (accept_step w st c Hrep Hc) as [Hb Hr].
  destruct (acceptReplayCounter w c) as [b w'], (spec_accept st c) as [b' st']; simpl in *.
  subst b'. f_equal. by apply IH.
Qed.

(** A counter of the accepted set at or below its bound is never accepted again. *)
Lemma spec_run_fresh acc h cs :
  (forall x, x ∈ acc -> x <= h) ->
  NoDup (accepted (spec_run (acc, h) cs) cs) /\
  forall x, x ∈ accepted (spec_run (acc, h) cs) cs -> x ∉ acc.
Proof.
  revert acc h. induction cs as [|c cs IH]; intros acc h Hb; simpl; [by split; [constructor|set_solver]|].
  case_decide as Hf; simpl.
  - destruct (IH ({[c]} ∪ acc) (Z.max h c)) as [Hnd Hni].
    { intros x. rewrite elem_of_union, elem_of_singleton. intros [->|Hx]; [lia|].
      apply Hb in Hx. lia. }
    split.
    + constructor; [|done]. intros Hin. apply Hni in Hin. set_solver.
    + intros x. rewrite elem_of_cons. intros [->|Hin].
      * intros Hin. destruct Hf as [?|[_ ?]]; [|done]. apply Hb in Hin. lia.
      * apply Hni in Hin. set_solver.
  - by apply IH.
Qed.

(** The Directory window, related to the same specification. *)
Definition dir_rep (s : directoryReplayState) (st : gset Z * Z) : Prop :=
  initialized s = true /\ d_highest s = st.2 /\ is_u64 (st.2) /\
  window_rep (d_seen s) (st.2) (st.1).

Lemma directory_step s st c :
  dir_rep s st -> is_u64 c ->
  (directory_accept s c).1 = (spec_accept st c).1 /\
  dir_rep (directory_accept s c).2 (spec_accept st c).2.
Proof.
  destruct st as [acc h], s as [i h' bits]. intros (Ei & E & Hh & Hrep) Hc; simpl in *; subst h' i.
  unfold directory_accept, spec_accept, directoryReplayWindowSize; cbn [initialized d_highest d_seen negb].
  unfold is_u64 in *.
  destruct (h <? c) eqn:Hlt; gobool.
  - rewrite u64_small by lia. rewrite decide_True by (left; lia). split; [done|].
    unfold dir_rep; cbn [initialized d_highest d_seen fst snd]. rewrite Z.max_r by lia.
    split_and!; [done..|unfold is_u64; lia|]. by apply window_advance.
  - rewrite u64_small by lia. destruct (64 <=? h - c) eqn:Hw; gobool.
    + rewrite decide_False by (unfold fresh; lia). done.
    + rewrite (window_test _ _ _ Hrep) by lia. case_bool_decide as Hin.
      * rewrite decide_False by (unfold fresh; intros [?|[_ ?]]; [lia|done]). done.
      * rewrite decide_True by (right; auto with lia). split; [done|].
        unfold dir_rep; cbn [initialized d_highest d_seen fst snd]. rewrite Z.max_l by lia.
        split_and!; [done..|unfold is_u64; lia|]. by apply window_mark.
Qed.

Fixpoint directory_run (s : directoryReplayState) (cs : list Z) : list bool :=
  match cs with
  | [] => []
  | c :: cs' => let '(b, s') := directory_accept s c in b :: directory_run s' cs'
  end.

Lemma directory_run_refines s st cs :
  dir_rep s st -> Forall is_u64 cs -> directory_run s cs = spec_run st cs.
Proof.
  intros Hrep Hcs. revert s st Hrep. induction Hcs as [|c cs Hc _ IH]; intros s st Hrep; [done|].
  simpl. destruct (directory_step s st c Hrep Hc) as [Hb Hr].
  destruct (directory_accept s c) as [b s'], (spec_accept st c) as [b' st']; simpl in *.
  subst b'. f_equal. by apply IH.
Qed.

(** ** Properties *)

(** C8. The 64-bit replay window implements the set specification: on every
    sequence of 32-bit counters it decides exactly as "not accepted before, and
    above or less than 64 below the highest". *)
Theorem acceptReplayCounter_refines h cs :
  is_u32 h -> Forall is_u32 cs ->
  accept_run (first_window h) cs = spec_run ({[h]}, h) cs.
Proof. intros. apply run_refines; [by apply first_window_rep|done]. Qed.

Lemma acceptReplayCounter_refines_witness :
  is_u32 5 /\ accept_run (first_window 5) [5; 7; 6; 6; 7; 80; 7; 17; 16] =
              spec_run ({[5]}, 5) [5; 7; 6; 6; 7; 80; 7; 17; 16].
Proof.
  split; [done|]. apply acceptReplayCounter_refines; [done|].
  repeat (apply Forall_cons_2; [done|]); apply Forall_nil_2.
Defined.

(** No control counter is accepted twice: whatever counters arrive after
    [h], in whatever order, the accepted ones are distinct and none is [h]. *)
Theorem acceptReplayCounter_once h cs :
  is_u32 h -> Forall is_u32 cs ->
  NoDup (h :: accepted (accept_run (first_window h) cs) cs).
Proof.
  intros Hh Hcs. rewrite (run_refines _ ({[h]}, h)) by (done || by apply first_window_rep).
  destruct (spec_run_fresh {[h]} h cs) as [Hnd Hni].
  { intros x. rewrite elem_of_singleton. lia. }
  constructor; [|done]. intros Hin. apply Hni in Hin. set_solver.
Qed.

Lemma acceptReplayCounter_once_witness :
  NoDup (0 :: accepted (accept_run (first_window 0) [0; 3; 1; 1; 3]) [0; 3; 1; 1; 3]).
Proof.
  apply acceptReplayCounter_once; [done|].
  repeat (apply Forall_cons_2; [done|]); apply Forall_nil_2.
Defined.

(** The Directory's window, from the absent entry of its map, accepts the
    first sequence number and then implements the same specification, so no
    sequence number of an epoch is accepted twice. *)
Theorem directory_accept_once c cs :
  is_u64 c -> Forall is_u64 cs ->
  directory_run zero_replay (c :: cs) = true :: spec_run ({[c]}, c) cs /\
  NoDup (accepted (directory_run zero_replay (c :: cs)) (c :: cs)).
Proof.
  intros Hc Hcs.
  assert (E : directory_run zero_replay (c :: cs) = true :: spec_run ({[c]}, c) cs).
  { simpl. f_equal. apply directory_run_refines; [|done].
    split_and!; [done..|apply first_window_bits]. }
  split; [done|]. rewrite E. simpl.
  destruct (spec_run_fresh {[c]} c cs) as [Hnd Hni].
  { intros x. rewrite elem_of_singleton. lia. }
  constructor; [|done]. intros Hin. apply Hni in Hin. set_solver.
Qed.

Lemma directory_accept_once_witness :
  directory_run zero_replay [9; 9; 8; 100; 36; 37] = true :: spec_run ({[9]}, 9) [9; 8; 100; 36; 37] /\
  NoDup (accepted (directory_run zero_replay [9; 9; 8; 100; 36; 37]) [9; 9; 8; 100; 36; 37]).
Proof.
  apply directory_accept_once; [done|].
  repeat (apply Forall_cons_2; [done|]); apply Forall_nil_2.
Defined.
