(* ===== verification/ControlAuth.v ===== *)
(** * Control Authentication v1

    [control_auth.go]: the policy and key store, the HMAC of a control packet,
    the Relay nonce domain, the AUTH_HELLO / AUTH_CHALLENGE / JOIN cookies and
    the provisional replay windows of sessions that have not joined yet. *)

From S2P Require Import Prelude GoTime GoNet Sha256 Packet Replay.

Definition controlAuthHeaderSize : Z := 12.
Definition controlAuthPacketSize : Z := fixedHeaderSize + controlAuthHeaderSize.
Definition controlAuthCookieTTL : duration := 30 * Second.
Definition maxProvisionalControlSessions : Z := 1024.

Inductive controlAuthPolicy := controlAuthOff | controlAuthOptional | controlAuthRequired.

#[export] Instance controlAuthPolicy_eq_dec : EqDecision controlAuthPolicy.
Proof. solve_decision. Defined.

(** channel ID to key ID to key. *)
Abbreviation controlKeyStore := (gmap Z (gmap Z (list Z))).

Record authChallengeKey := {
  ch_channelID : Z; ch_senderID : Z; ch_keyID : Z; ch_sessionID : Z;
  ch_address : string; ch_expiresAt : Z; ch_cookie : list Z
}.

#[export] Instance authChallengeKey_eq_dec : EqDecision authChallengeKey.
Proof. solve_decision. Defined.
#[export] Instance authChallengeKey_countable : Countable authChallengeKey.
Proof.
  refine (inj_countable'
    (fun k => (ch_channelID k, ch_senderID k, ch_keyID k, ch_sessionID k, ch_address k, ch_expiresAt k, ch_cookie k))
    (fun '(a, b, c, d, e, f, g) => Build_authChallengeKey a b c d e f g) _).
  by intros [].
Defined.

Record controlAuthMeta := { m_keyID : Z; m_sessionID : Z; m_counter : Z }.

(** The zero value of [controlAuthMeta]. *)
Definition zero_meta : controlAuthMeta := {| m_keyID := 0; m_sessionID := 0; m_counter := 0 |}.

Record provisionalReplayKey := {
  pr_channelID : Z; pr_senderID : Z; pr_keyID : Z; pr_sessionID : Z; pr_address : string
}.

#[export] Instance provisionalReplayKey_eq_dec : EqDecision provisionalReplayKey.
Proof. solve_decision. Defined.
#[export] Instance provisionalReplayKey_countable : Countable provisionalReplayKey.
Proof.
  refine (inj_countable'
    (fun k => (pr_channelID k, pr_senderID k, pr_keyID k, pr_sessionID k, pr_address k))
    (fun '(a, b, c, d, e) => Build_provisionalReplayKey a b c d e) _).
  by intros [].
Defined.

(** [highest] and [seen] are the window. *)
Record provisionalReplayState := { pr_window : window; pr_expiresAt : time }.

Definition zero_provisional : provisionalReplayState :=
  {| pr_window := {| highest := 0; seen := 0 |}; pr_expiresAt := zero_time |}.

(** [draws] counts the reads of the random source, which the Go code keeps
    outside the struct. *)
Record controlAuthState := {
  policy : controlAuthPolicy;
  keys : controlKeyStore;
  cookieSecret : list Z;
  relayInstanceID : Z;
  relayCounter : Z;
  relayCounterExhausted : bool;
  usedRelayInstanceIDs : gset Z;
  challenges : gmap authChallengeKey time;
  provisional : gmap provisionalReplayKey provisionalReplayState;
  draws : nat
}.

(** The [n]-th four-byte read of [crypto/rand], [None] when it fails. *)
Class Entropy := {
  rand4 : nat -> option Z;
  rand4_u32 : forall n v, rand4 n = Some v -> is_u32 v
}.

Definition set_pending (a : controlAuthState) chs prov : controlAuthState :=
  {| policy := policy a; keys := keys a; cookieSecret := cookieSecret a;
     relayInstanceID := relayInstanceID a; relayCounter := relayCounter a;
     relayCounterExhausted := relayCounterExhausted a;
     usedRelayInstanceIDs := usedRelayInstanceIDs a;
     challenges := chs; provisional := prov; draws := draws a |}.

Definition set_nonce (a : controlAuthState) inst ctr exhausted used n : controlAuthState :=
  {| policy := policy a; keys := keys a; cookieSecret := cookieSecret a;
     relayInstanceID := inst; relayCounter := ctr; relayCounterExhausted := exhausted;
     usedRelayInstanceIDs := used; challenges := challenges a;
     provisional := provisional a; draws := n |}.

(** ** Keys and policy *)

Definition requires (a : option controlAuthState) (channelID : Z) : bool :=
  match a with
  | None => false
  | Some a =>
      match policy a with
      | controlAuthRequired => true
      | controlAuthOptional => (0 <? size (default ∅ (keys a !! channelID)))%nat
      | controlAuthOff => false
      end
  end.

(** A missing key is the nil slice. *)
Definition key (a : option controlAuthState) (channelID keyID : Z) : list Z :=
  match a with
  | None => []
  | Some a => if keyID =? 0 then [] else default [] (default ∅ (keys a !! channelID) !! keyID)
  end.

(** ** The HMAC of a control packet *)

Definition control_auth_label : list Z := str_bytes "incomudon-control-auth-v1" ++ [0].

Definition controlAuthTag (k packetWithoutTag : list Z) : list Z :=
  take (Z.to_nat authTagSize) (hmac_sha256 k (control_auth_label ++ packetWithoutTag)).

Definition verifyControlAuthPacket (pkt : parsedPacket) (k : list Z) : bool :=
  if negb (len k =? 32) || negb (HeaderLen (Header pkt) =? controlAuthPacketSize)
     || negb (flag_set (Flags (Header pkt)) packetFlagControlAuthV1)
     || flag_set (Flags (Header pkt)) packetFlagAESGCMV2HeaderAAD
     || (ControlNonce (Sec pkt) =? 0) || (KeyID (Sec pkt) =? 0)
     || negb (len (Tag pkt) =? authTagSize)
     || (len (Raw pkt) <? controlAuthPacketSize + authTagSize)
  then false
  else
    let want := controlAuthTag k (take (length (Raw pkt) - Z.to_nat authTagSize) (Raw pkt)) in
    bytes_eqb want (Tag pkt).

Definition buildAuthenticatedControlPacketWithSeq (pktType channelID senderID : Z)
    (payload : list Z) (keyID : Z) (k : list Z) (nonce sequence : Z) : list Z :=
  let body :=
    header_bytes {| Version := protocolVersion; PType := pktType;
      HeaderLen := controlAuthPacketSize; ChannelId := channelID; SenderId := senderID;
      Seq := sequence; Flags := packetFlagControlAuthV1 |}
    ++ put_be 8 nonce ++ put_be 4 keyID ++ payload in
  body ++ controlAuthTag k body.

Definition buildAuthenticatedControlPacket (pktType channelID senderID : Z)
    (payload : list Z) (keyID : Z) (k : list Z) (nonce : Z) : list Z :=
  buildAuthenticatedControlPacketWithSeq pktType channelID senderID payload keyID k nonce 0.

Definition controlNonceParts (nonce : Z) : Z * Z := (u32 (Z.shiftr nonce 32), u32 nonce).

(** [verifyIncomingControl]: [None] is [(controlAuthMeta{}, false)]. *)
Definition verifyIncomingControl (a : option controlAuthState) (pkt : parsedPacket) : option controlAuthMeta :=
  match a with
  | None => None
  | Some _ =>
      if negb (verifyControlAuthPacket pkt (key a (ChannelId (Header pkt)) (KeyID (Sec pkt))))
      then None
      else
        let '(sessionID, counter) := controlNonceParts (ControlNonce (Sec pkt)) in
        if sessionID =? 0 then None
        else Some {| m_keyID := KeyID (Sec pkt); m_sessionID := sessionID; m_counter := counter |}
  end.

(** ** The Relay nonce domain *)

Section nonces.
Context `{Entropy}.

(** The loop of [newRelayInstanceIDLocked], [attempts] iterations left. *)
Fixpoint newRelayInstanceID_loop (attempts : nat) (a : controlAuthState) : option Z * controlAuthState :=
  match attempts with
  | O => (None, a)
  | S k =>
      let a' := set_nonce a (relayInstanceID a) (relayCounter a) (relayCounterExhausted a)
                  (usedRelayInstanceIDs a) (S (draws a)) in
      match rand4 (draws a) with
      | None => (None, a')
      | Some instanceID =>
          if instanceID =? 0 then newRelayInstanceID_loop k a'
          else if bool_decide (instanceID ∈ usedRelayInstanceIDs a)
          then newRelayInstanceID_loop k a'
          else (Some instanceID,
                set_nonce a (relayInstanceID a) (relayCounter a) (relayCounterExhausted a)
                  ({[instanceID]} ∪ usedRelayInstanceIDs a) (S (draws a)))
      end
  end.

Definition newRelayInstanceIDLocked (a : controlAuthState) : option Z * controlAuthState :=
  newRelayInstanceID_loop 32 a.

Definition nextRelayNonce (a : controlAuthState) : option Z * controlAuthState :=
  let '(ok, a1) :=
    if relayCounterExhausted a then
      match newRelayInstanceIDLocked a with
      | (None, a') => (false, a')
      | (Some instanceID, a') =>
          (true, set_nonce a' instanceID 0 false (usedRelayInstanceIDs a') (draws a'))
      end
    else (true, a) in
  if negb ok then (None, a1)
  else
    let nonce := Z.lor (Z.shiftl (relayInstanceID a1) 32) (relayCounter a1) in
    let a2 :=
      if relayCounter a1 =? 2 ^ 32 - 1
      then set_nonce a1 (relayInstanceID a1) (relayCounter a1) true
             (usedRelayInstanceIDs a1) (draws a1)
      else set_nonce a1 (relayInstanceID a1) (u32 (relayCounter a1 + 1))
             (relayCounterExhausted a1) (usedRelayInstanceIDs a1) (draws a1) in
    (Some nonce, a2).

(** [newControlAuthState]; [inl] is the error. *)
Definition newControlAuthState (pol : controlAuthPolicy) (ks : controlKeyStore)
    (secret : list Z) : string + controlAuthState :=
  if bool_decide (pol = controlAuthRequired) && (size ks =? 0)%nat
  then inl "control authentication required but no control keys are configured"%string
  else if (0 <? size ks)%nat && (len secret <? 32)
  then inl "configured control authentication requires a cookie secret of at least 32 bytes"%string
  else
    let state := {| policy := pol; keys := ks; cookieSecret := secret; relayInstanceID := 0;
      relayCounter := 0; relayCounterExhausted := false; usedRelayInstanceIDs := ∅;
      challenges := ∅; provisional := ∅; draws := 0 |} in
    if bool_decide (pol = controlAuthOff) then inr state
    else
      match newRelayInstanceIDLocked state with
      | (None, _) => inl "could not generate a relay control instance ID"%string
      | (Some instanceID, state') =>
          inr (set_nonce state' instanceID (relayCounter state')
                 (relayCounterExhausted state') (usedRelayInstanceIDs state') (draws state'))
      end.
End nonces.

(** ** Challenges *)

Definition cookie_label : list Z := str_bytes "incomudon-control-cookie-v1" ++ [0].

Definition cookie_ip (addr : UDPAddr) : list Z :=
  match To4 (IP addr) with
  | Some ip4 => v4InV6Prefix ++ ip4
  | None => default (zeros 16) (To16 (IP addr))
  end.

Definition cookie (a : controlAuthState) (channelID senderID keyID sessionID expiresAt : Z)
    (addr : UDPAddr) : list Z :=
  let input := cookie_label ++ cookie_ip addr ++ put_be 2 (Port addr)
    ++ put_be 4 channelID ++ put_be 4 senderID ++ put_be 4 keyID
    ++ put_be 4 sessionID ++ put_be 4 expiresAt in
  take (Z.to_nat authTagSize) (hmac_sha256 (cookieSecret a) input).

Definition cleanupPendingLocked (now : time) (a : controlAuthState) : controlAuthState :=
  set_pending a (purge (fun deadline => deadline) now (challenges a))
                (purge pr_expiresAt now (provisional a)).

Definition challenge_key (pkt : parsedPacket) (addr : UDPAddr) (meta : controlAuthMeta)
    (expiresAt : Z) (ck : list Z) : authChallengeKey :=
  {| ch_channelID := ChannelId (Header pkt); ch_senderID := SenderId (Header pkt);
     ch_keyID := m_keyID meta; ch_sessionID := m_sessionID meta;
     ch_address := peerMapKey (Some addr); ch_expiresAt := expiresAt; ch_cookie := ck |}.

Definition replay_key (pkt : parsedPacket) (addr : UDPAddr) (meta : controlAuthMeta) : provisionalReplayKey :=
  {| pr_channelID := ChannelId (Header pkt); pr_senderID := SenderId (Header pkt);
     pr_keyID := m_keyID meta; pr_sessionID := m_sessionID meta;
     pr_address := peerMapKey (Some addr) |}.

(** [createChallenge]; [t1] and [t2] are its two readings of the clock. *)
Definition createChallenge (pkt : parsedPacket) (oaddr : option UDPAddr) (meta : controlAuthMeta)
    (t1 t2 : time) (a : controlAuthState) : (string + list Z) * controlAuthState :=
  match oaddr with
  | None => (inl "invalid AUTH_HELLO session nonce"%string, a)
  | Some addr =>
      if negb (m_counter meta =? 0) || (m_sessionID meta =? 0)
      then (inl "invalid AUTH_HELLO session nonce"%string, a)
      else if negb (len (key (Some a) (ChannelId (Header pkt)) (m_keyID meta)) =? 32)
      then (inl "unknown control key"%string, a)
      else
        let expiresAt := u32 (toUnix (Add t1 controlAuthCookieTTL)) in
        let ck := cookie a (ChannelId (Header pkt)) (SenderId (Header pkt))
                    (m_keyID meta) (m_sessionID meta) expiresAt addr in
        let a1 := cleanupPendingLocked t2 a in
        if maxProvisionalControlSessions <=? Z.of_nat (size (provisional a1))
        then (inl "too many pending control authentication sessions"%string, a1)
        else
          match provisional a1 !! replay_key pkt addr meta with
          | Some _ => (inl "control session is already awaiting JOIN"%string, a1)
          | None =>
              let expires := Unix expiresAt in
              (inr (put_be 4 expiresAt ++ ck),
               set_pending a1
                 (<[challenge_key pkt addr meta expiresAt ck := expires]> (challenges a1))
                 (<[replay_key pkt addr meta := {| pr_window := first_window 0; pr_expiresAt := expires |}]>
                    (provisional a1)))
          end
  end.

Definition acceptPreJoinControl (pkt : parsedPacket) (oaddr : option UDPAddr)
    (meta : controlAuthMeta) (now : time) (a : controlAuthState) : bool * controlAuthState :=
  match oaddr with
  | None => (false, a)
  | Some addr =>
      if m_sessionID meta =? 0 then (false, a)
      else
        let a1 := cleanupPendingLocked now a in
        match provisional a1 !! replay_key pkt addr meta with
        | None => (false, a1)
        | Some st =>
            match acceptReplayCounter (pr_window st) (m_counter meta) with
            | (false, _) => (false, a1)
            | (true, w) =>
                (true, set_pending a1 (challenges a1)
                   (<[replay_key pkt addr meta := {| pr_window := w; pr_expiresAt := pr_expiresAt st |}]>
                      (provisional a1)))
            end
        end
  end.

(** [consumeJoinChallenge]; [None] is [(provisionalReplayState{}, false)], and
    [t1], [t2], [t3] are its readings of the clock. *)
Definition consumeJoinChallenge (pkt : parsedPacket) (oaddr : option UDPAddr)
    (meta : controlAuthMeta) (t1 t2 t3 : time) (a : controlAuthState)
    : option provisionalReplayState * controlAuthState :=
  match oaddr with
  | None => (None, a)
  | Some addr =>
      if (m_sessionID meta =? 0) || negb (len (Payload pkt) =? 20) then (None, a)
      else
        let expiresAt := get_be (sub (Payload pkt) 0 4) in
        if expiresAt <? u32 (toUnix t1) then (None, a)
        else
          let want := cookie a (ChannelId (Header pkt)) (SenderId (Header pkt))
                        (m_keyID meta) (m_sessionID meta) expiresAt addr in
          if negb (bytes_eqb want (drop 4 (Payload pkt))) then (None, a)
          else
            let ckey := challenge_key pkt addr meta expiresAt (drop 4 (Payload pkt)) in
            let rkey := replay_key pkt addr meta in
            let a1 := cleanupPendingLocked t2 a in
            match challenges a1 !! ckey with
            | None => (None, a1)
            | Some deadline =>
                if negb (After deadline t3)
                then (None, set_pending a1 (delete ckey (challenges a1)) (provisional a1))
                else
                  match provisional a1 !! rkey with
                  | None => (None, a1)
                  | Some st =>
                      match acceptReplayCounter (pr_window st) (m_counter meta) with
                      | (false, _) => (None, a1)
                      | (true, w) =>
                          (Some {| pr_window := w; pr_expiresAt := pr_expiresAt st |},
                           set_pending a1 (delete ckey (challenges a1)) (delete rkey (provisional a1)))
                      end
                  end
            end
  end.

(** ** The repository's own vectors

    [TestControlAuthV1Vectors] and [TestFloorInterruptControlAuthenticationVectors]
    of [main_test.go], evaluated. *)

Definition vector_key : list Z :=
  put_be 32 0xf7bf50ee89a0e406253d1a31040a54ac9681e6bacdd4346251b365a757bd5153.

Definition vector_packet : list Z :=
  put_be 44 0x0102001c00000064000003ea002a0002123456780000000200000001f4df8ba41610f2a6f4a592620e51130a.

Example control_auth_vector :
  match parsePacket vector_packet false with
  | Some (Some p) => verifyControlAuthPacket p vector_key
  | _ => false
  end = true.
Proof. vm_compute. reflexivity. Qed.

Example ptt_request_vector :
  buildAuthenticatedControlPacketWithSeq pktPttRequest 111 1002 [1] 1 vector_key 0x1234567800000004 45
  = put_be 45 0x011a001c0000006f000003ea002d000212345678000000040000000101c107ff2f229865a400b023975bdf0b12.
Proof. vm_compute. reflexivity. Qed.

Example talk_release_vector :
  buildAuthenticatedControlPacketWithSeq pktTalkRelease 111 1001
    (talkReleasePayload 1001 talkReleasePreempted) 1 vector_key 0x8765432100000002 2
  = put_be 49 0x0108001c0000006f000003e900020002876543210000000200000001000003e907518224376c042d8280ae23ce40528737.
Proof. vm_compute. reflexivity. Qed.

Definition vector_state : controlAuthState :=
  {| policy := controlAuthRequired; keys := {[ 100 := {[ 1 := vector_key ]} ]};
     cookieSecret := put_be 32 0x00112233445566778899aabbccddeeff00112233445566778899aabbccddeeff;
     relayInstanceID := 7; relayCounter := 0; relayCounterExhausted := false;
     usedRelayInstanceIDs := {[ 7 ]}; challenges := ∅; provisional := ∅; draws := 0 |}.

Definition vector_addr : UDPAddr := {| IP := [192; 0; 2; 10]; Port := 50001; Zone := "" |}.

Example cookie_vector :
  cookie vector_state 100 1002 1 0x12345678 1694498816 vector_addr
  = put_be 16 0x164304de5e5b6a7782f9657740ba0eaf.
Proof. vm_compute. reflexivity. Qed.

(** ** Lemmas: authenticated packets *)

Lemma length_controlAuthTag k m : length (controlAuthTag k m) = 16%nat.
Proof. unfold controlAuthTag. rewrite length_take, length_hmac. done. Qed.

Lemma bytes_ok_controlAuthTag k m : bytes_ok (controlAuthTag k m).
Proof. unfold controlAuthTag. apply Forall_take, bytes_ok_hmac. Qed.

Lemma land_high_low i c : is_u32 c -> Z.land (i * 2 ^ 32) c = 0.
Proof.
  unfold is_u32. intros Hc. apply Z.bits_inj'. intros n Hn. rewrite Z.land_spec, Z.bits_0.
  destruct (decide (n < 32)); [by rewrite Z.mul_pow2_bits_low by lia|].
  rewrite <- (Z.mod_small c (2 ^ 32)), Z.mod_pow2_bits_high by lia. apply andb_false_r.
Qed.

Lemma nonce_split i c : is_u32 c -> Z.lor (Z.shiftl i 32) c = i * 2 ^ 32 + c.
Proof.
  intros Hc. rewrite Z.shiftl_mul_pow2 by lia. pose proof (land_high_low i c Hc) as E.
  by rewrite <- Z.lxor_lor, <- Z.add_nocarry_lxor.
Qed.

Lemma controlNonceParts_join i c :
  is_u32 i -> is_u32 c -> controlNonceParts (i * 2 ^ 32 + c) = (i, c).
Proof.
  unfold is_u32, controlNonceParts, u32. intros. rewrite Z.shiftr_div_pow2 by lia. f_equal.
  - rewrite Z.div_add_l, Z.div_small, Z.add_0_r by lia. by apply Z.mod_small.
  - rewrite Z.add_comm, Z.mod_add by lia. by apply Z.mod_small.
Qed.

(** The packet an authenticated build parses back to. *)
Definition authenticated_packet (pktType channelID senderID : Z) (payload : list Z)
    (keyID : Z) (k : list Z) (nonce sequence : Z) : parsedPacket :=
  let raw := buildAuthenticatedControlPacketWithSeq pktType channelID senderID payload keyID k nonce sequence in
  {| Header := {| Version := protocolVersion; PType := pktType; HeaderLen := controlAuthPacketSize;
       ChannelId := channelID; SenderId := senderID; Seq := sequence; Flags := packetFlagControlAuthV1 |};
     Sec := {| ControlNonce := nonce; MediaNonceBase := zeros 12; MediaCounter := 0; KeyID := keyID |};
     Payload := payload; Tag := drop (length raw - 16) raw; Raw := raw |}.

Section authenticated.
Context (pktType channelID senderID keyID nonce sequence : Z) (payload k : list Z).
Context (Ht : is_u8 pktType) (Hc : is_u32 channelID) (Hs : is_u32 senderID)
  (Hk : is_u32 keyID) (Hn : is_u64 nonce) (Hq : is_u16 sequence) (Hp : bytes_ok payload).

Let p := authenticated_packet pktType channelID senderID payload keyID k nonce sequence.

Lemma authenticated_raw :
  exists body, Raw p = body ++ controlAuthTag k body /\ Tag p = controlAuthTag k body /\
    body = header_bytes (Header p) ++ (put_be 8 nonce ++ put_be 4 keyID) ++ payload.
Proof.
  exists (header_bytes (Header p) ++ (put_be 8 nonce ++ put_be 4 keyID) ++ payload).
  assert (Raw p = (header_bytes (Header p) ++ (put_be 8 nonce ++ put_be 4 keyID) ++ payload)
    ++ controlAuthTag k (header_bytes (Header p) ++ (put_be 8 nonce ++ put_be 4 keyID) ++ payload)) as E.
  { unfold p, authenticated_packet, buildAuthenticatedControlPacketWithSeq; cbn [Raw Header].
    by rewrite <- !app_assoc. }
  split_and!; [done| |done].
  change (Tag p) with (drop (length (Raw p) - 16) (Raw p)). rewrite E.
  rewrite length_app, length_controlAuthTag, drop_app_ge by lia.
  match goal with |- drop ?n _ = _ => replace n with 0%nat by lia end. by rewrite drop_0.
Qed.

Lemma authenticated_wf noCrypto : wf_packet noCrypto p.
Proof.
  destruct authenticated_raw as (body & Hraw & Htag & Hbody).
  split_and!; [done..| | ].
  - rewrite Hraw. unfold frame_bytes, ext_bytes. rewrite Htag, Hbody at 1.
    cbn [Header HeaderLen p authenticated_packet Payload Sec ControlNonce KeyID].
    change (controlAuthPacketSize =? 36) with false. change (controlAuthPacketSize =? 28) with true.
    cbn [Sec ControlNonce KeyID]. by rewrite <- !app_assoc.
  - right; left. unfold wf_secured. rewrite Htag.
    pose proof (length_controlAuthTag k body). pose proof (bytes_ok_controlAuthTag k body).
    split_and!; try done. unfold is_media_v2. by rewrite andb_false_r.
Qed.

Lemma authenticated_verifies :
  length k = 32%nat -> nonce <> 0 -> keyID <> 0 -> verifyControlAuthPacket p k = true.
Proof.
  intros Hlk Hn0 Hk0. destruct authenticated_raw as (body & Hraw & Htag & Hbody).
  unfold verifyControlAuthPacket. rewrite Hraw, Htag.
  cbn [p authenticated_packet Header Sec HeaderLen Flags ControlNonce KeyID].
  rewrite (proj2 (Z.eqb_neq nonce 0)), (proj2 (Z.eqb_neq keyID 0)) by done.
  unfold len. rewrite Hlk, length_app, length_controlAuthTag, Z.eqb_refl.
  change (flag_set packetFlagControlAuthV1 packetFlagControlAuthV1) with true.
  change (flag_set packetFlagControlAuthV1 packetFlagAESGCMV2HeaderAAD) with false.
  rewrite (proj2 (Z.ltb_ge (Z.of_nat (length body + 16)) _)).
  - change (Z.to_nat authTagSize) with 16%nat. rewrite Nat.add_sub, take_app_length.
    by apply bool_decide_eq_true.
  - rewrite Hbody, !length_app, !length_put_be.
    change (length (header_bytes _)) with 16%nat. unfold controlAuthPacketSize, authTagSize, fixedHeaderSize, controlAuthHeaderSize. lia.
Qed.
End authenticated.

(** ** Lemmas: nonces *)

Section nonce_lemmas.
Context `{Entropy}.

Lemma loop_spec n a r a' :
  newRelayInstanceID_loop n a = (r, a') ->
  relayInstanceID a' = relayInstanceID a /\ relayCounter a' = relayCounter a /\
  relayCounterExhausted a' = relayCounterExhausted a /\
  match r with
  | None => usedRelayInstanceIDs a' = usedRelayInstanceIDs a
  | Some i => i <> 0 /\ is_u32 i /\ (i ∉ usedRelayInstanceIDs a) /\
      usedRelayInstanceIDs a' = (({[i]} : gset Z) ∪ usedRelayInstanceIDs a)
  end.
Proof.
  revert a. induction n as [|n IH]; intros a; simpl; [by intros [= <- <-]|].
  destruct (rand4 (draws a)) as [i|] eqn:E; [|by intros [= <- <-]].
  destruct (i =? 0) eqn:E0; [intros Hl; exact (IH _ Hl)|].
  case_bool_decide; [intros Hl; exact (IH _ Hl)|].
  intros [= <- <-]. gobool. simpl. split_and!; try done. by eapply rand4_u32.
Qed.

Lemma newRelayInstanceIDLocked_spec a r a' :
  newRelayInstanceIDLocked a = (r, a') ->
  relayInstanceID a' = relayInstanceID a /\ relayCounter a' = relayCounter a /\
  relayCounterExhausted a' = relayCounterExhausted a /\
  match r with
  | None => usedRelayInstanceIDs a' = usedRelayInstanceIDs a
  | Some i => i <> 0 /\ is_u32 i /\ (i ∉ usedRelayInstanceIDs a) /\
      usedRelayInstanceIDs a' = (({[i]} : gset Z) ∪ usedRelayInstanceIDs a)
  end.
Proof. apply loop_spec. Qed.

Lemma loop_provisional n a r a' :
  newRelayInstanceID_loop n a = (r, a') -> provisional a' = provisional a.
Proof.
  revert a r a'. induction n as [|n IH]; intros b r b'; simpl; [by intros [= _ <-]|].
  repeat case_match; intros Hl; try (apply IH in Hl; done); by simplify_eq.
Qed.

Lemma newRelayInstanceIDLocked_provisional a r a' :
  newRelayInstanceIDLocked a = (r, a') -> provisional a' = provisional a.
Proof. apply loop_provisional. Qed.

(** [issued a L]: every nonce of [L] was taken from the domain of [a] and is
    behind its counter. *)
Record issued (a : controlAuthState) (L : list Z) : Prop := {
  iss_u32 : is_u32 (relayInstanceID a) /\ is_u32 (relayCounter a);
  iss_used : relayInstanceID a ∈ usedRelayInstanceIDs a;
  iss_nonces : forall x, x ∈ L -> exists i c,
    x = i * 2 ^ 32 + c /\ is_u32 i /\ is_u32 c /\ i ∈ usedRelayInstanceIDs a /\
    (i = relayInstanceID a -> relayCounterExhausted a = false -> c < relayCounter a)
}.

Lemma issued_next a L i c a' :
  is_u32 i -> is_u32 c -> relayInstanceID a = i -> relayCounter a = c ->
  relayCounterExhausted a = false -> issued a L ->
  a' = (if c =? 2 ^ 32 - 1
        then set_nonce a i c true (usedRelayInstanceIDs a) (draws a)
        else set_nonce a i (u32 (c + 1)) (relayCounterExhausted a) (usedRelayInstanceIDs a) (draws a)) ->
  (i * 2 ^ 32 + c ∉ L) /\ issued a' ((i * 2 ^ 32 + c) :: L).
Proof.
  intros Hi Hc Ei Ec Hex [_ Hu Hn] ->. split.
  - intros Hin. destruct (Hn _ Hin) as (i' & c' & E & Hi' & Hc' & _ & Hlt).
    unfold is_u32 in *. assert (i' = i /\ c' = c) as [-> ->] by lia.
    specialize (Hlt ltac:(congruence) Hex). lia.
  - unfold is_u32 in *.
    assert (forall x, x ∈ (i * 2 ^ 32 + c) :: L -> exists j d,
      x = j * 2 ^ 32 + d /\ is_u32 j /\ is_u32 d /\ j ∈ usedRelayInstanceIDs a /\
      (j = i -> d <= c)) as Hall.
    { intros x [->|Hin]%elem_of_cons.
      - exists i, c. unfold is_u32. split_and!; try lia. by rewrite <- Ei.
      - destruct (Hn _ Hin) as (j & d & -> & Hj & Hd & Hju & Hlt).
        exists j, d. split_and!; try done. intros ->. specialize (Hlt (eq_sym Ei) Hex). lia. }
    destruct (c =? 2 ^ 32 - 1) eqn:Em; gobool; (split; [|simpl; by rewrite <- Ei|]).
    + simpl. unfold is_u32. lia.
    + intros x Hx. destruct (Hall x Hx) as (j & d & ? & ? & ? & ? & ?). exists j, d. done.
    + simpl. unfold is_u32, u32. rewrite Z.mod_small by lia. lia.
    + intros x Hx. destruct (Hall x Hx) as (j & d & ? & ? & ? & ? & Hle). exists j, d.
      split_and!; try done. simpl. intros -> _. unfold u32. rewrite Z.mod_small by lia.
      specialize (Hle eq_refl). lia.
Qed.

Lemma nextRelayNonce_issued a L :
  issued a L ->
  match nextRelayNonce a with
  | (Some x, a') => (x ∉ L) /\ issued a' (x :: L)
  | (None, a') => issued a' L
  end.
Proof.
  intros Hiss. destruct (iss_u32 a L Hiss) as [Hi Hc].
  unfold nextRelayNonce. destruct (relayCounterExhausted a) eqn:Hex.
  - destruct (newRelayInstanceIDLocked a) as [r a1] eqn:El.
    apply newRelayInstanceIDLocked_spec in El as (E1 & E2 & E3 & Hr).
    destruct r as [i|]; cbn [negb].
    + destruct Hr as (Hi0 & Hiu & Hni & Hused).
      set (b := set_nonce a1 i 0 false (usedRelayInstanceIDs a1) (draws a1)).
      change (relayInstanceID b) with i. change (relayCounter b) with 0.
      rewrite nonce_split by (unfold is_u32; lia).
      apply (issued_next b L i 0); [done|unfold is_u32; lia|done..| |done].
      split; [split; [done|unfold is_u32; simpl; lia]|simpl; set_solver|].
      intros x Hx. destruct (iss_nonces a L Hiss x Hx) as (i' & c' & ? & ? & ? & Hu & _).
      exists i', c'. split_and!; [done..|simpl; set_solver|]. simpl. intros ->. done.
    + destruct Hiss as [_ Hu Hn]. split; [by rewrite E1, E2|by rewrite E1, Hr|].
      intros x Hx. destruct (Hn x Hx) as (i' & c' & ? & ? & ? & ? & Hlt).
      exists i', c'. rewrite E1, E2, E3, Hr. done.
  - cbn [negb]. rewrite nonce_split by done. by eapply issued_next.
Qed.

(** The nonces of [n] successive calls, the last one first. *)
Fixpoint nonce_run (n : nat) (a : controlAuthState) (L : list Z) : list Z * controlAuthState :=
  match n with
  | O => (L, a)
  | S k =>
      let '(r, a') := nextRelayNonce a in
      nonce_run k a' (match r with Some x => x :: L | None => L end)
  end.

Lemma nonce_run_NoDup n a L :
  issued a L -> NoDup L -> NoDup (nonce_run n a L).1.
Proof.
  revert a L. induction n as [|n IH]; intros a L Hi Hnd; simpl; [done|].
  pose proof (nextRelayNonce_issued a L Hi) as Hx.
  destruct (nextRelayNonce a) as [[x|] a']; [destruct Hx|]; apply IH; try done.
  by constructor.
Qed.
End nonce_lemmas.

(** ** Lemmas: challenges and provisional sessions *)

(** An operation on the pending sessions, with its readings of the clock. *)
Inductive control_op :=
| Hello (pkt : parsedPacket) (addr : option UDPAddr) (meta : controlAuthMeta) (t1 t2 : time)
| PreJoin (pkt : parsedPacket) (addr : option UDPAddr) (meta : controlAuthMeta) (t : time)
| Join (pkt : parsedPacket) (addr : option UDPAddr) (meta : controlAuthMeta) (t1 t2 t3 : time).

Definition control_step (a : controlAuthState) (op : control_op) : controlAuthState :=
  match op with
  | Hello p addr m t1 t2 => (createChallenge p addr m t1 t2 a).2
  | PreJoin p addr m t => (acceptPreJoinControl p addr m t a).2
  | Join p addr m t1 t2 t3 => (consumeJoinChallenge p addr m t1 t2 t3 a).2
  end.

Definition control_run (ops : list control_op) (a : controlAuthState) : controlAuthState :=
  fold_left control_step ops a.

(** The operation asks for a challenge of session [k]. *)
Definition opens (k : provisionalReplayKey) (op : control_op) : Prop :=
  match op with
  | Hello p (Some addr) m _ _ => replay_key p addr m = k
  | _ => False
  end.

Definition provisional_bounded (a : controlAuthState) : Prop :=
  Z.of_nat (size (provisional a)) <= maxProvisionalControlSessions.

Lemma control_step_bounded a op : provisional_bounded a -> provisional_bounded (control_step a op).
Proof.
  unfold provisional_bounded. intros Ha.
  assert (forall now, Z.of_nat (size (provisional (cleanupPendingLocked now a))) <= maxProvisionalControlSessions) as Hc.
  { intros now. simpl. pose proof (size_purge pr_expiresAt now (provisional a)). lia. }
  destruct op as [p [addr|] m t1 t2|p [addr|] m t|p [addr|] m t1 t2 t3]; simpl; try done.
  - unfold createChallenge. repeat case_match; simpl; try done; try apply Hc.
    gobool. unfold maxProvisionalControlSessions in *.
    pose proof (size_insert_bound (purge pr_expiresAt t2 (provisional a)) (replay_key p addr m)
      {| pr_window := first_window 0; pr_expiresAt := Unix (u32 (toUnix (Add t1 controlAuthCookieTTL))) |} 1024).
    simpl in *. lia.
  - unfold acceptPreJoinControl. repeat case_match; simpl; try done; try apply Hc.
    rewrite size_insert_mem by eauto. apply Hc.
  - unfold consumeJoinChallenge. repeat case_match; simpl; try done; try apply Hc.
    etrans; [|apply (Hc t2)]. simpl. apply inj_le, size_delete_le.
Qed.

(** A challenge that is gone stays gone until its session is opened again. *)
Lemma control_step_challenge_gone a op p addr m e ck :
  ~ opens (replay_key p addr m) op ->
  challenges a !! challenge_key p addr m e ck = None ->
  challenges (control_step a op) !! challenge_key p addr m e ck = None.
Proof.
  intros Ho Ha.
  assert (forall now, challenges (cleanupPendingLocked now a) !! challenge_key p addr m e ck = None) as Hc.
  { intros now. by apply lookup_purge_None. }
  destruct op as [p' [addr'|] m' t1 t2|p' [addr'|] m' t|p' [addr'|] m' t1 t2 t3]; simpl in *; try done.
  - unfold createChallenge. repeat case_match; simpl; try done; try apply Hc.
    rewrite lookup_insert_ne; [apply Hc|]. intros E. apply Ho. unfold challenge_key, replay_key in *. congruence.
  - unfold acceptPreJoinControl. repeat case_match; simpl; try done; apply Hc.
  - unfold consumeJoinChallenge.
    repeat case_match; simpl; try done; try apply Hc; apply lookup_delete_None; right; apply Hc.
Qed.

Lemma control_run_challenge_gone ops a p addr m e ck :
  Forall (fun op => ~ opens (replay_key p addr m) op) ops ->
  challenges a !! challenge_key p addr m e ck = None ->
  challenges (control_run ops a) !! challenge_key p addr m e ck = None.
Proof.
  intros H. revert a. induction H as [|op ops Hop _ IH]; intros a Ha; [done|].
  apply IH. by apply control_step_challenge_gone.
Qed.

Lemma consume_deletes p addr m t1 t2 t3 a st a' :
  consumeJoinChallenge p (Some addr) m t1 t2 t3 a = (Some st, a') ->
  challenges a' !! challenge_key p addr m (get_be (sub (Payload p) 0 4)) (drop 4 (Payload p)) = None.
Proof.
  unfold consumeJoinChallenge. repeat case_match; intros E; simplify_eq; simpl.
  apply lookup_delete_eq.
Qed.

Lemma consume_needs_challenge p addr m t1 t2 t3 a :
  challenges a !! challenge_key p addr m (get_be (sub (Payload p) 0 4)) (drop 4 (Payload p)) = None ->
  (consumeJoinChallenge p (Some addr) m t1 t2 t3 a).1 = None.
Proof.
  intros Ha. unfold consumeJoinChallenge. repeat case_match; try done.
  all: match goal with H : challenges (cleanupPendingLocked _ _) !! _ = Some _ |- _ =>
    apply lookup_purge in H as [? _] end; congruence.
Qed.

Lemma length_cookie a c s k i e addr : length (cookie a c s k i e addr) = 16%nat.
Proof. unfold cookie. rewrite length_take, length_hmac. done. Qed.

Lemma cookie_pending a chs prov : cookie (set_pending a chs prov) = cookie a.
Proof. done. Qed.

(** The conditions under which a JOIN is admitted. *)
Lemma consume_success a p addr meta e ck d st w t1 t2 t3 :
  Payload p = put_be 4 e ++ ck -> is_u32 e -> m_sessionID meta <> 0 -> u32 (toUnix t1) <= e ->
  cookie a (ChannelId (Header p)) (SenderId (Header p)) (m_keyID meta) (m_sessionID meta) e addr = ck ->
  challenges a !! challenge_key p addr meta e ck = Some d -> t2 < d -> t3 < d ->
  provisional a !! replay_key p addr meta = Some st -> t2 < pr_expiresAt st ->
  acceptReplayCounter (pr_window st) (m_counter meta) = (true, w) ->
  exists a2, consumeJoinChallenge p (Some addr) meta t1 t2 t3 a =
    (Some {| pr_window := w; pr_expiresAt := pr_expiresAt st |}, a2).
Proof.
  intros Hpl He Hs0 Ht1 Hck Hch H2 H3 Hpr Hpx Hw. unfold consumeJoinChallenge. rewrite Hpl.
  assert (length ck = 16%nat) as Hlck by (rewrite <- Hck; apply length_cookie).
  assert (len (put_be 4 e ++ ck) = 20) as -> by (rewrite len_app; unfold len; rewrite Hlck; done).
  assert (sub (put_be 4 e ++ ck) 0 4 = put_be 4 e) as -> by done.
  assert (drop 4 (put_be 4 e ++ ck) = ck) as -> by done.
  rewrite (get_put_be_small 4 e) by exact He.
  rewrite (proj2 (Z.eqb_neq (m_sessionID meta) 0)), (proj2 (Z.ltb_ge e _)), Hck by done.
  unfold bytes_eqb. rewrite bool_decide_eq_true_2 by done. cbn -[purge acceptReplayCounter].
  rewrite (lookup_purge_live _ _ _ _ d) by done.
  rewrite (proj2 (After_true d t3)) by done. cbn [negb].
  rewrite (lookup_purge_live pr_expiresAt _ _ _ st) by done. rewrite Hw. eauto.
Qed.

(** The instants of a clock that reads between 1970 and early 2106. *)
Definition before_2106 (t : time) : Prop :=
  unix_to_internal * Second <= t < (unix_to_internal + 2 ^ 32 - 60) * Second.

(** The expiry second of a challenge issued at [t] is a later instant than
    every reading of the next 29 seconds. *)
Lemma challenge_expiry t u :
  before_2106 t -> t <= u < t + 29 * Second ->
  let e := u32 (toUnix (Add t controlAuthCookieTTL)) in
  u < Unix e /\ u32 (toUnix u) <= e /\ is_u32 e.
Proof.
  intros Ht Hu.
  assert (sane_time (Add t controlAuthCookieTTL) /\ sane_time u) as [Hs Hsu].
  { unfold before_2106, sane_time, Add, controlAuthCookieTTL, unix_to_internal, Second in *. lia. }
  pose proof (Unix_toUnix_le _ Hs) as Hx. pose proof (toUnix_sane _ Hs) as Ex.
  pose proof (toUnix_sane _ Hsu) as Eu.
  unfold before_2106, sane_time, Add, controlAuthCookieTTL, unix_to_internal, Second in *.
  set (T := toUnix (t + 30 * 1000000000)) in *.
  pose proof (Z.div_mod (t + 30 * 1000000000) 1000000000 ltac:(lia)).
  pose proof (Z.mod_pos_bound (t + 30 * 1000000000) 1000000000 ltac:(lia)).
  pose proof (Z.div_mod u 1000000000 ltac:(lia)).
  pose proof (Z.mod_pos_bound u 1000000000 ltac:(lia)).
  assert (u32 T = T) as ->. { unfold u32. apply Z.mod_small. lia. }
  assert (u32 (toUnix u) = toUnix u) as ->. { unfold u32. apply Z.mod_small. lia. }
  unfold is_u32. simpl. lia.
Qed.

(** ** Properties *)

(** A control packet built with a configured 32-byte key parses back to the
    fields it was built from, and the receiver that holds the key accepts it
    under the session and counter the nonce was made of. *)
Theorem authenticated_control_roundtrip a pktType channelID senderID payload keyID k nonce sequence noCrypto :
  is_u8 pktType -> is_u32 channelID -> is_u32 senderID -> is_u32 keyID -> is_u64 nonce ->
  is_u16 sequence -> bytes_ok payload -> length k = 32%nat ->
  key (Some a) channelID keyID = k -> 2 ^ 32 <= nonce ->
  exists p,
    parsePacket (buildAuthenticatedControlPacketWithSeq pktType channelID senderID payload keyID k nonce sequence)
      noCrypto = Some (Some p) /\
    Payload p = payload /\ PType (Header p) = pktType /\ ChannelId (Header p) = channelID /\
    SenderId (Header p) = senderID /\ Seq (Header p) = sequence /\
    verifyIncomingControl (Some a) p =
      Some {| m_keyID := keyID; m_sessionID := nonce / 2 ^ 32; m_counter := nonce mod 2 ^ 32 |}.
Proof.
  intros Ht Hc Hs Hk Hn Hq Hp Hlk Hkey Hn0.
  assert (keyID <> 0) as Hk0.
  { intros ->. simpl in Hkey. subst k. done. }
  exists (authenticated_packet pktType channelID senderID payload keyID k nonce sequence).
  split; [|split_and!; try done].
  - apply (parse_frame noCrypto (authenticated_packet pktType channelID senderID payload keyID k nonce sequence)).
    by apply authenticated_wf.
  - unfold verifyIncomingControl.
    cbn [authenticated_packet Header ChannelId Sec KeyID ControlNonce]. rewrite Hkey.
    rewrite authenticated_verifies by (done || lia). cbn [negb].
    unfold is_u64 in Hn.
    rewrite (Z.div_mod nonce (2 ^ 32)), (Z.mul_comm (2 ^ 32)) at 1 by lia.
    rewrite controlNonceParts_join.
    + rewrite (proj2 (Z.eqb_neq _ _)); [done|].
      intros E. pose proof (Z.div_small_iff nonce (2 ^ 32) ltac:(lia)). lia.
    + unfold is_u32. split; [apply Z.div_pos; lia|apply Z.div_lt_upper_bound; lia].
    + apply Z.mod_pos_bound. lia.
Qed.

Lemma authenticated_control_roundtrip_witness :
  exists p,
    parsePacket (buildAuthenticatedControlPacketWithSeq pktPttOn 100 1002 [] 1 vector_key 0x1234567800000002 42)
      false = Some (Some p) /\
    Payload p = [] /\ PType (Header p) = pktPttOn /\ ChannelId (Header p) = 100 /\
    SenderId (Header p) = 1002 /\ Seq (Header p) = 42 /\
    verifyIncomingControl (Some vector_state) p =
      Some {| m_keyID := 1; m_sessionID := 0x1234567800000002 / 2 ^ 32;
              m_counter := 0x1234567800000002 mod 2 ^ 32 |}.
Proof.
  apply authenticated_control_roundtrip;
    try (by unfold is_u8, is_u16, is_u32, is_u64, pktPttOn); by vm_compute || constructor.
Defined.

(** C7. A packet that is accepted was authenticated: its channel and key ID name
    a 32-byte key, its last 16 bytes are the HMAC of the bytes before them under
    that key, and its session is not zero. *)
Theorem verifyIncomingControl_sound data noCrypto p a meta :
  bytes_ok data -> parsePacket data noCrypto = Some (Some p) ->
  verifyIncomingControl (Some a) p = Some meta ->
  exists k body,
    key (Some a) (ChannelId (Header p)) (KeyID (Sec p)) = k /\ length k = 32%nat /\
    data = body ++ controlAuthTag k body /\ m_keyID meta = KeyID (Sec p) /\ m_sessionID meta <> 0.
Proof.
  intros Hok Hp Hv. apply parse_wf in Hp as [Hwf Hraw]; [|done].
  unfold verifyIncomingControl in Hv. case_match; [done|].
  destruct (controlNonceParts _) as [sess ctr]. case_match; [done|]. simplify_eq. gobool.
  unfold verifyControlAuthPacket in H. case_match; [done|]. gobool.
  match goal with Hb : bytes_eqb _ _ = true |- _ => apply bool_decide_eq_true in Hb; rename Hb into Htag end.
  eexists _, (take (length (Raw p) - 16) (Raw p)). split_and!; [reflexivity| | |done|done].
  - unfold len in *. lia.
  - change (Z.to_nat authTagSize) with 16%nat in Htag. rewrite Htag.
    destruct Hwf as (_ & _ & Hfr & _). unfold len, authTagSize in *.
    rewrite Hfr. unfold frame_bytes. rewrite !app_assoc, length_app.
    replace (_ + length (Tag p) - 16)%nat
      with (length ((header_bytes (Header p) ++ ext_bytes p) ++ Payload p)) by lia.
    by rewrite take_app_length.
Qed.

Definition vector_parsed : parsedPacket :=
  authenticated_packet pktPttRequest 100 1002 [1] 1 vector_key 0x1234567800000004 45.

Lemma verifyIncomingControl_sound_witness :
  exists k body,
    key (Some vector_state) (ChannelId (Header vector_parsed)) (KeyID (Sec vector_parsed)) = k /\
    length k = 32%nat /\ Raw vector_parsed = body ++ controlAuthTag k body /\
    1 = KeyID (Sec vector_parsed) /\ 0x12345678 <> 0.
Proof.
  apply (verifyIncomingControl_sound (Raw vector_parsed) false vector_parsed vector_state
    {| m_keyID := 1; m_sessionID := 0x12345678; m_counter := 4 |}).
  - apply (bool_decide_eq_true_1 (Forall (fun z => 0 <= z < 2 ^ 8) (Raw vector_parsed))). by vm_compute.
  - by vm_compute.
  - by vm_compute.
Defined.

(** C27. The Relay never numbers two authenticated packets of its own alike: from
    a freshly configured state, whatever the random source returns, the nonces
    of any number of successive calls are distinct, across the exhaustion of the
    32-bit counter and the choice of a new instance ID. *)
Theorem relay_nonces_unique `{Entropy} pol ks secret a n :
  pol <> controlAuthOff -> newControlAuthState pol ks secret = inr a -> NoDup (nonce_run n a []).1.
Proof.
  intros Hpol E. apply nonce_run_NoDup; [|constructor].
  unfold newControlAuthState in E. do 2 (case_match; [done|]).
  rewrite (bool_decide_eq_false_2 _ Hpol) in E.
  destruct (newRelayInstanceIDLocked _) as [[i|] a1] eqn:El; [|done]. simplify_eq.
  apply newRelayInstanceIDLocked_spec in El as (E1 & E2 & E3 & _ & Hi & _ & Hu).
  split; simpl; [by rewrite E2|rewrite Hu; set_solver|]. intros x Hx. by apply elem_of_nil in Hx.
Qed.

(** A random source that counts up from one below the end of the range. *)
#[refine] Definition counting_entropy : Entropy := {| rand4 := fun n => Some (u32 (Z.of_nat n + 1)) |}.
Proof. intros n v [= <-]. apply Z.mod_pos_bound. lia. Defined.

Lemma relay_nonces_unique_witness :
  exists a, @newControlAuthState counting_entropy controlAuthRequired (keys vector_state) (zeros 32) = inr a /\
    NoDup (@nonce_run counting_entropy 3 a []).1.
Proof.
  eexists. split; [reflexivity|].
  apply (@relay_nonces_unique counting_entropy controlAuthRequired (keys vector_state) (zeros 32)); done.
Defined.

(** A JOIN cookie is consumed at most once: after a JOIN succeeds, and after
    any other operations of any clients, the same challenge is refused until its
    session asks for a new one with AUTH_HELLO. *)
Theorem join_challenge_once p addr meta t1 t2 t3 a st a' ops u1 u2 u3 :
  consumeJoinChallenge p (Some addr) meta t1 t2 t3 a = (Some st, a') ->
  Forall (fun op => ~ opens (replay_key p addr meta) op) ops ->
  (consumeJoinChallenge p (Some addr) meta u1 u2 u3 (control_run ops a')).1 = None.
Proof.
  intros E Hops. apply consume_deletes in E. apply consume_needs_challenge.
  by apply control_run_challenge_gone.
Qed.

(** The parts of the two packets the handshake reads. *)
Definition handshake_packet (pktType counter : Z) (payload : list Z) : parsedPacket :=
  {| Header := {| Version := 1; PType := pktType; HeaderLen := 28; ChannelId := 100; SenderId := 1002;
       Seq := 1; Flags := packetFlagControlAuthV1 |};
     Sec := {| ControlNonce := 0x12345678 * 2 ^ 32 + counter; MediaNonceBase := zeros 12;
       MediaCounter := 0; KeyID := 1 |};
     Payload := payload; Tag := []; Raw := [] |}.
Definition hello_packet : parsedPacket := handshake_packet pktAuthHello 0 [].
Definition hello_meta : controlAuthMeta := {| m_keyID := 1; m_sessionID := 0x12345678; m_counter := 0 |}.
Definition hello_time : time := Unix 1694498786.
Definition vector_challenge : list Z := put_be 20 0x65000000164304de5e5b6a7782f9657740ba0eaf.
Definition join_packet : parsedPacket := handshake_packet pktJoin 1 vector_challenge.
Definition join_meta : controlAuthMeta := {| m_keyID := 1; m_sessionID := 0x12345678; m_counter := 1 |}.
Definition hello_state : controlAuthState :=
  (createChallenge hello_packet (Some vector_addr) hello_meta hello_time hello_time vector_state).2.

Lemma join_challenge_once_witness :
  exists st a',
    consumeJoinChallenge join_packet (Some vector_addr) join_meta
      (hello_time + Second) (hello_time + Second) (hello_time + 2 * Second) hello_state = (Some st, a') /\
    (consumeJoinChallenge join_packet (Some vector_addr) join_meta hello_time hello_time hello_time
       (control_run [PreJoin join_packet (Some vector_addr) join_meta hello_time] a')).1 = None.
Proof.
  eexists _, _. split; [vm_compute; reflexivity|].
  eapply (join_challenge_once join_packet vector_addr join_meta (hello_time + Second) (hello_time + Second)
    (hello_time + 2 * Second) hello_state); [vm_compute; reflexivity|].
  repeat constructor. intros [].
Defined.

(** At most 1024 sessions await their JOIN, whatever the clients send. *)
Theorem provisional_sessions_bounded `{Entropy} pol ks secret a ops :
  newControlAuthState pol ks secret = inr a ->
  Z.of_nat (size (provisional (control_run ops a))) <= maxProvisionalControlSessions.
Proof.
  intros E. assert (provisional_bounded a) as Ha.
  { unfold newControlAuthState in E. unfold provisional_bounded.
    do 2 (case_match; [done|]). case_match; [by simplify_eq|].
    destruct (newRelayInstanceIDLocked _) as [[i|] a1] eqn:El; [|done]. simplify_eq. simpl.
    by rewrite (newRelayInstanceIDLocked_provisional _ _ _ El). }
  clear E. revert a Ha. induction ops as [|op ops IH]; intros a Ha; [exact Ha|].
  apply (IH (control_step a op)). by apply control_step_bounded.
Qed.

Lemma provisional_sessions_bounded_witness :
  exists a, @newControlAuthState counting_entropy controlAuthRequired (keys vector_state) (zeros 32) = inr a /\
    Z.of_nat (size (provisional (control_run
      [Hello hello_packet (Some vector_addr) hello_meta hello_time hello_time] a)))
    <= maxProvisionalControlSessions.
Proof.
  eexists. split; [reflexivity|].
  apply (@provisional_sessions_bounded counting_entropy controlAuthRequired (keys vector_state) (zeros 32)); done.
Defined.
