(* ===== verification/Base64.v ===== *)
(** * Unpadded base64url

    [base64.RawURLEncoding] of the Go library and [strictBase64URL]
    ([identity_admission.go]), the canonical form the segments of a ticket and
    of a grant must have. *)

From S2P Require Import Prelude.

Definition base64url_alphabet : list Z :=
  str_bytes "ABCDEFGHIJKLMNOPQRSTUVWXYZabcdefghijklmnopqrstuvwxyz0123456789-_".

Definition enc_char (i : Z) : Z := nth (Z.to_nat i) base64url_alphabet 0.

Definition dec_char (c : Z) : option Z :=
  (fun '(i, _) => Z.of_nat i) <$> list_find (fun x => x = c) base64url_alphabet.

(** [base64.RawURLEncoding.EncodeToString]. *)
Fixpoint RawURL_Encode (l : list Z) : list Z :=
  match l with
  | a :: b :: c :: r =>
      let n := a * 65536 + b * 256 + c in
      enc_char (n / 262144) :: enc_char (n / 4096 mod 64) :: enc_char (n / 64 mod 64)
        :: enc_char (n mod 64) :: RawURL_Encode r
  | [a; b] =>
      let n := a * 65536 + b * 256 in
      [enc_char (n / 262144); enc_char (n / 4096 mod 64); enc_char (n / 64 mod 64)]
  | [a] =>
      let n := a * 65536 in
      [enc_char (n / 262144); enc_char (n / 4096 mod 64)]
  | [] => []
  end.

(** The decoder skips carriage returns and line feeds, and does not look at the
    bits a shorter last quantum leaves over. *)
Fixpoint decode_quanta (l : list Z) : option (list Z) :=
  match l with
  | a :: b :: c :: d :: r =>
      a ← dec_char a; b ← dec_char b; c ← dec_char c; d ← dec_char d;
      let n := a * 262144 + b * 4096 + c * 64 + d in
      rest ← decode_quanta r;
      Some (n / 65536 :: n / 256 mod 256 :: n mod 256 :: rest)
  | [a; b; c] =>
      a ← dec_char a; b ← dec_char b; c ← dec_char c;
      let n := a * 262144 + b * 4096 + c * 64 in
      Some [n / 65536; n / 256 mod 256]
  | [a; b] =>
      a ← dec_char a; b ← dec_char b;
      let n := a * 262144 + b * 4096 in
      Some [n / 65536]
  | [_] => None
  | [] => Some []
  end.

(** [base64.RawURLEncoding.DecodeString], [None] its error. *)
Definition RawURL_Decode (l : list Z) : option (list Z) :=
  decode_quanta (filter (fun c => c <> 13 /\ c <> 10) l).

Definition strictBase64URL (value : list Z) : option (list Z) :=
  if bool_decide (value = []) || bool_decide (61 ∈ value) then None
  else
    match RawURL_Decode value with
    | None => None
    | Some decoded => if bytes_eqb (RawURL_Encode decoded) value then Some decoded else None
    end.

(** ** Lemmas *)

(** The induction of the two recursions: three bytes, or four characters, at a
    time. *)
Lemma list_ind3 {A} (P : list A -> Prop) :
  P [] -> (forall a, P [a]) -> (forall a b, P [a; b]) ->
  (forall a b c r, P r -> P (a :: b :: c :: r)) -> forall l, P l.
Proof.
  intros H0 H1 H2 H3. fix IH 1. intros [|a [|b [|c r]]]; [apply H0|apply H1|apply H2|].
  apply H3, IH.
Qed.

Definition char_ok (c : Z) : Prop := c <> 13 /\ c <> 10 /\ c <> 61 /\ 32 <= c < 127.

Lemma enc_char_table :
  Forall (fun i => dec_char (enc_char i) = Some i /\ char_ok (enc_char i)) (seqZ 0 64).
Proof.
  apply Forall_forall. intros i Hi. apply elem_of_seqZ in Hi. unfold char_ok.
  revert i Hi. apply (Forall_seqZ (fun i => dec_char (enc_char i) = Some i /\ enc_char i <> 13 /\ enc_char i <> 10 /\
    enc_char i <> 61 /\ 32 <= enc_char i < 127) 0 64). repeat constructor; vm_compute; congruence.
Qed.

Lemma dec_enc_char i : 0 <= i < 64 -> dec_char (enc_char i) = Some i.
Proof.
  intros Hi. pose proof enc_char_table as H. rewrite Forall_forall in H.
  apply H, elem_of_seqZ. lia.
Qed.

Lemma enc_char_ok i : 0 <= i < 64 -> char_ok (enc_char i).
Proof.
  intros Hi. pose proof enc_char_table as H. rewrite Forall_forall in H.
  apply H, elem_of_seqZ. lia.
Qed.

Lemma sextet_top n : 0 <= n < 16777216 -> 0 <= n / 262144 < 64.
Proof. intros. split; [apply Z.div_pos; lia|apply Z.div_lt_upper_bound; lia]. Qed.

Lemma sextet_low n : 0 <= n mod 64 < 64.
Proof. apply Z.mod_pos_bound. lia. Qed.

Lemma RawURL_Encode_all (P : Z -> Prop) l :
  (forall i, 0 <= i < 64 -> P (enc_char i)) -> bytes_ok l -> Forall P (RawURL_Encode l).
Proof.
  intros HP. unfold bytes_ok, is_u8. change (2 ^ 8) with 256.
  induction l as [|a|a b|a b c r IH] using list_ind3; intros Hl;
    [apply Forall_nil_2|..]; rewrite !Forall_cons in Hl; cbn [RawURL_Encode]; rewrite !Forall_cons;
    split_and!; try (apply HP, sextet_top; lia); try (apply HP, sextet_low);
    try apply Forall_nil_2.
  apply IH. tauto.
Qed.

Lemma RawURL_Encode_chars l : bytes_ok l -> Forall char_ok (RawURL_Encode l).
Proof. apply RawURL_Encode_all, enc_char_ok. Qed.

Lemma sextets n :
  0 <= n < 16777216 ->
  n / 262144 * 262144 + (n / 4096 mod 64) * 4096 + (n / 64 mod 64) * 64 + n mod 64 = n.
Proof.
  intros. change 262144 with (64 * 4096). change 4096 with (64 * 64).
  rewrite <- !Z.div_div by lia.
  pose proof (Z.div_mod n 64 ltac:(lia)). pose proof (Z.div_mod (n / 64) 64 ltac:(lia)).
  pose proof (Z.div_mod (n / 64 / 64) 64 ltac:(lia)). lia.
Qed.

Lemma octets a b c :
  0 <= b < 256 -> 0 <= c < 256 ->
  let n := a * 65536 + b * 256 + c in n / 65536 = a /\ n / 256 mod 256 = b /\ n mod 256 = c.
Proof.
  intros Hb Hc n. unfold n.
  replace (a * 65536 + b * 256 + c) with ((a * 256 + b) * 256 + c) by lia.
  change 65536 with (256 * 256). rewrite <- Z.div_div by lia.
  rewrite Z.div_add_l, (Z.div_small c), Z.add_0_r by lia.
  rewrite Z.div_add_l, (Z.div_small b), Z.add_0_r by lia.
  rewrite (Z.add_comm (_ * 256) c), Z.mod_add, (Z.mod_small c) by lia.
  by rewrite (Z.add_comm (a * 256) b), Z.mod_add, (Z.mod_small b) by lia.
Qed.

Lemma decode_encode l : bytes_ok l -> decode_quanta (RawURL_Encode l) = Some l.
Proof.
  unfold bytes_ok, is_u8. change (2 ^ 8) with 256.
  induction l as [|a|a b|a b c r IH] using list_ind3; intros Hl;
    repeat (rewrite Forall_cons in Hl); [done|..].
  - cbn -[Z.div Z.modulo enc_char dec_char].
    rewrite !dec_enc_char by (first [apply sextet_top; lia | apply sextet_low]). simpl mbind.
    pose proof (sextets (a * 65536) ltac:(lia)) as Hs. destruct (octets a 0 0); [lia..|].
    assert (a * 65536 / 64 mod 64 = 0 /\ a * 65536 mod 64 = 0) as [E1 E2].
    { replace (a * 65536) with (a * 1024 * 64) by lia. rewrite Z.div_mul, Z.mod_mul by lia.
      split; [|done]. replace (a * 1024) with (a * 16 * 64) by lia. by rewrite Z.mod_mul. }
    rewrite E1, E2 in Hs. f_equal. f_equal.
    replace (_ + _) with (a * 65536 + 0 * 256 + 0) by lia. done.
  - cbn -[Z.div Z.modulo enc_char dec_char].
    rewrite !dec_enc_char by (first [apply sextet_top; lia | apply sextet_low]). simpl mbind.
    pose proof (sextets (a * 65536 + b * 256) ltac:(lia)) as Hs.
    destruct (octets a b 0) as (O1 & O2 & _); [lia..|].
    assert ((a * 65536 + b * 256) mod 64 = 0) as E2.
    { replace (a * 65536 + b * 256) with ((a * 1024 + b * 4) * 64) by lia. by rewrite Z.mod_mul. }
    rewrite E2 in Hs. rewrite Z.add_0_r in *. rewrite Hs. by rewrite O1, O2.
  - cbn -[Z.div Z.modulo enc_char dec_char].
    rewrite !dec_enc_char by (first [apply sextet_top; lia | apply sextet_low]). simpl mbind.
    rewrite IH by (by destruct Hl as (_ & _ & _ & ?)). simpl mbind.
    rewrite (sextets (a * 65536 + b * 256 + c)) by lia.
    destruct (octets a b c) as (-> & -> & ->); [lia..|done].
Qed.

Lemma filter_line_breaks l : Forall char_ok l -> filter (fun c => c <> 13 /\ c <> 10) l = l.
Proof.
  induction 1 as [|c l (? & ? & _) _ IH]; [done|]. by rewrite filter_cons_True, IH.
Qed.

Lemma RawURL_Decode_Encode l : bytes_ok l -> RawURL_Decode (RawURL_Encode l) = Some l.
Proof.
  intros Hl. unfold RawURL_Decode. rewrite filter_line_breaks by by apply RawURL_Encode_chars.
  by apply decode_encode.
Qed.

Lemma dec_char_bound c i : dec_char c = Some i -> 0 <= i < 64.
Proof.
  unfold dec_char. intros E. apply fmap_Some in E as ([j x] & Hf & ->).
  apply list_find_Some in Hf as (Hl & _). apply lookup_lt_Some in Hl.
  change (length base64url_alphabet) with 64%nat in Hl. lia.
Qed.

Lemma decode_quanta_bytes l d : decode_quanta l = Some d -> bytes_ok d.
Proof.
  assert (forall n, 0 <= n < 16777216 -> is_u8 (n / 65536)) as Htop.
  { intros. split; [apply Z.div_pos; lia|apply Z.div_lt_upper_bound; lia]. }
  assert (forall n, is_u8 (n mod 256)) as Hmod by (intros; apply Z.mod_pos_bound; lia).
  revert d. assert (forall n l, (length l <= n)%nat -> forall d, decode_quanta l = Some d -> bytes_ok d) as H;
    [|by apply (H (length l))]. clear l.
  induction n as [|n IH]; intros [|a [|b [|c [|e r]]]] Hl d; cbn -[Z.div Z.modulo dec_char];
    intros E; simpl in Hl; try lia; try done; try (by simplify_eq; constructor);
    repeat match goal with
    | H : (dec_char ?x ≫= _) = _ |- _ => destruct (dec_char x) eqn:?; simpl in H; [|done]
    | H : (decode_quanta ?x ≫= _) = _ |- _ => destruct (decode_quanta x) eqn:?; simpl in H; [|done]
    | H : dec_char _ = Some _ |- _ => apply dec_char_bound in H
    end; simplify_eq;
    repeat (apply Forall_cons_2; [first [apply Hmod | apply Htop; lia]|]); try apply Forall_nil_2.
  apply (IH r); [lia|done].
Qed.

(** ** Properties *)

(** A ticket segment is accepted exactly when it is the canonical encoding of
    the bytes it yields: no padding, no line breaks, no spare bits, no second
    spelling of the same bytes. *)
Theorem strictBase64URL_canonical value decoded :
  strictBase64URL value = Some decoded <->
  value <> [] /\ bytes_ok decoded /\ RawURL_Encode decoded = value.
Proof.
  unfold strictBase64URL, bytes_eqb. split.
  - destruct (_ || _) eqn:Hg; [done|]. gobool.
    destruct (RawURL_Decode value) as [d|] eqn:E; [|done].
    case_bool_decide; [|done]. intros [= ->]. split_and!; [done| |done].
    by eapply decode_quanta_bytes.
  - intros (Hne & Hok & <-). pose proof (RawURL_Encode_chars _ Hok) as Hc.
    rewrite Forall_forall in Hc.
    rewrite (bool_decide_eq_false_2 _ Hne), bool_decide_eq_false_2 by (intros (_ & _ & ? & _)%Hc; done).
    simpl. rewrite RawURL_Decode_Encode by done. by rewrite bool_decide_eq_true_2.
Qed.
