(* ===== verification/Text.v ===== *)
(** * Text

    The functions of Go's [strings], [strconv] and [unicode/utf8] the
    configuration loaders use, on strings as lists of bytes: trimming of Unicode
    white space, case folding against an ASCII literal, decimal numbers, UTF-8
    validation, splitting and joining of lines. *)

From S2P Require Import Prelude.

(** ** White space *)

(** The encodings of the white space of Unicode. *)
Definition white_space : list (list Z) :=
  [[9]; [10]; [11]; [12]; [13]; [32]; [194; 133]; [194; 160]; [225; 154; 128]]
  ++ ((fun b => [226; 128; b]) <$> [128; 129; 130; 131; 132; 133; 134; 135; 136; 137; 138; 168; 169; 175])
  ++ [[226; 129; 159]; [227; 128; 128]].

Fixpoint strip_prefix (p l : list Z) : option (list Z) :=
  match p, l with
  | [], _ => Some l
  | a :: p', b :: l' => if a =? b then strip_prefix p' l' else None
  | _ :: _, [] => None
  end.

(** [strings.HasPrefix]. *)
Definition HasPrefix (l p : list Z) : bool := bool_decide (is_Some (strip_prefix p l)).

Fixpoint strip_any (ps : list (list Z)) (l : list Z) : option (list Z) :=
  match ps with
  | [] => None
  | p :: ps' => match strip_prefix p l with Some r => Some r | None => strip_any ps' l end
  end.

(** A prefix of [ps] is at least one byte, so the length is enough fuel. *)
Fixpoint trim_left (fuel : nat) (ps : list (list Z)) (l : list Z) : list Z :=
  match fuel with
  | O => l
  | S k => match strip_any ps l with Some r => trim_left k ps r | None => l end
  end.

(** [strings.TrimSpace]. *)
Definition TrimSpace (l : list Z) : list Z :=
  let left := trim_left (length l) white_space l in
  reverse (trim_left (length left) (reverse <$> white_space) (reverse left)).

(** ** Case *)

Definition lower (c : Z) : Z := if (65 <=? c) && (c <=? 90) then c + 32 else c.

(** [strings.ToLower], up to letters outside ASCII: of those only the dotted capital I and
    the Kelvin sign have an ASCII letter as their small letter, the others stay what they
    are here, which no ASCII word equals either way. *)
Fixpoint ToLower (s : list Z) : list Z :=
  match s with
  | 196 :: 176 :: s' => 105 :: ToLower s'
  | 226 :: 132 :: 170 :: s' => 107 :: ToLower s'
  | b :: s' => lower b :: ToLower s'
  | [] => []
  end.

(** [strings.EqualFold(s, t)] for an ASCII [t]: outside ASCII only the Kelvin sign
    and the long s fold to a letter of [t]. *)
Fixpoint EqualFold (s t : list Z) {struct t} : bool :=
  match t, s with
  | [], [] => true
  | c :: t', b :: s' =>
      if b <? 128 then (lower b =? lower c) && EqualFold s' t'
      else
        match s' with
        | 191 :: s'' => (b =? 197) && (lower c =? 115) && EqualFold s'' t'
        | 132 :: 170 :: s'' => (b =? 226) && (lower c =? 107) && EqualFold s'' t'
        | _ => false
        end
  | _, _ => false
  end.

(** ** Numbers *)

Definition is_digit (c : Z) : bool := (48 <=? c) && (c <=? 57).

Definition decimal (l : list Z) : Z := fold_left (fun acc c => acc * 10 + (c - 48)) l 0.

(** [strconv.ParseUint(value, 10, bits)]. *)
Definition ParseUint (value : list Z) (bits : Z) : option Z :=
  if bool_decide (value = []) || negb (forallb is_digit value) || (2 ^ bits <=? decimal value) then None
  else Some (decimal value).

Fixpoint format_go (fuel : nat) (v : Z) (acc : list Z) : list Z :=
  match fuel with
  | O => acc
  | S k => if v <? 10 then (48 + v) :: acc else format_go k (v / 10) ((48 + v mod 10) :: acc)
  end.

(** [strconv.FormatUint(v, 10)] of a 64-bit number, of at most 20 digits. *)
Definition FormatUint (v : Z) : list Z := format_go 20 v [].

(** ** UTF-8 *)

Definition cont (c : Z) : bool := (128 <=? c) && (c <=? 191).
Definition between (lo hi c : Z) : bool := (lo <=? c) && (c <=? hi).

(** The number of code points of a valid string, [None] for an invalid one
    ([utf8.ValidString] and [utf8.RuneCountInString]). *)
Fixpoint rune_count (l : list Z) : option nat :=
  match l with
  | [] => Some O
  | a :: l1 =>
      if a <? 128 then S <$> rune_count l1
      else
        match l1 with
        | b :: l2 =>
            if between 194 223 a then if cont b then S <$> rune_count l2 else None
            else
              match l2 with
              | c :: l3 =>
                  if between 224 239 a then
                    let second := if a =? 224 then between 160 191 b else if a =? 237 then between 128 159 b else cont b in
                    if second && cont c then S <$> rune_count l3 else None
                  else
                    match l3 with
                    | d :: l4 =>
                        if between 240 244 a then
                          let second := if a =? 240 then between 144 191 b else if a =? 244 then between 128 143 b else cont b in
                          if second && cont c && cont d then S <$> rune_count l4 else None
                        else None
                    | [] => None
                    end
              | [] => None
              end
        | [] => None
        end
  end.

(** ** Lines *)

(** [strings.ReplaceAll(s, CRLF, LF)]. *)
Fixpoint crlf_to_lf (l : list Z) : list Z :=
  match l with
  | 13 :: 10 :: r => 10 :: crlf_to_lf r
  | c :: r => c :: crlf_to_lf r
  | [] => []
  end.

(** [strings.Split] at a separator byte. *)
Fixpoint split_byte (sep : Z) (l : list Z) : list (list Z) :=
  match l with
  | [] => [[]]
  | c :: r =>
      if c =? sep then [] :: split_byte sep r
      else match split_byte sep r with
           | field :: fields => (c :: field) :: fields
           | [] => [[c]]
           end
  end.

(** [strings.Join] with a separator byte. *)
Fixpoint join_byte (sep : Z) (l : list (list Z)) : list Z :=
  match l with
  | [] => []
  | [x] => x
  | x :: r => x ++ sep :: join_byte sep r
  end.

(** ** CSV *)

(** [encoding/csv]: [ReadAll] of records with any number of fields, and of records
    with as many fields as the first. *)
Class CSV := {
  csv_ReadAll : list Z -> option (list (list (list Z)));
  csv_ReadAll_strict : list Z -> option (list (list (list Z)))
}.

(** A reader of plain fields, without quotes. *)
Definition plain_csv : CSV :=
  {| csv_ReadAll := fun data => Some (split_byte 44 <$> split_byte 10 data);
     csv_ReadAll_strict := fun data => Some (split_byte 44 <$> split_byte 10 data) |}.

Example trim_both : TrimSpace (str_bytes " a b " ++ [194; 160; 227; 128; 128; 9]) = str_bytes "a b".
Proof. vm_compute. reflexivity. Qed.
Example fold_kelvin : EqualFold ([67; 104; 226; 132; 170] ++ [115]) (str_bytes "chks") = true.
Proof. vm_compute. reflexivity. Qed.
Example lower_dotted : ToLower (str_bytes "OPT" ++ [196; 176] ++ str_bytes "onAL") = str_bytes "optional".
Proof. vm_compute. reflexivity. Qed.
Example rune_count_mixed : rune_count ([65; 227; 131; 129] ++ [240; 159; 148; 146]) = Some 3%nat.
Proof. vm_compute. reflexivity. Qed.
Example rune_count_surrogate : rune_count [237; 160; 128] = None.
Proof. vm_compute. reflexivity. Qed.

(** ** Lemmas *)

Lemma decimal_from_nonneg l : forall acc, 0 <= acc -> forallb is_digit l = true ->
  0 <= fold_left (fun acc c => acc * 10 + (c - 48)) l acc.
Proof.
  induction l as [|c l IH]; intros acc Ha Hd; simpl in *; [done|]. apply andb_true_iff in Hd as [Hc Hd].
  unfold is_digit in Hc. gobool. apply IH; [lia|done].
Qed.

Lemma decimal_nonneg l : forallb is_digit l = true -> 0 <= decimal l.
Proof. by apply decimal_from_nonneg. Qed.

Lemma ParseUint_bound value bits v : ParseUint value bits = Some v -> 0 <= v < 2 ^ bits.
Proof.
  unfold ParseUint. destruct (_ || _) eqn:E; [done|]. intros [= <-]. gobool. split; [by apply decimal_nonneg|done].
Qed.

Lemma decimal_snoc l c : decimal (l ++ [c]) = decimal l * 10 + (c - 48).
Proof. unfold decimal. by rewrite fold_left_app. Qed.

Lemma format_go_spec fuel : forall v acc, 0 <= v < 10 ^ Z.of_nat fuel ->
  exists ds, format_go fuel v acc = ds ++ acc /\ decimal ds = v /\ (forallb is_digit ds = true) /\ (fuel <> O -> ds <> []).
Proof.
  induction fuel as [|k IH]; intros v acc Hv; [exists []; split_and!; try done; unfold decimal; simpl in *; lia|].
  cbn [format_go]. destruct (v <? 10) eqn:E; gobool.
  - exists [48 + v]. split_and!; try done; [unfold decimal; simpl; lia|]. cbn. unfold is_digit.
    rewrite !andb_true_r. apply andb_true_iff. split; apply Z.leb_le; lia.
  - rewrite Nat2Z.inj_succ, Z.pow_succ_r in Hv by lia.
    destruct (IH (v / 10) ((48 + v mod 10) :: acc)) as (ds & -> & Hd & Hdig & Hne).
    { split; [apply Z.div_pos; lia|apply Z.div_lt_upper_bound; lia]. }
    exists (ds ++ [48 + v mod 10]). rewrite <- app_assoc. split_and!; [done| | |by destruct ds].
    + rewrite decimal_snoc, Hd. pose proof (Z.div_mod v 10 ltac:(lia)). lia.
    + rewrite forallb_app, Hdig. cbn. unfold is_digit. pose proof (Z.mod_pos_bound v 10 ltac:(lia)).
      rewrite andb_true_r. apply andb_true_iff. split; apply Z.leb_le; lia.
Qed.

Lemma ParseUint_Format v bits : 0 <= v < 2 ^ bits -> bits <= 64 -> ParseUint (FormatUint v) bits = Some v.
Proof.
  intros Hv Hb. assert (2 ^ bits <= 2 ^ 64) by (apply Z.pow_le_mono_r; lia).
  destruct (format_go_spec 20 v []) as (ds & E & Hd & Hdig & Hne); [change (10 ^ Z.of_nat 20) with 100000000000000000000; lia|].
  unfold FormatUint. rewrite E, app_nil_r. unfold ParseUint. rewrite bool_decide_eq_false_2 by by apply Hne.
  rewrite Hdig, Hd. cbn [negb orb]. by rewrite (proj2 (Z.leb_gt _ _)) by lia.
Qed.
