(* ===== verification/Identity.v ===== *)
(** * Identity Admission

    [identity_admission.go]: the validation of an identity ticket, the
    challenge and proof-of-possession exchange before a JOIN, and the admission a
    peer carries afterwards. *)

From S2P Require Import Prelude GoTime GoNet Sha256 Base64 Text Packet ControlAuth.

Definition identityTicketMaxBytes : Z := 768.
Definition identityChallengeTTL : duration := 30 * Second.
Definition identityPermissionListen : Z := 1.
Definition identityPermissionTalk : Z := 2.
Definition identityPermissionInterrupt : Z := 4.
Definition maxPendingIdentityAdmissions : Z := 1024.
Definition identityDenyAdmissionRequired : Z := 0.
Definition identityDenyInvalidTicket : Z := 1.
Definition identityDenyTicketExpired : Z := 2.
Definition identityDenyScopeMismatch : Z := 3.
Definition identityDenyPermissionDenied : Z := 4.
Definition identityDenyInvalidProof : Z := 5.

(** Sizes of an Ed25519 public key and signature. *)
Definition PublicKeySize : Z := 32.
Definition SignatureSize : Z := 64.

Inductive identityAdmissionMode := identityAdmissionOff | identityAdmissionOptional | identityAdmissionRequired.

#[export] Instance identityAdmissionMode_eq_dec : EqDecision identityAdmissionMode.
Proof. solve_decision. Defined.

(** kid to public key. *)
Abbreviation identitySigningKeyStore := (gmap string (list Z)).

Record identityAdmissionKey := {
  ik_channelID : Z; ik_senderID : Z; ik_sessionID : Z; ik_address : string
}.

#[export] Instance identityAdmissionKey_eq_dec : EqDecision identityAdmissionKey.
Proof. solve_decision. Defined.
#[export] Instance identityAdmissionKey_countable : Countable identityAdmissionKey.
Proof.
  refine (inj_countable'
    (fun k => (ik_channelID k, ik_senderID k, ik_sessionID k, ik_address k))
    (fun '(a, b, c, d) => Build_identityAdmissionKey a b c d) _).
  by intros [].
Defined.

Record identityAdmission := {
  ia_permissions : Z; ia_priority : Z; ia_expiresAt : time;
  ia_ticketHash : list Z; ia_actorIDHash : list Z
}.

Definition zero_identity : identityAdmission :=
  {| ia_permissions := 0; ia_priority := 0; ia_expiresAt := zero_time;
     ia_ticketHash := zeros 32; ia_actorIDHash := zeros 16 |}.

Record identityPendingAdmission := {
  ip_admission : identityAdmission; ip_publicKey : list Z;
  ip_challenge : list Z; ip_expiresAt : time
}.

Record identityAdmissionFailure := { if_reason : Z; if_expiresAt : time }.

Record identityTicketHeader := { th_Algorithm : string; th_KeyID : string; th_Type : string }.

Record identityTicketClaims := {
  tc_Issuer : string; tc_Audience : string; tc_Subject : string; tc_TicketID : string;
  tc_IssuedAt : Z; tc_ExpiresAt : Z; tc_ChannelID : Z; tc_SenderID : Z;
  tc_Permissions : Z; tc_Priority : option Z; tc_JWKThumbprint : string
}.

Record identityAdmissionState := {
  id_mode : identityAdmissionMode; id_issuer : string; id_audience : string;
  id_keys : identitySigningKeyStore;
  id_pending : gmap identityAdmissionKey identityPendingAdmission;
  id_verified : gmap identityAdmissionKey identityAdmission;
  id_failed : gmap identityAdmissionKey identityAdmissionFailure
}.

(** [ed25519.Verify publicKey message sig]. *)
Class Ed25519 := { Verify : list Z -> list Z -> list Z -> bool }.

(** [json.Unmarshal] into the two structs of a ticket, [None] its error.  A
    number that does not fit its field is an error of the decoder. *)
Definition claims_fit (c : identityTicketClaims) : Prop :=
  - 2 ^ 63 <= tc_IssuedAt c < 2 ^ 63 /\ - 2 ^ 63 <= tc_ExpiresAt c < 2 ^ 63 /\
  is_u32 (tc_ChannelID c) /\ is_u32 (tc_SenderID c) /\ is_u8 (tc_Permissions c) /\
  match tc_Priority c with None => True | Some p => is_u8 p end.

Class TicketJSON := {
  unmarshal_header : list Z -> option identityTicketHeader;
  unmarshal_claims : list Z -> option identityTicketClaims;
  unmarshal_claims_fit : forall raw c, unmarshal_claims raw = Some c -> claims_fit c
}.

Definition set_identity (a : identityAdmissionState) pend ver fail : identityAdmissionState :=
  {| id_mode := id_mode a; id_issuer := id_issuer a; id_audience := id_audience a;
     id_keys := id_keys a; id_pending := pend; id_verified := ver; id_failed := fail |}.

(** [strings.Split(value, ".")] of the bytes of a string. *)
Fixpoint split_dots (value : list Z) : list (list Z) :=
  match value with
  | [] => [[]]
  | c :: r =>
      if c =? 46 then [] :: split_dots r
      else match split_dots r with
           | [] => [[c]]
           | seg :: segs => (c :: seg) :: segs
           end
  end.

(** [strings.TrimSpace(s) == ""]. *)
Definition blank (s : string) : bool := bytes_eqb (TrimSpace (str_bytes s)) [].

(** [newIdentityAdmissionState] *)
Definition newIdentityAdmissionState (mode : identityAdmissionMode) (issuer audience : string)
    (ks : identitySigningKeyStore) : string + option identityAdmissionState :=
  match mode with
  | identityAdmissionOff => inr None
  | _ =>
      if blank issuer || blank audience
      then inl "identity admission requires a configured issuer and audience"%string
      else if (size ks =? 0)%nat
      then inl "identity admission requires at least one Ed25519 signing key"%string
      else inr (Some {| id_mode := mode; id_issuer := issuer; id_audience := audience;
             id_keys := ks; id_pending := ∅; id_verified := ∅; id_failed := ∅ |})
  end.

Definition identityKeyForPacket (pkt : parsedPacket) (addr : option UDPAddr) (sessionID : Z)
    : identityAdmissionKey :=
  {| ik_channelID := ChannelId (Header pkt); ik_senderID := SenderId (Header pkt);
     ik_sessionID := sessionID; ik_address := peerMapKey addr |}.

Section identity.
Context `{Ed25519} `{TicketJSON}.

(** [validateTicket]; [inl] is the deny reason. *)
Definition validateTicket (a : identityAdmissionState) (ticket publicKey : list Z)
    (channelID senderID : Z) (now : time) : Z + identityAdmission :=
  if (len ticket =? 0) || (identityTicketMaxBytes <? len ticket) || negb (len publicKey =? PublicKeySize)
  then inl identityDenyInvalidTicket
  else if existsb (fun value => 0x7f <? value) ticket then inl identityDenyInvalidTicket
  else
  match split_dots ticket with
  | [seg0; seg1; seg2] =>
    match strictBase64URL seg0, strictBase64URL seg1, strictBase64URL seg2 with
    | Some headerRaw, Some payloadRaw, Some signature =>
      if negb (len signature =? SignatureSize) then inl identityDenyInvalidTicket
      else
      match unmarshal_header headerRaw, unmarshal_claims payloadRaw with
      | Some header, Some claims =>
        let issuerKey := default [] (id_keys a !! th_KeyID header) in
        if negb (String.eqb (th_Algorithm header) "EdDSA")
           || negb (String.eqb (th_Type header) "incomudon-admission+jwt")
           || negb (len issuerKey =? PublicKeySize)
           || negb (Verify issuerKey (seg0 ++ [46] ++ seg1) signature)
        then inl identityDenyInvalidTicket
        else if (tc_IssuedAt claims <=? 0) || (tc_ExpiresAt claims <=? tc_IssuedAt claims)
           || (300 <? i64 (tc_ExpiresAt claims - tc_IssuedAt claims))
           || negb (After (Unix (tc_ExpiresAt claims)) now)
           || After (Unix (tc_IssuedAt claims)) (Add now (30 * Second))
        then inl identityDenyTicketExpired
        else if negb (String.eqb (tc_Issuer claims) (id_issuer a))
           || negb (String.eqb (tc_Audience claims) (id_audience a))
           || negb (tc_ChannelID claims =? channelID) || negb (tc_SenderID claims =? senderID)
           || (tc_SenderID claims =? 0)
        then inl identityDenyScopeMismatch
        else if String.eqb (tc_Subject claims) "" || String.eqb (tc_TicketID claims) ""
           || negb (Z.land (tc_Permissions claims) (Z.lxor 0xff 0x07) =? 0)
           || (Z.land (tc_Permissions claims) identityPermissionListen =? 0)
        then inl identityDenyPermissionDenied
        else if flag_set (tc_Permissions claims) identityPermissionInterrupt
           && ((Z.land (tc_Permissions claims) identityPermissionTalk =? 0)
               || match tc_Priority claims with None => true | Some p => p =? 0 end)
        then inl identityDenyPermissionDenied
        else if negb (flag_set (tc_Permissions claims) identityPermissionInterrupt)
           && match tc_Priority claims with None => false | Some _ => true end
        then inl identityDenyPermissionDenied
        else
          let digest := sha256 publicKey in
          if String.eqb (tc_JWKThumbprint claims) ""
             || negb (bytes_eqb (str_bytes (tc_JWKThumbprint claims)) (RawURL_Encode digest))
          then inl identityDenyScopeMismatch
          else
            inr {| ia_permissions := tc_Permissions claims;
                   ia_priority := default 0 (tc_Priority claims);
                   ia_expiresAt := Unix (tc_ExpiresAt claims);
                   ia_ticketHash := sha256 ticket;
                   ia_actorIDHash := take 16 (sha256 (str_bytes (tc_Subject claims))) |}
      | _, _ => inl identityDenyInvalidTicket
      end
    | _, _, _ => inl identityDenyInvalidTicket
    end
  | _ => inl identityDenyInvalidTicket
  end.

(** [cleanupLocked]. *)
Definition identity_cleanupLocked (now : time) (a : identityAdmissionState) : identityAdmissionState :=
  set_identity a (purge ip_expiresAt now (id_pending a)) (purge ia_expiresAt now (id_verified a))
    (purge if_expiresAt now (id_failed a)).

Definition identity_fail (k : identityAdmissionKey) (reason : Z) (now : time)
    (fails : gmap identityAdmissionKey identityAdmissionFailure) :=
  <[k := {| if_reason := reason; if_expiresAt := Add now identityChallengeTTL |}]> fails.

(** [begin]: [rnd] is the challenge read from the random source, [None] its
    error; [inl] is the deny reason and [inr] the payload of the challenge. *)
Definition identity_begin (oa : option identityAdmissionState) (pkt : parsedPacket)
    (addr : option UDPAddr) (meta : controlAuthMeta) (now : time) (rnd : option (list Z))
    : (Z + list Z) * option identityAdmissionState :=
  match oa with
  | None => (inl identityDenyInvalidTicket, None)
  | Some a =>
    if len (Payload pkt) <? 2 + PublicKeySize then (inl identityDenyInvalidTicket, Some a)
    else
    let ticketLength := get_be (sub (Payload pkt) 0 2) in
    if (ticketLength <? 1) || (identityTicketMaxBytes <? ticketLength)
       || negb (len (Payload pkt) =? 2 + ticketLength + PublicKeySize)
    then (inl identityDenyInvalidTicket, Some a)
    else
    let ticket := sub (Payload pkt) 2 (Z.to_nat ticketLength) in
    let publicKey := drop (2 + Z.to_nat ticketLength) (Payload pkt) in
    let validated := validateTicket a ticket publicKey (ChannelId (Header pkt)) (SenderId (Header pkt)) now in
    let k := identityKeyForPacket pkt addr (m_sessionID meta) in
    let a1 := identity_cleanupLocked now a in
    match validated with
    | inl denyReason =>
        (inl denyReason, Some (set_identity a1 (id_pending a1) (id_verified a1)
           (identity_fail k denyReason now (id_failed a1))))
    | inr admission =>
        if maxPendingIdentityAdmissions <=? Z.of_nat (size (id_pending a1)) then
          (inl identityDenyInvalidTicket, Some (set_identity a1 (id_pending a1) (id_verified a1)
             (identity_fail k identityDenyInvalidTicket now (id_failed a1))))
        else
        match rnd with
        | None => (inl identityDenyInvalidTicket, Some a1)
        | Some challenge =>
            let ttl := Add now identityChallengeTTL in
            let challengeExpiry := if Before (ia_expiresAt admission) ttl then ia_expiresAt admission else ttl in
            (inr (put_be 4 (u32 (toUnix challengeExpiry)) ++ challenge),
             Some (set_identity a1
               (<[k := {| ip_admission := admission; ip_publicKey := publicKey;
                          ip_challenge := challenge; ip_expiresAt := challengeExpiry |}]> (id_pending a1))
               (id_verified a1) (delete k (id_failed a1))))
        end
    end
  end.

Definition identityProofMessage (challenge : list Z) (channelID senderID : Z) (ticketHash : list Z) : list Z :=
  sha256 (str_bytes "incomudon-identity-admission-v1" ++ [0] ++ challenge
    ++ put_be 4 channelID ++ put_be 4 senderID ++ ticketHash).

(** [proof]: the deny reason, [0] when the proof is accepted. *)
Definition identity_proof (oa : option identityAdmissionState) (pkt : parsedPacket)
    (addr : option UDPAddr) (meta : controlAuthMeta) (now : time)
    : Z * option identityAdmissionState :=
  match oa with
  | None => (identityDenyInvalidProof, None)
  | Some a =>
    if negb (len (Payload pkt) =? SignatureSize) then (identityDenyInvalidProof, Some a)
    else
    let k := identityKeyForPacket pkt addr (m_sessionID meta) in
    let a1 := identity_cleanupLocked now a in
    let refuse pend :=
      (identityDenyInvalidProof, Some (set_identity a1 pend (id_verified a1)
         (identity_fail k identityDenyInvalidProof now (id_failed a1)))) in
    match id_pending a1 !! k with
    | None => refuse (id_pending a1)
    | Some pending =>
        if negb (After (ip_expiresAt pending) now) then refuse (id_pending a1)
        else
        let message := identityProofMessage (ip_challenge pending) (ChannelId (Header pkt))
                         (SenderId (Header pkt)) (ia_ticketHash (ip_admission pending)) in
        if negb (Verify (ip_publicKey pending) message (Payload pkt))
        then refuse (delete k (id_pending a1))
        else
          (0, Some (set_identity a1 (delete k (id_pending a1))
                (<[k := ip_admission pending]> (id_verified a1)) (delete k (id_failed a1))))
    end
  end.

(** [takeVerifiedAdmission]. *)
Definition identity_takeVerifiedAdmission (oa : option identityAdmissionState) (pkt : parsedPacket)
    (addr : option UDPAddr) (meta : controlAuthMeta) (now : time)
    : option identityAdmission * option identityAdmissionState :=
  match oa with
  | None => (None, None)
  | Some a =>
    let k := identityKeyForPacket pkt addr (m_sessionID meta) in
    let a1 := identity_cleanupLocked now a in
    match id_verified a1 !! k with
    | None => (None, Some a1)
    | Some admission =>
        if negb (After (ia_expiresAt admission) now) then (None, Some a1)
        else (Some admission, Some (set_identity a1 (id_pending a1) (delete k (id_verified a1)) (id_failed a1)))
    end
  end.

(** [admissionForJoin]: [inl] the deny reason, [inr] the admission to attach,
    [zero_identity] when the JOIN needs none. *)
Definition identity_admissionForJoin (oa : option identityAdmissionState) (pkt : parsedPacket)
    (addr : option UDPAddr) (meta : controlAuthMeta) (now : time)
    : (Z + identityAdmission) * option identityAdmissionState :=
  match oa with
  | None => (inr zero_identity, None)
  | Some a =>
    let k := identityKeyForPacket pkt addr (m_sessionID meta) in
    let a1 := identity_cleanupLocked now a in
    let rest :=
      match id_failed a1 !! k with
      | Some failure => (inl (if_reason failure), Some a1)
      | None =>
        match id_pending a1 !! k with
        | Some _ => (inl identityDenyInvalidProof, Some a1)
        | None =>
          if bool_decide (id_mode a1 = identityAdmissionRequired)
          then (inl identityDenyAdmissionRequired, Some a1)
          else (inr zero_identity, Some a1)
        end
      end in
    match id_verified a1 !! k with
    | Some admission =>
        if After (ia_expiresAt admission) now
        then (inr admission, Some (set_identity a1 (id_pending a1) (delete k (id_verified a1)) (id_failed a1)))
        else rest
    | None => rest
    end
  end.

Definition identity_isRequired (oa : option identityAdmissionState) : bool :=
  match oa with None => false | Some a => bool_decide (id_mode a = identityAdmissionRequired) end.

Definition identity_isEnabled (oa : option identityAdmissionState) : bool :=
  match oa with None => false | Some a => negb (bool_decide (id_mode a = identityAdmissionOff)) end.

Definition admissionAllowsTalk (admission : option identityAdmission) (now : time) (required : bool) : bool :=
  match admission with
  | None => negb required
  | Some ad => After (ia_expiresAt ad) now && flag_set (ia_permissions ad) identityPermissionTalk
  end.

Definition admissionAllowsInterrupt (admission : option identityAdmission) (now : time) : bool :=
  match admission with
  | None => false
  | Some ad =>
      After (ia_expiresAt ad) now && flag_set (ia_permissions ad) identityPermissionTalk
      && flag_set (ia_permissions ad) identityPermissionInterrupt && negb (ia_priority ad =? 0)
  end.
End identity.

(** ** Lemmas *)

Lemma default_modes a k : default [] (id_keys a !! k) <> [] -> id_keys a !! k = Some (default [] (id_keys a !! k)).
Proof. destruct (id_keys a !! k); simpl; done. Qed.

(** The operations on the admission state, and their effect. *)
Section machine.
Context `{Ed25519} `{TicketJSON}.

Inductive identity_op :=
| OpBegin (pkt : parsedPacket) (addr : option UDPAddr) (meta : controlAuthMeta) (now : time) (rnd : option (list Z))
| OpProof (pkt : parsedPacket) (addr : option UDPAddr) (meta : controlAuthMeta) (now : time)
| OpTake (pkt : parsedPacket) (addr : option UDPAddr) (meta : controlAuthMeta) (now : time)
| OpJoin (pkt : parsedPacket) (addr : option UDPAddr) (meta : controlAuthMeta) (now : time).

Definition identity_step (oa : option identityAdmissionState) (op : identity_op) : option identityAdmissionState :=
  match op with
  | OpBegin p addr m now rnd => (identity_begin oa p addr m now rnd).2
  | OpProof p addr m now => (identity_proof oa p addr m now).2
  | OpTake p addr m now => (identity_takeVerifiedAdmission oa p addr m now).2
  | OpJoin p addr m now => (identity_admissionForJoin oa p addr m now).2
  end.

Definition identity_run (oa : option identityAdmissionState) (ops : list identity_op) : option identityAdmissionState :=
  fold_left identity_step ops oa.

(** A BEGIN among [ops] presented a ticket that validates to the pending
    admission, for the endpoint [k]. *)
Definition begun (a : identityAdmissionState) (ops : list identity_op) (k : identityAdmissionKey)
    (p : identityPendingAdmission) : Prop :=
  exists pkt addr meta now ticket,
    OpBegin pkt addr meta now (Some (ip_challenge p)) ∈ ops /\
    identityKeyForPacket pkt addr (m_sessionID meta) = k /\
    drop 2 (Payload pkt) = ticket ++ ip_publicKey p /\
    validateTicket a ticket (ip_publicKey p) (ik_channelID k) (ik_senderID k) now = inr (ip_admission p).

(** A PROOF among [ops] signed the challenge of [p] for the endpoint [k]. *)
Definition proved (ops : list identity_op) (k : identityAdmissionKey) (p : identityPendingAdmission) : Prop :=
  exists pkt addr meta now,
    OpProof pkt addr meta now ∈ ops /\
    identityKeyForPacket pkt addr (m_sessionID meta) = k /\
    Verify (ip_publicKey p)
      (identityProofMessage (ip_challenge p) (ik_channelID k) (ik_senderID k)
         (ia_ticketHash (ip_admission p))) (Payload pkt) = true.

(** What is configured does not change, and what is pending or verified was
    begun and proved by an earlier operation. *)
Record identity_history (a0 : identityAdmissionState) (ops : list identity_op) (a : identityAdmissionState) : Prop := {
  ih_conf : id_mode a = id_mode a0 /\ id_issuer a = id_issuer a0 /\
    id_audience a = id_audience a0 /\ id_keys a = id_keys a0;
  ih_pending : forall k p, id_pending a !! k = Some p -> begun a0 ops k p;
  ih_verified : forall k ad, id_verified a !! k = Some ad ->
    exists p, ip_admission p = ad /\ begun a0 ops k p /\ proved ops k p
}.

Lemma validateTicket_conf a a0 t pk ch sd now :
  id_issuer a = id_issuer a0 -> id_audience a = id_audience a0 -> id_keys a = id_keys a0 ->
  validateTicket a t pk ch sd now = validateTicket a0 t pk ch sd now.
Proof. unfold validateTicket. by intros -> -> ->. Qed.

Lemma begun_mono a ops ops' k p : begun a ops k p -> begun a (ops ++ ops') k p.
Proof.
  intros (pkt & addr & m & now & t & Hin & ?). exists pkt, addr, m, now, t.
  split; [|done]. rewrite elem_of_app. by left.
Qed.

Lemma proved_mono ops ops' k p : proved ops k p -> proved (ops ++ ops') k p.
Proof.
  intros (pkt & addr & m & now & Hin & ?). exists pkt, addr, m, now.
  split; [|done]. rewrite elem_of_app. by left.
Qed.

(** Whatever only drops entries keeps the history. *)
Lemma history_shrink a0 ops a ops' pend ver fail :
  identity_history a0 ops a -> pend ⊆ id_pending a -> ver ⊆ id_verified a ->
  identity_history a0 (ops ++ ops') (set_identity a pend ver fail).
Proof.
  intros [Hc Hp Hv] Sp Sv. split; [done|..]; simpl.
  - intros k p Hk. apply begun_mono, Hp. by eapply lookup_weaken.
  - intros k ad Hk. destruct (Hv k ad) as (p & ? & ? & ?); [by eapply lookup_weaken|].
    exists p. split_and!; [done|by apply begun_mono|by apply proved_mono].
Qed.

Lemma set_identity_twice a p v f p' v' f' :
  set_identity (set_identity a p v f) p' v' f' = set_identity a p' v' f'.
Proof. done. Qed.

Lemma sub_drop {A} (l : list A) n : sub l 2 n ++ drop (2 + n) l = drop 2 l.
Proof. unfold sub. by rewrite <- drop_drop, take_drop. Qed.

(** A BEGIN adds at most its own entry. *)
Lemma begin_history a0 ops a p addr m now rnd :
  identity_history a0 ops a ->
  exists a', (identity_begin (Some a) p addr m now rnd).2 = Some a' /\
    identity_history a0 (ops ++ [OpBegin p addr m now rnd]) a'.
Proof.
  intros Hh.
  assert (forall ops' fail, identity_history a0 (ops ++ ops') (set_identity a
    (purge ip_expiresAt now (id_pending a)) (purge ia_expiresAt now (id_verified a)) fail)) as Hc.
  { intros. apply history_shrink; [done|apply purge_subseteq..]. }
  assert (identity_history a0 (ops ++ [OpBegin p addr m now rnd]) a) as Hsame.
  { replace a with (set_identity a (id_pending a) (id_verified a) (id_failed a)) at 1 by by destruct a.
    by apply history_shrink. }
  unfold identity_begin, identity_cleanupLocked.
  do 2 (case_match; [eexists; split; [done|exact Hsame]|]).
  destruct (validateTicket _ _ _ _ _ _) as [d|ad] eqn:Hv; [eexists; split; [done|]; apply Hc|].
  case_match; [eexists; split; [done|]; apply Hc|].
  destruct rnd as [ch|]; [|eexists; split; [done|]; apply Hc].
  eexists. split; [done|]. rewrite set_identity_twice. destruct (Hc [OpBegin p addr m now (Some ch)] ∅) as [Hcf Hp Hver].
  split; simpl in *; [done| |done].
  intros k q [[<- <-]|[? Hk]]%lookup_insert_Some; [|by apply Hp].
  exists p, addr, m, now. eexists. split_and!; simpl.
  - rewrite elem_of_app, list_elem_of_singleton. by right.
  - done.
  - symmetry. apply sub_drop.
  - destruct Hcf as (_ & Ei & Ea & Ek). by erewrite <- validateTicket_conf.
Qed.

(** A PROOF moves the pending entry it verifies. *)
Lemma proof_history a0 ops a p addr m now :
  identity_history a0 ops a ->
  exists a', (identity_proof (Some a) p addr m now).2 = Some a' /\
    identity_history a0 (ops ++ [OpProof p addr m now]) a'.
Proof.
  intros Hh. set (op := OpProof p addr m now).
  assert (forall pend fail, pend ⊆ id_pending a -> identity_history a0 (ops ++ [op]) (set_identity a
    pend (purge ia_expiresAt now (id_verified a)) fail)) as Hc.
  { intros. apply history_shrink; [done..|apply purge_subseteq]. }
  pose proof (purge_subseteq ip_expiresAt now (id_pending a)) as Sp.
  pose proof (fun k => transitivity (delete_subseteq (purge ip_expiresAt now (id_pending a)) k) Sp) as Sd.
  unfold identity_proof, identity_cleanupLocked. cbn [id_pending id_verified set_identity].
  case_match; [eexists; split; [done|]|].
  { replace a with (set_identity a (id_pending a) (id_verified a) (id_failed a)) at 1 by by destruct a.
    by apply history_shrink. }
  destruct (purge _ _ _ !! _) as [q|] eqn:Hq; [|eexists; split; [done|]; by apply Hc].
  case_match; [eexists; split; [done|]; by apply Hc|].
  case_match; [eexists; split; [done|]; by apply Hc|]. gobool.
  eexists. split; [done|]. rewrite set_identity_twice.
  destruct (Hc _ ∅ (Sd (identityKeyForPacket p addr (m_sessionID m)))) as [Hcf Hp Hver].
  split; simpl in *; [done|exact Hp|].
  intros k ad [[<- <-]|[? Hk]]%lookup_insert_Some; [|by apply Hver].
  exists q. split_and!; [done| |].
  - apply begun_mono. eapply ih_pending; [done|]. by eapply lookup_weaken.
  - exists p, addr, m, now. split_and!; [|done|done]. rewrite elem_of_app, list_elem_of_singleton. by right.
Qed.

(** The other two operations only remove entries. *)
Lemma take_shrinks a p addr m now :
  exists pend ver fail, (identity_takeVerifiedAdmission (Some a) p addr m now).2
    = Some (set_identity a pend ver fail) /\ pend ⊆ id_pending a /\ ver ⊆ id_verified a.
Proof.
  pose proof (purge_subseteq ip_expiresAt now (id_pending a)) as Sp.
  pose proof (purge_subseteq ia_expiresAt now (id_verified a)) as Sv.
  unfold identity_takeVerifiedAdmission, identity_cleanupLocked.
  repeat case_match; do 3 eexists; split_and!; try done.
  etrans; [apply delete_subseteq|done].
Qed.

Lemma join_shrinks a p addr m now :
  exists pend ver fail, (identity_admissionForJoin (Some a) p addr m now).2
    = Some (set_identity a pend ver fail) /\ pend ⊆ id_pending a /\ ver ⊆ id_verified a.
Proof.
  pose proof (purge_subseteq ip_expiresAt now (id_pending a)) as Sp.
  pose proof (purge_subseteq ia_expiresAt now (id_verified a)) as Sv.
  unfold identity_admissionForJoin, identity_cleanupLocked.
  repeat case_match; do 3 eexists; split_and!; try done.
  etrans; [apply delete_subseteq|done].
Qed.

Lemma identity_step_history a0 ops a op :
  identity_history a0 ops a ->
  exists a', identity_step (Some a) op = Some a' /\ identity_history a0 (ops ++ [op]) a'.
Proof.
  intros Hh. destruct op as [p addr m now rnd|p addr m now|p addr m now|p addr m now]; unfold identity_step.
  - by apply begin_history.
  - by apply proof_history.
  - destruct (take_shrinks a p addr m now) as (? & ? & ? & -> & ? & ?). eexists. split; [done|].
    by apply history_shrink.
  - destruct (join_shrinks a p addr m now) as (? & ? & ? & -> & ? & ?). eexists. split; [done|].
    by apply history_shrink.
Qed.

Lemma identity_run_history a0 ops ops' a :
  identity_history a0 ops a ->
  exists a', identity_run (Some a) ops' = Some a' /\ identity_history a0 (ops ++ ops') a'.
Proof.
  revert ops a. induction ops' as [|op ops' IH]; intros ops a Hh.
  - exists a. by rewrite app_nil_r.
  - destruct (identity_step_history a0 ops a op Hh) as (a1 & E1 & Hs1).
    destruct (IH _ _ Hs1) as (a2 & E2 & Hs2). exists a2. simpl. rewrite E1. split; [done|].
    by rewrite <- app_assoc in Hs2.
Qed.

(** An admission handed to a JOIN was verified. *)
Lemma join_verified a p addr m now ad oa' :
  identity_admissionForJoin (Some a) p addr m now = (inr ad, oa') -> ia_expiresAt ad <> zero_time ->
  id_verified a !! identityKeyForPacket p addr (m_sessionID m) = Some ad /\ now < ia_expiresAt ad.
Proof.
  unfold identity_admissionForJoin. cbn [identity_cleanupLocked id_verified set_identity].
  intros E Hne. destruct (purge ia_expiresAt now (id_verified a) !! _) as [ad'|] eqn:Hq;
    repeat case_match; simplify_eq; try done. by apply lookup_purge in Hq.
Qed.
End machine.

(** ** Lemmas: what a ticket grants *)

Lemma split_dots_nonempty t : split_dots t <> [].
Proof. destruct t as [|c t]; simpl; [done|]. by destruct (c =? 46), (split_dots t). Qed.

(** [strings.Join(strings.Split(t, "."), ".") = t]. *)
Lemma split_dots_join t seg segs :
  split_dots t = seg :: segs ->
  t = seg ++ concat ((fun s => 46 :: s) <$> segs).
Proof.
  revert seg segs. induction t as [|c t IH]; intros seg segs; simpl; [by intros [= <- <-]|].
  destruct (c =? 46) eqn:E.
  - intros [= <- Hs]. gobool. subst c. destruct segs as [|s segs]; [by apply split_dots_nonempty in Hs|].
    simpl. f_equal. by apply IH.
  - destruct (split_dots t) as [|s ss] eqn:Es; [by apply split_dots_nonempty in Es|].
    intros [= <- <-]. simpl. f_equal. by apply IH.
Qed.

(** The three permission sets a ticket may carry, by exhaustion. *)
Lemma permissions_cases p :
  is_u8 p -> Z.land p (Z.lxor 255 7) = 0 -> Z.land p 1 <> 0 ->
  (flag_set p 4 = true -> Z.land p 2 <> 0) -> p = 1 \/ p = 3 \/ p = 7.
Proof.
  intros Hp H7 Hl Hi.
  pose proof (byte_exhaust (fun p => negb ((Z.land p (Z.lxor 255 7) =? 0) && negb (Z.land p 1 =? 0)
    && (negb (flag_set p 4) || negb (Z.land p 2 =? 0))) || (p =? 1) || (p =? 3) || (p =? 7)) p
    ltac:(by vm_compute) Hp) as Hb.
  simpl in Hb. rewrite H7, (proj2 (Z.eqb_neq _ 0) Hl) in Hb.
  destruct (flag_set p 4); [rewrite (proj2 (Z.eqb_neq _ 0) (Hi eq_refl)) in Hb|]; simpl in Hb; lia.
Qed.

(** The lifetime of a ticket, as instants. *)
Lemma ticket_lifetime L iat exp now :
  - 2 ^ 63 <= iat < 2 ^ 63 -> - 2 ^ 63 <= exp < 2 ^ 63 -> zero_time <= now ->
  0 <= iat -> iat < exp -> i64 (exp - iat) <= L -> now < Unix exp -> Unix iat <= now + 30 * Second ->
  Unix exp <= now + (L + 30) * Second.
Proof.
  unfold zero_time. intros Hi He Hn Hi0 Hlt Hl Hne Hin.
  rewrite i64_small in Hl by lia. revert Hne Hin. unfold Unix.
  assert (exp + unix_to_internal < 2 ^ 63 \/ 2 ^ 63 <= exp + unix_to_internal) as [Hs|Hw] by lia.
  - unfold unix_to_internal in *. rewrite !i64_small by lia. unfold Second. lia.
  - assert (i64 (exp + unix_to_internal) = exp + unix_to_internal - 2 ^ 64) as ->.
    { unfold i64, unix_to_internal in *.
      replace (exp + 62135596800 + 2 ^ 63)
        with ((exp + 62135596800 - 2 ^ 63) + 1 * 2 ^ 64) by lia.
      rewrite Z.mod_add, Z.mod_small by lia. lia. }
    unfold unix_to_internal, Second in *. lia.
Qed.

(** ** Properties *)

Section properties.
Context `{Ed25519} `{TicketJSON}.

(** A ticket that validates is signed by a configured issuer key over its
    first two segments, expires in the future but at most 330 seconds from now,
    names a sender other than 0, and grants one of the permission sets listen,
    listen+talk, listen+talk+interrupt, with a non-zero priority exactly for the
    last one. *)
Theorem validateTicket_sound a ticket publicKey channelID senderID now ad :
  validateTicket a ticket publicKey channelID senderID now = inr ad -> zero_time <= now ->
  (exists seg0 seg1 seg2 kid issuerKey signature,
    ticket = seg0 ++ 46 :: seg1 ++ 46 :: seg2 /\ strictBase64URL seg2 = Some signature /\
    id_keys a !! kid = Some issuerKey /\ length issuerKey = 32%nat /\
    Verify issuerKey (seg0 ++ [46] ++ seg1) signature = true) /\
  (now < ia_expiresAt ad <= now + 330 * Second /\ senderID <> 0 /\
   ia_ticketHash ad = sha256 ticket) /\
  (ia_permissions ad = 1 /\ ia_priority ad = 0 \/ ia_permissions ad = 3 /\ ia_priority ad = 0 \/
   ia_permissions ad = 7 /\ ia_priority ad <> 0).
Proof.
  intros Hv Hnow. unfold validateTicket in Hv.
  do 2 (case_match; [done|]).
  destruct (split_dots ticket) as [|seg0 [|seg1 [|seg2 [|]]]] eqn:Hsplit; try done.
  destruct (strictBase64URL seg0) as [hraw|]; [|done].
  destruct (strictBase64URL seg1) as [praw|]; [|done].
  destruct (strictBase64URL seg2) as [sig|] eqn:Hs2; [|done].
  case_match; [done|]. destruct (unmarshal_header hraw) as [h|]; [|done].
  destruct (unmarshal_claims praw) as [c|] eqn:Hc; [|done].
  apply unmarshal_claims_fit in Hc as (Fi & Fe & _ & _ & Fp & Fpr).
  do 7 (case_match; [done|]). simplify_eq/=. gobool. gotime.
  split_and!.
  - exists seg0, seg1, seg2, (th_KeyID h), (default [] (id_keys a !! th_KeyID h)), sig.
    apply split_dots_join in Hsplit. simpl in Hsplit. rewrite app_nil_r in Hsplit. unfold len, PublicKeySize in *.
    split_and!; [done|done| |lia|done].
    apply default_modes. intros E. rewrite E in *. done.
  - done.
  - eapply (ticket_lifetime 300 (tc_IssuedAt c)); first [done|lia].
  - congruence.
  - done.
  - assert (tc_Permissions c = 1 \/ tc_Permissions c = 3 \/ tc_Permissions c = 7) as Hcases.
    { apply permissions_cases; try done. fold identityPermissionInterrupt. intros Hf.
      match goal with Hx : flag_set _ _ && _ = false |- _ => rewrite Hf in Hx; simpl in Hx; gobool; done end. }
    destruct Hcases as [E|[E|E]]; rewrite E in *; destruct (tc_Priority c); simpl in *; gobool; try done; auto.
Qed.

(** C10. No admission without the key holder: when a JOIN is handed a current
    admission, then among the operations since the start an IDENTITY_BEGIN of the
    same channel, sender, session and endpoint presented the ticket it comes
    from, which validated, and an IDENTITY_PROOF of the same four signed the
    fresh challenge with the key the ticket is bound to. *)
Theorem identity_admission_authentic mode issuer audience ks a ops pkt addr meta now ad oa' :
  newIdentityAdmissionState mode issuer audience ks = inr (Some a) ->
  identity_admissionForJoin (identity_run (Some a) ops) pkt addr meta now = (inr ad, oa') ->
  ia_expiresAt ad <> zero_time ->
  now < ia_expiresAt ad /\
  exists p, ip_admission p = ad /\
    begun a ops (identityKeyForPacket pkt addr (m_sessionID meta)) p /\
    proved ops (identityKeyForPacket pkt addr (m_sessionID meta)) p.
Proof.
  intros Hnew Hjoin Hne.
  assert (identity_history a [] a) as Hh.
  { unfold newIdentityAdmissionState in Hnew. repeat case_match; simplify_eq; by split. }
  destruct (identity_run_history a [] ops a Hh) as (a' & E & Hh'). rewrite E in Hjoin.
  destruct (join_verified _ _ _ _ _ _ _ Hjoin Hne) as [Hv Hlive]. split; [done|].
  by apply (ih_verified _ _ _ Hh').
Qed.
End properties.

(** ** A concrete instance

    A keyed hash in place of the signature scheme and a decoder that knows one
    ticket: the parameters of the section, instantiated. *)

#[export] Instance toy_signatures : Ed25519 :=
  {| Verify := fun pk m s => bytes_eqb s (sha256 (pk ++ m) ++ sha256 (m ++ pk)) |}.

Definition toy_key : list Z := replicate 32 7.
Definition toy_header : identityTicketHeader :=
  {| th_Algorithm := "EdDSA"; th_KeyID := "k1"; th_Type := "incomudon-admission+jwt" |}.

Definition toy_claims (thumb : string) : identityTicketClaims :=
  {| tc_Issuer := "issuer"; tc_Audience := "relay"; tc_Subject := "alice"; tc_TicketID := "t1";
     tc_IssuedAt := 1700000000; tc_ExpiresAt := 1700000200; tc_ChannelID := 100; tc_SenderID := 1002;
     tc_Permissions := 7; tc_Priority := Some 5; tc_JWKThumbprint := thumb |}.

(** The thumbprint of [toy_key]. *)
Definition toy_thumb : string :=
  String.string_of_list_ascii ((fun z => Ascii.ascii_of_N (Z.to_N z)) <$> RawURL_Encode (sha256 toy_key)).

#[refine, export] Instance toy_json : TicketJSON :=
  {| unmarshal_header := fun raw => if bytes_eqb raw [1] then Some toy_header else None;
     unmarshal_claims := fun raw => if bytes_eqb raw [2] then Some (toy_claims toy_thumb) else None |}.
Proof.
  intros raw c E. destruct (bytes_eqb raw [2]); [|done]. simplify_eq.
  unfold claims_fit, is_u32, is_u8. simpl. lia.
Defined.

Definition toy_sign (pk m : list Z) : list Z := sha256 (pk ++ m) ++ sha256 (m ++ pk).
Definition toy_segments : list Z := RawURL_Encode [1] ++ [46] ++ RawURL_Encode [2].
Definition toy_ticket : list Z := toy_segments ++ [46] ++ RawURL_Encode (toy_sign toy_key toy_segments).

Definition toy_identity : identityAdmissionState :=
  {| id_mode := identityAdmissionRequired; id_issuer := "issuer"; id_audience := "relay";
     id_keys := {[ "k1"%string := toy_key ]}; id_pending := ∅; id_verified := ∅; id_failed := ∅ |}.
Definition toy_now : time := Unix 1700000100.
Definition toy_admission : identityAdmission :=
  {| ia_permissions := 7; ia_priority := 5; ia_expiresAt := Unix 1700000200;
     ia_ticketHash := sha256 toy_ticket; ia_actorIDHash := take 16 (sha256 (str_bytes "alice")) |}.

Lemma toy_validates : validateTicket toy_identity toy_ticket toy_key 100 1002 toy_now = inr toy_admission.
Proof. by vm_compute. Qed.

Lemma validateTicket_sound_witness :
  zero_time <= toy_now /\ toy_now < Unix 1700000200 <= toy_now + 330 * Second.
Proof.
  split; [by vm_compute|].
  apply (validateTicket_sound toy_identity toy_ticket toy_key 100 1002 toy_now toy_admission);
    [exact toy_validates|by vm_compute].
Defined.

Definition toy_packet (pktType : Z) (payload : list Z) : parsedPacket := handshake_packet pktType 1 payload.
Definition toy_challenge : list Z := replicate 32 9.
Definition toy_begin : list Z := put_be 2 (len toy_ticket) ++ toy_ticket ++ toy_key.
Definition toy_proof : list Z := toy_sign toy_key (identityProofMessage toy_challenge 100 1002 (sha256 toy_ticket)).
Definition toy_ops : list identity_op :=
  [OpBegin (toy_packet pktIdentityBegin toy_begin) (Some vector_addr) hello_meta toy_now (Some toy_challenge);
   OpProof (toy_packet pktIdentityProof toy_proof) (Some vector_addr) hello_meta (toy_now + Second)].

Lemma toy_join :
  (identity_admissionForJoin (identity_run (Some toy_identity) toy_ops) (toy_packet pktJoin []) (Some vector_addr)
     hello_meta (toy_now + Second)).1 = inr toy_admission.
Proof. by vm_compute. Qed.

Lemma identity_admission_authentic_witness :
  toy_now + Second < Unix 1700000200 /\
  exists p, ip_admission p = toy_admission /\
    begun toy_identity toy_ops (identityKeyForPacket (toy_packet pktJoin []) (Some vector_addr) 0x12345678) p /\
    proved toy_ops (identityKeyForPacket (toy_packet pktJoin []) (Some vector_addr) 0x12345678) p.
Proof.
  destruct (identity_admissionForJoin (identity_run (Some toy_identity) toy_ops) (toy_packet pktJoin [])
    (Some vector_addr) hello_meta (toy_now + Second)) as [r oa'] eqn:E.
  pose proof toy_join as J. rewrite E in J. simpl in J. subst r.
  exact (identity_admission_authentic identityAdmissionRequired "issuer" "relay" (id_keys toy_identity)
    toy_identity toy_ops (toy_packet pktJoin []) (Some vector_addr) hello_meta (toy_now + Second)
    toy_admission oa' eq_refl E ltac:(by vm_compute)).
Defined.
