(* ===== verification/Service.v ===== *)
(** * Managed Service Admission

    [service_admission.go]: the validation of a service grant, its challenge and
    proof exchange, and the deny rules a revocation installs. *)

From S2P Require Import Prelude GoTime GoNet Sha256 Base64 Packet ControlAuth Identity.

Definition serviceGrantMaxBytes : Z := 768.
Definition serviceChallengeTTL : duration := 30 * Second.
Definition maxPendingServiceAdmissions : Z := 1024.
Definition maxServiceAdmissionDenyRules : Z := 1024.
Definition maximumServiceGrantLifetime : Z := 3600.
Definition minimumServiceGrantLifetime : Z := 60.
Definition maximumServiceAdmissionGraceSecs : Z := 1800.
Definition serviceDenyAdmissionRequired : Z := 0.
Definition serviceDenyInvalidGrant : Z := 1.
Definition serviceDenyGrantExpired : Z := 2.
Definition serviceDenyScopeMismatch : Z := 3.
Definition serviceDenyPermissionDenied : Z := 4.
Definition serviceDenyInvalidProof : Z := 5.
Definition serviceDenyDisabled : Z := 6.
Definition serviceDenyRevoked : Z := 7.

Inductive serviceAdmissionMode := serviceAdmissionOff | serviceAdmissionEnabled.

Record serviceAdmissionKey := {
  sk_channelID : Z; sk_senderID : Z; sk_sessionID : Z; sk_address : string
}.

#[export] Instance serviceAdmissionKey_eq_dec : EqDecision serviceAdmissionKey.
Proof. solve_decision. Defined.
#[export] Instance serviceAdmissionKey_countable : Countable serviceAdmissionKey.
Proof.
  refine (inj_countable'
    (fun k => (sk_channelID k, sk_senderID k, sk_sessionID k, sk_address k))
    (fun '(a, b, c, d) => Build_serviceAdmissionKey a b c d) _).
  by intros [].
Defined.

Record serviceAdmission := {
  sa_serviceID : string; sa_role : string; sa_permissions : Z; sa_priority : Z;
  sa_grantExpires : time; sa_grace : duration; sa_grantHash : list Z; sa_grantIDHash : list Z
}.

Definition zero_service : serviceAdmission :=
  {| sa_serviceID := ""; sa_role := ""; sa_permissions := 0; sa_priority := 0;
     sa_grantExpires := zero_time; sa_grace := 0; sa_grantHash := zeros 32; sa_grantIDHash := zeros 32 |}.

(** A nil [grantIDHash] is [None]. *)
Record serviceAdmissionRevocationTarget := {
  rt_channelID : Z; rt_serviceID : string; rt_grantIDHash : option (list Z)
}.

Record serviceAdmissionDenyRule := {
  dr_channelID : Z; dr_serviceID : string; dr_grantIDHash : list Z; dr_hasGrantIDHash : bool
}.

#[export] Instance serviceAdmissionDenyRule_eq_dec : EqDecision serviceAdmissionDenyRule.
Proof. solve_decision. Defined.
#[export] Instance serviceAdmissionDenyRule_countable : Countable serviceAdmissionDenyRule.
Proof.
  refine (inj_countable'
    (fun k => (dr_channelID k, dr_serviceID k, dr_grantIDHash k, dr_hasGrantIDHash k))
    (fun '(a, b, c, d) => Build_serviceAdmissionDenyRule a b c d) _).
  by intros [].
Defined.

Record serviceAdmissionDenyRuleEntry := { de_rule : serviceAdmissionDenyRule; de_expiresAt : time }.

Record servicePendingAdmission := {
  sp_admission : serviceAdmission; sp_publicKey : list Z; sp_challenge : list Z; sp_expiresAt : time
}.

Record serviceAdmissionFailure := { sf_reason : Z; sf_expiresAt : time }.

Record serviceGrantHeader := { gh_Algorithm : string; gh_KeyID : string; gh_Type : string }.

Record serviceGrantClaims := {
  gc_Issuer : string; gc_Audience : string; gc_ServiceID : string; gc_GrantID : string;
  gc_IssuedAt : Z; gc_ExpiresAt : Z; gc_ChannelID : Z; gc_SenderID : Z; gc_Role : string;
  gc_Permissions : Z; gc_Priority : option Z; gc_GraceSeconds : option Z; gc_JWKThumbprint : string
}.

Record serviceAdmissionState := {
  sv_issuer : string; sv_audience : string; sv_keys : gmap string (list Z);
  sv_pending : gmap serviceAdmissionKey servicePendingAdmission;
  sv_verified : gmap serviceAdmissionKey serviceAdmission;
  sv_failed : gmap serviceAdmissionKey serviceAdmissionFailure;
  sv_denied : gmap serviceAdmissionDenyRule time
}.

(** [decodeStrictServiceJSON] into the two structs of a grant. *)
Definition grant_fits (c : serviceGrantClaims) : Prop :=
  - 2 ^ 63 <= gc_IssuedAt c < 2 ^ 63 /\ - 2 ^ 63 <= gc_ExpiresAt c < 2 ^ 63 /\
  is_u32 (gc_ChannelID c) /\ is_u32 (gc_SenderID c) /\ is_u8 (gc_Permissions c) /\
  match gc_Priority c with None => True | Some p => is_u8 p end /\
  match gc_GraceSeconds c with None => True | Some g => is_u16 g end.

Class GrantJSON := {
  decode_grant_header : list Z -> option serviceGrantHeader;
  decode_grant_claims : list Z -> option serviceGrantClaims;
  decode_grant_fits : forall raw c, decode_grant_claims raw = Some c -> grant_fits c
}.

Definition set_service (a : serviceAdmissionState) pend ver fail den : serviceAdmissionState :=
  {| sv_issuer := sv_issuer a; sv_audience := sv_audience a; sv_keys := sv_keys a;
     sv_pending := pend; sv_verified := ver; sv_failed := fail; sv_denied := den |}.

(** ** Targets and rules *)

Definition target_matches (target : serviceAdmissionRevocationTarget) (channelID : Z)
    (admission : serviceAdmission) : bool :=
  if negb (rt_channelID target =? channelID) then false
  else if negb (String.eqb (rt_serviceID target) "") && negb (String.eqb (rt_serviceID target) (sa_serviceID admission))
  then false
  else match rt_grantIDHash target with
       | None => true
       | Some h => bytes_eqb h (sa_grantIDHash admission)
       end.

Definition denyRule (target : serviceAdmissionRevocationTarget) : serviceAdmissionDenyRule :=
  match rt_grantIDHash target with
  | Some h => {| dr_channelID := rt_channelID target; dr_serviceID := rt_serviceID target;
                 dr_grantIDHash := h; dr_hasGrantIDHash := true |}
  | None => {| dr_channelID := rt_channelID target; dr_serviceID := rt_serviceID target;
               dr_grantIDHash := zeros 32; dr_hasGrantIDHash := false |}
  end.

Definition rule_matches (rule : serviceAdmissionDenyRule) (channelID : Z) (admission : serviceAdmission) : bool :=
  if negb (dr_channelID rule =? channelID) then false
  else if negb (String.eqb (dr_serviceID rule) "") && negb (String.eqb (dr_serviceID rule) (sa_serviceID admission))
  then false
  else negb (dr_hasGrantIDHash rule) || bytes_eqb (dr_grantIDHash rule) (sa_grantIDHash admission).

(** [expiryDeadline], [grantCurrent], [membershipCurrent]. *)
Definition expiryDeadline (ad : serviceAdmission) : time :=
  if (sa_permissions ad =? identityPermissionListen) && (0 <? sa_grace ad)
  then Add (sa_grantExpires ad) (sa_grace ad) else sa_grantExpires ad.
Definition grantCurrent (ad : serviceAdmission) (now : time) : bool := After (sa_grantExpires ad) now.
Definition membershipCurrent (ad : serviceAdmission) (now : time) : bool := After (expiryDeadline ad) now.

(** ** Patterns *)

Definition in_range (lo hi : N) (c : Ascii.ascii) : bool :=
  (N.leb lo (Ascii.N_of_ascii c) && N.leb (Ascii.N_of_ascii c) hi)%N.
Definition is_alnum (c : Ascii.ascii) : bool := in_range 65 90 c || in_range 97 122 c || in_range 48 57 c.
Definition is_one_of (s : string) (c : Ascii.ascii) : bool :=
  existsb (Ascii.eqb c) (String.list_ascii_of_string s).

(** [^[A-Za-z0-9][A-Za-z0-9._-]{0,127}$]. *)
Definition managedServiceIDPattern (s : string) : bool :=
  match String.list_ascii_of_string s with
  | [] => false
  | c :: r => is_alnum c && (Nat.leb (length r) 127) && forallb (fun c => is_alnum c || is_one_of "._-" c) r
  end.

(** [^[A-Za-z0-9_-]{16,128}$]. *)
Definition serviceGrantIDPattern (s : string) : bool :=
  let l := String.list_ascii_of_string s in
  Nat.leb 16 (length l) && Nat.leb (length l) 128 && forallb (fun c => is_alnum c || is_one_of "_-" c) l.

Definition newServiceAdmissionState (mode : serviceAdmissionMode) (issuer audience : string)
    (ks : gmap string (list Z)) : string + option serviceAdmissionState :=
  match mode with
  | serviceAdmissionOff => inr None
  | serviceAdmissionEnabled =>
      if blank issuer || blank audience
      then inl "managed service admission requires a configured issuer and audience"%string
      else if (size ks =? 0)%nat
      then inl "managed service admission requires at least one Ed25519 signing key"%string
      else inr (Some {| sv_issuer := issuer; sv_audience := audience; sv_keys := ks;
             sv_pending := ∅; sv_verified := ∅; sv_failed := ∅; sv_denied := ∅ |})
  end.

Definition serviceKeyForPacket (pkt : parsedPacket) (addr : option UDPAddr) (sessionID : Z) : serviceAdmissionKey :=
  {| sk_channelID := ChannelId (Header pkt); sk_senderID := SenderId (Header pkt);
     sk_sessionID := sessionID; sk_address := peerMapKey addr |}.

(** ** Operations *)

Section service.
Context `{Ed25519} `{GrantJSON}.

(** [validateGrant]; [inl] is the deny reason. *)
Definition validateGrant (a : serviceAdmissionState) (grant publicKey : list Z)
    (channelID senderID : Z) (now : time) : Z + serviceAdmission :=
  if (len grant =? 0) || (serviceGrantMaxBytes <? len grant) || negb (len publicKey =? PublicKeySize)
  then inl serviceDenyInvalidGrant
  else if existsb (fun value => 0x7f <? value) grant then inl serviceDenyInvalidGrant
  else
  match split_dots grant with
  | [seg0; seg1; seg2] =>
    match strictBase64URL seg0, strictBase64URL seg1, strictBase64URL seg2 with
    | Some headerRaw, Some payloadRaw, Some signature =>
      if negb (len signature =? SignatureSize) then inl serviceDenyInvalidGrant
      else
      match decode_grant_header headerRaw, decode_grant_claims payloadRaw with
      | Some header, Some claims =>
        let issuerKey := default [] (sv_keys a !! gh_KeyID header) in
        if negb (String.eqb (gh_Algorithm header) "EdDSA")
           || negb (String.eqb (gh_Type header) "incomudon-service-admission+jwt")
           || negb (len issuerKey =? PublicKeySize)
           || negb (Verify issuerKey (seg0 ++ [46] ++ seg1) signature)
        then inl serviceDenyInvalidGrant
        else
        let lifetime := i64 (gc_ExpiresAt claims - gc_IssuedAt claims) in
        if (gc_IssuedAt claims <? 0) || (gc_ExpiresAt claims <=? gc_IssuedAt claims)
           || (lifetime <? minimumServiceGrantLifetime) || (maximumServiceGrantLifetime <? lifetime)
           || negb (After (Unix (gc_ExpiresAt claims)) now)
           || After (Unix (gc_IssuedAt claims)) (Add now (30 * Second))
        then inl serviceDenyGrantExpired
        else if negb (String.eqb (gc_Issuer claims) (sv_issuer a))
           || negb (String.eqb (gc_Audience claims) (sv_audience a))
           || negb (gc_ChannelID claims =? channelID) || negb (gc_SenderID claims =? senderID)
           || (gc_SenderID claims =? 0)
        then inl serviceDenyScopeMismatch
        else if negb (managedServiceIDPattern (gc_ServiceID claims)) || negb (serviceGrantIDPattern (gc_GrantID claims))
        then inl serviceDenyInvalidGrant
        else if negb (gc_Permissions claims =? 1) && negb (gc_Permissions claims =? 3) && negb (gc_Permissions claims =? 7)
           || (Z.land (gc_Permissions claims) identityPermissionListen =? 0)
        then inl serviceDenyPermissionDenied
        else if (gc_Permissions claims =? 7)
           && match gc_Priority claims with None => true | Some p => p =? 0 end
        then inl serviceDenyPermissionDenied
        else if negb (gc_Permissions claims =? 7)
           && match gc_Priority claims with None => false | Some _ => true end
        then inl serviceDenyPermissionDenied
        else if (String.eqb (gc_Role claims) "recorder" || String.eqb (gc_Role claims) "observer")
           && negb (gc_Permissions claims =? 1)
        then inl serviceDenyPermissionDenied
        else if negb (String.eqb (gc_Role claims) "recorder") && negb (String.eqb (gc_Role claims) "observer")
           && negb (String.eqb (gc_Role claims) "automation")
        then inl serviceDenyPermissionDenied
        else
        let graceSeconds := default 0 (gc_GraceSeconds claims) in
        if (maximumServiceAdmissionGraceSecs <? graceSeconds)
           || (negb (gc_Permissions claims =? 1) && negb (graceSeconds =? 0))
        then inl serviceDenyPermissionDenied
        else
          let digest := sha256 publicKey in
          if String.eqb (gc_JWKThumbprint claims) ""
             || negb (bytes_eqb (str_bytes (gc_JWKThumbprint claims)) (RawURL_Encode digest))
          then inl serviceDenyScopeMismatch
          else
            inr {| sa_serviceID := gc_ServiceID claims; sa_role := gc_Role claims;
                   sa_permissions := gc_Permissions claims; sa_priority := default 0 (gc_Priority claims);
                   sa_grantExpires := Unix (gc_ExpiresAt claims); sa_grace := graceSeconds * Second;
                   sa_grantHash := sha256 grant; sa_grantIDHash := sha256 (str_bytes (gc_GrantID claims)) |}
      | _, _ => inl serviceDenyInvalidGrant
      end
    | _, _, _ => inl serviceDenyInvalidGrant
    end
  | _ => inl serviceDenyInvalidGrant
  end.

(** [cleanupLocked]. *)
Definition service_cleanupLocked (now : time) (a : serviceAdmissionState) : serviceAdmissionState :=
  set_service a (purge sp_expiresAt now (sv_pending a)) (purge sa_grantExpires now (sv_verified a))
    (purge sf_expiresAt now (sv_failed a)) (purge (fun expiry => expiry) now (sv_denied a)).

Definition activeDenyRules `{RangeOrder} (oa : option serviceAdmissionState) (now : time)
    : list serviceAdmissionDenyRuleEntry * option serviceAdmissionState :=
  match oa with
  | None => ([], None)
  | Some a =>
      let a1 := service_cleanupLocked now a in
      ((fun '(rule, e) => {| de_rule := rule; de_expiresAt := e |}) <$> range (sv_denied a1), Some a1)
  end.

Definition deniedLocked (a : serviceAdmissionState) (channelID : Z) (admission : serviceAdmission) : bool :=
  existsb (fun '(rule, _) => rule_matches rule channelID admission) (map_to_list (sv_denied a)).

Definition admissionAllowedForMembership (oa : option serviceAdmissionState) (channelID : Z)
    (admission : serviceAdmission) (now : time) : bool * option serviceAdmissionState :=
  match oa with
  | None => (false, None)
  | Some a =>
      let a1 := service_cleanupLocked now a in
      (grantCurrent admission now && negb (deniedLocked a1 channelID admission), Some a1)
  end.

(** The entries a revocation leaves in a map keyed by endpoint. *)
Definition evict {A} (target : serviceAdmissionRevocationTarget) (adm : A -> serviceAdmission)
    (m : gmap serviceAdmissionKey A) : gmap serviceAdmissionKey A :=
  filter (fun kv => target_matches target (sk_channelID (kv.1)) (adm (kv.2)) = false) m.

Definition installRevocation (oa : option serviceAdmissionState) (target : serviceAdmissionRevocationTarget)
    (denyUntil now : time) : bool * option serviceAdmissionState :=
  match oa with
  | None => (false, None)
  | Some a =>
    if negb (After denyUntil now)
       || (String.eqb (rt_serviceID target) "" && match rt_grantIDHash target with None => true | _ => false end)
    then (false, Some a)
    else
    let rule := denyRule target in
    let a1 := service_cleanupLocked now a in
    let install expiresAt :=
      (true, Some (set_service a1 (evict target sp_admission (sv_pending a1))
        (evict target (fun ad => ad) (sv_verified a1)) (sv_failed a1) (<[rule := expiresAt]> (sv_denied a1)))) in
    match sv_denied a1 !! rule with
    | Some existing => install (if After existing denyUntil then existing else denyUntil)
    | None =>
        if maxServiceAdmissionDenyRules <=? Z.of_nat (size (sv_denied a1)) then (false, Some a1)
        else install denyUntil
    end
  end.

Definition service_fail (k : serviceAdmissionKey) (reason : Z) (now : time)
    (fails : gmap serviceAdmissionKey serviceAdmissionFailure) :=
  <[k := {| sf_reason := reason; sf_expiresAt := Add now serviceChallengeTTL |}]> fails.

(** [begin]; [rnd] is the challenge read from the random source. *)
Definition service_begin (oa : option serviceAdmissionState) (pkt : parsedPacket)
    (addr : option UDPAddr) (meta : controlAuthMeta) (now : time) (rnd : option (list Z))
    : (Z + list Z) * option serviceAdmissionState :=
  match oa with
  | None => (inl serviceDenyDisabled, None)
  | Some a =>
    if len (Payload pkt) <? 2 + PublicKeySize then (inl serviceDenyDisabled, Some a)
    else
    let grantLength := get_be (sub (Payload pkt) 0 2) in
    if (grantLength <? 1) || (serviceGrantMaxBytes <? grantLength)
       || negb (len (Payload pkt) =? 2 + grantLength + PublicKeySize)
    then (inl serviceDenyInvalidGrant, Some a)
    else
    let grant := sub (Payload pkt) 2 (Z.to_nat grantLength) in
    let publicKey := drop (2 + Z.to_nat grantLength) (Payload pkt) in
    let validated := validateGrant a grant publicKey (ChannelId (Header pkt)) (SenderId (Header pkt)) now in
    let k := serviceKeyForPacket pkt addr (m_sessionID meta) in
    let a1 := service_cleanupLocked now a in
    let refuse reason :=
      (inl reason, Some (set_service a1 (sv_pending a1) (sv_verified a1)
         (service_fail k reason now (sv_failed a1)) (sv_denied a1))) in
    match validated with
    | inl denyReason => refuse denyReason
    | inr admission =>
        if deniedLocked a1 (ChannelId (Header pkt)) admission then refuse serviceDenyRevoked
        else if maxPendingServiceAdmissions <=? Z.of_nat (size (sv_pending a1)) then refuse serviceDenyInvalidGrant
        else
        match rnd with
        | None => (inl serviceDenyInvalidGrant, Some a1)
        | Some challenge =>
            let ttl := Add now serviceChallengeTTL in
            let challengeExpiry := if Before (sa_grantExpires admission) ttl then sa_grantExpires admission else ttl in
            (inr (put_be 4 (u32 (toUnix challengeExpiry)) ++ challenge),
             Some (set_service a1
               (<[k := {| sp_admission := admission; sp_publicKey := publicKey;
                          sp_challenge := challenge; sp_expiresAt := challengeExpiry |}]> (sv_pending a1))
               (sv_verified a1) (delete k (sv_failed a1)) (sv_denied a1)))
        end
    end
  end.

Definition serviceProofMessage (challenge : list Z) (channelID senderID : Z) (grantHash : list Z) : list Z :=
  sha256 (str_bytes "incomudon-managed-service-admission-v1" ++ [0] ++ challenge
    ++ put_be 4 channelID ++ put_be 4 senderID ++ grantHash).

(** [proof]: the deny reason, [0] when the proof is accepted. *)
Definition service_proof (oa : option serviceAdmissionState) (pkt : parsedPacket)
    (addr : option UDPAddr) (meta : controlAuthMeta) (now : time)
    : Z * option serviceAdmissionState :=
  match oa with
  | None => (serviceDenyInvalidProof, None)
  | Some a =>
    if negb (len (Payload pkt) =? SignatureSize) then (serviceDenyInvalidProof, Some a)
    else
    let k := serviceKeyForPacket pkt addr (m_sessionID meta) in
    let a1 := service_cleanupLocked now a in
    let refuse reason pend :=
      (reason, Some (set_service a1 pend (sv_verified a1)
         (service_fail k reason now (sv_failed a1)) (sv_denied a1))) in
    match sv_pending a1 !! k with
    | None => refuse serviceDenyInvalidProof (sv_pending a1)
    | Some pending =>
        if negb (After (sp_expiresAt pending) now) then refuse serviceDenyInvalidProof (sv_pending a1)
        else if deniedLocked a1 (sk_channelID k) (sp_admission pending)
        then refuse serviceDenyRevoked (delete k (sv_pending a1))
        else
        let message := serviceProofMessage (sp_challenge pending) (ChannelId (Header pkt))
                         (SenderId (Header pkt)) (sa_grantHash (sp_admission pending)) in
        if negb (Verify (sp_publicKey pending) message (Payload pkt))
        then refuse serviceDenyInvalidProof (delete k (sv_pending a1))
        else
          (0, Some (set_service a1 (delete k (sv_pending a1))
                (<[k := sp_admission pending]> (sv_verified a1)) (delete k (sv_failed a1)) (sv_denied a1)))
    end
  end.

(** [takeVerifiedAdmission]. *)
Definition service_takeVerifiedAdmission (oa : option serviceAdmissionState) (pkt : parsedPacket)
    (addr : option UDPAddr) (meta : controlAuthMeta) (now : time)
    : option serviceAdmission * option serviceAdmissionState :=
  match oa with
  | None => (None, None)
  | Some a =>
    let k := serviceKeyForPacket pkt addr (m_sessionID meta) in
    let a1 := service_cleanupLocked now a in
    let a2 := set_service a1 (sv_pending a1) (delete k (sv_verified a1)) (sv_failed a1) (sv_denied a1) in
    match sv_verified a1 !! k with
    | None => (None, Some a2)
    | Some admission =>
        if negb (grantCurrent admission now) || deniedLocked a1 (sk_channelID k) admission
        then (None, Some a2)
        else (Some admission, Some a2)
    end
  end.

(** [admissionForJoin]: [inl] the deny reason, [inr] the admission to attach,
    [zero_service] when there is none. *)
Definition service_admissionForJoin (oa : option serviceAdmissionState) (pkt : parsedPacket)
    (addr : option UDPAddr) (meta : controlAuthMeta) (now : time)
    : (Z + serviceAdmission) * option serviceAdmissionState :=
  match oa with
  | None => (inr zero_service, None)
  | Some a =>
    let k := serviceKeyForPacket pkt addr (m_sessionID meta) in
    let a1 := service_cleanupLocked now a in
    let rest :=
      match sv_failed a1 !! k with
      | Some failure => (inl (sf_reason failure), Some a1)
      | None =>
        match sv_pending a1 !! k with
        | Some _ => (inl serviceDenyInvalidProof, Some a1)
        | None => (inr zero_service, Some a1)
        end
      end in
    match sv_verified a1 !! k with
    | Some admission =>
        if grantCurrent admission now && negb (deniedLocked a1 (sk_channelID k) admission)
        then (inr admission, Some (set_service a1 (sv_pending a1) (delete k (sv_verified a1)) (sv_failed a1) (sv_denied a1)))
        else rest
    | None => rest
    end
  end.
End service.

(** ** Lemmas *)

(** A deny rule says what its target says. *)
Lemma denyRule_matches target channelID ad :
  rule_matches (denyRule target) channelID ad = target_matches target channelID ad.
Proof. unfold rule_matches, denyRule, target_matches. by destruct (rt_grantIDHash target). Qed.

Lemma deniedLocked_true a channelID ad :
  deniedLocked a channelID ad = true <->
  exists rule e, sv_denied a !! rule = Some e /\ rule_matches rule channelID ad = true.
Proof.
  unfold deniedLocked. rewrite existsb_exists. split.
  - intros ([rule e] & Hin & Hm). exists rule, e. split; [|done].
    by apply elem_of_map_to_list, list_elem_of_In.
  - intros (rule & e & Hl & Hm). exists (rule, e). split; [|done].
    by apply list_elem_of_In, elem_of_map_to_list.
Qed.

Lemma After_max e u : u <= (if After e u then e else u) /\ e <= (if After e u then e else u).
Proof. unfold After. destruct (u <? e) eqn:E; gobool; lia. Qed.

Section machine.
Context `{Ed25519} `{GrantJSON}.

Inductive service_op :=
| SvBegin (pkt : parsedPacket) (addr : option UDPAddr) (meta : controlAuthMeta) (now : time) (rnd : option (list Z))
| SvProof (pkt : parsedPacket) (addr : option UDPAddr) (meta : controlAuthMeta) (now : time)
| SvTake (pkt : parsedPacket) (addr : option UDPAddr) (meta : controlAuthMeta) (now : time)
| SvJoin (pkt : parsedPacket) (addr : option UDPAddr) (meta : controlAuthMeta) (now : time)
| SvAllowed (channelID : Z) (ad : serviceAdmission) (now : time)
| SvRevoke (target : serviceAdmissionRevocationTarget) (denyUntil now : time).

Definition service_step (oa : option serviceAdmissionState) (op : service_op) : option serviceAdmissionState :=
  match op with
  | SvBegin p addr m now rnd => (service_begin oa p addr m now rnd).2
  | SvProof p addr m now => (service_proof oa p addr m now).2
  | SvTake p addr m now => (service_takeVerifiedAdmission oa p addr m now).2
  | SvJoin p addr m now => (service_admissionForJoin oa p addr m now).2
  | SvAllowed ch ad now => (admissionAllowedForMembership oa ch ad now).2
  | SvRevoke target until now => (installRevocation oa target until now).2
  end.

Definition service_run (oa : option serviceAdmissionState) (ops : list service_op) : option serviceAdmissionState :=
  fold_left service_step ops oa.

Definition op_now (op : service_op) : time :=
  match op with
  | SvBegin _ _ _ now _ | SvProof _ _ _ now | SvTake _ _ _ now | SvJoin _ _ _ now
  | SvAllowed _ _ now | SvRevoke _ _ now => now
  end.

(** The deny rules after an operation at [now]: purged, and for a revocation one
    entry that never moves forward in time. *)
Definition denied_after (now : time) (a a' : serviceAdmissionState) : Prop :=
  sv_denied a' = sv_denied a \/ sv_denied a' = purge (fun e => e) now (sv_denied a) \/
  exists rule e, sv_denied a' = <[rule := e]> (purge (fun e => e) now (sv_denied a)) /\
    (forall e0, purge (fun e => e) now (sv_denied a) !! rule = Some e0 -> e0 <= e) /\
    (purge (fun e => e) now (sv_denied a) !! rule = None ->
     Z.of_nat (size (purge (fun e => e) now (sv_denied a))) < maxServiceAdmissionDenyRules).

Ltac branch := eexists; split; [reflexivity|]; unfold denied_after; simpl; auto.

Lemma service_step_denied a op :
  exists a', service_step (Some a) op = Some a' /\ denied_after (op_now op) a a'.
Proof.
  destruct op as [p addr m now rnd|p addr m now|p addr m now|p addr m now|ch ad now|target until now];
    unfold service_step, op_now.
  - unfold service_begin. repeat case_match; branch.
  - unfold service_proof. repeat case_match; branch.
  - unfold service_takeVerifiedAdmission. repeat case_match; branch.
  - unfold service_admissionForJoin. repeat case_match; branch.
  - branch.
  - unfold installRevocation. cbn zeta.
    destruct (_ || _); [branch|].
    destruct (sv_denied (service_cleanupLocked now a) !! denyRule target) as [old|] eqn:Hl;
      [|destruct (maxServiceAdmissionDenyRules <=? _) eqn:Hfull; [branch|gobool]];
      eexists; (split; [reflexivity|]); right; right; eexists _, _; (split; [reflexivity|]); simpl in Hl.
    + split; [|congruence]. intros e0 He0. assert (old = e0) as -> by congruence. apply After_max.
    + split; [congruence|done].
Qed.

(** While the clock is before [until], a rule that holds until then stays. *)
Definition denies (rule : serviceAdmissionDenyRule) (until : time) (a : serviceAdmissionState) : Prop :=
  exists e, sv_denied a !! rule = Some e /\ until <= e.

Lemma denied_after_denies rule until now a a' :
  now < until -> denied_after now a a' -> denies rule until a -> denies rule until a'.
Proof.
  intros Hnow Hd (e & He & Hle).
  assert (purge (fun e => e) now (sv_denied a) !! rule = Some e) as Hp.
  { apply lookup_purge_live; [done|lia]. }
  destruct Hd as [E|[E|(r & e1 & E & Hmax & _)]]; unfold denies; rewrite E; [eauto..|].
  destruct (decide (r = rule)) as [->|Hne].
  - exists e1. rewrite lookup_insert_eq. split; [done|]. specialize (Hmax e Hp). lia.
  - exists e. by rewrite lookup_insert_ne.
Qed.

Lemma service_run_denies rule until a ops :
  Forall (fun op => op_now op < until) ops -> denies rule until a ->
  exists a', service_run (Some a) ops = Some a' /\ denies rule until a'.
Proof.
  intros Hops. revert a. induction Hops as [|op ops Hop _ IH]; intros a Ha; [by exists a|].
  destruct (service_step_denied a op) as (a1 & E & Hd).
  destruct (IH a1) as (a2 & E2 & Ha2); [by eapply denied_after_denies|].
  exists a2. split; [|done]. simpl. by rewrite E.
Qed.

Lemma install_denies a target until now oa' :
  installRevocation (Some a) target until now = (true, oa') ->
  exists a', oa' = Some a' /\ denies (denyRule target) until a'.
Proof.
  unfold installRevocation. cbn zeta. intros E. repeat case_match; simplify_eq;
    (eexists; split; [done|]); eexists; simpl; rewrite lookup_insert_eq; (split; [done|]).
  all: first [apply After_max | lia | (gotime; lia)].
Qed.

Lemma denies_deniedLocked target until a now ch ad :
  denies (denyRule target) until a -> now < until -> target_matches target ch ad = true ->
  deniedLocked (service_cleanupLocked now a) ch ad = true.
Proof.
  intros (e & He & Hle) Hnow Hm. apply deniedLocked_true. exists (denyRule target), e. simpl.
  rewrite denyRule_matches. split; [|done]. apply lookup_purge_live; [done|lia].
Qed.

(** The bounds of the two tables. *)
Definition service_bounded (a : serviceAdmissionState) : Prop :=
  Z.of_nat (size (sv_denied a)) <= maxServiceAdmissionDenyRules /\
  Z.of_nat (size (sv_pending a)) <= maxPendingServiceAdmissions.

Lemma service_step_pending a op a' :
  service_step (Some a) op = Some a' -> Z.of_nat (size (sv_pending a)) <= maxPendingServiceAdmissions ->
  Z.of_nat (size (sv_pending a')) <= maxPendingServiceAdmissions.
Proof.
  intros E Ha.
  assert (forall now, Z.of_nat (size (purge sp_expiresAt now (sv_pending a))) <= maxPendingServiceAdmissions) as Hp.
  { intros now. pose proof (size_purge sp_expiresAt now (sv_pending a)). lia. }
  assert (forall now k, Z.of_nat (size (delete k (purge sp_expiresAt now (sv_pending a)))) <= maxPendingServiceAdmissions) as Hpd.
  { intros now k. pose proof (Hp now). pose proof (size_delete_le (purge sp_expiresAt now (sv_pending a)) k). lia. }
  assert (forall now t, Z.of_nat (size (evict t sp_admission (purge sp_expiresAt now (sv_pending a)))) <= maxPendingServiceAdmissions) as Hpe.
  { intros now t. pose proof (Hp now).
    pose proof (map_subseteq_size _ _ (map_filter_subseteq (fun kv : serviceAdmissionKey * servicePendingAdmission =>
      target_matches t (sk_channelID kv.1) (sp_admission kv.2) = false) (purge sp_expiresAt now (sv_pending a)))).
    unfold evict. lia. }
  destruct op; simpl in E;
    unfold service_begin, service_proof, service_takeVerifiedAdmission, service_admissionForJoin,
      admissionAllowedForMembership, installRevocation in E; cbn zeta in E;
    repeat case_match; simplify_eq/=; auto.
  all: gobool; unfold maxPendingServiceAdmissions in *.
  all: match goal with |- Z.of_nat (size (<[?k := ?v]> ?m)) <= _ =>
    pose proof (size_insert_bound m k v 1024); simpl in *; lia end.
Qed.

Lemma service_step_bounded a op a' :
  service_step (Some a) op = Some a' -> service_bounded a -> service_bounded a'.
Proof.
  intros E [Hd Hp]. split; [|by eapply service_step_pending].
  destruct (service_step_denied a op) as (a1 & E1 & Hda). rewrite E in E1. simplify_eq.
  pose proof (size_purge (fun e => e) (op_now op) (sv_denied a)).
  destruct Hda as [->|[->|(r & e & -> & _ & Hnew)]]; [done|lia|].
  destruct (purge (fun e0 => e0) (op_now op) (sv_denied a) !! r) eqn:Er.
  - rewrite size_insert_mem by eauto. lia.
  - specialize (Hnew eq_refl). unfold maxServiceAdmissionDenyRules in *.
    pose proof (size_insert_bound (purge (fun e0 => e0) (op_now op) (sv_denied a)) r e 1024). lia.
Qed.

Lemma service_run_bounded a ops :
  service_bounded a -> exists a', service_run (Some a) ops = Some a' /\ service_bounded a'.
Proof.
  revert a. induction ops as [|op ops IH]; intros a Ha; [by exists a|].
  destruct (service_step_denied a op) as (a1 & E1 & _).
  destruct (IH a1) as (a2 & E2 & H2); [by eapply service_step_bounded|].
  exists a2. split; [|done]. simpl. by rewrite E1.
Qed.
End machine.

(** ** Properties *)

Section properties.
Context `{Ed25519} `{GrantJSON}.

(** C17. A revocation fails closed: once it is installed until [denyUntil], then
    until that instant, after any operations, no admission it names is taken by
    a PROOF of a member, handed to a JOIN, or allowed for a membership, even one
    whose proof was already verified when the revocation arrived. *)
Theorem revocation_fails_closed a target denyUntil now0 oa ops now pkt addr meta ch ad :
  installRevocation (Some a) target denyUntil now0 = (true, oa) ->
  Forall (fun op => op_now op < denyUntil) ops -> now < denyUntil ->
  target_matches target ch ad = true ->
  let oa' := service_run oa ops in
  (admissionAllowedForMembership oa' ch ad now).1 = false /\
  (ChannelId (Header pkt) = ch ->
   (service_takeVerifiedAdmission oa' pkt addr meta now).1 <> Some ad /\
   (ad <> zero_service -> (service_admissionForJoin oa' pkt addr meta now).1 <> inr ad)).
Proof.
  intros Hi Hops Hnow Hm. apply install_denies in Hi as (a1 & -> & Hd).
  destruct (service_run_denies _ _ a1 ops Hops Hd) as (a2 & -> & Hd2). cbn zeta.
  pose proof (denies_deniedLocked target denyUntil a2 now ch ad Hd2 Hnow Hm) as Hden.
  split; [|intros Hch; split].
  - unfold admissionAllowedForMembership. cbn zeta. rewrite Hden. simpl. apply andb_false_r.
  - unfold service_takeVerifiedAdmission. cbn zeta. subst ch. intros E.
    destruct (sv_verified _ !! _) as [ad'|]; [|done].
    destruct (_ || _) eqn:Hg; [done|]. simpl in E. injection E as ->. gobool.
    simpl in *. congruence.
  - intros Hz. unfold service_admissionForJoin. cbn zeta. subst ch. intros E.
    destruct (sv_verified _ !! _) as [ad'|].
    + destruct (grantCurrent ad' now && _) eqn:Hg; [|repeat case_match; simpl in E; congruence].
      simpl in E. injection E as ->. gobool. simpl in *. congruence.
    + repeat case_match; simpl in E; congruence.
Qed.

(** The deny rules and the pending challenges stay within their limits of
    1024, whatever the clients and the management side send. *)
Theorem service_tables_bounded mode issuer audience ks a ops :
  newServiceAdmissionState mode issuer audience ks = inr (Some a) ->
  exists a', service_run (Some a) ops = Some a' /\
    Z.of_nat (size (sv_denied a')) <= maxServiceAdmissionDenyRules /\
    Z.of_nat (size (sv_pending a')) <= maxPendingServiceAdmissions.
Proof.
  intros Hn. destruct (service_run_bounded a ops) as (a' & E & Hb); [|by exists a'].
  unfold newServiceAdmissionState in Hn. repeat case_match; simplify_eq; by split.
Qed.

(** A grant that is in order at [now]: its signature, times, scope, identifiers and rights. *)
Record grant_ok (a : serviceAdmissionState) (grant publicKey : list Z) (channelID senderID : Z) (now : time) (c : serviceGrantClaims) : Prop := {
  gk_size : 1 <= len grant <= serviceGrantMaxBytes /\ Forall (fun value => value <= 127) grant /\ len publicKey = PublicKeySize;
  gk_signed : exists seg0 seg1 seg2 headerRaw payloadRaw signature header issuerKey,
    split_dots grant = [seg0; seg1; seg2] /\ strictBase64URL seg0 = Some headerRaw /\ strictBase64URL seg1 = Some payloadRaw /\
    strictBase64URL seg2 = Some signature /\ len signature = SignatureSize /\
    decode_grant_header headerRaw = Some header /\ decode_grant_claims payloadRaw = Some c /\
    gh_Algorithm header = "EdDSA"%string /\ gh_Type header = "incomudon-service-admission+jwt"%string /\
    sv_keys a !! gh_KeyID header = Some issuerKey /\ len issuerKey = PublicKeySize /\ Verify issuerKey (seg0 ++ [46] ++ seg1) signature = true;
  gk_lifetime : 0 <= gc_IssuedAt c /\ 60 <= gc_ExpiresAt c - gc_IssuedAt c <= 3600;
  gk_current : Unix (gc_IssuedAt c) <= now + 30 * Second /\ now < Unix (gc_ExpiresAt c);
  gk_scope : gc_Issuer c = sv_issuer a /\ gc_Audience c = sv_audience a /\ gc_ChannelID c = channelID /\ gc_SenderID c = senderID /\ senderID <> 0;
  gk_ids : managedServiceIDPattern (gc_ServiceID c) = true /\ serviceGrantIDPattern (gc_GrantID c) = true;
  gk_rights : (gc_Permissions c = 1 /\ gc_Priority c = None /\ default 0 (gc_GraceSeconds c) <= 1800 \/
     (gc_Permissions c = 3 /\ gc_Priority c = None \/ gc_Permissions c = 7 /\ exists p, gc_Priority c = Some p /\ p <> 0) /\
     gc_Role c = "automation"%string /\ default 0 (gc_GraceSeconds c) = 0) /\
    (gc_Role c = "recorder" \/ gc_Role c = "observer" \/ gc_Role c = "automation")%string;
  gk_holder : str_bytes (gc_JWKThumbprint c) = RawURL_Encode (sha256 publicKey)
}.

(** The admission a grant gives. *)
Definition grant_admission (grant : list Z) (c : serviceGrantClaims) : serviceAdmission :=
  {| sa_serviceID := gc_ServiceID c; sa_role := gc_Role c; sa_permissions := gc_Permissions c;
     sa_priority := default 0 (gc_Priority c); sa_grantExpires := Unix (gc_ExpiresAt c);
     sa_grace := default 0 (gc_GraceSeconds c) * Second; sa_grantHash := sha256 grant;
     sa_grantIDHash := sha256 (str_bytes (gc_GrantID c)) |}.

(** The checks of permissions, priority, role and grace period accept these rights. *)
Lemma rights_checks perm prio role grace : grace <= 1800 -> 0 <= grace ->
  (negb (perm =? 1) && negb (perm =? 3) && negb (perm =? 7) || (Z.land perm identityPermissionListen =? 0) = false /\
   (perm =? 7) && match prio with None => true | Some p => p =? 0 end = false /\
   negb (perm =? 7) && match prio with None => false | Some _ => true end = false /\
   (String.eqb role "recorder" || String.eqb role "observer") && negb (perm =? 1) = false /\
   negb (String.eqb role "recorder") && negb (String.eqb role "observer") && negb (String.eqb role "automation") = false /\
   negb (perm =? 1) && negb (grace =? 0) = false) <->
  (perm = 1 /\ prio = None /\ grace <= 1800 \/
   (perm = 3 /\ prio = None \/ perm = 7 /\ exists p, prio = Some p /\ p <> 0) /\ role = "automation"%string /\ grace = 0) /\
  (role = "recorder" \/ role = "observer" \/ role = "automation")%string.
Proof.
  intros Hg H0. split.
  - intros (C1 & C2 & C3 & C4 & C5 & C6).
    assert (role = "recorder" \/ role = "observer" \/ role = "automation")%string as Hr.
    { destruct (String.eqb_spec role "recorder"), (String.eqb_spec role "observer"), (String.eqb_spec role "automation"); try done; auto. }
    split; [|exact Hr]. destruct (Z.eqb_spec perm 1) as [E1|N1]; [left|right].
    + subst. destruct prio; [done|]. by split_and!.
    + assert (role = "automation"%string) as -> by (destruct Hr as [->|[->| ->]]; done). cbn in C6. gobool.
      split; [|by split]. destruct (Z.eqb_spec perm 3) as [->|N3]; [left; by destruct prio|].
      destruct (Z.eqb_spec perm 7) as [->|N7]; [right|done]. split; [done|]. destruct prio as [q|]; [|done]. cbn in C2. gobool. by exists q.
  - intros [[(-> & -> & _)|([[-> ->]|[-> (p & -> & Hp)]] & -> & ->)] Hr]; try (apply Z.eqb_neq in Hp); split_and!; try done;
      destruct Hr as [->|[->| ->]]; done.
Qed.

Lemma ascii_values grant : existsb (fun value => 0x7f <? value) grant = false <-> Forall (fun value => value <= 127) grant.
Proof.
  rewrite Forall_forall, <- not_true_iff_false, existsb_exists. split.
  - intros Hn x Hx. destruct (Z.le_gt_cases x 127) as [|Hgt]; [done|]. exfalso. apply Hn. exists x.
    split; [by apply list_elem_of_In|by apply Z.ltb_lt].
  - intros Hf (x & Hx%list_elem_of_In & Hgt%Z.ltb_lt). specialize (Hf x Hx). lia.
Qed.

Lemma validated_ok a grant publicKey channelID senderID now ad :
  validateGrant a grant publicKey channelID senderID now = inr ad ->
  exists c, grant_ok a grant publicKey channelID senderID now c /\ ad = grant_admission grant c.
Proof.
  intros Hv. unfold validateGrant in Hv. cbn zeta in Hv.
  destruct (_ || _ || _) eqn:Esize in Hv; [done|]. destruct (existsb _ grant) eqn:Eascii; [done|]. apply ascii_values in Eascii.
  destruct (split_dots grant) as [|seg0 [|seg1 [|seg2 [|]]]] eqn:Hsplit; try done.
  destruct (strictBase64URL seg0) as [hraw|] eqn:E0; [|done].
  destruct (strictBase64URL seg1) as [praw|] eqn:E1; [|done].
  destruct (strictBase64URL seg2) as [sig|] eqn:E2; [|done].
  destruct (negb (len sig =? _)) eqn:Esig; [done|]. destruct (decode_grant_header hraw) as [h|] eqn:Eh; [|done].
  destruct (decode_grant_claims praw) as [c|] eqn:Ec; [|done]. pose proof (decode_grant_fits _ _ Ec) as (Fi & Fe & _ & _ & _ & _ & Fg).
  destruct (_ || negb (Verify _ _ _)) eqn:Everify in Hv; [done|]. destruct (_ || After _ _) eqn:Etimes in Hv; [done|].
  destruct (_ || (gc_SenderID c =? 0)) eqn:Escope in Hv; [done|]. destruct (_ || negb (serviceGrantIDPattern _)) eqn:Eids in Hv; [done|].
  destruct (_ || (Z.land _ _ =? 0)) eqn:P1 in Hv; [done|]. destruct (_ && match gc_Priority c with None => true | _ => _ end) eqn:P2 in Hv; [done|].
  destruct (_ && match gc_Priority c with None => false | _ => _ end) eqn:P3 in Hv; [done|]. destruct ((_ || _) && _) eqn:P4 in Hv; [done|].
  destruct (_ && negb (String.eqb _ "automation")) eqn:P5 in Hv; [done|]. destruct ((_ <? _) || _) eqn:P6 in Hv; [done|].
  destruct (_ || negb (bytes_eqb _ _)) eqn:Ethumb in Hv; [done|]. injection Hv as <-. exists c. split; [|done].
  apply orb_false_iff in P6 as [P6%Z.ltb_ge P7]. assert (0 <= default 0 (gc_GraceSeconds c)) as Hg0 by (destruct (gc_GraceSeconds c); cbn; [apply Fg|done]).
  unfold maximumServiceAdmissionGraceSecs in P6.
  pose proof (proj1 (rights_checks (gc_Permissions c) (gc_Priority c) (gc_Role c) _ P6 Hg0) (conj P1 (conj P2 (conj P3 (conj P4 (conj P5 P7)))))) as Hr.
  clear P1 P2 P3 P4 P5 P7. gobool. gotime. unfold serviceGrantMaxBytes, minimumServiceGrantLifetime, maximumServiceGrantLifetime, maximumServiceAdmissionGraceSecs in *.
  assert (i64 (gc_ExpiresAt c - gc_IssuedAt c) = gc_ExpiresAt c - gc_IssuedAt c) as Hi by (apply i64_small; lia). rewrite Hi in *.
  pose proof (len_nonneg grant). constructor.
  - unfold serviceGrantMaxBytes. by split_and!; [lia..| |].
  - destruct (sv_keys a !! gh_KeyID h) as [issuerKey|] eqn:Ek; [|done]. cbn in *.
    exists seg0, seg1, seg2, hraw, praw, sig, h, issuerKey. repeat match goal with H : String.eqb _ _ = true |- _ => apply String.eqb_eq in H end.
    by split_and!.
  - lia.
  - by split.
  - repeat match goal with H : String.eqb _ _ = true |- _ => apply String.eqb_eq in H end. split_and!; congruence.
  - by split.
  - exact Hr.
  - by unfold bytes_eqb in *; gobool.
Qed.

Lemma ok_validated a grant publicKey channelID senderID now c :
  grant_ok a grant publicKey channelID senderID now c ->
  validateGrant a grant publicKey channelID senderID now = inr (grant_admission grant c).
Proof.
  intros [(Hsize & Hascii & Hpk) (seg0 & seg1 & seg2 & hraw & praw & sig & h & key & Hsplit & E0 & E1 & E2 & Hsig & Eh & Ec & Halg & Htyp & Hkey & Hkl & Hv)
    [H0 Hl] [Ht1 Ht2] (Hiss & Haud & Hch & Hsd & Hs0) [Hid Hgid] Hr Hj].
  pose proof (decode_grant_fits _ _ Ec) as (Fi & Fe & _ & _ & _ & _ & Fg). apply ascii_values in Hascii.
  assert (0 <= default 0 (gc_GraceSeconds c) <= 1800) as Hg.
  { split; [destruct (gc_GraceSeconds c); cbn; [apply Fg|done]|]. destruct Hr as [[(_ & _ & ?)|(_ & _ & ->)] _]; lia. }
  apply (rights_checks _ _ _ (default 0 (gc_GraceSeconds c))) in Hr as (P1 & P2 & P3 & P4 & P5 & P6); [|lia..].
  assert (String.eqb (gc_JWKThumbprint c) "" = false) as Hj0.
  { apply String.eqb_neq. intros E. rewrite E in Hj. pose proof (length_sha256 publicKey) as H32.
    by destruct (sha256 publicKey) as [|? [|? [|? ?]]]. }
  unfold validateGrant. cbv zeta. rewrite (proj2 (Z.eqb_neq (len grant) 0)), (proj2 (Z.ltb_ge _ (len grant))), Hpk, Hascii, Hsplit, E0, E1, E2, Hsig, Eh, Ec by lia.
  cbn [negb orb Z.eqb Pos.eqb SignatureSize PublicKeySize]. rewrite Halg, Htyp, Hkey. cbn [default from_option id]. rewrite Hkl, Hv, !String.eqb_refl, Z.eqb_refl.
  cbn [negb orb]. rewrite i64_small by lia. unfold minimumServiceGrantLifetime, maximumServiceGrantLifetime.
  rewrite (proj2 (Z.ltb_ge (gc_IssuedAt c) 0)), (proj2 (Z.leb_gt (gc_ExpiresAt c) _)), (proj2 (Z.ltb_ge _ 60)), (proj2 (Z.ltb_ge 3600 _)) by lia.
  unfold Add. rewrite (proj2 (After_true _ _) Ht2), (proj2 (After_false _ _) Ht1). cbn [negb orb].
  rewrite Hiss, Haud, Hch, Hsd, !String.eqb_refl, !Z.eqb_refl, (proj2 (Z.eqb_neq senderID 0)), Hid, Hgid by done. cbn [negb orb].
  rewrite P1, P2, P3, P4, P5. unfold maximumServiceAdmissionGraceSecs. rewrite (proj2 (Z.ltb_ge 1800 _)), P6 by lia. cbn [orb].
  rewrite Hj0. unfold bytes_eqb. by rewrite bool_decide_eq_true_2.
Qed.

(** C18. A grant validates exactly when it is in order: an ASCII compact JWS of at most 768
    bytes that a configured issuer key of 32 bytes signs, with a lifetime of 60 to 3600
    seconds that began at most 30 seconds from now and has not ended, for this Relay, this
    channel and this sender, which is not 0, and bound to the public key of the proof; a
    recorder or observer only listens, only a grant to interrupt has a priority, and only
    a listening one a grace period, of at most half an hour.  Its admission is what the
    claims say, and ends with the grant or its grace period. *)
Theorem validateGrant_sound a grant publicKey channelID senderID now ad :
  (validateGrant a grant publicKey channelID senderID now = inr ad <->
   exists c, grant_ok a grant publicKey channelID senderID now c /\ ad = grant_admission grant c) /\
  (validateGrant a grant publicKey channelID senderID now = inr ad -> zero_time <= now ->
   now < sa_grantExpires ad <= now + 3630 * Second /\
   sa_grantExpires ad <= expiryDeadline ad <= sa_grantExpires ad + 1800 * Second).
Proof.
  split; [split; [apply validated_ok|intros (c & Hc & ->); by apply ok_validated]|].
  intros (c & [_ (seg0 & seg1 & seg2 & hraw & praw & sig & h & key & _ & _ & _ & _ & _ & _ & Ec & _) [H0 Hl] [Ht1 Ht2] _ _ Hr _] & ->)%validated_ok Hnow.
  apply decode_grant_fits in Ec as (Fi & Fe & _ & _ & _ & _ & Fg). unfold grant_admission, expiryDeadline, Add. cbn [sa_permissions sa_grace sa_grantExpires].
  split; [split; [done|]; apply (ticket_lifetime 3600 (gc_IssuedAt c)); [done|done|done|done|lia|rewrite i64_small; lia|done|done]|].
  assert (0 <= default 0 (gc_GraceSeconds c) <= 1800) as Hg.
  { split; [destruct (gc_GraceSeconds c); cbn; [apply Fg|done]|]. destruct Hr as [[(_ & _ & ?)|(_ & _ & ->)] _]; lia. }
  unfold Second. match goal with |- context [if ?b then _ else _] => destruct b end; lia.
Qed.
End properties.

(** ** A concrete instance *)

Definition toy_grant_header : serviceGrantHeader :=
  {| gh_Algorithm := "EdDSA"; gh_KeyID := "k1"; gh_Type := "incomudon-service-admission+jwt" |}.
Definition toy_grant_claims : serviceGrantClaims :=
  {| gc_Issuer := "issuer"; gc_Audience := "relay"; gc_ServiceID := "recorder-1"; gc_GrantID := "grant-0123456789";
     gc_IssuedAt := 1700000000; gc_ExpiresAt := 1700000600; gc_ChannelID := 100; gc_SenderID := 1002;
     gc_Role := "recorder"; gc_Permissions := 1; gc_Priority := None; gc_GraceSeconds := Some 60;
     gc_JWKThumbprint := toy_thumb |}.

#[refine, export] Instance toy_grant_json : GrantJSON :=
  {| decode_grant_header := fun raw => if bytes_eqb raw [1] then Some toy_grant_header else None;
     decode_grant_claims := fun raw => if bytes_eqb raw [2] then Some toy_grant_claims else None |}.
Proof.
  intros raw c E. destruct (bytes_eqb raw [2]); [|done]. simplify_eq.
  unfold grant_fits, is_u32, is_u16, is_u8. simpl. lia.
Defined.

Definition toy_service : serviceAdmissionState :=
  {| sv_issuer := "issuer"; sv_audience := "relay"; sv_keys := {[ "k1"%string := toy_key ]};
     sv_pending := ∅; sv_verified := ∅; sv_failed := ∅; sv_denied := ∅ |}.
Definition toy_service_admission : serviceAdmission :=
  {| sa_serviceID := "recorder-1"; sa_role := "recorder"; sa_permissions := 1; sa_priority := 0;
     sa_grantExpires := Unix 1700000600; sa_grace := 60 * Second; sa_grantHash := sha256 toy_ticket;
     sa_grantIDHash := sha256 (str_bytes "grant-0123456789") |}.

Lemma toy_grant_validates :
  validateGrant toy_service toy_ticket toy_key 100 1002 toy_now = inr toy_service_admission.
Proof. by vm_compute. Qed.

Lemma validateGrant_sound_witness :
  (exists c, grant_ok toy_service toy_ticket toy_key 100 1002 toy_now c /\ toy_service_admission = grant_admission toy_ticket c) /\
  toy_now < Unix 1700000600 <= toy_now + 3630 * Second.
Proof.
  pose proof (validateGrant_sound toy_service toy_ticket toy_key 100 1002 toy_now toy_service_admission) as [Hiff Hend].
  split; [apply Hiff, toy_grant_validates|]. apply (Hend toy_grant_validates). by vm_compute.
Defined.

Definition toy_target : serviceAdmissionRevocationTarget :=
  {| rt_channelID := 100; rt_serviceID := "recorder-1"; rt_grantIDHash := None |}.

(** A proof verified before the revocation is worth nothing after it. *)
Definition verified_service : serviceAdmissionState :=
  set_service toy_service ∅ {[ serviceKeyForPacket (toy_packet pktJoin []) (Some vector_addr) 7 := toy_service_admission ]} ∅ ∅.

Lemma revocation_fails_closed_witness :
  (admissionAllowedForMembership
     (service_run (installRevocation (Some verified_service) toy_target (toy_now + 100 * Second) toy_now).2
        [SvAllowed 100 toy_service_admission toy_now]) 100 toy_service_admission (toy_now + Second)).1 = false.
Proof.
  destruct (installRevocation (Some verified_service) toy_target (toy_now + 100 * Second) toy_now) as [b oa] eqn:E.
  assert (b = true) as -> by (change b with (b, oa).1; rewrite <- E; by vm_compute).
  exact (proj1 (revocation_fails_closed verified_service toy_target (toy_now + 100 * Second) toy_now oa
    [SvAllowed 100 toy_service_admission toy_now] (toy_now + Second) (toy_packet pktJoin []) (Some vector_addr)
    hello_meta 100 toy_service_admission E ltac:(by repeat constructor) eq_refl eq_refl)).
Defined.

Lemma service_tables_bounded_witness :
  exists a', service_run (Some toy_service) [SvRevoke toy_target (toy_now + Second) toy_now] = Some a' /\
    Z.of_nat (size (sv_denied a')) <= maxServiceAdmissionDenyRules /\
    Z.of_nat (size (sv_pending a')) <= maxPendingServiceAdmissions.
Proof.
  exact (service_tables_bounded serviceAdmissionEnabled "issuer" "relay" (sv_keys toy_service) toy_service
    [SvRevoke toy_target (toy_now + Second) toy_now] eq_refl).
Defined.
