(* ===== verification/Diagnostics.v ===== *)
(** * Floor Interrupt diagnostics

    [relay_diagnostics.go]: five saturation-free counters kept within the
    integers a double represents exactly, and the epoch that names their reset. *)

From S2P Require Import Prelude.

Definition relayDiagnosticsCounterMaximum : Z := 9007199254740991.

Record relayFloorInterruptCounters := {
  PTTRequestsTotal : Z; GrantsTotal : Z; DenialsTotal : Z;
  PreemptionsTotal : Z; UnauthorizedRejectionsTotal : Z
}.

Definition zero_counters : relayFloorInterruptCounters :=
  {| PTTRequestsTotal := 0; GrantsTotal := 0; DenialsTotal := 0;
     PreemptionsTotal := 0; UnauthorizedRejectionsTotal := 0 |}.

Record relayFloorInterruptCounterDelta := {
  pttRequests : Z; grants : Z; denials : Z; preemptions : Z; unauthorizedRejections : Z
}.

Record relayDiagnosticsState := {
  counterEpoch : string; floorInterruptCounters : relayFloorInterruptCounters
}.

(** [newRelayDiagnosticsState]; [id] is what [newPrivateControlID] returns, and
    [None] its error, on which the function panics. *)
Definition newRelayDiagnosticsState (id : option string) : option relayDiagnosticsState :=
  (fun e => {| counterEpoch := e; floorInterruptCounters := zero_counters |}) <$> id.

Definition canAdd (c : relayFloorInterruptCounters) (delta : relayFloorInterruptCounterDelta) : bool :=
  (pttRequests delta <=? u64 (relayDiagnosticsCounterMaximum - PTTRequestsTotal c))
  && (grants delta <=? u64 (relayDiagnosticsCounterMaximum - GrantsTotal c))
  && (denials delta <=? u64 (relayDiagnosticsCounterMaximum - DenialsTotal c))
  && (preemptions delta <=? u64 (relayDiagnosticsCounterMaximum - PreemptionsTotal c))
  && (unauthorizedRejections delta <=? u64 (relayDiagnosticsCounterMaximum - UnauthorizedRejectionsTotal c)).

Definition add_counters (c : relayFloorInterruptCounters) (delta : relayFloorInterruptCounterDelta) :=
  {| PTTRequestsTotal := u64 (PTTRequestsTotal c + pttRequests delta);
     GrantsTotal := u64 (GrantsTotal c + grants delta);
     DenialsTotal := u64 (DenialsTotal c + denials delta);
     PreemptionsTotal := u64 (PreemptionsTotal c + preemptions delta);
     UnauthorizedRejectionsTotal := u64 (UnauthorizedRejectionsTotal c + unauthorizedRejections delta) |}.

(** [observeFloorInterrupt]; [None] is its panic. *)
Definition observeFloorInterrupt (id : option string) (delta : relayFloorInterruptCounterDelta)
    (d : relayDiagnosticsState) : option relayDiagnosticsState :=
  if canAdd (floorInterruptCounters d) delta
  then Some {| counterEpoch := counterEpoch d;
               floorInterruptCounters := add_counters (floorInterruptCounters d) delta |}
  else
    match id with
    | None => None
    | Some e => Some {| counterEpoch := e; floorInterruptCounters := add_counters zero_counters delta |}
    end.

(** [snapshot], [snapshotEpochOnly] and [relayDiagnosticsSnapshot], of a server
    whose [floorInterrupt] flag is given. *)
Definition diagnostics_snapshot (d : relayDiagnosticsState) : string * relayFloorInterruptCounters :=
  (counterEpoch d, floorInterruptCounters d).
Definition snapshotEpochOnly (d : relayDiagnosticsState) : string * relayFloorInterruptCounters :=
  (counterEpoch d, zero_counters).
Definition relayDiagnosticsSnapshot (floorInterrupt : bool) (d : relayDiagnosticsState)
    : string * relayFloorInterruptCounters :=
  if negb floorInterrupt then snapshotEpochOnly d else diagnostics_snapshot d.

(** ** Lemmas *)

Definition counter_ok (z : Z) : Prop := 0 <= z <= relayDiagnosticsCounterMaximum.
Definition counters_ok (c : relayFloorInterruptCounters) : Prop :=
  counter_ok (PTTRequestsTotal c) /\ counter_ok (GrantsTotal c) /\ counter_ok (DenialsTotal c) /\
  counter_ok (PreemptionsTotal c) /\ counter_ok (UnauthorizedRejectionsTotal c).
Definition delta_ok (d : relayFloorInterruptCounterDelta) : Prop :=
  counter_ok (pttRequests d) /\ counter_ok (grants d) /\ counter_ok (denials d) /\
  counter_ok (preemptions d) /\ counter_ok (unauthorizedRejections d).

Lemma can_add_one c d :
  counter_ok c -> (d <=? u64 (relayDiagnosticsCounterMaximum - c)) = (c + d <=? relayDiagnosticsCounterMaximum).
Proof.
  unfold counter_ok, u64, relayDiagnosticsCounterMaximum. intros. rewrite Z.mod_small by lia.
  destruct (Z.leb_spec (c + d) 9007199254740991); [apply Z.leb_le|apply Z.leb_gt]; lia.
Qed.

Lemma add_one c d :
  counter_ok c -> counter_ok d -> u64 (c + d) = c + d.
Proof. unfold counter_ok, u64, relayDiagnosticsCounterMaximum. intros. apply Z.mod_small. lia. Qed.

(** ** Properties *)

(** The sum of two counters, field by field, without wrap-around. *)
Definition plus_counters (c : relayFloorInterruptCounters) (d : relayFloorInterruptCounterDelta) :=
  {| PTTRequestsTotal := PTTRequestsTotal c + pttRequests d; GrantsTotal := GrantsTotal c + grants d;
     DenialsTotal := DenialsTotal c + denials d; PreemptionsTotal := PreemptionsTotal c + preemptions d;
     UnauthorizedRejectionsTotal := UnauthorizedRejectionsTotal c + unauthorizedRejections d |}.

(** The counters are exact within an epoch and never exceed 2^53-1: an
    observation either adds its delta to every counter without wrap-around and
    keeps the epoch, or, when one sum would pass the limit, starts a new epoch
    from zero with the delta; it never changes one counter without the others. *)
Theorem observe_exact_or_new_epoch id delta d d' :
  counters_ok (floorInterruptCounters d) -> delta_ok delta ->
  observeFloorInterrupt id delta d = Some d' ->
  counters_ok (floorInterruptCounters d') /\
  (counterEpoch d' = counterEpoch d /\
   floorInterruptCounters d' = plus_counters (floorInterruptCounters d) delta \/
   Some (counterEpoch d') = id /\ floorInterruptCounters d' = plus_counters zero_counters delta /\
   ~ counters_ok (plus_counters (floorInterruptCounters d) delta)).
Proof.
  intros Hc Hd. destruct Hc as (C1 & C2 & C3 & C4 & C5). pose proof Hd as (D1 & D2 & D3 & D4 & D5).
  unfold observeFloorInterrupt, canAdd. rewrite !can_add_one by done.
  destruct (_ && _) eqn:E; [|destruct id as [e|]; [|done]]; intros [= <-]; simpl.
  - gobool. unfold add_counters, plus_counters. rewrite !add_one by done.
    split; [|by left]. unfold counters_ok, counter_ok in *. simpl. lia.
  - unfold add_counters, plus_counters. simpl. rewrite !add_one by (done || by vm_compute).
    split; [exact Hd|]. right. split_and!; [done|done|]. unfold counters_ok, counter_ok. simpl.
    intros (L1 & L2 & L3 & L4 & L5). rewrite !(proj2 (Z.leb_le _ _)) in E by lia. done.
Qed.

Lemma observe_exact_or_new_epoch_witness :
  let c := {| PTTRequestsTotal := relayDiagnosticsCounterMaximum; GrantsTotal := 5; DenialsTotal := 0;
              PreemptionsTotal := 0; UnauthorizedRejectionsTotal := 1 |} in
  let delta := {| pttRequests := 1; grants := 1; denials := 0; preemptions := 0; unauthorizedRejections := 0 |} in
  counters_ok (plus_counters zero_counters delta).
Proof.
  intros c delta.
  apply (observe_exact_or_new_epoch (Some "epoch-2"%string) delta
    {| counterEpoch := "epoch-1"; floorInterruptCounters := c |}
    {| counterEpoch := "epoch-2"; floorInterruptCounters := plus_counters zero_counters delta |}).
  - unfold counters_ok, counter_ok, c, relayDiagnosticsCounterMaximum. simpl. lia.
  - unfold delta_ok, counter_ok, delta, relayDiagnosticsCounterMaximum. simpl. lia.
  - by vm_compute.
Defined.
