(* ===== verification/DirectoryWire.v ===== *)
(** * The Directory on the wire

    Keys, envelopes and payloads of [directory_v3.go]: the HKDF derivation, the
    additional data and the nonce of an envelope, sealing, and opening with every
    check a client datagram passes before it is acted on.  A Go string is the
    list of its bytes. *)

From S2P Require Import Prelude GoTime GoNet Sha256 Base64 Packet.

Definition directoryV3Version : Z := 3.
Definition directoryTransportDedicated : Z := 0.
Definition directoryTransportMedia : Z := 1.
Definition directoryCarrierVersion : Z := 1.
Definition directoryMaxJSONInteger : Z := 9007199254740991.
Definition directoryClientLifetime : duration := 30 * Second.

Definition directoryCarrierMagic : list Z := str_bytes "IDP3".
Definition directoryAADPrefix : list Z := str_bytes "IncomUdon Directory Envelope AAD v3" ++ [0].
Definition directoryC2RInfo : list Z := str_bytes "incomudon-directory-channel-v3 client-to-relay".
Definition directoryR2CInfo : list Z := str_bytes "incomudon-directory-channel-v3 relay-to-client".
Definition directoryEnvelopeInfo : list Z := str_bytes "incomudon-directory-envelope-v3".

Inductive directoryTransport := directoryTransportMediaPort | directoryTransportDedicatedUDP.

Definition binding (t : directoryTransport) : Z :=
  match t with
  | directoryTransportMediaPort => directoryTransportMedia
  | directoryTransportDedicatedUDP => directoryTransportDedicated
  end.

(** ** Keys *)

Record directoryKeyMaterial := { dk_channel : list Z; c2r : list Z; r2c : list Z }.

Abbreviation directoryKeyStore := (gmap Z directoryKeyMaterial).

(** The expansion loop: [n] more blocks after [previous], numbered from
    [counter]. *)
Fixpoint hkdf_expand (n : nat) (prk info : list Z) (counter : Z) (previous : list Z) : list Z :=
  match n with
  | O => []
  | S k =>
      let block := hmac_sha256 prk (previous ++ info ++ [u8 counter]) in
      block ++ hkdf_expand k prk info (counter + 1) block
  end.

(** [None] is the error; a nil salt is [None]. *)
Definition hkdfSHA256 (ikm : list Z) (salt : option (list Z)) (info : list Z) (length : Z) : option (list Z) :=
  if (length <? 0) || (255 * 32 <? length) then None
  else
    let prk := hmac_sha256 (default (zeros 32) salt) ikm in
    Some (take (Z.to_nat length) (hkdf_expand (Z.to_nat ((length + 31) / 32)) prk info 1 [])).

Definition newDirectoryKeyMaterial (channelKey : list Z) : option directoryKeyMaterial :=
  if negb (len channelKey =? 32) then None
  else
    k1 ← hkdfSHA256 channelKey None directoryC2RInfo 32;
    k2 ← hkdfSHA256 channelKey None directoryR2CInfo 32;
    Some {| dk_channel := channelKey; c2r := k1; r2c := k2 |}.

Definition directoryEpochKey (directionalKey epoch : list Z) : option (list Z) :=
  hkdfSHA256 directionalKey (Some epoch) directoryEnvelopeInfo 32.

(** ** Envelopes and payloads *)

Record directoryEnvelope := {
  e_Version : Z; e_Type : list Z; e_ChannelID : Z; e_Epoch : list Z; e_Sequence : Z;
  e_ExpiresAt : Z; e_Ciphertext : list Z
}.

Record directoryEnvelopeInput := {
  ei_Version : option Z; ei_Type : option (list Z); ei_ChannelID : option Z; ei_Epoch : option (list Z);
  ei_Sequence : option Z; ei_ExpiresAt : option Z; ei_Ciphertext : option (list Z)
}.

Record directoryRequestPayload := {
  rq_Version : Z; rq_IssuedAt : Z; rq_ExpiresAt : Z; rq_RequestID : list Z; rq_Resource : list Z;
  rq_Cursor : option (list Z)
}.

(** [ri_Cursor] is the raw JSON of the member, [None] when it is absent. *)
Record directoryRequestInput := {
  ri_Version : option Z; ri_IssuedAt : option Z; ri_ExpiresAt : option Z; ri_RequestID : option (list Z);
  ri_Resource : option (list Z); ri_Cursor : option (list Z)
}.

Record directoryRegistrationPayload := {
  rg_Version : Z; rg_IssuedAt : Z; rg_ExpiresAt : Z; rg_InstanceID : list Z
}.

Record directoryRegistrationInput := {
  gi_Version : option Z; gi_IssuedAt : option Z; gi_ExpiresAt : option Z; gi_InstanceID : option (list Z)
}.

Record directoryOpenedDatagram := {
  o_envelope : directoryEnvelope; o_epoch : list Z; o_binding : Z;
  o_request : option directoryRequestPayload; o_registration : option directoryRegistrationPayload
}.

Definition envelope_input (e : directoryEnvelope) : directoryEnvelopeInput :=
  {| ei_Version := Some (e_Version e); ei_Type := Some (e_Type e); ei_ChannelID := Some (e_ChannelID e);
     ei_Epoch := Some (e_Epoch e); ei_Sequence := Some (e_Sequence e); ei_ExpiresAt := Some (e_ExpiresAt e);
     ei_Ciphertext := Some (e_Ciphertext e) |}.

#[export] Instance envelope_input_inj : Inj (=) (=) envelope_input.
Proof. intros [] [] E. unfold envelope_input in E. cbn in E. congruence. Qed.

(** The integers fit their fields and the strings are ASCII, which JSON carries
    unchanged. *)
Definition envelope_fits (e : directoryEnvelope) : Prop :=
  is_u64 (e_Version e) /\ is_u32 (e_ChannelID e) /\ is_u64 (e_Sequence e) /\ is_u64 (e_ExpiresAt e) /\
  Forall (fun c => 32 <= c < 127) (e_Type e ++ e_Epoch e ++ e_Ciphertext e).

(** [encoding/json] on the types of the Directory: [decodeDirectoryJSON] into
    each input type, [json.Unmarshal] of a cursor, [json.Marshal] of an
    envelope. *)
Class DirectoryJSON := {
  unmarshal_envelope : list Z -> option directoryEnvelopeInput;
  unmarshal_request : list Z -> option directoryRequestInput;
  unmarshal_registration : list Z -> option directoryRegistrationInput;
  unmarshal_cursor : list Z -> option (list Z);
  marshal_envelope : directoryEnvelope -> list Z;
  unmarshal_envelope_fits : forall raw e, unmarshal_envelope raw = Some (envelope_input e) ->
    is_u64 (e_Version e) /\ is_u32 (e_ChannelID e) /\ is_u64 (e_Sequence e) /\ is_u64 (e_ExpiresAt e);
  unmarshal_request_fits : forall raw i x, unmarshal_request raw = Some i ->
    ri_IssuedAt i = Some x -> is_u64 x;
  unmarshal_registration_fits : forall raw i x, unmarshal_registration raw = Some i ->
    gi_IssuedAt i = Some x -> is_u64 x;
  unmarshal_marshal_envelope : forall e, envelope_fits e ->
    unmarshal_envelope (marshal_envelope e) = Some (envelope_input e)
}.

(** AES-256-GCM with a 12-byte nonce: [Seal] appends a 16-byte tag, and [Open]
    succeeds exactly on what [Seal] makes of the plaintext it returns. *)
Class AEAD := {
  gcm_Seal : list Z -> list Z -> list Z -> list Z -> list Z;
  gcm_Open : list Z -> list Z -> list Z -> list Z -> option (list Z);
  gcm_open_seal : forall key nonce aad plaintext,
    bytes_ok plaintext -> gcm_Open key nonce aad (gcm_Seal key nonce aad plaintext) = Some plaintext;
  gcm_open_only : forall key nonce aad ciphertext plaintext,
    gcm_Open key nonce aad ciphertext = Some plaintext -> ciphertext = gcm_Seal key nonce aad plaintext;
  gcm_seal_length : forall key nonce aad plaintext,
    length (gcm_Seal key nonce aad plaintext) = (length plaintext + 16)%nat;
  gcm_seal_bytes : forall key nonce aad plaintext,
    bytes_ok plaintext -> bytes_ok (gcm_Seal key nonce aad plaintext)
}.

Definition directoryNonce (sequence : Z) : list Z := directoryCarrierMagic ++ put_be 8 sequence.

Definition directoryAAD (envelope : directoryEnvelope) (epoch : list Z) (bnd : Z) : list Z :=
  directoryAADPrefix ++ [u8 (e_Version envelope); bnd; u8 (len (e_Type envelope))] ++ e_Type envelope
  ++ put_be 4 (e_ChannelID envelope) ++ epoch ++ put_be 8 (e_Sequence envelope) ++ put_be 8 (e_ExpiresAt envelope).

Definition isDirectoryClientType (value : list Z) : bool :=
  bytes_eqb value (str_bytes "request") || bytes_eqb value (str_bytes "register")
  || bytes_eqb value (str_bytes "heartbeat").

Definition isDirectoryRelayType (value : list Z) : bool :=
  bytes_eqb value (str_bytes "snapshot") || bytes_eqb value (str_bytes "participants")
  || bytes_eqb value (str_bytes "error").

Definition decodeCanonicalDirectoryID (value : list Z) : option (list Z) :=
  if negb (len value =? 22) || bool_decide (61 ∈ value) then None
  else
    decoded ← RawURL_Decode value;
    if negb (len decoded =? 16) then None
    else if negb (bytes_eqb (RawURL_Encode decoded) value) then None
    else Some decoded.

(** [nil] error is [true]. *)
Definition validateDirectoryClientPayload (version issuedAt expiresAt envelopeExpiresAt : Z) (now : time) : bool :=
  if negb (version =? directoryV3Version) || (issuedAt =? 0) || (directoryMaxJSONInteger <? issuedAt)
     || (expiresAt =? 0) || (directoryMaxJSONInteger <? expiresAt) then false
  else if (expiresAt <=? issuedAt) || negb (expiresAt =? envelopeExpiresAt)
     || (Z.quot directoryClientLifetime Second <? u64 (expiresAt - issuedAt)) then false
  else negb (expiresAt <=? u64 (toUnix now)).

Definition valid_binding (bnd : Z) : bool := (bnd =? directoryTransportDedicated) || (bnd =? directoryTransportMedia).

Section wire.
Context `{DirectoryJSON} `{AEAD}.

(** The request payload of a plaintext, with its cursor. *)
Definition open_request (plaintext : list Z) (envelopeExpiresAt : Z) (now : time) : option directoryRequestPayload :=
  input ← unmarshal_request plaintext;
  version ← ri_Version input; issuedAt ← ri_IssuedAt input; expiresAt ← ri_ExpiresAt input;
  requestID ← ri_RequestID input; resource ← ri_Resource input;
  if negb (validateDirectoryClientPayload version issuedAt expiresAt envelopeExpiresAt now) then None
  else
  _ ← decodeCanonicalDirectoryID requestID;
  if negb (bytes_eqb resource (str_bytes "participants")) && negb (bytes_eqb resource (str_bytes "snapshot")) then None
  else
    let request cursor := {| rq_Version := version; rq_IssuedAt := issuedAt; rq_ExpiresAt := expiresAt;
      rq_RequestID := requestID; rq_Resource := resource; rq_Cursor := cursor |} in
    match ri_Cursor input with
    | None => Some (request None)
    | Some raw =>
        if bytes_eqb raw (str_bytes "null") then None
        else
          cursor ← unmarshal_cursor raw;
          if negb (bytes_eqb resource (str_bytes "snapshot")) || (len cursor =? 0) || (512 <? len cursor) then None
          else Some (request (Some cursor))
    end.

Definition open_registration (plaintext : list Z) (envelopeExpiresAt : Z) (now : time)
    : option directoryRegistrationPayload :=
  input ← unmarshal_registration plaintext;
  version ← gi_Version input; issuedAt ← gi_IssuedAt input; expiresAt ← gi_ExpiresAt input;
  instanceID ← gi_InstanceID input;
  if negb (validateDirectoryClientPayload version issuedAt expiresAt envelopeExpiresAt now) then None
  else
  _ ← decodeCanonicalDirectoryID instanceID;
  Some {| rg_Version := version; rg_IssuedAt := issuedAt; rg_ExpiresAt := expiresAt; rg_InstanceID := instanceID |}.

(** The envelope of a datagram, when no member is missing. *)
Definition parse_envelope (data : list Z) : option directoryEnvelope :=
  input ← unmarshal_envelope data;
  version ← ei_Version input; type ← ei_Type input; channelID ← ei_ChannelID input; epoch ← ei_Epoch input;
  sequence ← ei_Sequence input; expiresAt ← ei_ExpiresAt input; ciphertext ← ei_Ciphertext input;
  Some {| e_Version := version; e_Type := type; e_ChannelID := channelID; e_Epoch := epoch;
          e_Sequence := sequence; e_ExpiresAt := expiresAt; e_Ciphertext := ciphertext |}.

(** The checks on an envelope before its key is looked up. *)
Definition envelope_current (envelope : directoryEnvelope) (now : time) : bool :=
  (e_Version envelope =? directoryV3Version) && isDirectoryClientType (e_Type envelope)
  && negb ((e_Sequence envelope =? 0) || (directoryMaxJSONInteger <? e_Sequence envelope)
           || (e_ExpiresAt envelope =? 0) || (directoryMaxJSONInteger <? e_ExpiresAt envelope))
  && negb (e_ExpiresAt envelope <=? u64 (toUnix now)).

(** [None] is any error. *)
Definition openDirectoryDatagram (data : list Z) (bnd : Z) (keys : directoryKeyStore) (now : time)
    : option directoryOpenedDatagram :=
  if negb (acceptsUDPDatagramSize (len data)) || negb (valid_binding bnd) then None
  else
  envelope ← parse_envelope data;
  if negb (envelope_current envelope now) then None
  else
  epoch ← decodeCanonicalDirectoryID (e_Epoch envelope);
  material ← keys !! e_ChannelID envelope;
  ciphertext ← RawURL_Decode (e_Ciphertext envelope);
  if len ciphertext <? 16 then None
  else
  key ← directoryEpochKey (c2r material) epoch;
  plaintext ← gcm_Open key (directoryNonce (e_Sequence envelope)) (directoryAAD envelope epoch bnd) ciphertext;
  let opened request registration := {| o_envelope := envelope; o_epoch := epoch; o_binding := bnd;
    o_request := request; o_registration := registration |} in
  if bytes_eqb (e_Type envelope) (str_bytes "request") then
    (fun r => opened (Some r) None) <$> open_request plaintext (e_ExpiresAt envelope) now
  else (fun r => opened None (Some r)) <$> open_registration plaintext (e_ExpiresAt envelope) now.

Definition sealDirectoryEnvelope (plaintext envelopeType : list Z) (channelID : Z) (directionalKey epoch : list Z)
    (sequence expiresAt bnd : Z) : option (list Z) :=
  if (sequence =? 0) || (directoryMaxJSONInteger <? sequence) || (expiresAt =? 0)
     || (directoryMaxJSONInteger <? expiresAt) then None
  else if negb (valid_binding bnd) then None
  else
  key ← directoryEpochKey directionalKey epoch;
  let envelope ciphertext := {| e_Version := directoryV3Version; e_Type := envelopeType; e_ChannelID := channelID;
    e_Epoch := RawURL_Encode epoch; e_Sequence := sequence; e_ExpiresAt := expiresAt; e_Ciphertext := ciphertext |} in
  let ciphertext := gcm_Seal key (directoryNonce sequence) (directoryAAD (envelope []) epoch bnd) plaintext in
  let datagram := marshal_envelope (envelope (RawURL_Encode ciphertext)) in
  let datagram := if bnd =? directoryTransportMedia
                  then directoryCarrierMagic ++ [directoryCarrierVersion] ++ datagram else datagram in
  if negb (acceptsUDPDatagramSize (len datagram)) then None else Some datagram.

Definition sealDirectoryDatagram (plaintext envelopeType : list Z) (channelID : Z) (material : directoryKeyMaterial)
    (epoch : list Z) (sequence expiresAt bnd : Z) : option (list Z) :=
  if negb (isDirectoryRelayType envelopeType) then None
  else sealDirectoryEnvelope plaintext envelopeType channelID (r2c material) epoch sequence expiresAt bnd.

Definition sealDirectoryClientDatagram (plaintext envelopeType : list Z) (channelID : Z)
    (material : directoryKeyMaterial) (epoch : list Z) (sequence expiresAt bnd : Z) : option (list Z) :=
  if negb (isDirectoryClientType envelopeType) then None
  else sealDirectoryEnvelope plaintext envelopeType channelID (c2r material) epoch sequence expiresAt bnd.
End wire.

(** The derivation of [directory_v3_test.go]. *)
Definition directoryChannelInfo : list Z := str_bytes "incomudon-directory-channel-v3".

Example hkdf_vector :
  hkdfSHA256 (put_be 32 0x6c63ca4d97d0866372c0a8e13b4a79db4970b48687964d0445c6354e39c41005) None directoryChannelInfo 32
  = Some (put_be 32 0x174209da75aa25b4f917342071659c2e4d15a1b3b38fd82fad83d519c32cf17e).
Proof. vm_compute. reflexivity. Qed.

(** ** Lemmas *)

Lemma decodeCanonical_spec value decoded :
  decodeCanonicalDirectoryID value = Some decoded -> length decoded = 16%nat /\ RawURL_Encode decoded = value.
Proof.
  unfold decodeCanonicalDirectoryID. destruct (_ || _); [done|]. destruct (RawURL_Decode value) as [d|]; [|done].
  cbn [mbind option_bind]. destruct (negb (len d =? 16)) eqn:Hl; [done|].
  destruct (negb (bytes_eqb _ _)) eqn:He; [done|]. intros [= <-]. unfold len, bytes_eqb in *. gobool. split; [lia|done].
Qed.

Lemma length_encode16 l : length l = 16%nat -> length (RawURL_Encode l) = 22%nat.
Proof. do 16 (destruct l as [|? l]; [done|]). by destruct l. Qed.

Lemma decodeCanonical_encode l :
  bytes_ok l -> length l = 16%nat -> decodeCanonicalDirectoryID (RawURL_Encode l) = Some l.
Proof.
  intros Hok Hl. unfold decodeCanonicalDirectoryID, len. rewrite length_encode16 by done.
  rewrite bool_decide_eq_false_2.
  - cbn [negb orb Z.eqb Z.of_nat]. rewrite RawURL_Decode_Encode by done. cbn [mbind option_bind].
    rewrite Hl. unfold bytes_eqb. by rewrite bool_decide_eq_true_2.
  - intros Hin. pose proof (RawURL_Encode_chars l Hok) as Hc. rewrite Forall_forall in Hc.
    by destruct (Hc _ Hin) as (_ & _ & ? & _).
Qed.

Lemma hkdf_length ikm salt info k : hkdfSHA256 ikm salt info 32 = Some k -> length k = 32%nat.
Proof.
  unfold hkdfSHA256. cbn [Z.ltb Z.compare orb Pos.compare Pos.compare_cont Z.mul Pos.mul].
  change (Z.to_nat ((32 + 31) / 32)) with 1%nat. cbn [hkdf_expand]. intros [= <-].
  rewrite length_take, length_app, length_hmac. done.
Qed.

Lemma isDirectoryType_length value :
  isDirectoryClientType value = true \/ isDirectoryRelayType value = true -> len value < 256.
Proof.
  unfold isDirectoryClientType, isDirectoryRelayType, bytes_eqb.
  intros [Hv|Hv]; apply orb_true_iff in Hv as [[Hv|Hv]%orb_true_iff|Hv]; gobool; by subst.
Qed.

Lemma app_cancel_length {A} (l1 l2 k1 k2 : list A) :
  length l1 = length l2 -> l1 ++ k1 = l2 ++ k2 -> l1 = l2 /\ k1 = k2.
Proof. apply app_inj_1. Qed.

Lemma put_be_inj n v w :
  0 <= v < 256 ^ Z.of_nat n -> 0 <= w < 256 ^ Z.of_nat n -> put_be n v = put_be n w -> v = w.
Proof. intros Hv Hw E. rewrite <- (get_put_be_small n v Hv), <- (get_put_be_small n w Hw). by rewrite E. Qed.

(** ** Properties *)

(** The additional data binds an envelope completely: two envelopes of the
    protocol with the same additional data have the same version, type, channel,
    epoch, sequence number, expiry and transport. *)
Theorem directoryAAD_binds e1 e2 epoch1 epoch2 b1 b2 :
  e_Version e1 = directoryV3Version -> e_Version e2 = directoryV3Version ->
  len (e_Type e1) < 256 -> len (e_Type e2) < 256 ->
  is_u32 (e_ChannelID e1) -> is_u32 (e_ChannelID e2) -> is_u64 (e_Sequence e1) -> is_u64 (e_Sequence e2) ->
  is_u64 (e_ExpiresAt e1) -> is_u64 (e_ExpiresAt e2) -> length epoch1 = 16%nat -> length epoch2 = 16%nat ->
  directoryAAD e1 epoch1 b1 = directoryAAD e2 epoch2 b2 ->
  e_Type e1 = e_Type e2 /\ e_ChannelID e1 = e_ChannelID e2 /\ epoch1 = epoch2 /\
  e_Sequence e1 = e_Sequence e2 /\ e_ExpiresAt e1 = e_ExpiresAt e2 /\ b1 = b2.
Proof.
  intros V1 V2 T1 T2 C1 C2 S1 S2 X1 X2 L1 L2. unfold directoryAAD. rewrite V1, V2. intros E.
  apply app_inv_head, app_cancel_length in E as [E0 E]; [|done]. injection E0 as Eb El.
  unfold u8, len in *. rewrite !Z.mod_small in El by lia.
  apply app_cancel_length in E as [Et E]; [|lia].
  apply app_cancel_length in E as [Ec E]; [|by rewrite !length_put_be].
  apply app_cancel_length in E as [Ee E]; [|congruence].
  apply app_cancel_length in E as [Es Ex]; [|by rewrite !length_put_be].
  apply put_be_inj in Ec; [|exact C1|exact C2]. apply put_be_inj in Es; [|exact S1|exact S2].
  apply put_be_inj in Ex; [|exact X1|exact X2]. done.
Qed.

Section wire_properties.
Context `{DirectoryJSON} `{AEAD}.

(** What the payload of an accepted datagram says about its lifetime. *)
Definition fresh_payload (issuedAt expiresAt : Z) (e : directoryEnvelope) (now : time) : Prop :=
  expiresAt = e_ExpiresAt e /\ 0 < issuedAt < expiresAt /\ expiresAt - issuedAt <= 30 /\ u64 (toUnix now) < expiresAt.

Lemma validate_fresh version issuedAt expiresAt e now :
  is_u64 issuedAt -> validateDirectoryClientPayload version issuedAt expiresAt (e_ExpiresAt e) now = true ->
  version = 3 /\ fresh_payload issuedAt expiresAt e now.
Proof.
  unfold validateDirectoryClientPayload, fresh_payload, is_u64. intros Hi.
  destruct (_ || _) eqn:E1; [done|]. destruct (_ || _) eqn:E2 in |- *; [done|]. intros E3. gobool.
  unfold directoryClientLifetime, directoryV3Version, directoryMaxJSONInteger in *.
  change (Z.quot (30 * Second) Second) with 30 in *.
  match goal with Hx : u64 (expiresAt - issuedAt) <= 30 |- _ => unfold u64 in Hx; rewrite Z.mod_small in Hx by lia end.
  split_and!; lia.
Qed.

(** The payload an opened datagram carries: a request or a registration of its
    type, with a canonical identifier and a lifetime of at most 30 seconds. *)
Definition payload_ok (o : directoryOpenedDatagram) (now : time) : Prop :=
  match o_request o, o_registration o with
  | Some r, None =>
      e_Type (o_envelope o) = str_bytes "request" /\ is_Some (decodeCanonicalDirectoryID (rq_RequestID r)) /\
      (rq_Resource r = str_bytes "participants" /\ rq_Cursor r = None \/ rq_Resource r = str_bytes "snapshot") /\
      fresh_payload (rq_IssuedAt r) (rq_ExpiresAt r) (o_envelope o) now
  | None, Some g =>
      (e_Type (o_envelope o) = str_bytes "register" \/ e_Type (o_envelope o) = str_bytes "heartbeat") /\
      is_Some (decodeCanonicalDirectoryID (rg_InstanceID g)) /\
      fresh_payload (rg_IssuedAt g) (rg_ExpiresAt g) (o_envelope o) now
  | _, _ => False
  end.

Lemma open_request_ok plaintext e now r :
  open_request plaintext (e_ExpiresAt e) now = Some r ->
  is_Some (decodeCanonicalDirectoryID (rq_RequestID r)) /\
  (rq_Resource r = str_bytes "participants" /\ rq_Cursor r = None \/ rq_Resource r = str_bytes "snapshot") /\
  fresh_payload (rq_IssuedAt r) (rq_ExpiresAt r) e now.
Proof.
  unfold open_request. intros (i & Ei & E)%bind_Some. apply bind_Some in E as (v & _ & E).
  apply bind_Some in E as (ia & Eia & E). apply bind_Some in E as (x & _ & E).
  apply bind_Some in E as (q & _ & E). apply bind_Some in E as (res & _ & E).
  destruct (validateDirectoryClientPayload v ia x (e_ExpiresAt e) now) eqn:Ev; [|done]. cbn [negb] in E.
  apply validate_fresh in Ev as [_ Hf]; [|by eapply unmarshal_request_fits].
  apply bind_Some in E as (d & Ed & E). unfold bytes_eqb in *. apply mk_is_Some in Ed.
  destruct (bool_decide (res = str_bytes "participants")) eqn:Ep, (bool_decide (res = str_bytes "snapshot")) eqn:Es;
    cbn [negb andb] in E; gobool; try done; destruct (ri_Cursor i) as [raw|];
    try (injection E as <-; cbn [rq_RequestID rq_Resource rq_Cursor rq_IssuedAt rq_ExpiresAt]; eauto 10).
  all: destruct (bool_decide (raw = _)); [done|]; apply bind_Some in E as (cur & _ & E).
  all: first [discriminate E|destruct (_ || _) eqn:Eo in E; [done|]; injection E as <-; eauto 10].
Qed.

Lemma open_registration_ok plaintext e now g :
  open_registration plaintext (e_ExpiresAt e) now = Some g ->
  is_Some (decodeCanonicalDirectoryID (rg_InstanceID g)) /\ fresh_payload (rg_IssuedAt g) (rg_ExpiresAt g) e now.
Proof.
  unfold open_registration. intros (i & Ei & E)%bind_Some. apply bind_Some in E as (v & _ & E).
  apply bind_Some in E as (ia & Eia & E). apply bind_Some in E as (x & _ & E).
  apply bind_Some in E as (q & _ & E).
  destruct (validateDirectoryClientPayload v ia x (e_ExpiresAt e) now) eqn:Ev; [|done]. cbn [negb] in E.
  apply validate_fresh in Ev as [_ Hf]; [|by eapply unmarshal_registration_fits].
  apply bind_Some in E as (d & Ed & E). injection E as <-. split; [by exists d|done].
Qed.

(** C35. The Directory acts only on what a key holder sealed: a datagram that opens
    names a configured channel, its ciphertext is the seal of a plaintext under
    the client key of that channel and the epoch, with the nonce of its sequence
    number and the additional data of its envelope and transport, and its payload
    is a request or a registration of a lifetime of at most 30 seconds that has
    not ended. *)
Theorem openDirectoryDatagram_authentic data bnd keys now o :
  openDirectoryDatagram data bnd keys now = Some o ->
  let e := o_envelope o in
  exists material key plaintext,
    keys !! e_ChannelID e = Some material /\ RawURL_Encode (o_epoch o) = e_Epoch e /\
    length (o_epoch o) = 16%nat /\ directoryEpochKey (c2r material) (o_epoch o) = Some key /\
    RawURL_Decode (e_Ciphertext e) =
      Some (gcm_Seal key (directoryNonce (e_Sequence e)) (directoryAAD e (o_epoch o) bnd) plaintext) /\
    e_Version e = 3 /\ isDirectoryClientType (e_Type e) = true /\ u64 (toUnix now) < e_ExpiresAt e /\
    o_binding o = bnd /\ payload_ok o now.
Proof.
  unfold openDirectoryDatagram. intros E. destruct (_ || _); [done|].
  apply bind_Some in E as (e & Ee & E). destruct (envelope_current e now) eqn:Ecur; [|done]. cbn [negb] in E.
  apply bind_Some in E as (epoch & Eep & E). apply bind_Some in E as (m & Em & E).
  apply bind_Some in E as (ct & Ect & E). destruct (len ct <? 16); [done|].
  apply bind_Some in E as (k & Ek & E). apply bind_Some in E as (pt & Ept & E). cbn zeta in *.
  apply decodeCanonical_spec in Eep as [Hl16 Henc]. apply gcm_open_only in Ept.
  unfold envelope_current, bytes_eqb in *. gobool.
  assert (o_envelope o = e /\ o_epoch o = epoch /\ o_binding o = bnd /\ payload_ok o now) as (E1 & E2 & E3 & Hpay).
  { case_bool_decide as Ht; apply fmap_Some_1 in E as (r & Er & ->);
      refine (conj eq_refl (conj eq_refl (conj eq_refl _))).
    - unfold payload_ok. cbn. split; [done|]. by eapply open_request_ok.
    - unfold payload_ok. cbn. apply open_registration_ok in Er. split; [|done].
      match goal with Hc : isDirectoryClientType _ = true |- _ => unfold isDirectoryClientType, bytes_eqb in Hc;
        apply orb_true_iff in Hc as [[Hc|Hc]%orb_true_iff|Hc]; gobool; try done; auto end. }
  rewrite E1, E2 in *. subst ct. exists m, k, pt. unfold directoryV3Version in *. by split_and!.
Qed.

(** What the receiver hands to the Directory: the carrier header is gone. *)
Definition carried (bnd : Z) (datagram : list Z) : list Z :=
  if bnd =? directoryTransportMedia then drop 5 datagram else datagram.

Lemma printable_encode l : bytes_ok l -> Forall (fun c => 32 <= c < 127) (RawURL_Encode l).
Proof. intros Hl. eapply Forall_impl; [by apply RawURL_Encode_chars|]. by intros c (_ & _ & _ & ?). Qed.

Lemma carried_small bnd json datagram :
  (if bnd =? directoryTransportMedia then directoryCarrierMagic ++ [directoryCarrierVersion] ++ json else json) = datagram ->
  acceptsUDPDatagramSize (len datagram) = true ->
  carried bnd datagram = json /\ acceptsUDPDatagramSize (len json) = true.
Proof.
  unfold carried. destruct (bnd =? directoryTransportMedia); intros <- Hs; split; try done.
  unfold acceptsUDPDatagramSize, len in *. gobool. rewrite length_app in *. simpl in *.
  apply andb_true_iff. split; [apply Z.leb_le|apply Z.leb_le]; lia.
Qed.

(** What a key holder seals, the Directory opens: a client datagram sealed
    with the key of a configured channel, over either transport, opens before its
    expiry to the request its plaintext carries. *)
Theorem sealed_request_opens plaintext channelID material epoch sequence expiresAt bnd keys now datagram r :
  sealDirectoryClientDatagram plaintext (str_bytes "request") channelID material epoch sequence expiresAt bnd = Some datagram ->
  keys !! channelID = Some material -> is_u32 channelID -> bytes_ok plaintext -> bytes_ok epoch ->
  length epoch = 16%nat -> is_u64 sequence -> is_u64 expiresAt -> u64 (toUnix now) < expiresAt ->
  open_request plaintext expiresAt now = Some r ->
  exists o, openDirectoryDatagram (carried bnd datagram) bnd keys now = Some o /\ o_request o = Some r /\
    o_epoch o = epoch /\ o_binding o = bnd /\ e_ChannelID (o_envelope o) = channelID /\
    e_Sequence (o_envelope o) = sequence /\ e_ExpiresAt (o_envelope o) = expiresAt.
Proof.
  intros E Hk Hc Hp He Hl Hs Hx Hnow Hr. unfold sealDirectoryClientDatagram, sealDirectoryEnvelope in E.
  change (negb (isDirectoryClientType (str_bytes "request"))) with false in E. cbn iota in E.
  destruct ((sequence =? 0) || _ || _ || _) eqn:Hrange; [done|].
  destruct (valid_binding bnd) eqn:Hb; [|done]. cbn [negb] in E. apply bind_Some in E as (k & Ek & E). cbn zeta in E.
  set (ct := gcm_Seal _ _ _ _) in E. set (env := {| e_Version := _ |}) in E.
  destruct (acceptsUDPDatagramSize _) eqn:Hsize in E; [|done]. cbn [negb] in E. apply (inj Some) in E as Ed.
  rewrite Ed in Hsize. destruct (carried_small _ _ _ Ed Hsize) as [-> Hsmall].
  assert (bytes_ok ct) as Hct by by apply gcm_seal_bytes.
  assert (parse_envelope (marshal_envelope env) = Some env) as Hparse.
  { unfold parse_envelope. rewrite unmarshal_marshal_envelope; [done|].
    split_and!; [by unfold is_u64|done|done|done|]. apply Forall_app_2; [by apply (bool_decide_eq_true_1 (Forall _ (str_bytes "request"))); vm_compute|].
    by apply Forall_app_2; apply printable_encode. }
  assert (envelope_current env now = true) as Hcur.
  { unfold envelope_current. cbn [e_Version e_Type e_Sequence e_ExpiresAt env].
    rewrite (proj2 (Z.leb_gt _ _) Hnow), Hrange. done. }
  unfold openDirectoryDatagram. rewrite Hsmall, Hb, Hparse. cbn [negb orb mbind option_bind].
  rewrite Hcur. cbn [negb e_Epoch env]. rewrite decodeCanonical_encode by done. cbn [mbind option_bind e_ChannelID env].
  rewrite Hk. cbn [mbind option_bind e_Ciphertext env]. rewrite RawURL_Decode_Encode by done. cbn [mbind option_bind].
  rewrite (proj2 (Z.ltb_ge _ _)) by (unfold len, ct; rewrite gcm_seal_length; lia).
  rewrite Ek. cbn [mbind option_bind e_Sequence env].
  assert (directoryAAD env epoch bnd = directoryAAD {| e_Version := directoryV3Version; e_Type := str_bytes "request";
    e_ChannelID := channelID; e_Epoch := RawURL_Encode epoch; e_Sequence := sequence; e_ExpiresAt := expiresAt;
    e_Ciphertext := [] |} epoch bnd) as -> by done.
  unfold ct. rewrite gcm_open_seal by done. cbn [mbind option_bind e_Type env].
  change (bytes_eqb (str_bytes "request") (str_bytes "request")) with true. cbn iota. cbn [e_ExpiresAt env].
  rewrite Hr. cbn [fmap option_fmap option_map]. eexists. split; [reflexivity|]. by split_and!.
Qed.
End wire_properties.

(** ** Concrete inputs *)

(** A sealing that appends a tag over everything, without encryption. *)
Definition toy_tag (key nonce aad plaintext : list Z) : list Z :=
  take 16 (hmac_sha256 key (nonce ++ aad ++ plaintext)).

Lemma length_toy_tag key nonce aad plaintext : length (toy_tag key nonce aad plaintext) = 16%nat.
Proof. unfold toy_tag. by rewrite length_take, length_hmac. Qed.

#[refine] Definition toy_aead : AEAD :=
  {| gcm_Seal := fun key nonce aad plaintext => plaintext ++ toy_tag key nonce aad plaintext;
     gcm_Open := fun key nonce aad ciphertext =>
       let plaintext := take (length ciphertext - 16) ciphertext in
       if bool_decide (drop (length ciphertext - 16) ciphertext = toy_tag key nonce aad plaintext)
       then Some plaintext else None |}.
Proof.
  - intros key nonce aad plaintext _. cbn zeta. rewrite length_app, length_toy_tag, Nat.add_sub.
    rewrite take_app_length, drop_app_length. by rewrite bool_decide_eq_true_2.
  - intros key nonce aad ciphertext plaintext. cbn zeta. case_bool_decide as Ht; [|done]. intros [= <-].
    rewrite <- Ht. by rewrite take_drop.
  - intros. by rewrite length_app, length_toy_tag.
  - intros key nonce aad plaintext Hp. apply Forall_app_2; [done|]. apply Forall_take, bytes_ok_hmac.
Defined.

(** Text up to the first zero byte, and the rest. *)
Fixpoint split_zero (l : list Z) : list Z * list Z :=
  match l with
  | [] => ([], [])
  | c :: r => if c =? 0 then ([], r) else let '(x, y) := split_zero r in (c :: x, y)
  end.

Lemma split_zero_app x y : Forall (fun c => 32 <= c < 127) x -> split_zero (x ++ 0 :: y) = (x, y).
Proof.
  induction 1 as [|c x Hc _ IH]; [done|]. cbn [app split_zero].
  rewrite (proj2 (Z.eqb_neq c 0)) by lia. by rewrite IH.
Qed.

Definition toy_marshal (e : directoryEnvelope) : list Z :=
  put_be 8 (e_Version e) ++ put_be 4 (e_ChannelID e) ++ put_be 8 (e_Sequence e) ++ put_be 8 (e_ExpiresAt e)
  ++ e_Type e ++ 0 :: e_Epoch e ++ 0 :: e_Ciphertext e.

Definition toy_unmarshal (raw : list Z) : directoryEnvelope :=
  let '(type, rest) := split_zero (drop 28 raw) in
  let '(epoch, ciphertext) := split_zero rest in
  {| e_Version := u64 (get_be (sub raw 0 8)); e_Type := type; e_ChannelID := u32 (get_be (sub raw 8 4));
     e_Epoch := epoch; e_Sequence := u64 (get_be (sub raw 12 8)); e_ExpiresAt := u64 (get_be (sub raw 20 8));
     e_Ciphertext := ciphertext |}.

Lemma toy_unmarshal_fits raw :
  let e := toy_unmarshal raw in
  is_u64 (e_Version e) /\ is_u32 (e_ChannelID e) /\ is_u64 (e_Sequence e) /\ is_u64 (e_ExpiresAt e).
Proof.
  unfold toy_unmarshal. destruct (split_zero (drop 28 raw)) as [t r]. destruct (split_zero r) as [ep ct].
  cbn. unfold is_u64, is_u32, u64, u32. split_and!; apply Z.mod_pos_bound; lia.
Qed.

Lemma toy_roundtrip e : envelope_fits e -> toy_unmarshal (toy_marshal e) = e.
Proof.
  intros (Hv & Hc & Hs & Hx & Hf). apply Forall_app in Hf as [Ht [Hep Hct]%Forall_app].
  unfold toy_unmarshal.
  assert (drop 28 (toy_marshal e) = e_Type e ++ 0 :: e_Epoch e ++ 0 :: e_Ciphertext e) as -> by done.
  rewrite split_zero_app by done. rewrite split_zero_app by done.
  assert (sub (toy_marshal e) 0 8 = put_be 8 (e_Version e)) as -> by done.
  assert (sub (toy_marshal e) 8 4 = put_be 4 (e_ChannelID e)) as -> by done.
  assert (sub (toy_marshal e) 12 8 = put_be 8 (e_Sequence e)) as -> by done.
  assert (sub (toy_marshal e) 20 8 = put_be 8 (e_ExpiresAt e)) as -> by done.
  rewrite (get_put_be_small 8 _ Hv), (get_put_be_small 4 _ Hc), (get_put_be_small 8 _ Hs), (get_put_be_small 8 _ Hx).
  unfold u64, u32. rewrite !Z.mod_small by (exact Hv || exact Hc || exact Hs || exact Hx). by destruct e.
Qed.

Definition toy_request : directoryRequestInput :=
  {| ri_Version := Some 3; ri_IssuedAt := Some 1700000000; ri_ExpiresAt := Some 1700000010;
     ri_RequestID := Some (str_bytes "AAECAwQFBgcICQoLDA0ODw"); ri_Resource := Some (str_bytes "participants");
     ri_Cursor := None |}.

#[refine] Definition toy_directory_json : DirectoryJSON :=
  {| unmarshal_envelope := fun raw => Some (envelope_input (toy_unmarshal raw));
     unmarshal_request := fun raw => if bool_decide (raw = [1]) then Some toy_request else None;
     unmarshal_registration := fun _ => None; unmarshal_cursor := fun _ => None;
     marshal_envelope := toy_marshal |}.
Proof.
  - intros raw e E. apply (inj Some), (inj envelope_input) in E. rewrite <- E. apply toy_unmarshal_fits.
  - intros raw i x. case_bool_decide; [|done]. intros [= <-] [= <-]. by unfold is_u64.
  - done.
  - intros e He. by rewrite toy_roundtrip.
Defined.
#[local] Existing Instance toy_aead.
#[local] Existing Instance toy_directory_json.

Definition directory_key : list Z := put_be 32 0x174209da75aa25b4f917342071659c2e4d15a1b3b38fd82fad83d519c32cf17e.
Definition directory_material : directoryKeyMaterial :=
  default {| dk_channel := []; c2r := []; r2c := [] |} (newDirectoryKeyMaterial directory_key).
Definition directory_epoch : list Z := str_bytes "directory-epoch!".
Definition directory_now : time := Unix 1700000001.
Definition directory_store : gmap Z directoryKeyMaterial := {[ 111 := directory_material ]}.
Definition directory_datagram : list Z :=
  default [] (sealDirectoryClientDatagram [1] (str_bytes "request") 111 directory_material directory_epoch 1 1700000010
    directoryTransportMedia).

Lemma sealed_request_opens_witness :
  exists o r, openDirectoryDatagram (carried directoryTransportMedia directory_datagram) directoryTransportMedia
    directory_store directory_now = Some o /\ o_request o = Some r /\ e_ChannelID (o_envelope o) = 111.
Proof.
  assert (open_request [1] 1700000010 directory_now = Some {| rq_Version := 3; rq_IssuedAt := 1700000000;
    rq_ExpiresAt := 1700000010; rq_RequestID := str_bytes "AAECAwQFBgcICQoLDA0ODw";
    rq_Resource := str_bytes "participants"; rq_Cursor := None |}) as Hr by (vm_compute; reflexivity).
  assert (bytes_ok [1]) as Hp by (constructor; [unfold is_u8; lia|constructor]).
  assert (bytes_ok directory_epoch) as He by (vm_compute; repeat (constructor; [split; [discriminate|reflexivity]|]); constructor).
  assert (is_u32 111) as Hc by (unfold is_u32; lia).
  assert (is_u64 1) as Hs by (unfold is_u64; lia).
  assert (is_u64 1700000010) as Hx by (unfold is_u64; lia).
  assert (sealDirectoryClientDatagram [1] (str_bytes "request") 111 directory_material directory_epoch 1 1700000010
    directoryTransportMedia = Some directory_datagram) as Hd by (vm_compute; reflexivity).
  destruct (sealed_request_opens [1] 111 directory_material directory_epoch 1 1700000010 directoryTransportMedia
    directory_store directory_now directory_datagram _ Hd (lookup_singleton_eq _ _) Hc Hp He eq_refl Hs Hx eq_refl Hr)
    as (o & Ho & Hor & _ & _ & Hch & _).
  eexists o, _. split; [exact Ho|]. split; [exact Hor|exact Hch].
Defined.

Lemma openDirectoryDatagram_authentic_witness :
  exists o plaintext key, openDirectoryDatagram (carried directoryTransportMedia directory_datagram)
    directoryTransportMedia directory_store directory_now = Some o /\
    RawURL_Decode (e_Ciphertext (o_envelope o)) =
      Some (gcm_Seal key (directoryNonce 1) (directoryAAD (o_envelope o) (o_epoch o) directoryTransportMedia) plaintext).
Proof.
  destruct (openDirectoryDatagram (carried directoryTransportMedia directory_datagram) directoryTransportMedia
    directory_store directory_now) as [o|] eqn:E.
  - destruct (openDirectoryDatagram_authentic _ _ _ _ _ E) as (m & k & pt & _ & _ & _ & _ & H & _).
    exists o, pt, k. split; [reflexivity|]. rewrite H. do 2 f_equal.
    assert (match openDirectoryDatagram (carried directoryTransportMedia directory_datagram) directoryTransportMedia
      directory_store directory_now with Some x => e_Sequence (o_envelope x) | None => 1 end = 1) as Hs
      by (vm_compute; reflexivity).
    rewrite E in Hs. rewrite Hs. reflexivity.
  - apply (f_equal (fun x => bool_decide (is_Some x))) in E. vm_compute in E. discriminate E.
Defined.

Definition sample_envelope (sequence : Z) : directoryEnvelope :=
  {| e_Version := directoryV3Version; e_Type := str_bytes "request"; e_ChannelID := 111; e_Epoch := [];
     e_Sequence := sequence; e_ExpiresAt := 1700000010; e_Ciphertext := [] |}.

Lemma directoryAAD_binds_witness :
  directoryAAD (sample_envelope 1) directory_epoch 0 <> directoryAAD (sample_envelope 2) directory_epoch 0.
Proof.
  intros E. assert (forall n, 0 <= n < 3 -> is_u64 (e_Sequence (sample_envelope n))) as Hs
    by (unfold is_u64; simpl; lia).
  destruct (directoryAAD_binds (sample_envelope 1) (sample_envelope 2) directory_epoch directory_epoch 0 0
    eq_refl eq_refl eq_refl eq_refl ltac:(by unfold is_u32) ltac:(by unfold is_u32) (Hs 1 ltac:(lia)) (Hs 2 ltac:(lia))
    ltac:(by unfold is_u64) ltac:(by unfold is_u64) eq_refl eq_refl E) as (_ & _ & _ & H & _).
  discriminate H.
Defined.
