(* ===== verification/DirectoryPack.v ===== *)
(** * Pages and fragments

    How [directory_v3.go] splits a response into datagrams: the pages of a
    snapshot and the two greedy packers.  A row type is a parameter of the
    section; so are [encode] and [fits], the closures a sender passes. *)

From S2P Require Import Prelude.

Definition directoryMaxFragments : Z := 32.
Definition directoryMaxSnapshotPages : Z := 256.

(** The result of a loop run with fuel. *)
Inductive loop (A : Type) := Stop (a : A) | OutOfFuel.
Arguments Stop {A} a.
Arguments OutOfFuel {A}.

Section pack.
Context {Row : Type}.
Implicit Types (rows group : list Row) (groups : list (list Row)).

(** ** Pages *)

Definition pageSpeakerLimit : nat := Z.to_nat (directoryMaxFragments - 1).

(** The loop over [start], on the rows from [start] on. *)
Fixpoint split_pages (fuel : nat) rows : loop (list (list Row)) :=
  match rows, fuel with
  | [], _ => Stop []
  | _, O => OutOfFuel
  | _, S k =>
      match split_pages k (drop pageSpeakerLimit rows) with
      | Stop pages => Stop (take pageSpeakerLimit rows :: pages)
      | OutOfFuel => OutOfFuel
      end
  end.

Definition splitDirectorySnapshotPages rows : loop (list (list Row)) :=
  match rows with
  | [] => Stop [[]]
  | _ => split_pages (length rows) rows
  end.

(** ** Fragments *)

Variable encode : Z -> Z -> list Row -> option (list Z).
Variable fits : Z -> Z -> list Z -> bool.

(** The inner loop of both packers: the group grows while it fits; [None] is an
    error of [encode].  The flag tells that a row did not fit. *)
Fixpoint extend_group (index count : Z) group rows : option (list Row * bool) :=
  match rows with
  | [] => Some (group, false)
  | row :: rest =>
      let candidate := group ++ [row] in
      payload ← encode index count candidate;
      if negb (fits index count payload) then Some (group, true)
      else extend_group index count candidate rest
  end.

(** The loop over [start] of one attempt, on the rows from [start] on. *)
Fixpoint pack_attempt (fuel : nat) (guess : Z) groups rows : loop (option (list (list Row))) :=
  match rows, fuel with
  | [], _ => Stop (Some groups)
  | _, O => OutOfFuel
  | _, S k =>
      match extend_group (len groups) guess [] rows with
      | None => Stop None
      | Some (group, stuck) =>
          if stuck && (len group =? 0) then Stop None
          else pack_attempt k guess (groups ++ [group]) (drop (length group) rows)
      end
  end.

Fixpoint pack_attempts (attempts : nat) (guess : Z) rows : loop (option (list (list Row))) :=
  match attempts with
  | O => Stop None
  | S k =>
      match pack_attempt (length rows) guess [] rows with
      | OutOfFuel => OutOfFuel
      | Stop None => Stop None
      | Stop (Some groups) =>
          if directoryMaxFragments <? len groups then Stop None
          else if len groups =? guess then Stop (Some groups)
          else pack_attempts k (len groups) rows
      end
  end.

(** The inner [None] is the error. *)
Definition packDirectoryRows rows : loop (option (list (list Row))) :=
  match rows with
  | [] => Stop (Some [[]])
  | _ => pack_attempts 6 1 rows
  end.

Fixpoint pack_snapshot (fuel : nat) groups rows : loop (option (list (list Row))) :=
  match rows, fuel with
  | [], _ => Stop (Some groups)
  | _, O => OutOfFuel
  | _, S k =>
      let index := len groups in
      match extend_group index directoryMaxFragments [] rows with
      | None => Stop None
      | Some (group, _) =>
          if len group =? 0 then
            if negb (index =? 0) then Stop None
            else
              match encode 0 directoryMaxFragments [] with
              | None => Stop None
              | Some payload =>
                  if negb (fits 0 directoryMaxFragments payload) then Stop None
                  else pack_snapshot k (groups ++ [[]]) rows
              end
          else
            let groups' := groups ++ [group] in
            if directoryMaxFragments <? len groups' then Stop None
            else pack_snapshot k groups' (drop (length group) rows)
      end
  end.

(** One iteration more than rows: the first may pack the channel row alone. *)
Definition packDirectorySnapshotRows rows : loop (option (list (list Row))) :=
  match rows with
  | [] => Stop (Some [[]])
  | _ => pack_snapshot (S (length rows)) [] rows
  end.

(** ** Lemmas *)

(** A group whose fragment was encoded and found to fit. *)
Definition packed (index count : Z) group : Prop :=
  exists payload, encode index count group = Some payload /\ fits index count payload = true.

Lemma extend_group_spec index count rows : forall group result stuck,
  extend_group index count group rows = Some (result, stuck) ->
  (group = [] \/ packed index count group) ->
  exists added, result = group ++ added /\ added = take (length added) rows /\
    (result = [] \/ packed index count result) /\
    (stuck = false -> added = rows) /\
    (stuck = true -> exists row, rows !! length added = Some row /\ ~ packed index count (result ++ [row])).
Proof.
  induction rows as [|row rest IH]; intros group result stuck E Hg; simpl in E.
  - injection E as <- <-. exists []. rewrite app_nil_r. naive_solver.
  - apply bind_Some in E as (payload & Ep & E). destruct (fits index count payload) eqn:Ef; cbn [negb] in E.
    + destruct (IH _ _ _ E) as (added & -> & Ha & Hr & Hs & Hs'); [right; by exists payload|].
      exists (row :: added). rewrite <- app_assoc. simpl. split_and!; try done.
      * by rewrite <- Ha.
      * rewrite <- app_assoc in Hr. exact Hr.
      * intros Hst. by rewrite (Hs Hst).
      * intros Hst. destruct (Hs' Hst) as (r & Hr1 & Hr2). exists r. split; [exact Hr1|].
        rewrite <- app_assoc in Hr2. rewrite <- app_assoc in Hr2. by rewrite <- app_assoc.
    + injection E as <- <-. exists []. rewrite app_nil_r. split_and!; try done. intros _.
      exists row. split; [done|]. intros (p & Ep' & Ef'). congruence.
Qed.

(** What both packers keep: the groups so far and the rows left. *)
Definition packing (count : Z) rows groups : Prop :=
  concat groups = rows /\
  (forall i group, groups !! i = Some group -> packed (Z.of_nat i) count group).

Lemma packing_snoc count rows groups group :
  packing count rows groups -> packed (len groups) count group ->
  packing count (rows ++ group) (groups ++ [group]).
Proof.
  intros [Hc Hp] Hg. split.
  - by rewrite concat_app, Hc, concat_cons, concat_nil, app_nil_r.
  - intros i g [Hi|[Hi Hi']]%lookup_app_Some; [by apply Hp|].
    apply list_lookup_singleton_Some in Hi' as [Hi0 <-].
    assert (i = length groups) as -> by lia. exact Hg.
Qed.

Lemma extend_all index count rows group stuck :
  extend_group index count [] rows = Some (group, stuck) -> (group = [] -> stuck = false -> rows = []) /\
  (group <> [] -> packed index count group) /\ rows = group ++ drop (length group) rows.
Proof.
  intros E. destruct (extend_group_spec _ _ _ _ _ _ E) as (added & Hadd & Ha & Hr & Hs & _); [by left|].
  simpl in Hadd. subst added. split_and!.
  - intros -> Hst. by rewrite <- Hs.
  - by destruct Hr.
  - rewrite Ha at 1. by rewrite take_drop.
Qed.

Lemma drop_shorter (k : nat) group rows :
  group <> [] -> rows <> [] -> (length rows <= S k)%nat -> (length (drop (length group) rows) <= k)%nat.
Proof. intros Hg Hr Hk. rewrite length_drop. destruct group, rows; simpl in *; [done..|lia]. Qed.

Lemma pack_attempt_spec guess fuel : forall groups rows all,
  (length rows <= fuel)%nat -> packing guess all groups ->
  Forall (fun g => g <> []) groups ->
  exists result, pack_attempt fuel guess groups rows = Stop result /\
    (forall groups', result = Some groups' -> packing guess (all ++ rows) groups' /\ Forall (fun g => g <> []) groups').
Proof.
  induction fuel as [|k IH]; intros groups rows all Hl Hp Hn; destruct rows as [|row rest].
  1,3: exists (Some groups); split; [done|]; intros ? [= <-]; by rewrite app_nil_r.
  - simpl in Hl. lia.
  - cbn [pack_attempt]. destruct (extend_group (len groups) guess [] (row :: rest)) as [[group stuck]|] eqn:E;
      [|by exists None].
    destruct (extend_all _ _ _ _ _ E) as (Hz & Hpk & Hrows).
    destruct (stuck && (len group =? 0)) eqn:Es; [by exists None|].
    assert (group <> []) as Hg.
    { intros ->. cbn in Es. rewrite andb_true_r in Es. by specialize (Hz eq_refl Es). }
    destruct (IH (groups ++ [group]) (drop (length group) (row :: rest)) (all ++ group)) as (r & Er & Hr).
    + by apply drop_shorter.
    + apply packing_snoc; [done|by apply Hpk].
    + apply Forall_app_2; [done|]. by constructor.
    + exists r. split; [exact Er|]. intros groups' Hg'. rewrite Hrows, app_assoc. by apply Hr.
Qed.

Lemma pack_attempts_spec attempts : forall guess rows,
  exists result, pack_attempts attempts guess rows = Stop result /\
    (forall groups, result = Some groups ->
       packing (len groups) rows groups /\ Forall (fun g => g <> []) groups /\ len groups <= directoryMaxFragments).
Proof.
  induction attempts as [|k IH]; intros guess rows; [by exists None|]. cbn [pack_attempts].
  destruct (pack_attempt_spec guess (length rows) [] rows []) as (r & -> & Hr); [lia|by split|constructor|].
  destruct r as [groups|]; [|by exists None].
  destruct (directoryMaxFragments <? len groups) eqn:El; [by exists None|].
  destruct (len groups =? guess) eqn:Eg; [|apply IH].
  exists (Some groups). split; [done|]. intros ? [= <-]. destruct (Hr _ eq_refl) as [Hp Hn]. gobool. by subst guess.
Qed.

(** The groups of a snapshot page so far: only the first may be empty. *)
Definition snapshot_packing rows groups : Prop :=
  packing directoryMaxFragments rows groups /\ Forall (fun g => g <> []) (drop 1 groups) /\
  len groups <= directoryMaxFragments.

Lemma drop1_snoc groups group :
  (groups <> [] -> group <> []) -> Forall (fun g : list Row => g <> []) (drop 1 groups) ->
  Forall (fun g => g <> []) (drop 1 (groups ++ [group])).
Proof.
  destruct groups as [|g gs]; simpl; intros Hg Hf; [constructor|].
  apply Forall_app_2; [done|]. constructor; [by apply Hg|constructor].
Qed.

Lemma snapshot_snoc rows groups group :
  snapshot_packing rows groups -> (groups <> [] -> group <> []) -> packed (len groups) directoryMaxFragments group ->
  len (groups ++ [group]) <= directoryMaxFragments -> snapshot_packing (rows ++ group) (groups ++ [group]).
Proof. intros (Hp & Hn & _) Hg Hpk Hl. split_and!; [by apply packing_snoc|by apply drop1_snoc|done]. Qed.

(** One fuel for every row, and one for a channel row alone. *)
Definition snapshot_fuel groups rows : nat := (length rows + if decide (groups = []) then 1 else 0)%nat.

Lemma pack_snapshot_spec fuel : forall groups rows all,
  (snapshot_fuel groups rows <= fuel)%nat -> snapshot_packing all groups ->
  exists result, pack_snapshot fuel groups rows = Stop result /\
    (forall groups', result = Some groups' -> snapshot_packing (all ++ rows) groups').
Proof.
  unfold snapshot_fuel. induction fuel as [|k IH]; intros groups rows all Hl Hp; destruct rows as [|row rest].
  1,3: exists (Some groups); split; [done|]; intros ? [= <-]; by rewrite app_nil_r.
  - simpl in Hl. lia.
  - cbn [pack_snapshot]. cbn zeta.
    destruct (extend_group (len groups) _ [] (row :: rest)) as [[group stuck]|] eqn:E; [|by exists None].
    destruct (extend_all _ _ _ _ _ E) as (_ & Hpk & Hrows).
    destruct (len group =? 0) eqn:Eg.
    + destruct (len groups =? 0) eqn:E0; cbn [negb]; [|by exists None].
      assert (groups = []) as -> by (unfold len in *; gobool; by destruct groups).
      destruct (encode 0 _ []) as [payload|] eqn:Ee; [|by exists None].
      destruct (fits 0 _ payload) eqn:Ef; cbn [negb]; [|by exists None].
      rewrite <- (app_nil_r all). apply IH; [simpl in *; lia|].
      apply snapshot_snoc; [done|done|by exists payload|done].
    + destruct (_ <? len (groups ++ [group])) eqn:Elen; [by exists None|].
      assert (group <> []) as Hg by by intros ->.
      destruct (IH (groups ++ [group]) (drop (length group) (row :: rest)) (all ++ group)) as (r & Er & Hr).
      * rewrite decide_False by by destruct groups. pose proof (drop_shorter (length rest) group (row :: rest) Hg) as Hd.
        specialize (Hd ltac:(done) (le_n _)). simpl in Hl. case_decide; lia.
      * apply snapshot_snoc; [done|done|by apply Hpk|by gobool].
      * exists r. split; [exact Er|]. intros groups' Hg'. rewrite Hrows, app_assoc. by apply Hr.
Qed.

Lemma extend_single index count row rest :
  packed index count [row] -> forall group stuck, extend_group index count [] (row :: rest) = Some (group, stuck) ->
  group <> [].
Proof.
  intros (p & Ep & Ef) group stuck E. simpl in E. rewrite Ep in E. cbn [mbind option_bind] in E. rewrite Ef in E.
  cbn [negb] in E. destruct (extend_group_spec _ _ _ _ _ _ E) as (added & -> & _); [|by destruct added].
  right. by exists p.
Qed.

(** While there is room for one fragment per row, the packing goes on. *)
Lemma pack_snapshot_succeeds fuel : forall groups rows,
  (forall i count group, is_Some (encode i count group)) ->
  (forall i row, 0 < i < 32 -> row ∈ rows -> packed i directoryMaxFragments [row]) ->
  packed 0 directoryMaxFragments [] ->
  (snapshot_fuel groups rows <= fuel)%nat ->
  (Z.of_nat (snapshot_fuel groups rows) + len groups <= 32) ->
  is_Some (match pack_snapshot fuel groups rows with Stop r => r | OutOfFuel => None end).
Proof.
  unfold snapshot_fuel. induction fuel as [|k IH]; intros groups rows He Hrow H0 Hl Hroom; destruct rows as [|row rest];
    try done; [simpl in Hl; lia|].
  cbn [pack_snapshot]. cbn zeta.
  destruct (extend_group (len groups) _ [] (row :: rest)) as [[group stuck]|] eqn:E.
  2:{ exfalso. clear -E He. revert E. generalize (row :: rest) as l. generalize (@nil Row) as g.
      intros g l. revert g. induction l as [|r l IHl]; intros g; simpl; [done|].
      destruct (He (len groups) directoryMaxFragments (g ++ [r])) as [p ->]. cbn [mbind option_bind].
      destruct (negb _); [done|apply IHl]. }
  destruct (extend_all _ _ _ _ _ E) as (_ & _ & Hrows).
  destruct (len group =? 0) eqn:Eg.
  - destruct (len groups =? 0) eqn:E0; cbn [negb].
    + assert (groups = []) as -> by (unfold len in *; gobool; by destruct groups).
      destruct H0 as (p & Ep & Ef). rewrite Ep, Ef. cbn [negb].
      apply IH; [done|done|by exists p|simpl in *; lia|simpl in *; unfold len in *; simpl in *; lia].
    + exfalso. assert (group = []) as -> by (unfold len in Eg; gobool; by destruct group).
      eapply extend_single; [|exact E|done]. apply Hrow; [|by left]. unfold len in *. gobool. simpl in Hroom. lia.
  - assert (group <> []) as Hg by by intros ->.
    pose proof (drop_shorter (length rest) group (row :: rest) Hg ltac:(done) (le_n _)) as Hd.
    assert (len (groups ++ [group]) = len groups + 1) as Hlen by by rewrite len_app.
    rewrite Hlen. rewrite (proj2 (Z.ltb_ge _ _)).
    2:{ unfold directoryMaxFragments. simpl in Hroom. lia. }
    apply IH; [done| |done| |].
    + intros i r Hi Hr. apply Hrow; [done|]. rewrite Hrows. apply elem_of_app. by right.
    + rewrite decide_False by by destruct groups. simpl in Hl. case_decide; lia.
    + rewrite Hlen, decide_False by by destruct groups. simpl in Hroom. case_decide; lia.
Qed.

Lemma pageSpeakerLimit_pos : pageSpeakerLimit = 31%nat.
Proof. done. Qed.

Lemma split_pages_spec fuel : forall rows, (length rows <= fuel)%nat ->
  exists pages, split_pages fuel rows = Stop pages /\ concat pages = rows /\
    Forall (fun p => p <> [] /\ len p <= 31) pages /\ len pages = (len rows + 30) / 31.
Proof.
  induction fuel as [|k IH]; intros rows Hl; destruct rows as [|row rest]; simpl in Hl; try lia.
  1,2: by exists [].
  cbn [split_pages]. destruct (IH (drop pageSpeakerLimit (row :: rest))) as (pages & -> & Hc & Hf & Hn).
  { rewrite length_drop, pageSpeakerLimit_pos. simpl. lia. }
  exists (take pageSpeakerLimit (row :: rest) :: pages). split_and!; [done| | |].
  - rewrite concat_cons, Hc. apply take_drop.
  - constructor; [|done]. split; [by rewrite pageSpeakerLimit_pos|].
    unfold len. rewrite length_take, pageSpeakerLimit_pos. lia.
  - assert (len (take pageSpeakerLimit (row :: rest) :: pages) = len pages + 1) as -> by (unfold len; simpl; lia).
    rewrite Hn. unfold len. rewrite length_drop, pageSpeakerLimit_pos.
    destruct (decide (length (row :: rest) <= 31)%nat) as [Hs|Hs].
    + replace (length (row :: rest) - 31)%nat with 0%nat by lia. simpl in *.
      rewrite (Z.div_small 30) by lia.
      apply Z.div_unique with (r := Z.of_nat (S (length rest)) - 1); lia.
    + rewrite Nat2Z.inj_sub by lia. rewrite <- Z.div_add by lia. f_equal. lia.
Qed.

Lemma extend_prefixes index count rows : forall group,
  (forall k, (0 < k <= length rows)%nat -> packed index count (group ++ take k rows)) ->
  extend_group index count group rows = Some (group ++ rows, false).
Proof.
  induction rows as [|row rest IH]; intros group Hp; simpl; [by rewrite app_nil_r|].
  destruct (Hp 1%nat) as (p & Ep & Ef); [simpl; lia|]. simpl in Ep, Ef. rewrite take_0 in Ep. rewrite Ep.
  cbn [mbind option_bind]. rewrite Ef. cbn [negb]. rewrite IH; [by rewrite <- app_assoc|].
  intros k Hk. rewrite <- app_assoc. apply (Hp (S k)). simpl. lia.
Qed.

(** ** Properties *)

(** C39. The packing of a participant list ends, and when it succeeds the fragments
    are at most 32, carry the rows in order without loss or repetition, and each
    fits its datagram at its own index under the final count; rows that fit one
    datagram together make one fragment. *)
Theorem packDirectoryRows_correct rows :
  rows <> [] ->
  exists result, packDirectoryRows rows = Stop result /\
    (forall groups, result = Some groups ->
       concat groups = rows /\ len groups <= directoryMaxFragments /\ Forall (fun g => g <> []) groups /\
       (forall i group, groups !! i = Some group -> packed (Z.of_nat i) (len groups) group)) /\
    ((forall k, (0 < k <= length rows)%nat -> packed 0 1 (take k rows)) -> result = Some [rows]).
Proof.
  intros Hrows. destruct (pack_attempts_spec 6 1 rows) as (result & Er & Hr). exists result.
  assert (packDirectoryRows rows = pack_attempts 6 1 rows) as E by by destruct rows.
  split_and!; [by rewrite E| |].
  - intros groups Hg. by destruct (Hr _ Hg) as ([Hc Hp] & Hn & Hl).
  - intros Hone. cut (pack_attempts 6 1 rows = Stop (Some [rows])); [rewrite Er; by intros [= ->]|].
    assert (pack_attempt (length rows) 1 [] rows = Stop (Some [rows])) as Ea.
    { destruct rows as [|r l]; [done|]. cbn [pack_attempt length]. change (len (@nil (list Row))) with 0.
      rewrite (extend_prefixes 0 1 (r :: l) []) by done. cbn [andb app]. rewrite drop_all. by destruct (length l). }
    cbn [pack_attempts]. rewrite Ea. done.
Qed.

(** The packing of a snapshot page ends, and when it succeeds the fragments are
    at most 32, carry the rows in order without loss or repetition, only the
    first (which has the channel row) may have no speaker, and each fits its
    datagram at its index under the reserved count. *)
Theorem packDirectorySnapshotRows_correct rows :
  rows <> [] ->
  exists result, packDirectorySnapshotRows rows = Stop result /\
    (forall groups, result = Some groups ->
       concat groups = rows /\ len groups <= directoryMaxFragments /\ Forall (fun g => g <> []) (drop 1 groups) /\
       (forall i group, groups !! i = Some group -> packed (Z.of_nat i) directoryMaxFragments group)).
Proof.
  intros Hrows.
  destruct (pack_snapshot_spec (S (length rows)) [] rows []) as (result & Er & Hr).
  { unfold snapshot_fuel. case_decide; lia. }
  { split_and!; [by split|constructor|done]. }
  exists result. assert (packDirectorySnapshotRows rows = pack_snapshot (S (length rows)) [] rows) as -> by by destruct rows.
  split; [done|]. intros groups Hg. by destruct (Hr _ Hg) as ([Hc Hp] & Hn & Hl).
Qed.

(** A snapshot page can always be packed: when the channel row fits a datagram
    and every speaker row fits one alone, a page of at most 31 speakers packs. *)
Theorem snapshot_page_packs rows :
  rows <> [] -> len rows <= 31 ->
  (forall i count group, is_Some (encode i count group)) ->
  packed 0 directoryMaxFragments [] ->
  (forall i row, 0 < i < 32 -> row ∈ rows -> packed i directoryMaxFragments [row]) ->
  exists groups, packDirectorySnapshotRows rows = Stop (Some groups).
Proof.
  intros Hrows Hl He H0 Hrow.
  destruct (packDirectorySnapshotRows_correct rows Hrows) as (result & Er & _).
  assert (packDirectorySnapshotRows rows = pack_snapshot (S (length rows)) [] rows) as E by by destruct rows.
  assert (snapshot_fuel [] rows = S (length rows)) as Hf by (unfold snapshot_fuel; case_decide; [lia|done]).
  pose proof (pack_snapshot_succeeds (S (length rows)) [] rows He Hrow H0) as Hs. rewrite Hf in Hs.
  destruct Hs as [groups Hg]; [lia|unfold len in *; simpl; lia|].
  exists groups. rewrite <- E, Er in Hg. by subst result.
Qed.

End pack.

(** The pages of a snapshot are its speakers in order, at most 31 to a page,
    none empty unless there is no speaker, and as few as that allows; the
    configuration limit of 4096 speakers stays below the limit of 256 pages. *)
Theorem splitDirectorySnapshotPages_correct {Row} (rows : list Row) :
  exists pages, splitDirectorySnapshotPages rows = Stop pages /\ concat pages = rows /\
    Forall (fun p => len p <= 31) pages /\ (rows <> [] -> Forall (fun p => p <> []) pages) /\
    len pages = Z.max 1 ((len rows + 30) / 31) /\ (len rows <= 4096 -> len pages <= directoryMaxSnapshotPages).
Proof.
  destruct rows as [|row rest].
  { exists [[]]. split_and!; [done|done|by constructor|done|done|done]. }
  destruct (split_pages_spec (length (row :: rest)) (row :: rest) (le_n _)) as (pages & Ep & Hc & Hf & Hn).
  assert (1 <= (len (row :: rest) + 30) / 31) by (unfold len; simpl; apply Z.div_le_lower_bound; lia).
  exists pages. split_and!; [done|done| | |lia|].
  - eapply Forall_impl; [exact Hf|]. by intros ? [].
  - intros _. eapply Forall_impl; [exact Hf|]. by intros ? [].
  - intros Hl. rewrite Hn. unfold directoryMaxSnapshotPages. apply Z.div_le_upper_bound; lia.
Qed.

(** ** Concrete inputs: rows are numbers, a fragment holds a weight of 40 *)

Definition weight_encode (_ count : Z) (group : list Z) : option (list Z) := Some (zeros (Z.to_nat (foldr Z.add count group))).
Definition weight_fits (_ _ : Z) (payload : list Z) : bool := len payload <=? 40.

Lemma packDirectoryRows_correct_witness :
  exists groups, packDirectoryRows weight_encode weight_fits [20; 10; 8; 30; 5; 20; 20] = Stop (Some groups) /\
    concat groups = [20; 10; 8; 30; 5; 20; 20] /\ length groups = 5%nat.
Proof.
  destruct (packDirectoryRows_correct weight_encode weight_fits [20; 10; 8; 30; 5; 20; 20]) as (r & E & H & _); [done|].
  destruct r as [groups|]; [|vm_compute in E; discriminate E]. exists groups.
  split; [exact E|]. split; [by destruct (H groups eq_refl)|]. vm_compute in E. by injection E as <-.
Defined.

Lemma packDirectorySnapshotRows_correct_witness :
  exists groups, packDirectorySnapshotRows weight_encode weight_fits [8; 1; 2; 5; 4] = Stop (Some groups) /\
    concat groups = [8; 1; 2; 5; 4] /\ length groups = 3%nat.
Proof.
  destruct (packDirectorySnapshotRows_correct weight_encode weight_fits [8; 1; 2; 5; 4]) as (r & E & H); [done|].
  destruct r as [groups|]; [|vm_compute in E; discriminate E]. exists groups.
  split; [exact E|]. split; [by destruct (H groups eq_refl)|]. vm_compute in E. by injection E as <-.
Defined.

Lemma snapshot_page_packs_witness :
  exists groups, packDirectorySnapshotRows weight_encode weight_fits [8; 1; 2; 5; 4] = Stop (Some groups).
Proof.
  apply snapshot_page_packs; [done|done|by eexists|eexists; split; [reflexivity|done]|].
  intros i row _ Hrow. eexists. split; [reflexivity|].
  repeat (apply elem_of_cons in Hrow as [->|Hrow]; [vm_compute; reflexivity|]). by apply elem_of_nil in Hrow.
Defined.
