(* ===== verification/Server.v ===== *)
(** * The relay server: state and critical sections

    The [server], [channel] and [peer] structures of [main.go] and every section
    of code the server runs under its lock, from [main.go], [control_auth.go] and
    [management.go], as functions on the state.  A reading of the clock is the
    argument [now]. *)

From S2P Require Import Prelude GoTime GoNet Packet Replay ControlAuth Identity Service Diagnostics.

Definition defaultMembershipLease : duration := 30 * Second.
Definition defaultKeepaliveInterval : duration := 10 * Second.
Definition minimumMembershipLease : duration := 15 * Second.
Definition maximumMembershipLease : duration := 300 * Second.
Definition minimumKeepaliveInterval : duration := Second.

(** [controlHighest] and [controlSeenWindow] are [p_window]. *)
Record peer := {
  p_senderId : Z; p_addr : UDPAddr; p_lastSeen : time; p_authenticated : bool;
  p_controlSessionID : Z; p_controlKeyID : Z; p_window : window;
  p_identityAdmission : option identityAdmission; p_serviceAdmission : option serviceAdmission;
  p_membershipLease : duration; p_keepaliveInterval : duration; p_membershipDeadline : time
}.

Record codecConfigState := {
  cc_payload : list Z; cc_mediaNonceBase : list Z; cc_mediaKeyID : Z; cc_controlKeyID : Z
}.

Definition zero_codec : codecConfigState :=
  {| cc_payload := []; cc_mediaNonceBase := zeros 12; cc_mediaKeyID := 0; cc_controlKeyID := 0 |}.

Record channel := {
  peers : gmap string peer; activeTalkers : gmap Z time;
  codecConfigs : gmap Z (list Z); mediaCodecConfigs : gmap Z codecConfigState
}.

Definition empty_channel : channel :=
  {| peers := ∅; activeTalkers := ∅; codecConfigs := ∅; mediaCodecConfigs := ∅ |}.

(** The statistics of [observePacketSize]. *)
Record sizeWindow := {
  sizeWindowStart : time; sizeWindowMax : Z; sizeWindowMaxType : Z; sizeWindowMaxCh : Z;
  sizeWindowMaxSender : Z; sizeWindowOverWarn : Z; lastWarnLog : time
}.

(** [has_management] and [has_privateControl] say that the two pointers are set,
    [mediaDirectory] that a Directory shares the media port. *)
Record server := {
  channels : gmap Z channel;
  noCrypto : bool;
  sizes : sizeWindow;
  talkMax : duration;
  multiTalk : bool;
  maxActiveTalkers : Z;
  controlAuth : option controlAuthState;
  identityAdmissions : option identityAdmissionState;
  serviceAdmissions : option serviceAdmissionState;
  mediaDirectory : bool;
  has_management : bool;
  has_privateControl : bool;
  diagnostics : relayDiagnosticsState;
  floorInterrupt : bool;
  membershipLease : duration;
  keepaliveInterval : duration;
  outboundSeq : Z
}.

(** ** Updates of one field *)

Definition with_channels (s : server) chs : server :=
  {| channels := chs; noCrypto := noCrypto s; sizes := sizes s; talkMax := talkMax s;
     multiTalk := multiTalk s; maxActiveTalkers := maxActiveTalkers s; controlAuth := controlAuth s;
     identityAdmissions := identityAdmissions s; serviceAdmissions := serviceAdmissions s;
     mediaDirectory := mediaDirectory s; has_management := has_management s;
     has_privateControl := has_privateControl s; diagnostics := diagnostics s;
     floorInterrupt := floorInterrupt s; membershipLease := membershipLease s;
     keepaliveInterval := keepaliveInterval s; outboundSeq := outboundSeq s |}.

(** The parts beside the channels: authentication, admissions, counters. *)
Definition with_sides (s : server) sz ca ia sa dg sq : server :=
  {| channels := channels s; noCrypto := noCrypto s; sizes := sz; talkMax := talkMax s;
     multiTalk := multiTalk s; maxActiveTalkers := maxActiveTalkers s; controlAuth := ca;
     identityAdmissions := ia; serviceAdmissions := sa;
     mediaDirectory := mediaDirectory s; has_management := has_management s;
     has_privateControl := has_privateControl s; diagnostics := dg;
     floorInterrupt := floorInterrupt s; membershipLease := membershipLease s;
     keepaliveInterval := keepaliveInterval s; outboundSeq := sq |}.

Definition with_controlAuth (s : server) ca : server :=
  with_sides s (sizes s) ca (identityAdmissions s) (serviceAdmissions s) (diagnostics s) (outboundSeq s).
Definition with_identity (s : server) ia : server :=
  with_sides s (sizes s) (controlAuth s) ia (serviceAdmissions s) (diagnostics s) (outboundSeq s).
Definition with_service (s : server) sa : server :=
  with_sides s (sizes s) (controlAuth s) (identityAdmissions s) sa (diagnostics s) (outboundSeq s).
Definition with_diagnostics (s : server) dg : server :=
  with_sides s (sizes s) (controlAuth s) (identityAdmissions s) (serviceAdmissions s) dg (outboundSeq s).
Definition with_sizes (s : server) sz : server :=
  with_sides s sz (controlAuth s) (identityAdmissions s) (serviceAdmissions s) (diagnostics s) (outboundSeq s).
Definition with_seq (s : server) sq : server :=
  with_sides s (sizes s) (controlAuth s) (identityAdmissions s) (serviceAdmissions s) (diagnostics s) sq.

Definition with_peers (ch : channel) ps : channel :=
  {| peers := ps; activeTalkers := activeTalkers ch; codecConfigs := codecConfigs ch;
     mediaCodecConfigs := mediaCodecConfigs ch |}.
Definition with_talkers (ch : channel) ts : channel :=
  {| peers := peers ch; activeTalkers := ts; codecConfigs := codecConfigs ch;
     mediaCodecConfigs := mediaCodecConfigs ch |}.
Definition with_codecs (ch : channel) cs ms : channel :=
  {| peers := peers ch; activeTalkers := activeTalkers ch; codecConfigs := cs; mediaCodecConfigs := ms |}.

Definition set_seen (p : peer) (now : time) : peer :=
  {| p_senderId := p_senderId p; p_addr := p_addr p; p_lastSeen := now;
     p_authenticated := p_authenticated p; p_controlSessionID := p_controlSessionID p;
     p_controlKeyID := p_controlKeyID p; p_window := p_window p;
     p_identityAdmission := p_identityAdmission p; p_serviceAdmission := p_serviceAdmission p;
     p_membershipLease := p_membershipLease p; p_keepaliveInterval := p_keepaliveInterval p;
     p_membershipDeadline := p_membershipDeadline p |}.

Definition set_endpoint (p : peer) (senderId : Z) (addr : UDPAddr) (now : time) : peer :=
  {| p_senderId := senderId; p_addr := addr; p_lastSeen := now;
     p_authenticated := p_authenticated p; p_controlSessionID := p_controlSessionID p;
     p_controlKeyID := p_controlKeyID p; p_window := p_window p;
     p_identityAdmission := p_identityAdmission p; p_serviceAdmission := p_serviceAdmission p;
     p_membershipLease := p_membershipLease p; p_keepaliveInterval := p_keepaliveInterval p;
     p_membershipDeadline := p_membershipDeadline p |}.

Definition set_control (p : peer) (auth : bool) (session keyID : Z) (w : window) : peer :=
  {| p_senderId := p_senderId p; p_addr := p_addr p; p_lastSeen := p_lastSeen p;
     p_authenticated := auth; p_controlSessionID := session;
     p_controlKeyID := keyID; p_window := w;
     p_identityAdmission := p_identityAdmission p; p_serviceAdmission := p_serviceAdmission p;
     p_membershipLease := p_membershipLease p; p_keepaliveInterval := p_keepaliveInterval p;
     p_membershipDeadline := p_membershipDeadline p |}.

Definition set_admissions (p : peer) ia sa : peer :=
  {| p_senderId := p_senderId p; p_addr := p_addr p; p_lastSeen := p_lastSeen p;
     p_authenticated := p_authenticated p; p_controlSessionID := p_controlSessionID p;
     p_controlKeyID := p_controlKeyID p; p_window := p_window p;
     p_identityAdmission := ia; p_serviceAdmission := sa;
     p_membershipLease := p_membershipLease p; p_keepaliveInterval := p_keepaliveInterval p;
     p_membershipDeadline := p_membershipDeadline p |}.

Definition set_membership (p : peer) (lease keepalive : duration) (deadline now : time) : peer :=
  {| p_senderId := p_senderId p; p_addr := p_addr p; p_lastSeen := now;
     p_authenticated := p_authenticated p; p_controlSessionID := p_controlSessionID p;
     p_controlKeyID := p_controlKeyID p; p_window := p_window p;
     p_identityAdmission := p_identityAdmission p; p_serviceAdmission := p_serviceAdmission p;
     p_membershipLease := lease; p_keepaliveInterval := keepalive;
     p_membershipDeadline := deadline |}.

(** [&peer{addr: addr}]. *)
Definition new_peer (addr : UDPAddr) : peer :=
  {| p_senderId := 0; p_addr := addr; p_lastSeen := zero_time; p_authenticated := false;
     p_controlSessionID := 0; p_controlKeyID := 0; p_window := {| highest := 0; seen := 0 |};
     p_identityAdmission := None; p_serviceAdmission := None;
     p_membershipLease := 0; p_keepaliveInterval := 0; p_membershipDeadline := zero_time |}.

(** ** Configuration *)

Definition newServer (noCrypto0 : bool) (talkMax0 : duration) (multiTalk0 : bool) (maxActive : Z)
    (now : time) (diag : relayDiagnosticsState) : server :=
  let maxActive1 := if maxActive <? 1 then 1 else maxActive in
  let maxActive2 := if maxActiveTalkersV1 <? maxActive1 then maxActiveTalkersV1 else maxActive1 in
  {| channels := ∅; noCrypto := noCrypto0;
     sizes := {| sizeWindowStart := now; sizeWindowMax := 0; sizeWindowMaxType := 0; sizeWindowMaxCh := 0;
       sizeWindowMaxSender := 0; sizeWindowOverWarn := 0; lastWarnLog := zero_time |};
     talkMax := talkMax0; multiTalk := multiTalk0; maxActiveTalkers := maxActive2;
     controlAuth := None; identityAdmissions := None; serviceAdmissions := None;
     mediaDirectory := false; has_management := false; has_privateControl := false;
     diagnostics := diag; floorInterrupt := false;
     membershipLease := defaultMembershipLease; keepaliveInterval := defaultKeepaliveInterval;
     outboundSeq := 0 |}.

(** [configureControlAuth], [configureIdentityAdmission], [configureServiceAdmission]. *)
Definition configureControlAuth (state : option controlAuthState) (s : server) : server :=
  with_controlAuth s state.
Definition configureIdentityAdmission (state : option identityAdmissionState) (fi : bool) (s : server) : server :=
  {| channels := channels s; noCrypto := noCrypto s; sizes := sizes s; talkMax := talkMax s;
     multiTalk := multiTalk s; maxActiveTalkers := maxActiveTalkers s; controlAuth := controlAuth s;
     identityAdmissions := state; serviceAdmissions := serviceAdmissions s;
     mediaDirectory := mediaDirectory s; has_management := has_management s;
     has_privateControl := has_privateControl s; diagnostics := diagnostics s;
     floorInterrupt := fi; membershipLease := membershipLease s;
     keepaliveInterval := keepaliveInterval s; outboundSeq := outboundSeq s |}.
Definition configureServiceAdmission (state : option serviceAdmissionState) (s : server) : server :=
  with_service s state.

Definition validMembershipTiming (lease keepalive : duration) : bool :=
  if (lease <? minimumMembershipLease) || (maximumMembershipLease <? lease)
     || negb (Z.rem lease Second =? 0) || (keepalive <? minimumKeepaliveInterval)
     || negb (Z.rem keepalive Second =? 0)
  then false
  else keepalive <=? Z.quot lease 3.

(** [configureMembershipTiming]; [None] is the error. *)
Definition configureMembershipTiming (lease keepalive : duration) (s : server) : option server :=
  if negb (validMembershipTiming lease keepalive) then None
  else Some {| channels := channels s; noCrypto := noCrypto s; sizes := sizes s; talkMax := talkMax s;
     multiTalk := multiTalk s; maxActiveTalkers := maxActiveTalkers s; controlAuth := controlAuth s;
     identityAdmissions := identityAdmissions s; serviceAdmissions := serviceAdmissions s;
     mediaDirectory := mediaDirectory s; has_management := has_management s;
     has_privateControl := has_privateControl s; diagnostics := diagnostics s;
     floorInterrupt := floorInterrupt s; membershipLease := lease;
     keepaliveInterval := keepalive; outboundSeq := outboundSeq s |}.

Definition nextRelaySequence (s : server) : Z * server := (outboundSeq s, with_seq s (u16 (outboundSeq s + 1))).

Definition server_controlAuthRequired (s : server) (channelID : Z) : bool := requires (controlAuth s) channelID.

Definition requiresAESGCMV2MediaProfile (s : server) : bool :=
  match controlAuth s with
  | None => false
  | Some a => bool_decide (policy a = controlAuthRequired)
  end.
