(* ===== verification/Membership.v ===== *)
(** * Membership sections

    The critical sections that create, refresh, authorize and remove peers:
    [main.go] (JOIN, membership leases, LEAVE, codec configurations) and
    [control_auth.go] (authenticated peers, their replay windows, their
    admissions). *)

From S2P Require Import Prelude GoTime GoNet Packet Replay ControlAuth Identity Service Diagnostics Server.

(** ** Lookup and update of one peer *)

(** [s.channels[channelID].peers[peerMapKey(addr)]], [None] also for a nil
    channel or address. *)
Definition lookup_peer (s : server) (channelID : Z) (addr : option UDPAddr) : option peer :=
  match addr with
  | None => None
  | Some _ => ch ← channels s !! channelID; peers ch !! peerMapKey addr
  end.

(** The peer of [addr] if its sender ID is [senderID]. *)
Definition member (s : server) (channelID senderID : Z) (addr : option UDPAddr) : option peer :=
  p ← lookup_peer s channelID addr;
  if p_senderId p =? senderID then Some p else None.

(** Writing through the pointer [ch.peers[key]]. *)
Definition put_peer (channelID : Z) (key : string) (p : peer) (s : server) : server :=
  with_channels s (alter (fun ch => with_peers ch (<[key := p]> (peers ch))) channelID (channels s)).

Definition getOrCreateChannel (channelId : Z) (s : server) : channel * server :=
  match channels s !! channelId with
  | Some ch => (ch, s)
  | None => (empty_channel, with_channels s (<[channelId := empty_channel]> (channels s)))
  end.

Definition upsertPeer (ch : channel) (senderId : Z) (addr : option UDPAddr) (now : time) : channel :=
  match addr with
  | None => ch
  | Some a =>
      let p := default (new_peer a) (peers ch !! peerMapKey addr) in
      with_peers ch (<[peerMapKey addr := set_endpoint p senderId a now]> (peers ch))
  end.

(** The section of an unauthenticated JOIN. *)
Definition joinPeer (channelId senderId : Z) (addr : option UDPAddr) (now : time) (s : server) : server :=
  let '(ch, s1) := getOrCreateChannel channelId s in
  with_channels s1 (<[channelId := upsertPeer ch senderId addr now]> (channels s1)).

Definition upsertAuthenticatedPeerWithReplay (channelID senderID : Z) (addr : option UDPAddr)
    (meta : controlAuthMeta) (replay : window) (now : time) (s : server) : server :=
  let '(ch, s1) := getOrCreateChannel channelID s in
  match addr with
  | None => s1
  | Some a =>
      let p := default (new_peer a) (peers ch !! peerMapKey addr) in
      put_peer channelID (peerMapKey addr)
        (set_control (set_endpoint p senderID a now) true (m_sessionID meta) (m_keyID meta) replay) s1
  end.

Definition upsertAuthenticatedPeer (channelID senderID : Z) (addr : option UDPAddr)
    (meta : controlAuthMeta) (now : time) (s : server) : server :=
  upsertAuthenticatedPeerWithReplay channelID senderID addr meta (first_window (m_counter meta)) now s.

Section ordered.
Context `{RangeOrder}.

(** The key of the registration a PING is matched with. *)
Definition knownPeerKey (ch : channel) (a : UDPAddr) : option (string * peer) :=
  let key := peerMapKey (Some a) in
  match peers ch !! key with
  | Some p => Some (key, p)
  | None => snd <$> list_find (fun kp => Port (p_addr kp.2) = Port a /\ Zone (p_addr kp.2) = Zone a /\
      IP_Equal (IP (p_addr kp.2)) (IP a) = true) (range (peers ch))
  end.

Definition touchKnownPeer (channelId senderId : Z) (addr : option UDPAddr) (now : time) (s : server)
    : bool * server :=
  match addr with
  | None => (false, s)
  | Some a =>
    if senderId =? 0 then (false, s)
    else
    match channels s !! channelId with
    | None => (false, s)
    | Some ch =>
        match knownPeerKey ch a with
        | None => (false, s)
        | Some (key, p) =>
            if negb (p_senderId p =? senderId) then (false, s)
            else (true, put_peer channelId key (set_seen p now) s)
        end
    end
  end.

Definition membershipTimingForPeer (channelId senderId : Z) (s : server) : duration * duration :=
  let found :=
    ch ← channels s !! channelId;
    list_find (fun kp => p_senderId kp.2 = senderId /\ 0 < p_membershipLease kp.2 /\ 0 < p_keepaliveInterval kp.2)
      (range (peers ch)) in
  match found with
  | Some (_, (_, p)) => (p_membershipLease p, p_keepaliveInterval p)
  | None => (membershipLease s, keepaliveInterval s)
  end.

(** The entry [removePeer] deletes. *)
Definition removedKey (ch : channel) (senderId : Z) (addr : option UDPAddr) : option string :=
  let byKey :=
    match addr with
    | None => None
    | Some _ =>
        p ← peers ch !! peerMapKey addr;
        if (senderId =? 0) || (p_senderId p =? senderId) then Some (peerMapKey addr) else None
    end in
  match byKey with
  | Some k => Some k
  | None =>
      if senderId =? 0 then None
      else (fun f => f.2.1) <$> list_find (fun kp => p_senderId kp.2 = senderId) (range (peers ch))
  end.

(** [delete(s.channels, channelId)] when the channel has no peer left. *)
Definition store_channel (channelId : Z) (ch : channel) (s : server) : server :=
  if (size (peers ch) =? 0)%nat then with_channels s (delete channelId (channels s))
  else with_channels s (<[channelId := ch]> (channels s)).

Definition removePeer (channelId senderId : Z) (addr : option UDPAddr) (s : server) : server :=
  match channels s !! channelId with
  | None => s
  | Some ch =>
      let ch1 :=
        match removedKey ch senderId addr with
        | None => ch
        | Some k =>
            let ch' := with_peers ch (delete k (peers ch)) in
            if senderId =? 0 then ch'
            else with_codecs ch' (delete senderId (codecConfigs ch')) (delete senderId (mediaCodecConfigs ch'))
        end in
      store_channel channelId ch1 s
  end.
End ordered.

(** ** Leases *)

Definition acceptUnauthenticatedPeerControl (channelId senderId : Z) (addr : option UDPAddr) (now : time)
    (s : server) : bool * server :=
  if senderId =? 0 then (false, s)
  else
    match member s channelId senderId addr with
    | None => (false, s)
    | Some p => (true, put_peer channelId (peerMapKey addr) (set_seen p now) s)
    end.

Definition startMembership (channelId senderId : Z) (addr : option UDPAddr) (now : time) (s : server)
    : bool * server :=
  if senderId =? 0 then (false, s)
  else
    match member s channelId senderId addr with
    | None => (false, s)
    | Some p =>
        (true, put_peer channelId (peerMapKey addr)
           (set_membership p (membershipLease s) (keepaliveInterval s) (Add now (membershipLease s)) now) s)
    end.

Definition refreshMembership (channelId senderId : Z) (addr : option UDPAddr) (now : time) (s : server)
    : bool * server :=
  if senderId =? 0 then (false, s)
  else
    match member s channelId senderId addr with
    | None => (false, s)
    | Some p =>
        if IsZero (p_membershipDeadline p) || negb (After (p_membershipDeadline p) now) then (false, s)
        else
          (true, put_peer channelId (peerMapKey addr)
             (set_membership p (p_membershipLease p) (p_keepaliveInterval p)
                (Add now (p_membershipLease p)) now) s)
    end.

(** ** Authentication and admissions *)

Definition setPeerIdentityAdmission (channelID senderID : Z) (addr : option UDPAddr)
    (admission : identityAdmission) (s : server) : bool * server :=
  match member s channelID senderID addr with
  | None => (false, s)
  | Some p =>
      match p_serviceAdmission p with
      | Some _ => (false, s)
      | None => (true, put_peer channelID (peerMapKey addr) (set_admissions p (Some admission) None) s)
      end
  end.

Definition setPeerServiceAdmission (channelID senderID : Z) (addr : option UDPAddr)
    (admission : serviceAdmission) (now : time) (s : server) : bool * server :=
  match addr with
  | None => (false, s)
  | Some _ =>
    let '(allowed, sv) := admissionAllowedForMembership (serviceAdmissions s) channelID admission now in
    let s1 := with_service s sv in
    if negb allowed then (false, s1)
    else
    match member s1 channelID senderID addr with
    | None => (false, s1)
    | Some p =>
        match p_identityAdmission p with
        | Some _ => (false, s1)
        | None => (true, put_peer channelID (peerMapKey addr) (set_admissions p None (Some admission)) s1)
        end
    end
  end.

Definition acceptAuthenticatedPeerControl (pkt : parsedPacket) (addr : option UDPAddr)
    (meta : controlAuthMeta) (now : time) (s : server) : bool * server :=
  let channelID := ChannelId (Header pkt) in
  match lookup_peer s channelID addr with
  | None => (false, s)
  | Some p =>
      if negb (p_authenticated p) || negb (p_senderId p =? SenderId (Header pkt))
         || negb (p_controlKeyID p =? m_keyID meta) || negb (p_controlSessionID p =? m_sessionID meta)
      then (false, s)
      else
        match acceptReplayCounter (p_window p) (m_counter meta) with
        | (false, _) => (false, s)
        | (true, w) =>
            (true, put_peer channelID (peerMapKey addr)
               (set_seen (set_control p (p_authenticated p) (p_controlSessionID p) (p_controlKeyID p) w) now) s)
        end
  end.

Definition isAuthenticatedPeer (channelID senderID : Z) (addr : option UDPAddr) (s : server) : bool :=
  match member s channelID senderID addr with
  | None => false
  | Some p => p_authenticated p
  end.

Definition isActiveTalkerEndpoint (channelId senderId : Z) (addr : option UDPAddr) (s : server) : bool :=
  if senderId =? 0 then false
  else
    match member s channelId senderId addr, channels s !! channelId with
    | Some _, Some ch => bool_decide (is_Some (activeTalkers ch !! senderId))
    | _, _ => false
    end.

Definition isTalker (channelId senderId : Z) (s : server) : bool :=
  match channels s !! channelId with
  | None => false
  | Some ch => bool_decide (is_Some (activeTalkers ch !! senderId))
  end.

Definition peerAllowsTalk (channelId senderId : Z) (addr : option UDPAddr) (now : time) (s : server) : bool :=
  match member s channelId senderId addr with
  | None => false
  | Some p =>
      let required := identity_isRequired (identityAdmissions s) in
      match p_identityAdmission p with
      | Some ad => admissionAllowsTalk (Some ad) now required
      | None =>
          match p_serviceAdmission p with
          | Some sa => membershipCurrent sa now && flag_set (sa_permissions sa) identityPermissionTalk
          | None => negb required
          end
      end
  end.

Definition peerHasIdentityAdmission (channelID senderID : Z) (addr : option UDPAddr) (s : server) : bool :=
  match member s channelID senderID addr with
  | None => false
  | Some p => bool_decide (is_Some (p_identityAdmission p))
  end.

(** ** Codec configurations *)

Definition isCompatibilityMediaPacket (pkt : parsedPacket) (s : server) : bool :=
  if flag_set (Flags (Header pkt)) (Z.lor packetFlagAESGCMV2HeaderAAD packetFlagControlAuthV1) then false
  else if HeaderLen (Header pkt) =? fixedHeaderSize then noCrypto s && (len (Tag pkt) =? 0)
  else if HeaderLen (Header pkt) =? fixedHeaderSize + securityHeaderExtensionSize
  then (KeyID (Sec pkt) =? 1) && (len (Tag pkt) =? authTagSize)
  else false.

Definition mediaMatchesCodecConfig (pkt : parsedPacket) (s : server) : bool :=
  match channels s !! ChannelId (Header pkt) with
  | None => false
  | Some ch =>
      match mediaCodecConfigs ch !! SenderId (Header pkt) with
      | None => false
      | Some config =>
          if bytes_eqb (cc_mediaNonceBase config) (zeros 12) then isCompatibilityMediaPacket pkt s
          else (HeaderLen (Header pkt) =? aesGCMV2HeaderSize)
               && flag_set (Flags (Header pkt)) packetFlagAESGCMV2HeaderAAD
               && (KeyID (Sec pkt) =? 2) && (cc_mediaKeyID config =? KeyID (Sec pkt))
               && bytes_eqb (cc_mediaNonceBase config) (MediaNonceBase (Sec pkt))
      end
  end.

(** The guard of [cacheCodecConfig], before it takes the lock. *)
Definition codecConfigAllowed (channelId : Z) (payload : list Z) (controlKeyID : Z) (authenticated : bool)
    (s : server) : bool :=
  if negb (len payload =? 19) then false
  else
    let announcedBase := sub payload 7 12 in
    if negb (bytes_eqb announcedBase (zeros 12))
    then authenticated && negb (controlKeyID =? 0) && server_controlAuthRequired s channelId
    else if requiresAESGCMV2MediaProfile s then false
    else negb (server_controlAuthRequired s channelId && (negb authenticated || (controlKeyID =? 0))).

Definition cacheCodecConfig (channelId senderId : Z) (payload : list Z) (controlKeyID : Z)
    (authenticated : bool) (s : server) : option codecConfigState * server :=
  if negb (codecConfigAllowed channelId payload controlKeyID authenticated s) then (None, s)
  else
    let state := {| cc_payload := payload; cc_mediaNonceBase := sub payload 7 12;
                    cc_mediaKeyID := 2; cc_controlKeyID := controlKeyID |} in
    match channels s !! channelId with
    | None => (None, s)
    | Some ch =>
        (Some state, with_channels s (<[channelId :=
           with_codecs ch (<[senderId := payload]> (codecConfigs ch))
             (<[senderId := state]> (mediaCodecConfigs ch))]> (channels s)))
    end.
