(* ===== verification/Send.v ===== *)
(** * Outgoing packets and events

    What the server sends: [relayControlForPeer] and its users
    ([control_auth.go]), the broadcasts of [main.go], and the events handed to
    the management plane and the private control link. *)

From S2P Require Import Prelude GoTime GoNet Packet Replay ControlAuth Identity Service Diagnostics Server Membership.

(** What leaves the server.  [Crash] is a panic. *)
Inductive output :=
| Datagram (data : list Z) (addr : UDPAddr)
| ManagementEvent (eventType : string) (channelID senderID : Z) (serviceID reason : option string)
| LifecycleEvent (eventType : string) (channelID senderID : Z) (serviceID reason : option string)
| FloorInterruptAudit (actorType actorID : string) (channelID requesterPriority : Z) (auditResult : string)
    (replaced : option (Z * Z))
| RevocationAudit (channelID : Z)
| DirectoryDatagram (payload : list Z) (addr : UDPAddr)
| Crash.

Abbreviation handler := (M server output).

Open Scope eff_scope.

(** [s.conn.WriteToUDP(data, addr)]; its error is ignored. *)
Definition WriteToUDP (data : list Z) (addr : UDPAddr) : handler unit := emit (Datagram data addr).

Definition publishManagementEvent (eventType : string) (channelID senderID : Z)
    (serviceID reason : option string) : handler unit :=
  let! s := gets (fun s => s) in
  (when (has_management s) do emit (ManagementEvent eventType channelID senderID serviceID reason)) ;;;
  when (has_privateControl s) do emit (LifecycleEvent eventType channelID senderID serviceID reason).

Definition observeFloorInterruptDiagnostics (id : option string) (delta : relayFloorInterruptCounterDelta)
    : handler unit :=
  let! s := gets (fun s => s) in
  when (floorInterrupt s) do
    match observeFloorInterrupt id delta (diagnostics s) with
    | None => emit Crash
    | Some d => modify (fun s => with_diagnostics s d)
    end.

(** [s.nextRelaySequence()]. *)
Definition take_sequence : handler Z := atomically nextRelaySequence.

Section sending.
Context `{Entropy} `{RangeOrder}.

(** [s.controlAuth.nextRelayNonce()]. *)
Definition take_nonce : handler (option Z) :=
  atomically (fun s =>
    match controlAuth s with
    | None => (None, s)
    | Some a => let '(r, a') := nextRelayNonce a in (r, with_controlAuth s (Some a'))
    end).

Definition sendAuthenticatedControl (oaddr : option UDPAddr) (channelID senderID keyID packetType : Z)
    (payload : list Z) : handler unit :=
  let! s := gets (fun s => s) in
  match controlAuth s, oaddr with
  | Some _, Some addr =>
      let k := key (controlAuth s) channelID keyID in
      if negb (len k =? 32) then ret tt
      else
        let! nonce := take_nonce in
        match nonce with
        | None => ret tt
        | Some nonce =>
            let! sequence := take_sequence in
            WriteToUDP (buildAuthenticatedControlPacketWithSeq packetType channelID senderID payload keyID k nonce sequence) addr
        end
  | _, _ => ret tt
  end.

Definition sendAuthenticatedChallenge (oaddr : option UDPAddr) (channelID senderID keyID : Z)
    (payload : list Z) : handler unit :=
  sendAuthenticatedControl oaddr channelID senderID keyID pktAuthChallenge payload.

(** The empty list is the nil packet. *)
Definition relayControlForPeer (channelID : Z) (op : option peer) (packetType senderID : Z) (payload : list Z)
    : handler (list Z) :=
  let! s := gets (fun s => s) in
  if negb (server_controlAuthRequired s channelID) then
    let! sequence := take_sequence in
    ret (buildRelayControlPacket packetType channelID senderID payload (noCrypto s) sequence)
  else
  match controlAuth s, op with
  | Some _, Some p =>
      if negb (p_authenticated p) then ret []
      else
        let keyID := p_controlKeyID p in
        let k := key (controlAuth s) channelID keyID in
        if negb (len k =? 32) then ret []
        else
          let! nonce := take_nonce in
          match nonce with
          | None => ret []
          | Some nonce =>
              let! sequence := take_sequence in
              ret (buildAuthenticatedControlPacketWithSeq packetType channelID senderID payload keyID k nonce sequence)
          end
  | _, _ => ret []
  end.

Definition relayCodecConfigForPeer (channelID : Z) (op : option peer) (senderID : Z) (config : codecConfigState)
    : handler (list Z) :=
  let! s := gets (fun s => s) in
  if negb (server_controlAuthRequired s channelID) then
    let! sequence := take_sequence in
    ret (buildRelayControlPacket pktCodecConfig channelID senderID (cc_payload config) (noCrypto s) sequence)
  else
  match controlAuth s, op with
  | Some _, Some p =>
      if negb (p_authenticated p) || (cc_controlKeyID config =? 0) then ret []
      else
        let k := key (controlAuth s) channelID (cc_controlKeyID config) in
        if negb (len k =? 32) then ret []
        else
          let! nonce := take_nonce in
          match nonce with
          | None => ret []
          | Some nonce =>
              let! sequence := take_sequence in
              ret (buildAuthenticatedControlPacketWithSeq pktCodecConfig channelID senderID (cc_payload config)
                     (cc_controlKeyID config) k nonce sequence)
          end
  | _, _ => ret []
  end.

(** The peers of a channel, in the order [range] visits them.  The Go code copies the
    pointers and reads the fields after it has unlocked; here they are those of the copy. *)
Definition channelPeers (s : server) (channelID : Z) : list peer :=
  match channels s !! channelID with
  | None => []
  | Some ch => snd <$> range (peers ch)
  end.

(** [if packet := build(peer); len(packet) > 0 { WriteToUDP(packet, peer.addr) }]. *)
Definition send_built (build : option peer -> handler (list Z)) (p : peer) : handler unit :=
  let! packet := build (Some p) in
  when (0 <? len packet) do WriteToUDP packet (p_addr p).

Definition sendRelayCodecConfig (channelID senderID : Z) (config : codecConfigState) : handler unit :=
  let! ps := gets (fun s => channelPeers s channelID) in
  for_each ps (send_built (fun op => relayCodecConfigForPeer channelID op senderID config)).

Definition sendRelayCodecConfigTo (channelID targetSenderID senderID : Z) (config : codecConfigState) : handler unit :=
  let! ps := gets (fun s => channelPeers s channelID) in
  for_each (filter (fun p => p_senderId p = targetSenderID) ps)
    (send_built (fun op => relayCodecConfigForPeer channelID op senderID config)).

Definition sendRelayControlTo (channelID targetSenderID packetType senderID : Z) (payload : list Z) : handler unit :=
  let! ps := gets (fun s => channelPeers s channelID) in
  for_each (filter (fun p => p_senderId p = targetSenderID) ps)
    (send_built (fun op => relayControlForPeer channelID op packetType senderID payload)).

Definition broadcastRelayControl (channelID packetType senderID : Z) (payload : list Z) : handler unit :=
  let! ps := gets (fun s => channelPeers s channelID) in
  for_each ps (send_built (fun op => relayControlForPeer channelID op packetType senderID payload)).

Definition broadcast (channelId : Z) (data : list Z) : handler unit :=
  let! ps := gets (fun s => channelPeers s channelId) in
  for_each ps (fun p => WriteToUDP data (p_addr p)).

(** The peers of a channel except the one registered under [excludeKey]. *)
Definition otherPeers (s : server) (channelId : Z) (excludeKey : string) : list peer :=
  match channels s !! channelId with
  | None => []
  | Some ch => snd <$> filter (fun kp => ~ (excludeKey <> ""%string /\ kp.1 = excludeKey)) (range (peers ch))
  end.

Definition broadcastExceptAddr (channelId : Z) (excludeAddr : option UDPAddr) (data : list Z) : handler unit :=
  let! ps := gets (fun s => otherPeers s channelId (peerMapKey excludeAddr)) in
  for_each ps (fun p => WriteToUDP data (p_addr p)).

Definition sendTo (channelId senderId : Z) (data : list Z) : handler unit :=
  let! ps := gets (fun s => channelPeers s channelId) in
  for_each (filter (fun p => p_senderId p = senderId) ps) (fun p => WriteToUDP data (p_addr p)).

Definition sendPong (oaddr : option UDPAddr) (channelId senderId : Z) (nonce : list Z) : handler unit :=
  match oaddr with
  | None => ret tt
  | Some addr =>
    if negb (len nonce =? 8) then ret tt
    else
    let! s := gets (fun s => s) in
    if negb (server_controlAuthRequired s channelId) then
      let! sequence := take_sequence in
      WriteToUDP (buildRelayControlPacket pktPong channelId senderId nonce (noCrypto s) sequence) addr
    else
      let! target := gets (fun s => lookup_peer s channelId oaddr) in
      let! packet := relayControlForPeer channelId target pktPong senderId nonce in
      when (0 <? len packet) do WriteToUDP packet addr
  end.

(** ** Configuration and late-join synchronisation *)

Definition durationToSecondsClamped (d : duration) : Z :=
  if d <=? 0 then 0
  else
    let sec := Z.quot d Second in
    let sec := if sec <=? 0 then 1 else sec in
    u16 (if maxTalkMaximumSecondsV1 <? sec then maxTalkMaximumSecondsV1 else sec).

Definition validMaximumTalkSeconds (seconds : Z) : bool :=
  (0 <=? seconds) && (seconds <=? maxTalkMaximumSecondsV1).

(** The payload of SERVER_CFG. *)
Definition serverConfigPayload (s : server) (lease keepalive : duration) : list Z :=
  let limit :=
    if multiTalk s then
      let l := if maxActiveTalkers s <? 1 then 1 else maxActiveTalkers s in
      if maxActiveTalkersV1 <? l then maxActiveTalkersV1 else l
    else 1 in
  put_be 2 (durationToSecondsClamped (talkMax s)) ++ [if multiTalk s then 1 else 0; u8 limit]
  ++ put_be 2 (durationToSecondsClamped lease) ++ put_be 2 (durationToSecondsClamped keepalive).

Definition sendServerConfig (channelId senderId : Z) : handler unit :=
  let! '(lease, keepalive) := gets (membershipTimingForPeer channelId senderId) in
  let! s := gets (fun s => s) in
  sendRelayControlTo channelId senderId pktServerCfg 0 (serverConfigPayload s lease keepalive).

Definition sortedActiveTalkers (ch : channel) : list Z :=
  merge_sort Z.le (fst <$> range (activeTalkers ch)).

Definition firstActiveTalker (och : option channel) : Z :=
  match och with
  | None => 0
  | Some ch => default 0 (head (sortedActiveTalkers ch))
  end.

(** The states [sendCurrentTalkState] copies under the lock. *)
Definition talkerSyncStates (s : server) (channelId : Z) : list (Z * codecConfigState) :=
  match channels s !! channelId with
  | None => []
  | Some ch =>
      (fun talkerID =>
        let codec := default zero_codec (mediaCodecConfigs ch !! talkerID) in
        (talkerID,
         if (len (cc_payload codec) =? 0)
         then {| cc_payload := default [] (codecConfigs ch !! talkerID);
                 cc_mediaNonceBase := cc_mediaNonceBase codec; cc_mediaKeyID := cc_mediaKeyID codec;
                 cc_controlKeyID := cc_controlKeyID codec |}
         else codec)) <$> sortedActiveTalkers ch
  end.

Definition sendCurrentTalkState (channelId senderId : Z) : handler unit :=
  let! states := gets (fun s => talkerSyncStates s channelId) in
  for_each states (fun '(talkerID, codec) =>
    (when (len (cc_payload codec) =? 19) do sendRelayCodecConfigTo channelId senderId talkerID codec) ;;;
    sendRelayControlTo channelId senderId pktTalkGrant talkerID (talkPayload talkerID)).
End sending.
