(* ===== verification/Floor.v ===== *)
(** * The floor

    Push-to-talk arbitration of [main.go]: PTT_ON, PTT_OFF, the Floor Interrupt
    request, the release of a talker and the expiry of talk leases and of
    memberships, each as the critical section it runs and the handler around it. *)

From S2P Require Import Prelude GoTime GoNet Packet Replay ControlAuth Identity Service Diagnostics Base64 Server Membership Send.


(** ** Critical sections *)

(** The number of talkers a channel admits. *)
Definition talkerLimit (s : server) : Z :=
  let limit := if multiTalk s then maxActiveTalkers s else 1 in
  if limit <? 1 then 1 else limit.

Definition activeCount (ch : channel) : Z := Z.of_nat (size (activeTalkers ch)).

Definition put_talkers (channelId : Z) (ch : channel) ts (s : server) : server :=
  with_channels s (<[channelId := with_talkers ch ts]> (channels s)).

Inductive pttDecision :=
| PttNoChannel
| PttAlreadyGranted
| PttGranted
| PttDenied (current : Z).

Section floor.
Context `{RangeOrder}.

(** The section of [handlePttOn]. *)
Definition pttOn_section (channelId senderId : Z) (now : time) (s : server) : pttDecision * server :=
  match channels s !! channelId with
  | None => (PttNoChannel, s)
  | Some ch =>
      if bool_decide (is_Some (activeTalkers ch !! senderId)) then (PttAlreadyGranted, s)
      else if activeCount ch <? talkerLimit s
      then (PttGranted, put_talkers channelId ch (<[senderId := now]> (activeTalkers ch)) s)
      else (PttDenied (firstActiveTalker (Some ch)), s)
  end.

(** The section of [handlePttOff] and of [releaseTalkIfNeeded]: whether the
    sender was talking. *)
Definition release_section (channelId senderId : Z) (s : server) : bool * server :=
  match channels s !! channelId with
  | None => (false, s)
  | Some ch =>
      if bool_decide (is_Some (activeTalkers ch !! senderId))
      then (true, put_talkers channelId ch (delete senderId (activeTalkers ch)) s)
      else (false, s)
  end.

(** ** Floor Interrupt *)

(** The priority of a peer whose admission is current. *)
Definition currentPriority (p : peer) (now : time) : option Z :=
  match p_identityAdmission p with
  | Some ad =>
      if After (ia_expiresAt ad) now then Some (ia_priority ad)
      else match p_serviceAdmission p with
           | Some sa => if membershipCurrent sa now then Some (sa_priority sa) else None
           | None => None
           end
  | None =>
      match p_serviceAdmission p with
      | Some sa => if membershipCurrent sa now then Some (sa_priority sa) else None
      | None => None
      end
  end.

(** The first peer of the sender with a current admission decides. *)
Definition activeTalkerPriority (ch : channel) (senderId : Z) (now : time) : Z :=
  default 0 (head (omap (fun kp => if p_senderId kp.2 =? senderId then currentPriority kp.2 now else None)
                    (range (peers ch)))).

Definition peerAllowsInterrupt (op : option peer) (now : time) : bool :=
  match op with
  | None => false
  | Some p =>
      match p_identityAdmission p with
      | Some ad => admissionAllowsInterrupt (Some ad) now
      | None =>
          match p_serviceAdmission p with
          | Some sa =>
              membershipCurrent sa now && flag_set (sa_permissions sa) identityPermissionTalk
              && flag_set (sa_permissions sa) identityPermissionInterrupt && negb (sa_priority sa =? 0)
          | None => false
          end
      end
  end.

Definition peerInterruptPriority (op : option peer) (now : time) : Z :=
  if negb (peerAllowsInterrupt op now) then 0
  else
    match op with
    | Some p =>
        match p_identityAdmission p, p_serviceAdmission p with
        | Some ad, _ => ia_priority ad
        | None, Some sa => sa_priority sa
        | None, None => 0
        end
    | None => 0
    end.

Definition peerAdmissionPriority (op : option peer) (now : time) : Z :=
  match op with
  | None => 0
  | Some p => default 0 (currentPriority p now)
  end.

(** [peerAdmissionAuditActor], [None] when there is no admission. *)
Definition peerAdmissionAuditActor (op : option peer) : option (string * string) :=
  match op with
  | None => None
  | Some p =>
      match p_identityAdmission p, p_serviceAdmission p with
      | Some ad, _ => Some ("identity"%string, string_of_bytes (RawURL_Encode (ia_actorIDHash ad)))
      | None, Some sa => Some ("service"%string, sa_serviceID sa)
      | None, None => None
      end
  end.

(** One iteration of the victim loop: [victim] and [victimPriority] so far. *)
Definition victim_step (ch : channel) (now : time) (best : Z * Z) (activeSenderID : Z) : Z * Z :=
  let '(victim, victimPriority) := best in
  let priority := activeTalkerPriority ch activeSenderID now in
  if (victim =? 0) || (priority <? victimPriority)
     || ((priority =? victimPriority) && (activeSenderID <? victim))
  then (activeSenderID, priority) else (victim, victimPriority).

Definition selectVictim (ch : channel) (now : time) : Z * Z :=
  fold_left (victim_step ch now) (fst <$> range (activeTalkers ch)) (0, 0xff).

Inductive requestDecision :=
| ReqNoChannel
| ReqUnauthorized (requester : option peer) (requesterPriority : Z)
| ReqAlready (requester : peer) (requesterPriority : Z)
| ReqGranted (requester : peer) (requesterPriority : Z)
| ReqDenied (requester : peer) (requesterPriority : Z) (current : Z)
| ReqPreempted (requester : peer) (requesterPriority : Z) (victim victimPriority : Z).

(** The section of [handlePttRequest]. *)
Definition pttRequest_section (channelId senderId : Z) (addr : option UDPAddr) (now : time) (s : server)
    : requestDecision * server :=
  match channels s !! channelId, addr with
  | Some ch, Some _ =>
      let orequester := peers ch !! peerMapKey addr in
      let unauthorized := (ReqUnauthorized orequester (peerAdmissionPriority orequester now), s) in
      match orequester with
      | None => unauthorized
      | Some requester =>
          if negb (p_senderId requester =? senderId) || IsZero (p_membershipDeadline requester)
             || negb (After (p_membershipDeadline requester) now)
             || negb (peerAllowsInterrupt (Some requester) now)
          then unauthorized
          else
            let requesterPriority := peerInterruptPriority (Some requester) now in
            if bool_decide (is_Some (activeTalkers ch !! senderId))
            then (ReqAlready requester requesterPriority, s)
            else if activeCount ch <? talkerLimit s
            then (ReqGranted requester requesterPriority,
                  put_talkers channelId ch (<[senderId := now]> (activeTalkers ch)) s)
            else
              let '(victim, victimPriority) := selectVictim ch now in
              if (victim =? 0) || (requesterPriority <=? victimPriority)
              then (ReqDenied requester requesterPriority (firstActiveTalker (Some ch)), s)
              else (ReqPreempted requester requesterPriority victim victimPriority,
                    put_talkers channelId ch (<[senderId := now]> (delete victim (activeTalkers ch))) s)
      end
  | _, _ => (ReqNoChannel, s)
  end.

(** ** Expiry *)

(** One entry of a loop over [activeTalkers] at [now]: a zero start is set, an
    old one is released. *)
Definition expireTalker (limit : duration) (now : time) (acc : gmap Z time * list Z) (entry : Z * time)
    : gmap Z time * list Z :=
  let '(ts, released) := acc in
  let '(senderID, startedAt) := entry in
  if IsZero startedAt then (<[senderID := now]> ts, released)
  else if Sub now startedAt <? limit then (ts, released)
  else (delete senderID ts, released ++ [senderID]).

Definition expireTalkers (limit : duration) (now : time) (ts : gmap Z time) : gmap Z time * list Z :=
  fold_left (expireTalker limit now) (range ts) (ts, []).

(** The section of [expireTalkIfNeeded], with its sort. *)
Definition expireTalkIfNeeded (channelId : Z) (now : time) (s : server) : list Z * server :=
  if talkMax s <=? 0 then ([], s)
  else
    match channels s !! channelId with
    | None => ([], s)
    | Some ch =>
        if (size (activeTalkers ch) =? 0)%nat then ([], s)
        else
          let '(ts, released) := expireTalkers (talkMax s) now (activeTalkers ch) in
          (merge_sort Z.le released, put_talkers channelId ch ts s)
    end.

Record membershipExpiry := { me_senderId : Z; me_reason : Z; me_active : bool }.

(** [None] when the membership has not expired. *)
Definition membershipExpired (p : peer) (now : time) : option Z :=
  let deadline := p_membershipDeadline p in
  let normalExpired := negb (IsZero deadline) && negb (After deadline now) in
  let identityExpired :=
    match p_identityAdmission p with Some ad => negb (After (ia_expiresAt ad) now) | None => false end in
  let serviceExpired :=
    match p_serviceAdmission p with Some sa => negb (After (expiryDeadline sa) now) | None => false end in
  if negb normalExpired && negb identityExpired && negb serviceExpired then None
  else if identityExpired && (negb normalExpired || IsZero deadline
     || match p_identityAdmission p with Some ad => Before (ia_expiresAt ad) deadline | None => false end)
  then Some talkReleaseIdentityExpired
  else if serviceExpired && (negb normalExpired || IsZero deadline
     || match p_serviceAdmission p with Some sa => Before (expiryDeadline sa) deadline | None => false end)
  then Some talkReleaseServiceExpired
  else Some talkReleaseMembershipTimeout.

(** The removal of one peer by an expiry loop: its entry, its codec
    configurations, its talk; whether it was talking. *)
Definition dropPeer (ch : channel) (key : string) (senderId : Z) : channel * bool :=
  ({| peers := delete key (peers ch); activeTalkers := delete senderId (activeTalkers ch);
      codecConfigs := delete senderId (codecConfigs ch);
      mediaCodecConfigs := delete senderId (mediaCodecConfigs ch) |},
   bool_decide (is_Some (activeTalkers ch !! senderId))).

Definition expirePeer (now : time) (acc : channel * list membershipExpiry) (entry : string * peer)
    : channel * list membershipExpiry :=
  let '(ch, released) := acc in
  let '(key, p) := entry in
  match membershipExpired p now with
  | None => (ch, released)
  | Some reason =>
      let '(ch', active) := dropPeer ch key (p_senderId p) in
      (ch', released ++ [{| me_senderId := p_senderId p; me_reason := reason; me_active := active |}])
  end.

Definition expirePeers (now : time) (ch : channel) : channel * list membershipExpiry :=
  fold_left (expirePeer now) (range (peers ch)) (ch, []).

Definition by_sender (x y : membershipExpiry) : Prop := me_senderId x <= me_senderId y.
#[export] Instance by_sender_dec : RelDecision by_sender.
Proof. intros x y. unfold by_sender. apply _. Defined.

(** The section of [expireMembershipIfNeeded], with its sort. *)
Definition expireMembershipIfNeeded (channelId : Z) (now : time) (s : server)
    : list membershipExpiry * server :=
  match channels s !! channelId with
  | None => ([], s)
  | Some ch =>
      let '(ch', released) := expirePeers now ch in
      (merge_sort by_sender released, store_channel channelId ch' s)
  end.

(** ** The periodic cleanup *)

Record releaseEvent := { re_channelID : Z; re_talkerID : Z; re_reason : Z }.
Record departureEvent := { de_channelID : Z; de_senderID : Z; de_reason : Z }.

(** The releases and departures of one channel.  [releaseReasons] has one entry
    per talker: the first membership reason, else the timeout. *)
Definition cleanupChannel (limit : duration) (now : time) (channelId : Z) (ch : channel)
    : channel * list releaseEvent * list departureEvent :=
  let '(ch1, expired) := expirePeers now ch in
  let departures :=
    (fun e => {| de_channelID := channelId; de_senderID := me_senderId e; de_reason := me_reason e |}) <$> expired in
  let membershipReasons : gmap Z Z :=
    fold_left (fun m e => if me_active e then <[me_senderId e := me_reason e]> m else m) expired ∅ in
  let '(ts, timedOut) :=
    if 0 <? limit then expireTalkers limit now (activeTalkers ch1) else (activeTalkers ch1, []) in
  let releaseReasons : gmap Z Z :=
    fold_left (fun m t => match m !! t with Some _ => m | None => <[t := talkReleaseServerTimeout]> m end)
      timedOut membershipReasons in
  (with_talkers ch1 ts,
   (fun '(t, r) => {| re_channelID := channelId; re_talkerID := t; re_reason := r |}) <$> range releaseReasons,
   departures).

Definition cleanup_step (now : time) (acc : server * list releaseEvent * list departureEvent)
    (entry : Z * channel) : server * list releaseEvent * list departureEvent :=
  let '(s, rels, deps) := acc in
  let '(channelId, ch) := entry in
  let '(ch', r, d) := cleanupChannel (talkMax s) now channelId ch in
  (store_channel channelId ch' s, rels ++ r, deps ++ d).

Definition release_le (x y : releaseEvent) : Prop :=
  re_channelID x < re_channelID y \/ (re_channelID x = re_channelID y /\ re_talkerID x <= re_talkerID y).
#[export] Instance release_le_dec : RelDecision release_le.
Proof. intros x y. unfold release_le. apply _. Defined.
Definition departure_le (x y : departureEvent) : Prop :=
  de_channelID x < de_channelID y \/ (de_channelID x = de_channelID y /\ de_senderID x <= de_senderID y).
#[export] Instance departure_le_dec : RelDecision departure_le.
Proof. intros x y. unfold departure_le. apply _. Defined.

(** The section of one tick of [cleanupLoop], with its sorts. *)
Definition cleanup_section (now : time) (s : server) : (list releaseEvent * list departureEvent) * server :=
  let '(s', rels, deps) := fold_left (cleanup_step now) (range (channels s)) (s, [], []) in
  (merge_sort release_le rels, merge_sort departure_le deps, s').

(** The interval between ticks. *)
Definition cleanupInterval (timeout talkMax0 : duration) : duration :=
  let interval := Z.quot timeout 2 in
  let interval := if interval <=? 0 then Second else interval in
  let interval := if Second <? interval then Second else interval in
  if (0 <? talkMax0) && (100 * Millisecond <? interval) then 100 * Millisecond else interval.

(** ** Revocation of service admissions *)

Record revokedPeer := {
  rp_channelID : Z; rp_senderID : Z; rp_serviceID : string; rp_active : bool; rp_peer : peer
}.

Definition revokePeer (target : serviceAdmissionRevocationTarget) (acc : channel * list revokedPeer)
    (entry : string * peer) : channel * list revokedPeer :=
  let '(ch, revoked) := acc in
  let '(key, p) := entry in
  match p_serviceAdmission p with
  | None => (ch, revoked)
  | Some sa =>
      if negb (target_matches target (rt_channelID target) sa) then (ch, revoked)
      else
        let '(ch', active) := dropPeer ch key (p_senderId p) in
        (ch', revoked ++ [{| rp_channelID := rt_channelID target; rp_senderID := p_senderId p;
                             rp_serviceID := sa_serviceID sa; rp_active := active; rp_peer := p |}])
  end.

(** The section of [revokeManagedServiceAdmission]. *)
Definition revoke_section (target : serviceAdmissionRevocationTarget) (s : server) : list revokedPeer * server :=
  match channels s !! rt_channelID target with
  | None => ([], s)
  | Some ch =>
      let '(ch', revoked) := fold_left (revokePeer target) (range (peers ch)) (ch, []) in
      (revoked, store_channel (rt_channelID target) ch' s)
  end.
End floor.
