(* ===== verification/Relay.v ===== *)
(** * The packet handlers

    [handlePacket] and everything it calls, the receive loop, the periodic
    cleanup and the revocation of a service admission: the sections of the other
    files composed the way [main.go] and [management.go] compose them.  Several
    handlers run concurrently in the server; each is a sequence of sections, and
    the clock is read where the code reads it ([clk n] is the [n]-th reading
    site). *)

From S2P Require Import Prelude GoTime GoNet Packet Replay ControlAuth Identity Service Diagnostics DirectoryWire Server Membership Send Floor.

Open Scope eff_scope.

(** What a handler reads from outside: the clock at its reading sites, the
    challenges and the identifiers it draws. *)
Class Environment := {
  clk : nat -> time;
  challenge32 : option (list Z);
  new_id : option string
}.

Definition section {A} (f : server -> A * server) : handler A := atomically f.

Section relay.
Context `{Entropy} `{RangeOrder} `{Environment} `{Ed25519} `{TicketJSON} `{GrantJSON}.

(** ** Push-to-talk *)

Definition floorDelta (grant deny preempt unauth : Z) : relayFloorInterruptCounterDelta :=
  {| pttRequests := 1; grants := grant; denials := deny; preemptions := preempt; unauthorizedRejections := unauth |}.

Definition publishFloorInterruptAudit (requester : option peer) (channelID requesterPriority : Z)
    (auditResult : string) (replaced : option (Z * Z)) : handler unit :=
  let! s := gets (fun s => s) in
  if negb (has_privateControl s) then ret tt
  else
    match peerAdmissionAuditActor requester with
    | None => ret tt
    | Some (actorType, actorID) =>
        emit (FloorInterruptAudit actorType actorID channelID requesterPriority auditResult replaced)
    end.

Definition denyPttRequest (channelId senderId : Z) : handler unit :=
  let! current := gets (fun s => firstActiveTalker (channels s !! channelId)) in
  sendRelayControlTo channelId senderId pktTalkDeny current (talkPayload current).

Definition handlePttRequest (channelId senderId : Z) (addr : option UDPAddr) (now : time) : handler bool :=
  let! s := gets (fun s => s) in
  if negb (floorInterrupt s) || negb (identity_isRequired (identityAdmissions s))
     || negb (server_controlAuthRequired s channelId)
  then denyPttRequest channelId senderId ;;; ret false
  else
  let! d := section (pttRequest_section channelId senderId addr now) in
  match d with
  | ReqNoChannel =>
      observeFloorInterruptDiagnostics new_id (floorDelta 0 0 0 1) ;;;
      denyPttRequest channelId senderId ;;;
      ret false
  | ReqUnauthorized requester prio =>
      observeFloorInterruptDiagnostics new_id (floorDelta 0 0 0 1) ;;;
      denyPttRequest channelId senderId ;;;
      publishFloorInterruptAudit requester channelId prio "denied" None ;;;
      ret false
  | ReqAlready requester prio =>
      observeFloorInterruptDiagnostics new_id (floorDelta 1 0 0 0) ;;;
      sendRelayControlTo channelId senderId pktTalkGrant senderId (talkPayload senderId) ;;;
      publishFloorInterruptAudit (Some requester) channelId prio "success" None ;;;
      ret true
  | ReqGranted requester prio =>
      observeFloorInterruptDiagnostics new_id (floorDelta 1 0 0 0) ;;;
      broadcastRelayControl channelId pktTalkGrant senderId (talkPayload senderId) ;;;
      publishManagementEvent "talk_started" channelId senderId None None ;;;
      publishFloorInterruptAudit (Some requester) channelId prio "success" None ;;;
      ret true
  | ReqDenied requester prio current =>
      observeFloorInterruptDiagnostics new_id (floorDelta 0 1 0 0) ;;;
      sendRelayControlTo channelId senderId pktTalkDeny current (talkPayload current) ;;;
      publishFloorInterruptAudit (Some requester) channelId prio "denied" None ;;;
      ret true
  | ReqPreempted requester prio victim victimPriority =>
      observeFloorInterruptDiagnostics new_id (floorDelta 1 0 1 0) ;;;
      broadcastRelayControl channelId pktTalkRelease victim (talkReleasePayload victim talkReleasePreempted) ;;;
      broadcastRelayControl channelId pktTalkGrant senderId (talkPayload senderId) ;;;
      publishManagementEvent "talk_ended" channelId victim None (Some "PREEMPTED"%string) ;;;
      publishManagementEvent "talk_started" channelId senderId None None ;;;
      publishFloorInterruptAudit (Some requester) channelId prio "success" (Some (victim, victimPriority)) ;;;
      ret true
  end.

Definition handlePttOn (channelId senderId : Z) (now : time) : handler unit :=
  let! d := section (pttOn_section channelId senderId now) in
  match d with
  | PttNoChannel => ret tt
  | PttAlreadyGranted => sendRelayControlTo channelId senderId pktTalkGrant senderId (talkPayload senderId)
  | PttGranted =>
      broadcastRelayControl channelId pktTalkGrant senderId (talkPayload senderId) ;;;
      publishManagementEvent "talk_started" channelId senderId None None
  | PttDenied current => sendRelayControlTo channelId senderId pktTalkDeny current (talkPayload current)
  end.

(** What both PTT_OFF and the departure of a talker send. *)
Definition announceRelease (channelId senderId reason : Z) : handler unit :=
  broadcastRelayControl channelId pktTalkRelease senderId (talkReleasePayload senderId reason) ;;;
  publishManagementEvent "talk_ended" channelId senderId None (Some (talkReleaseReasonName reason)).

Definition releaseTalkIfNeeded (channelId senderId reason : Z) : handler unit :=
  let! talking := section (release_section channelId senderId) in
  when talking do announceRelease channelId senderId reason.

(** The reason name of a PTT_OFF is ["CLIENT_PTT_OFF"]. *)
Definition handlePttOff (channelId senderId : Z) : handler unit :=
  releaseTalkIfNeeded channelId senderId talkReleaseClientPttOff.

Definition emitMembershipExpirations (channelId : Z) (now : time) : handler unit :=
  let! expired := section (expireMembershipIfNeeded channelId now) in
  for_each expired (fun e =>
    (when (me_active e) do announceRelease channelId (me_senderId e) (me_reason e)) ;;;
    publishManagementEvent "participant_left" channelId (me_senderId e) None
      (Some (talkReleaseReasonName (me_reason e)))).

(** The release of talkers whose lease is over, in [handlePacket]. *)
Definition emitTalkTimeouts (channelId : Z) (now : time) : handler unit :=
  let! released := section (expireTalkIfNeeded channelId now) in
  for_each released (fun talker =>
    broadcastRelayControl channelId pktTalkRelease talker (talkReleasePayload talker talkReleaseServerTimeout) ;;;
    publishManagementEvent "talk_ended" channelId talker None (Some "SERVER_TALK_TIMEOUT"%string)).

(** ** Media *)

Definition handleMediaPacket (pkt : parsedPacket) (addr : option UDPAddr) : handler unit :=
  let channelId := ChannelId (Header pkt) in
  let senderId := SenderId (Header pkt) in
  let! active := gets (isActiveTalkerEndpoint channelId senderId addr) in
  if negb active then ret tt else
  let! allowed := gets (peerAllowsTalk channelId senderId addr (clk 10)) in
  if negb allowed then ret tt else
  let! required := gets (fun s => server_controlAuthRequired s channelId) in
  if flag_set (Flags (Header pkt)) packetFlagAESGCMV2HeaderAAD && negb required then ret tt else
  let! authentic :=
    if required then
      let! auth := gets (isAuthenticatedPeer channelId senderId addr) in
      if negb auth then ret false else gets (mediaMatchesCodecConfig pkt)
    else ret true in
  if negb authentic then ret tt else
  let! refreshed := section (refreshMembership channelId senderId addr (clk 11)) in
  if negb refreshed then ret tt else
  broadcastExceptAddr channelId addr (Raw pkt).

(** ** Admission at JOIN *)

(** [resolveJoinAdmission]: [inl] is the deny packet type and reason. *)
Definition resolveJoinAdmission (pkt : parsedPacket) (addr : option UDPAddr) (meta : controlAuthMeta) (now : time)
    : handler ((Z * Z) + (identityAdmission * serviceAdmission)) :=
  let! identityAd := section (fun s =>
    let '(r, st) := identity_admissionForJoin (identityAdmissions s) pkt addr meta now in (r, with_identity s st)) in
  let! serviceAd := section (fun s =>
    let '(r, st) := service_admissionForJoin (serviceAdmissions s) pkt addr meta now in (r, with_service s st)) in
  let! required := gets (fun s => identity_isRequired (identityAdmissions s)) in
  match serviceAd with
  | inl serviceReason => ret (inl (pktServiceDeny, serviceReason))
  | inr sa =>
      let serviceCurrent := negb (IsZero (sa_grantExpires sa)) in
      match identityAd with
      | inl identityReason =>
          if negb ((identityReason =? identityDenyAdmissionRequired) && serviceCurrent)
          then ret (inl (pktIdentityDeny, identityReason))
          else ret (inr (zero_identity, sa))
      | inr ia =>
          let identityCurrent := negb (IsZero (ia_expiresAt ia)) in
          if identityCurrent && serviceCurrent then ret (inl (pktIdentityDeny, identityDenyScopeMismatch))
          else if required && negb identityCurrent && negb serviceCurrent
          then ret (inl (pktIdentityDeny, identityDenyAdmissionRequired))
          else ret (inr (ia, sa))
      end
  end.

(** ** The packet handler *)

(** Discards an uninteresting result. *)
Definition ignore {A} (m : handler A) : handler unit := m ;;; ret tt.

Definition refresh (pkt : parsedPacket) (addr : option UDPAddr) (n : nat) : handler unit :=
  ignore (section (refreshMembership (ChannelId (Header pkt)) (SenderId (Header pkt)) addr (clk n))).

(** The deny reply of an admission exchange. *)
Definition sendDeny (pkt : parsedPacket) (addr : option UDPAddr) (meta : controlAuthMeta)
    (packetType reason : Z) : handler unit :=
  sendAuthenticatedControl addr (ChannelId (Header pkt)) (SenderId (Header pkt)) (m_keyID meta) packetType [reason].

(** The replay check of an admission packet: by the membership of the endpoint
    when it has one, else by its provisional session.  [None] drops the packet. *)
Definition admissionSession (pkt : parsedPacket) (addr : option UDPAddr) (meta : controlAuthMeta)
    : handler (option bool) :=
  let! existingPeer := gets (isAuthenticatedPeer (ChannelId (Header pkt)) (SenderId (Header pkt)) addr) in
  let! accepted :=
    if existingPeer then section (acceptAuthenticatedPeerControl pkt addr meta (clk 1))
    else section (fun s =>
      match controlAuth s with
      | None => (false, s)
      | Some a =>
          let '(r, a') := acceptPreJoinControl pkt addr meta (clk 2) a in (r, with_controlAuth s (Some a'))
      end) in
  ret (if accepted then Some existingPeer else None).

Definition handleIdentityPacket (pkt : parsedPacket) (addr : option UDPAddr) : handler unit :=
  let channelId := ChannelId (Header pkt) in
  let senderId := SenderId (Header pkt) in
  let! s := gets (fun s => s) in
  if negb (server_controlAuthRequired s channelId) then ret tt else
  match verifyIncomingControl (controlAuth s) pkt with
  | None => ret tt
  | Some meta =>
    let! session := admissionSession pkt addr meta in
    match session with
    | None => ret tt
    | Some existingPeer =>
      let now := clk 3 in
      if PType (Header pkt) =? pktIdentityBegin then
        let! answer := section (fun s =>
          let '(r, st) := identity_begin (identityAdmissions s) pkt addr meta now challenge32 in (r, with_identity s st)) in
        match answer with
        | inl denyReason => sendDeny pkt addr meta pktIdentityDeny denyReason
        | inr challenge =>
            sendAuthenticatedControl addr channelId senderId (m_keyID meta) pktIdentityChallenge challenge
        end
      else
        let! denyReason := section (fun s =>
          let '(r, st) := identity_proof (identityAdmissions s) pkt addr meta now in (r, with_identity s st)) in
        if negb (denyReason =? 0) then sendDeny pkt addr meta pktIdentityDeny denyReason
        else if existingPeer then
          let! taken := section (fun s =>
            let '(r, st) := identity_takeVerifiedAdmission (identityAdmissions s) pkt addr meta now in (r, with_identity s st)) in
          match taken with
          | None => sendDeny pkt addr meta pktIdentityDeny identityDenyInvalidProof
          | Some admission =>
              let! attached := section (setPeerIdentityAdmission channelId senderId addr admission) in
              when (negb attached) do sendDeny pkt addr meta pktIdentityDeny identityDenyInvalidProof
          end
        else ret tt
    end
  end.

Definition handleServicePacket (pkt : parsedPacket) (addr : option UDPAddr) : handler unit :=
  let channelId := ChannelId (Header pkt) in
  let senderId := SenderId (Header pkt) in
  let! s := gets (fun s => s) in
  if negb (server_controlAuthRequired s channelId) then ret tt else
  match verifyIncomingControl (controlAuth s) pkt with
  | None => ret tt
  | Some meta =>
    let! session := admissionSession pkt addr meta in
    match session with
    | None => ret tt
    | Some existingPeer =>
      let now := clk 3 in
      let take := section (fun s =>
        let '(r, st) := service_takeVerifiedAdmission (serviceAdmissions s) pkt addr meta now in (r, with_service s st)) in
      if PType (Header pkt) =? pktServiceBegin then
        let! answer := section (fun s =>
          let '(r, st) := service_begin (serviceAdmissions s) pkt addr meta now challenge32 in (r, with_service s st)) in
        match answer with
        | inl denyReason => sendDeny pkt addr meta pktServiceDeny denyReason
        | inr challenge =>
            sendAuthenticatedControl addr channelId senderId (m_keyID meta) pktServiceChallenge challenge
        end
      else
        let! denyReason := section (fun s =>
          let '(r, st) := service_proof (serviceAdmissions s) pkt addr meta now in (r, with_service s st)) in
        if negb (denyReason =? 0) then sendDeny pkt addr meta pktServiceDeny denyReason
        else if existingPeer then
          let! identified := gets (peerHasIdentityAdmission channelId senderId addr) in
          if identified then ignore take ;;; sendDeny pkt addr meta pktServiceDeny serviceDenyScopeMismatch
          else
          let! taken := take in
          match taken with
          | None => sendDeny pkt addr meta pktServiceDeny serviceDenyInvalidProof
          | Some admission =>
              let! attached := section (setPeerServiceAdmission channelId senderId addr admission (clk 4)) in
              if negb attached then sendDeny pkt addr meta pktServiceDeny serviceDenyInvalidProof
              else publishManagementEvent "service_admission_issued" channelId senderId (Some (sa_serviceID admission)) None
          end
        else ret tt
    end
  end.

(** The authenticated JOIN: [None] when the handler stops, else the service it
    joined as.  A failed verification leaves the zero [controlAuthMeta], which
    [consumeJoinChallenge] refuses. *)
Definition handleAuthenticatedJoin (pkt : parsedPacket) (addr : option UDPAddr) : handler (option (option string)) :=
  let channelId := ChannelId (Header pkt) in
  let senderId := SenderId (Header pkt) in
  let! s := gets (fun s => s) in
  let meta := default zero_meta (verifyIncomingControl (controlAuth s) pkt) in
  let! replay := section (fun s =>
    match controlAuth s with
    | None => (None, s)
    | Some a =>
        let '(r, a') := consumeJoinChallenge pkt addr meta (clk 1) (clk 2) (clk 3) a in (r, with_controlAuth s (Some a'))
    end) in
  match replay with
  | None => ret None
  | Some replay =>
    let! admission := resolveJoinAdmission pkt addr meta (clk 4) in
    match admission with
    | inl (denyPacketType, denyReason) => sendDeny pkt addr meta denyPacketType denyReason ;;; ret None
    | inr (identityAd, serviceAd) =>
      let identityCurrent := negb (IsZero (ia_expiresAt identityAd)) in
      let serviceCurrent := negb (IsZero (sa_grantExpires serviceAd)) in
      section (fun s => (tt, upsertAuthenticatedPeerWithReplay channelId senderId addr meta (pr_window replay) (clk 5) s)) ;;;
      let! ok1 := if identityCurrent then section (setPeerIdentityAdmission channelId senderId addr identityAd) else ret true in
      if negb ok1 then ret None else
      let! ok2 := if serviceCurrent then section (setPeerServiceAdmission channelId senderId addr serviceAd (clk 6)) else ret true in
      if negb ok2 then ret None else
      let! started := section (startMembership channelId senderId addr (clk 7)) in
      if negb started then ret None else
      if serviceCurrent
      then publishManagementEvent "service_admission_issued" channelId senderId (Some (sa_serviceID serviceAd)) None ;;;
           ret (Some (Some (sa_serviceID serviceAd)))
      else ret (Some None)
    end
  end.

Definition handleUnauthenticatedJoin (pkt : parsedPacket) (addr : option UDPAddr) : handler (option (option string)) :=
  let channelId := ChannelId (Header pkt) in
  let senderId := SenderId (Header pkt) in
  if negb (len (Payload pkt) =? 0) then ret None
  else
    section (fun s => (tt, joinPeer channelId senderId addr (clk 5) s)) ;;;
    let! started := section (startMembership channelId senderId addr (clk 7)) in
    ret (if started then Some None else None).

(** The admission of an ordinary control packet: [None] stops the handler, and
    the service ID is the one a JOIN was admitted as. *)
Definition admitControl (pkt : parsedPacket) (addr : option UDPAddr) : handler (option (option string)) :=
  let! s := gets (fun s => s) in
  let requiresAuth := server_controlAuthRequired s (ChannelId (Header pkt)) in
  if (PType (Header pkt) =? pktJoin) && requiresAuth then handleAuthenticatedJoin pkt addr
  else if PType (Header pkt) =? pktJoin then handleUnauthenticatedJoin pkt addr
  else if requiresAuth then
    match verifyIncomingControl (controlAuth s) pkt with
    | None => ret None
    | Some meta =>
        let! ok := section (acceptAuthenticatedPeerControl pkt addr meta (clk 1)) in
        ret (if ok then Some None else None)
    end
  else
    let! ok := section (acceptUnauthenticatedPeerControl (ChannelId (Header pkt)) (SenderId (Header pkt)) addr (clk 1)) in
    ret (if ok then Some None else None).

(** The final [switch] of [handlePacket]. *)
Definition dispatchControl (pkt : parsedPacket) (addr : option UDPAddr) (joinedServiceID : option string) : handler unit :=
  let channelId := ChannelId (Header pkt) in
  let senderId := SenderId (Header pkt) in
  let t := PType (Header pkt) in
  let noPayload := len (Payload pkt) =? 0 in
  if t =? pktJoin then
    publishManagementEvent "participant_joined" channelId senderId joinedServiceID None ;;;
    sendServerConfig channelId senderId ;;;
    sendCurrentTalkState channelId senderId
  else if t =? pktLeave then
    when noPayload do (
      releaseTalkIfNeeded channelId senderId talkReleaseClientLeave ;;;
      section (fun s => (tt, removePeer channelId senderId addr s)) ;;;
      publishManagementEvent "participant_left" channelId senderId None (Some "CLIENT_LEAVE"%string))
  else if t =? pktKeepalive then
    when noPayload do refresh pkt addr 12
  else if t =? pktPttOn then
    when noPayload do (
      let! allowed := gets (peerAllowsTalk channelId senderId addr (clk 13)) in
      when allowed do (refresh pkt addr 14 ;;; handlePttOn channelId senderId (clk 15)))
  else if t =? pktPttRequest then
    (if negb (bytes_eqb (Payload pkt) [1]) then ret tt
     else
       let! authorized := handlePttRequest channelId senderId addr (clk 13) in
       when authorized do refresh pkt addr 14)
  else if t =? pktPttOff then
    when noPayload do (refresh pkt addr 14 ;;; handlePttOff channelId senderId)
  else if t =? pktCodecConfig then
    let! s := gets (fun s => s) in
    let requiresAuth := server_controlAuthRequired s channelId in
    let controlKeyID := if requiresAuth then KeyID (Sec pkt) else 0 in
    let! config := section (cacheCodecConfig channelId senderId (Payload pkt) controlKeyID requiresAuth) in
    match config with
    | None => ret tt
    | Some config => refresh pkt addr 14 ;;; sendRelayCodecConfig channelId senderId config
    end
  else ret tt.

Definition handleHello (pkt : parsedPacket) (addr : option UDPAddr) : handler unit :=
  let! s := gets (fun s => s) in
  if negb (server_controlAuthRequired s (ChannelId (Header pkt))) then ret tt else
  match verifyIncomingControl (controlAuth s) pkt with
  | None => ret tt
  | Some meta =>
      if negb (len (Payload pkt) =? 0) then ret tt
      else
        let! challenge := section (fun s =>
          match controlAuth s with
          | None => (inl ""%string, s)
          | Some a => let '(r, a') := createChallenge pkt addr meta (clk 1) (clk 2) a in (r, with_controlAuth s (Some a'))
          end) in
        match challenge with
        | inl _ => ret tt
        | inr challenge =>
            sendAuthenticatedChallenge addr (ChannelId (Header pkt)) (SenderId (Header pkt)) (m_keyID meta) challenge
        end
  end.

Definition handlePing (pkt : parsedPacket) (addr : option UDPAddr) : handler unit :=
  let channelId := ChannelId (Header pkt) in
  let senderId := SenderId (Header pkt) in
  let! s := gets (fun s => s) in
  let! ok :=
    if server_controlAuthRequired s channelId then
      match verifyIncomingControl (controlAuth s) pkt with
      | None => ret false
      | Some meta => section (acceptAuthenticatedPeerControl pkt addr meta (clk 1))
      end
    else ret true in
  if negb ok || negb (len (Payload pkt) =? 8) then ret tt
  else
    let! known := section (touchKnownPeer channelId senderId addr (clk 2)) in
    when known do sendPong addr channelId senderId (Payload pkt).

Definition handlePacket (pkt : parsedPacket) (addr : option UDPAddr) : handler unit :=
  let channelId := ChannelId (Header pkt) in
  let t := PType (Header pkt) in
  if negb (Version (Header pkt) =? protocolVersion) || (SenderId (Header pkt) =? 0) then ret tt
  else
  emitMembershipExpirations channelId (clk 0) ;;;
  if (t =? pktAudio) || (t =? pktFec) then handleMediaPacket pkt addr
  else if t =? pktAuthHello then handleHello pkt addr
  else if t =? pktPing then handlePing pkt addr
  else
  let! s := gets (fun s => s) in
  if ((t =? pktIdentityBegin) || (t =? pktIdentityProof)) && bool_decide (is_Some (identityAdmissions s))
  then handleIdentityPacket pkt addr
  else if ((t =? pktServiceBegin) || (t =? pktServiceProof)) && bool_decide (is_Some (serviceAdmissions s))
  then handleServicePacket pkt addr
  else
  let! admitted := admitControl pkt addr in
  match admitted with
  | None => ret tt
  | Some joinedServiceID =>
      emitTalkTimeouts channelId (clk 9) ;;;
      dispatchControl pkt addr joinedServiceID
  end.

(** ** The receive loop *)

Definition observePacketSize (pkt : parsedPacket) (size : Z) (now : time) (w : sizeWindow) : sizeWindow :=
  let start := if IsZero (sizeWindowStart w) then now else sizeWindowStart w in
  let bigger := sizeWindowMax w <? size in
  let realtime := ((PType (Header pkt) =? pktAudio) || (PType (Header pkt) =? pktFec)) && (udpNearLimitBytes <? size) in
  let w1 :=
    {| sizeWindowStart := start;
       sizeWindowMax := if bigger then size else sizeWindowMax w;
       sizeWindowMaxType := if bigger then PType (Header pkt) else sizeWindowMaxType w;
       sizeWindowMaxCh := if bigger then ChannelId (Header pkt) else sizeWindowMaxCh w;
       sizeWindowMaxSender := if bigger then SenderId (Header pkt) else sizeWindowMaxSender w;
       sizeWindowOverWarn := if realtime then sizeWindowOverWarn w + 1 else sizeWindowOverWarn w;
       lastWarnLog := if realtime && (3 * Second <=? Sub now (lastWarnLog w)) then now else lastWarnLog w |} in
  if 30 * Second <=? Sub now start
  then {| sizeWindowStart := now; sizeWindowMax := 0; sizeWindowMaxType := 0; sizeWindowMaxCh := 0;
          sizeWindowMaxSender := 0; sizeWindowOverWarn := 0; lastWarnLog := lastWarnLog w1 |}
  else w1.

(** One iteration of [run]: a datagram of [len data] bytes. *)
Definition receive (data : list Z) (addr : UDPAddr) : handler unit :=
  if negb (acceptsUDPDatagramSize (len data)) then ret tt
  else if bytes_eqb (take 4 data) directoryCarrierMagic then
    let! s := gets (fun s => s) in
    when (mediaDirectory s && (5 <=? len data) && (nth 4 data 0 =? directoryCarrierVersion))
    do emit (DirectoryDatagram (drop 5 data) addr)
  else
    let! s := gets (fun s => s) in
    match parsePacket data (noCrypto s) with
    | None => emit Crash
    | Some None => ret tt
    | Some (Some pkt) =>
        modify (fun s => with_sizes s (observePacketSize pkt (len data) (clk 20) (sizes s))) ;;;
        handlePacket pkt (Some addr)
    end.

(** ** The cleanup tick and the revocation *)

Definition cleanupTick (now : time) : handler unit :=
  let! '(releases, departures) := section (cleanup_section now) in
  for_each releases (fun r => announceRelease (re_channelID r) (re_talkerID r) (re_reason r)) ;;;
  for_each departures (fun d =>
    publishManagementEvent "participant_left" (de_channelID d) (de_senderID d) None
      (Some (talkReleaseReasonName (de_reason d)))).

Record managedServiceRevocationResult := { affectedMemberships : Z; talkReleases : Z }.

(** What one revoked peer makes the server send. *)
Definition announceRevoked (rp : revokedPeer) : handler unit :=
  let! s := gets (fun s => s) in
  (when (has_management s) do emit (RevocationAudit (rp_channelID rp))) ;;;
  (when (rp_active rp) do (
     let payload := talkReleasePayload (rp_senderID rp) talkReleaseServiceRevoked in
     broadcastRelayControl (rp_channelID rp) pktTalkRelease (rp_senderID rp) payload ;;;
     send_built (fun op => relayControlForPeer (rp_channelID rp) op pktTalkRelease (rp_senderID rp) payload) (rp_peer rp) ;;;
     publishManagementEvent "talk_ended" (rp_channelID rp) (rp_senderID rp) (Some (rp_serviceID rp))
       (Some "SERVICE_ADMISSION_REVOKED"%string))) ;;;
  publishManagementEvent "participant_left" (rp_channelID rp) (rp_senderID rp) (Some (rp_serviceID rp))
    (Some "SERVICE_ADMISSION_REVOKED"%string) ;;;
  publishManagementEvent "service_admission_revoked" (rp_channelID rp) (rp_senderID rp) (Some (rp_serviceID rp))
    (Some "SERVICE_ADMISSION_REVOKED"%string).

(** [revokeManagedServiceAdmission]; [None] is [(managedServiceRevocationResult{}, false)]. *)
Definition revokeManagedServiceAdmission (target : serviceAdmissionRevocationTarget) (denyUntil now : time)
    : handler (option managedServiceRevocationResult) :=
  let! installed := section (fun s =>
    let '(r, st) := installRevocation (serviceAdmissions s) target denyUntil now in (r, with_service s st)) in
  if negb installed then ret None
  else
    let! revoked := section (revoke_section target) in
    for_each revoked announceRevoked ;;;
    ret (Some {| affectedMemberships := u32 (len revoked);
                 talkReleases := len (filter (fun rp => rp_active rp = true) revoked) |}).
End relay.
