(* ===== verification/Directory.v ===== *)
(** * The Directory service

    [directoryV3] of [directory_v3.go]: its tables, every section it runs under
    its lock, the senders and the loops' bodies, and the source of its participant
    lists in [main.go].  Every reading of the clock and every random draw takes
    the next value of the environment; the queue of inbound datagrams is the
    buffer of the Go channel [jobs]. *)

From S2P Require Import Prelude GoTime GoNet Sha256 Base64 Packet Replay Identity Server DirectoryWire DirectoryPack.

Open Scope eff_scope.

Definition directoryMaxParticipants : Z := 128.
Definition directoryMaxReplayDomains : Z := 1024.
Definition directoryMaxRegistrations : Z := 64.
Definition directoryRegistrationTTL : duration := 90 * Second.

(** [sort.Slice] by an integer key: some sorted permutation, as the sort is not
    stable. *)
Class SliceSort := {
  sort_Slice : forall {A}, (A -> Z) -> list A -> list A;
  sort_Slice_perm : forall {A} (key : A -> Z) l, sort_Slice key l ≡ₚ l;
  sort_Slice_sorted : forall {A} (key : A -> Z) l, StronglySorted Z.le (key <$> sort_Slice key l)
}.

(** ** Rows and metadata *)

Record directoryChannelRow := { cr_ChannelID : Z; cr_Name : list Z }.
Record directorySpeakerRow := { sr_ChannelID : Z; sr_SenderID : Z; sr_Name : list Z }.
Record directoryParticipantRow := { dp_ChannelID : Z; dp_SenderID : Z; LastSeenAt : Z; Talking : bool }.

Record directoryMetadata := {
  md_channels : gmap Z directoryChannelRow;
  md_speakers : gmap Z (gmap Z directorySpeakerRow);
  md_fallback : gmap Z directorySpeakerRow
}.

Definition hex_byte (d : Z) : Z := if d <? 10 then 48 + d else 87 + d.

(** [hex.EncodeToString]. *)
Definition hex_EncodeToString (l : list Z) : list Z := flat_map (fun b => [hex_byte (b / 16); hex_byte (b mod 16)]) l.

(** ** Payloads *)

Record directoryFragment := { fr_ResponseID : list Z; fr_Index : Z; fr_Count : Z }.

Record directoryParticipantsPayload := {
  pp_Version : Z; pp_IssuedAt : Z; pp_ExpiresAt : Z; pp_RequestID : list Z; pp_Fragment : directoryFragment;
  pp_Participants : list directoryParticipantRow
}.

Record directorySnapshotPage := { pg_Index : Z; pg_Count : Z; pg_NextCursor : option (list Z) }.

Record directorySnapshotPayload := {
  sp_Version : Z; sp_IssuedAt : Z; sp_ExpiresAt : Z; sp_RequestID : list Z; sp_Fragment : directoryFragment;
  sp_Revision : list Z; sp_Page : directorySnapshotPage; sp_Channels : list directoryChannelRow;
  sp_Speakers : list directorySpeakerRow
}.

Record directoryErrorPayload := {
  ep_Version : Z; ep_IssuedAt : Z; ep_ExpiresAt : Z; ep_RequestID : list Z; ep_Code : list Z
}.

(** [json.Marshal] on the payloads of the Relay and on the digest input of
    [revision]; [None] is its error. *)
Class DirectoryPayloadJSON := {
  marshal_participants : directoryParticipantsPayload -> option (list Z);
  marshal_snapshot : directorySnapshotPayload -> option (list Z);
  marshal_error : directoryErrorPayload -> option (list Z);
  marshal_revision : directoryChannelRow -> list directorySpeakerRow -> list Z
}.

(** ** State *)

Record directoryReplayRecord := { rr_state : directoryReplayState; rr_expires : time }.

Definition zero_record : directoryReplayRecord := {| rr_state := zero_replay; rr_expires := zero_time |}.

Record directoryRegistration := { dr_addr : option UDPAddr; dr_binding : Z; dr_deadline : time }.
Record directoryInboundJob := { j_data : list Z; j_addr : option UDPAddr; j_binding : Z }.
Record directoryRateState := { rs_window : time; rs_count : Z }.

Record directorySnapshotSession := {
  ss_channel : directoryChannelRow; ss_speakers : list directorySpeakerRow; ss_revision : list Z; ss_expires : time
}.
Record directorySnapshotCursor := { sc_session : directorySnapshotSession; sc_page : Z }.

(** The map keys are [(ChannelID, Epoch)], [(channelID, instanceID)], the cursor
    text and the text of the source address.  [reads] and [draws] count the
    readings of the clock and of the random source. *)
Record directoryV3 := {
  d_keys : directoryKeyStore;
  d_metadata : directoryMetadata;
  d_transport : directoryTransport;
  freshnessTTL : duration;
  jobs : list directoryInboundJob;
  registrations : gmap (Z * list Z) directoryRegistration;
  replay : gmap (Z * list Z) directoryReplayRecord;
  cursors : gmap (list Z) directorySnapshotCursor;
  preauth : gmap string directoryRateState;
  responseRate : directoryRateState;
  d_reads : nat;
  d_draws : nat
}.

Definition with_tables (d : directoryV3) regs rep curs : directoryV3 :=
  {| d_keys := d_keys d; d_metadata := d_metadata d; d_transport := d_transport d; freshnessTTL := freshnessTTL d;
     jobs := jobs d; registrations := regs; replay := rep; cursors := curs; preauth := preauth d;
     responseRate := responseRate d; d_reads := d_reads d; d_draws := d_draws d |}.

Definition with_rates (d : directoryV3) pre rate : directoryV3 :=
  {| d_keys := d_keys d; d_metadata := d_metadata d; d_transport := d_transport d; freshnessTTL := freshnessTTL d;
     jobs := jobs d; registrations := registrations d; replay := replay d; cursors := cursors d; preauth := pre;
     responseRate := rate; d_reads := d_reads d; d_draws := d_draws d |}.

Definition with_jobs (d : directoryV3) js : directoryV3 :=
  {| d_keys := d_keys d; d_metadata := d_metadata d; d_transport := d_transport d; freshnessTTL := freshnessTTL d;
     jobs := js; registrations := registrations d; replay := replay d; cursors := cursors d; preauth := preauth d;
     responseRate := responseRate d; d_reads := d_reads d; d_draws := d_draws d |}.

Definition with_reads (d : directoryV3) reads draws : directoryV3 :=
  {| d_keys := d_keys d; d_metadata := d_metadata d; d_transport := d_transport d; freshnessTTL := freshnessTTL d;
     jobs := jobs d; registrations := registrations d; replay := replay d; cursors := cursors d; preauth := preauth d;
     responseRate := responseRate d; d_reads := reads; d_draws := draws |}.

(** [newDirectoryV3], after the key and the metadata files are loaded; [None] is
    an error.  A zero duration selects the default. *)
Definition newDirectoryV3 (keys : directoryKeyStore) (metadata : directoryMetadata) (transport : directoryTransport)
    (publishInterval ttl : duration) : option directoryV3 :=
  let publishInterval := if publishInterval =? 0 then 30 * Second else publishInterval in
  let ttl := if ttl =? 0 then 90 * Second else ttl in
  if (publishInterval <? Second) || (ttl <? Second) || (90 * Second <? ttl) then None
  else if negb (bool_decide (dom keys ⊆ dom (md_channels metadata)))
          || negb (bool_decide (dom (md_channels metadata) ⊆ dom keys)) then None
  else Some {| d_keys := keys; d_metadata := metadata; d_transport := transport; freshnessTTL := ttl;
    jobs := []; registrations := ∅; replay := ∅; cursors := ∅; preauth := ∅;
    responseRate := {| rs_window := zero_time; rs_count := 0 |}; d_reads := 0; d_draws := 0 |}.

(** ** Sections *)

Definition purgeLocked (now : time) (d : directoryV3) : directoryV3 :=
  with_rates
    (with_tables d (purge dr_deadline now (registrations d)) (purge rr_expires now (replay d))
       (purge (fun c => ss_expires (sc_session c)) now (cursors d)))
    (filter (fun kv => Sub now (rs_window (kv.2)) < 2 * Second) (preauth d)) (responseRate d).

Definition allowPreauthentication (addr : UDPAddr) (now : time) (d : directoryV3) : bool * directoryV3 :=
  let key := IP_String (IP addr) in
  let found := preauth d !! key in
  if negb (bool_decide (is_Some found)) && (1024 <=? Z.of_nat (size (preauth d))) then (false, d)
  else
    let state := default {| rs_window := zero_time; rs_count := 0 |} found in
    let state := if IsZero (rs_window state) || (Second <=? Sub now (rs_window state))
                 then {| rs_window := now; rs_count := 0 |} else state in
    if 16 <=? rs_count state then (false, with_rates d (<[key := state]> (preauth d)) (responseRate d))
    else
      let state := {| rs_window := rs_window state; rs_count := rs_count state + 1 |} in
      (true, with_rates d (<[key := state]> (preauth d)) (responseRate d)).

Definition consumeResponseBudget (packetCount : Z) (now : time) (d : directoryV3) : bool * directoryV3 :=
  let rate := if IsZero (rs_window (responseRate d)) || (Second <=? Sub now (rs_window (responseRate d)))
              then {| rs_window := now; rs_count := 0 |} else responseRate d in
  if 64 <? rs_count rate + packetCount then (false, with_rates d (preauth d) rate)
  else (true, with_rates d (preauth d) {| rs_window := rs_window rate; rs_count := rs_count rate + packetCount |}).

(** The Go channel [jobs]: a send to a full buffer takes the default branch, a
    receive takes the oldest job. *)
Definition send_job (job : directoryInboundJob) (d : directoryV3) : unit * directoryV3 :=
  (tt, if len (jobs d) <? 32 then with_jobs d (jobs d ++ [job]) else d).

Definition receive_job (d : directoryV3) : option directoryInboundJob * directoryV3 :=
  match jobs d with
  | [] => (None, d)
  | job :: rest => (Some job, with_jobs d rest)
  end.

(** The switch of [commitInbound] on the envelope type, after the replay check. *)
Definition commit_payload (opened : directoryOpenedDatagram) (addr : option UDPAddr) (now : time) (d : directoryV3)
    : option directoryRequestPayload * directoryV3 :=
  let e := o_envelope opened in
  let instance_key g := (e_ChannelID e, default (zeros 16) (decodeCanonicalDirectoryID (rg_InstanceID g))) in
  if bytes_eqb (e_Type e) (str_bytes "request") then (o_request opened, d)
  else if bytes_eqb (e_Type e) (str_bytes "register") then
    match o_registration opened with
    | None => (None, d)
    | Some g =>
        let key := instance_key g in
        if negb (bool_decide (is_Some (registrations d !! key)))
           && (directoryMaxRegistrations <=? Z.of_nat (size (registrations d))) then (None, d)
        else
          let registration := {| dr_addr := cloneUDPAddr addr; dr_binding := o_binding opened;
                                 dr_deadline := Add now directoryRegistrationTTL |} in
          (None, with_tables d (<[key := registration]> (registrations d)) (replay d) (cursors d))
    end
  else if bytes_eqb (e_Type e) (str_bytes "heartbeat") then
    match o_registration opened with
    | None => (None, d)
    | Some g =>
        let key := instance_key g in
        match registrations d !! key with
        | None => (None, d)
        | Some registration =>
            if negb (dr_binding registration =? o_binding opened) || negb (sameUDPEndpoint (dr_addr registration) addr)
            then (None, d)
            else
              let registration := {| dr_addr := dr_addr registration; dr_binding := dr_binding registration;
                                     dr_deadline := Add now directoryRegistrationTTL |} in
              (None, with_tables d (<[key := registration]> (registrations d)) (replay d) (cursors d))
        end
    end
  else (None, d).

(** The replay check of [commitInbound], on purged tables. *)
Definition commit_replay (opened : directoryOpenedDatagram) (d : directoryV3) : option directoryV3 :=
  let e := o_envelope opened in
  let key := (e_ChannelID e, o_epoch opened) in
  let found := replay d !! key in
  if negb (bool_decide (is_Some found)) && (directoryMaxReplayDomains <=? Z.of_nat (size (replay d))) then None
  else
    let record := default zero_record found in
    let '(accepted, state) := directory_accept (rr_state record) (e_Sequence e) in
    if negb accepted then None
    else
      let payloadExpiry := Unix (i64 (e_ExpiresAt e)) in
      let expires := if Before (rr_expires record) payloadExpiry then payloadExpiry else rr_expires record in
      Some (with_tables d (registrations d) (<[key := {| rr_state := state; rr_expires := expires |}]> (replay d)) (cursors d)).

Definition commitInbound (opened : directoryOpenedDatagram) (addr : option UDPAddr) (now : time) (d : directoryV3)
    : option directoryRequestPayload * directoryV3 :=
  let d := purgeLocked now d in
  match commit_replay opened d with
  | None => (None, d)
  | Some d => commit_payload opened addr now d
  end.

(** The section of [sendSnapshotCursor]. *)
Definition take_cursor (cursor : list Z) (now : time) (d : directoryV3) : option directorySnapshotCursor * directoryV3 :=
  let d := purgeLocked now d in
  (cursors d !! cursor, with_tables d (registrations d) (replay d) (delete cursor (cursors d))).

(** The section of [publishParticipants]: the registrations by channel. *)
Definition collect_registrations `{RangeOrder} (now : time) (d : directoryV3)
    : gmap Z (list directoryRegistration) * directoryV3 :=
  let d := purgeLocked now d in
  (foldl (fun m kv => <[kv.1.1 := default [] (m !! kv.1.1) ++ [kv.2]]> m) ∅ (range (registrations d)), d).

(** ** Rows of a response *)

Section rows.
Context `{RangeOrder} `{SliceSort}.

Definition set_channel (channelID : Z) (row : directorySpeakerRow) : directorySpeakerRow :=
  {| sr_ChannelID := channelID; sr_SenderID := sr_SenderID row; sr_Name := sr_Name row |}.

(** The map [resolved]: the fallback rows, then the rows of the channel. *)
Definition resolved_map (m : directoryMetadata) (channelID : Z) : gmap Z directorySpeakerRow :=
  let fallback := foldl (fun acc kv => <[kv.1 := set_channel channelID (kv.2)]> acc) ∅ (range (md_fallback m)) in
  foldl (fun acc kv => <[kv.1 := kv.2]> acc) fallback (range (default ∅ (md_speakers m !! channelID))).

Definition resolvedSpeakers (m : directoryMetadata) (channelID : Z) : list directorySpeakerRow :=
  sort_Slice sr_SenderID (snd <$> range (resolved_map m channelID)).

Definition revision `{DirectoryPayloadJSON} (m : directoryMetadata) (channelID : Z) : option (list Z) :=
  channel ← md_channels m !! channelID;
  Some (hex_EncodeToString (sha256 (marshal_revision channel (resolvedSpeakers m channelID)))).

(** The row of a registration, when its membership is live and it was seen. *)
Definition participantRow (channelID : Z) (ch : channel) (now : time) (p : peer) : option directoryParticipantRow :=
  if (p_senderId p =? 0) || (negb (IsZero (p_membershipDeadline p)) && negb (After (p_membershipDeadline p) now)) then None
  else
    let lastSeen := toUnix (p_lastSeen p) in
    if lastSeen <? 1 then None
    else Some {| dp_ChannelID := channelID; dp_SenderID := p_senderId p; LastSeenAt := u64 lastSeen;
                 Talking := bool_decide (is_Some (activeTalkers ch !! p_senderId p)) |}.

Definition directoryParticipants (channelID : Z) (now : time) (s : server) : list directoryParticipantRow :=
  match channels s !! channelID with
  | None => []
  | Some ch => sort_Slice dp_SenderID (omap (participantRow channelID ch now) (snd <$> range (peers ch)))
  end.
End rows.

(** ** Handlers *)

(** A [WriteToUDP] of the Directory. *)
Record directoryWrite := { w_data : list Z; w_addr : UDPAddr }.

Abbreviation dhandler := (M directoryV3 directoryWrite).

(** The [n]-th reading of [d.now] and the [n]-th 16-byte read of [d.random]
    ([None] when it fails). *)
Class DirectoryEnvironment := {
  now_at : nat -> time;
  random_at : nat -> option (list Z);
  random_bytes : forall n v, random_at n = Some v -> bytes_ok v /\ length v = 16%nat
}.

(** What the three senders of fragments do with the groups of a packing. *)
Inductive sealing := EncodeFailed | TooLarge | Sealed (datagrams : list (list Z)).

Fixpoint seal_groups {Row} (encode : Z -> list Row -> option (list Z)) (seal : Z -> list Z -> option (list Z))
    (index : Z) (groups : list (list Row)) : sealing :=
  match groups with
  | [] => Sealed []
  | group :: rest =>
      match encode index group with
      | None => EncodeFailed
      | Some payload =>
          match seal index payload with
          | None => TooLarge
          | Some datagram =>
              match seal_groups encode seal (index + 1) rest with
              | Sealed datagrams => Sealed (datagram :: datagrams)
              | failure => failure
              end
          end
      end
  end.

Section handlers.
Context `{RangeOrder} `{SliceSort} `{DirectoryEnvironment} `{DirectoryJSON} `{DirectoryPayloadJSON} `{AEAD}.

Definition read_now (d : directoryV3) : time * directoryV3 :=
  (now_at (d_reads d), with_reads d (S (d_reads d)) (d_draws d)).

Definition randomID (d : directoryV3) : option (list Z) * directoryV3 :=
  (random_at (d_draws d), with_reads d (d_reads d) (S (d_draws d))).

Definition randomIDText (d : directoryV3) : option (list Z) * directoryV3 :=
  let '(value, d) := randomID d in (RawURL_Encode <$> value, d).

Definition sendDatagrams (datagrams : list (list Z)) (addr : option UDPAddr) : dhandler unit :=
  match addr with
  | None => ret tt
  | Some a =>
      if len datagrams <? 1 then ret tt
      else
        let! now := atomically read_now in
        let! allowed := atomically (consumeResponseBudget (len datagrams) now) in
        when allowed do for_each datagrams (fun datagram => emit {| w_data := datagram; w_addr := a |})
  end.

Definition RESPONSE_TOO_LARGE : list Z := str_bytes "RESPONSE_TOO_LARGE".
Definition INVALID_CURSOR : list Z := str_bytes "INVALID_CURSOR".
Definition PAGING_SESSION_EXPIRED : list Z := str_bytes "PAGING_SESSION_EXPIRED".

Definition sendError (channelID : Z) (requestID code : list Z) (addr : option UDPAddr) (bnd : Z) : dhandler unit :=
  if bytes_eqb requestID []
     || (negb (bytes_eqb code RESPONSE_TOO_LARGE) && negb (bytes_eqb code INVALID_CURSOR)
         && negb (bytes_eqb code PAGING_SESSION_EXPIRED)) then ret tt
  else
    let! d := gets (fun d => d) in
    match d_keys d !! channelID with
    | None => ret tt
    | Some material =>
        let! now := atomically read_now in
        let issuedAt := u64 (toUnix now) in
        let expiresAt := u64 (toUnix (Add now (freshnessTTL d))) in
        let! epoch := atomically randomID in
        match epoch with
        | None => ret tt
        | Some epoch =>
            match marshal_error {| ep_Version := directoryV3Version; ep_IssuedAt := issuedAt; ep_ExpiresAt := expiresAt;
                                   ep_RequestID := requestID; ep_Code := code |} with
            | None => ret tt
            | Some payload =>
                match sealDirectoryDatagram payload (str_bytes "error") channelID material epoch 1 expiresAt bnd with
                | None => ret tt
                | Some datagram => sendDatagrams [datagram] addr
                end
            end
        end
    end.

(** The common end of [sendParticipants] and [sendSnapshotPage]. *)
Definition send_groups {Row} (groups : loop (option (list (list Row)))) (encode : Z -> Z -> list Row -> option (list Z))
    (seal : Z -> list Z -> option (list Z)) (channelID : Z) (requestID : list Z) (addr : option UDPAddr) (bnd : Z)
    : dhandler unit :=
  match groups with
  | OutOfFuel => ret tt
  | Stop None => sendError channelID requestID RESPONSE_TOO_LARGE addr bnd
  | Stop (Some groups) =>
      match seal_groups (fun index => encode index (len groups)) seal 0 groups with
      | EncodeFailed => ret tt
      | TooLarge => sendError channelID requestID RESPONSE_TOO_LARGE addr bnd
      | Sealed datagrams => sendDatagrams datagrams addr
      end
  end.

Definition encode_participants (issuedAt expiresAt : Z) (requestID responseID : list Z) (index count : Z)
    (group : list directoryParticipantRow) : option (list Z) :=
  marshal_participants {| pp_Version := directoryV3Version; pp_IssuedAt := issuedAt; pp_ExpiresAt := expiresAt;
    pp_RequestID := requestID; pp_Fragment := {| fr_ResponseID := responseID; fr_Index := index; fr_Count := count |};
    pp_Participants := group |}.

Definition sendParticipants (channelID : Z) (requestID : list Z) (rows : list directoryParticipantRow)
    (addr : option UDPAddr) (bnd : Z) : dhandler unit :=
  if directoryMaxParticipants <? len rows then sendError channelID requestID RESPONSE_TOO_LARGE addr bnd
  else
    let! d := gets (fun d => d) in
    match d_keys d !! channelID with
    | None => ret tt
    | Some material =>
        let! now := atomically read_now in
        let issuedAt := u64 (toUnix now) in
        let expiresAt := u64 (toUnix (Add now (freshnessTTL d))) in
        let! epoch := atomically randomID in
        match epoch with
        | None => ret tt
        | Some epoch =>
            let! responseID := atomically randomIDText in
            match responseID with
            | None => ret tt
            | Some responseID =>
                let encode := encode_participants issuedAt expiresAt requestID responseID in
                let seal index payload :=
                  sealDirectoryDatagram payload (str_bytes "participants") channelID material epoch (index + 1) expiresAt bnd in
                let fits index (count : Z) payload := bool_decide (is_Some (seal index payload)) in
                send_groups (packDirectoryRows encode fits rows) encode seal channelID requestID addr bnd
            end
        end
    end.

(** The four attempts of [storeSnapshotCursor]. *)
Fixpoint store_cursor (attempts : nat) (entry : directorySnapshotCursor) (d : directoryV3) : option (list Z) * directoryV3 :=
  match attempts with
  | O => (None, d)
  | S k =>
      match randomIDText d with
      | (None, d) => (None, d)
      | (Some cursor, d) =>
          if bool_decide (is_Some (cursors d !! cursor)) then store_cursor k entry d
          else (Some cursor, with_tables d (registrations d) (replay d) (<[cursor := entry]> (cursors d)))
      end
  end.

Definition storeSnapshotCursor (session : directorySnapshotSession) (page : Z) (d : directoryV3)
    : option (list Z) * directoryV3 :=
  let '(now, d) := read_now d in
  store_cursor 4 {| sc_session := session; sc_page := page |} (purgeLocked now d).

Definition encode_snapshot (session : directorySnapshotSession) (issuedAt expiresAt : Z) (requestID responseID : list Z)
    (page : directorySnapshotPage) (index count : Z) (speakers : list directorySpeakerRow) : option (list Z) :=
  marshal_snapshot {| sp_Version := directoryV3Version; sp_IssuedAt := issuedAt; sp_ExpiresAt := expiresAt;
    sp_RequestID := requestID; sp_Fragment := {| fr_ResponseID := responseID; fr_Index := index; fr_Count := count |};
    sp_Revision := ss_revision session; sp_Page := page;
    sp_Channels := if index =? 0 then [ss_channel session] else []; sp_Speakers := speakers |}.

Definition sendSnapshotPage (channelID : Z) (requestID : list Z) (session : directorySnapshotSession) (pageIndex : Z)
    (addr : option UDPAddr) (bnd : Z) : dhandler unit :=
  match splitDirectorySnapshotPages (ss_speakers session) with
  | OutOfFuel => ret tt
  | Stop pages =>
      match index pages pageIndex with
      | None => sendError channelID requestID INVALID_CURSOR addr bnd
      | Some pageRows =>
          let! d := gets (fun d => d) in
          match d_keys d !! channelID with
          | None => ret tt
          | Some material =>
              let more := pageIndex + 1 <? len pages in
              let! nextCursor := (if more then atomically (storeSnapshotCursor session (pageIndex + 1)) else ret None) in
              if more && negb (bool_decide (is_Some nextCursor)) then ret tt
              else
                let! now := atomically read_now in
                let issuedAt := u64 (toUnix now) in
                let expiresAt := u64 (toUnix (Add now (freshnessTTL d))) in
                let! epoch := atomically randomID in
                match epoch with
                | None => ret tt
                | Some epoch =>
                    let! responseID := atomically randomIDText in
                    match responseID with
                    | None => ret tt
                    | Some responseID =>
                        let page := {| pg_Index := pageIndex; pg_Count := len pages; pg_NextCursor := nextCursor |} in
                        let encode := encode_snapshot session issuedAt expiresAt requestID responseID page in
                        let seal index payload :=
                          sealDirectoryDatagram payload (str_bytes "snapshot") channelID material epoch (index + 1) expiresAt bnd in
                        let fits index (count : Z) payload := bool_decide (is_Some (seal index payload)) in
                        send_groups (packDirectorySnapshotRows encode fits pageRows) encode seal channelID requestID addr bnd
                    end
                end
          end
      end
  end.

Definition sendSnapshotCursor (channelID : Z) (requestID cursor : list Z) (addr : option UDPAddr) (bnd : Z) : dhandler unit :=
  let! now := atomically read_now in
  let! entry := atomically (take_cursor cursor now) in
  match entry with
  | None => sendError channelID requestID INVALID_CURSOR addr bnd
  | Some entry =>
      let! now := atomically read_now in
      if negb (After (ss_expires (sc_session entry)) now)
      then sendError channelID requestID PAGING_SESSION_EXPIRED addr bnd
      else sendSnapshotPage channelID requestID (sc_session entry) (sc_page entry) addr bnd
  end.

Definition sendSnapshot (channelID : Z) (request : directoryRequestPayload) (addr : option UDPAddr) (bnd : Z) : dhandler unit :=
  match rq_Cursor request with
  | Some cursor => sendSnapshotCursor channelID (rq_RequestID request) cursor addr bnd
  | None =>
      let! d := gets (fun d => d) in
      let speakers := resolvedSpeakers (d_metadata d) channelID in
      match md_channels (d_metadata d) !! channelID, revision (d_metadata d) channelID with
      | Some channel, Some revision =>
          match splitDirectorySnapshotPages speakers with
          | OutOfFuel => ret tt
          | Stop pages =>
              if directoryMaxSnapshotPages <? len pages
              then sendError channelID (rq_RequestID request) RESPONSE_TOO_LARGE addr bnd
              else
                let! now := atomically read_now in
                let session := {| ss_channel := channel; ss_speakers := speakers; ss_revision := revision;
                                  ss_expires := Add now (30 * Second) |} in
                sendSnapshotPage channelID (rq_RequestID request) session 0 addr bnd
          end
      | _, _ => sendError channelID (rq_RequestID request) RESPONSE_TOO_LARGE addr bnd
      end
  end.

(** [participants] is the callback into the server. *)
Variable participants : Z -> list directoryParticipantRow.

Definition serveRequest (channelID : Z) (request : directoryRequestPayload) (addr : option UDPAddr) : dhandler unit :=
  let! d := gets (fun d => d) in
  if bytes_eqb (rq_Resource request) (str_bytes "participants") then
    when (negb (bool_decide (is_Some (rq_Cursor request)))) do
      sendParticipants channelID (rq_RequestID request) (participants channelID) addr (binding (d_transport d))
  else sendSnapshot channelID request addr (binding (d_transport d)).

Definition handle (job : directoryInboundJob) : dhandler unit :=
  let! now := atomically read_now in
  let! d := gets (fun d => d) in
  match openDirectoryDatagram (j_data job) (j_binding job) (d_keys d) now with
  | None => ret tt
  | Some opened =>
      let! now := atomically read_now in
      let! request := atomically (commitInbound opened (j_addr job) now) in
      match request with
      | None => ret tt
      | Some request => serveRequest (e_ChannelID (o_envelope opened)) request (j_addr job)
      end
  end.

(** One iteration of [worker] that takes a job. *)
Definition worker : dhandler unit :=
  let! job := atomically receive_job in
  match job with
  | None => ret tt
  | Some job => handle job
  end.

Definition enqueue (data : list Z) (addr : option UDPAddr) (bnd : Z) : dhandler unit :=
  match addr with
  | None => ret tt
  | Some a =>
      let! now := atomically read_now in
      let! allowed := atomically (allowPreauthentication a now) in
      when allowed do atomically (send_job {| j_data := data; j_addr := cloneUDPAddr addr; j_binding := bnd |})
  end.

(** One datagram of [dedicatedReadLoop]. *)
Definition dedicatedRead (data : list Z) (addr : option UDPAddr) : dhandler unit :=
  if negb (acceptsUDPDatagramSize (len data)) then ret tt else enqueue data addr directoryTransportDedicated.

Definition publishParticipants : dhandler unit :=
  let! now := atomically read_now in
  let! targets := atomically (collect_registrations now) in
  for_each (range targets) (fun '(channelID, regs) =>
    let rows := participants channelID in
    for_each regs (fun target => sendParticipants channelID [] rows (dr_addr target) (dr_binding target))).

(** One tick of [cleanupLoop]: the clock is read under the lock. *)
Definition directory_cleanup : dhandler unit :=
  atomically (fun d => let '(now, d) := read_now d in (tt, purgeLocked now d)).
End handlers.

(** ** Concrete inputs: an instance of every interface *)

#[refine] Definition merge_sort_order : SliceSort :=
  {| sort_Slice := fun A key l => @merge_sort A (fun x y => key x <= key y) (fun x y => Z_le_dec (key x) (key y)) l |}.
Proof.
  - intros. apply merge_sort_Permutation.
  - intros. assert (StronglySorted (fun x y => key x <= key y) (@merge_sort A (fun x y => key x <= key y) (fun x y => Z_le_dec (key x) (key y)) l)) as Hs.
    { apply StronglySorted_merge_sort; intros ?; intros; lia. }
    induction Hs as [|x k _ IH Hf]; cbn; constructor; [done|]. by apply Forall_fmap.
Defined.

(** A clock of one reading per second and a generator of counters. *)
#[refine] Definition counting_environment : DirectoryEnvironment :=
  {| now_at := fun n => Unix (1700000001 + Z.of_nat n); random_at := fun n => Some (put_be 16 (Z.of_nat n)) |}.
Proof. intros n v E. apply (inj Some) in E. subst v. split; [apply bytes_ok_put_be|apply length_put_be]. Defined.

(** Payloads of one byte per row, and of 600 bytes per speaker. *)
Definition toy_payload_json : DirectoryPayloadJSON :=
  {| marshal_participants := fun p => Some (zeros (100 + 150 * length (pp_Participants p)));
     marshal_snapshot := fun p => Some (zeros (200 + 300 * length (sp_Speakers p)));
     marshal_error := fun p => Some (ep_Code p);
     marshal_revision := fun _ speakers => zeros (length speakers) |}.
