(* ===== verification/Steps.v ===== *)
(** * The server as a transition system

    One transition per critical section.  The goroutines of the server (the
    receive loop, the cleanup ticker, the private control link) interleave at the
    granularity of these sections, so a property of every reachable state holds
    under every interleaving; each handler is shown to be a run of transitions. *)

From S2P Require Import Prelude GoTime GoNet Packet Replay ControlAuth Identity Service Diagnostics Server Membership Send Floor Relay.

(** The parts of the configuration a transition outside the channels keeps. *)
Definition same_auth (a b : option controlAuthState) : Prop :=
  match a, b with
  | None, None => True
  | Some a, Some b => policy a = policy b /\ keys a = keys b /\ cookieSecret a = cookieSecret b
  | _, _ => False
  end.

Definition same_identity (a b : option identityAdmissionState) : Prop :=
  match a, b with
  | None, None => True
  | Some a, Some b => id_mode a = id_mode b /\ id_issuer a = id_issuer b /\ id_audience a = id_audience b /\ id_keys a = id_keys b
  | _, _ => False
  end.

Definition same_service (a b : option serviceAdmissionState) : Prop :=
  match a, b with
  | None, None => True
  | Some a, Some b => sv_issuer a = sv_issuer b /\ sv_audience a = sv_audience b /\ sv_keys a = sv_keys b
  | _, _ => False
  end.

(** All three are equivalences. *)
#[export] Instance same_auth_equivalence : Equivalence same_auth.
Proof. split; [by intros []|by intros [] []; naive_solver|]. intros [] [] []; simpl; naive_solver congruence. Qed.
#[export] Instance same_identity_equivalence : Equivalence same_identity.
Proof. split; [by intros []|by intros [] []; naive_solver|]. intros [] [] []; simpl; naive_solver congruence. Qed.
#[export] Instance same_service_equivalence : Equivalence same_service.
Proof. split; [by intros []|by intros [] []; naive_solver|]. intros [] [] []; simpl; naive_solver congruence. Qed.

Lemma allowed_same oa channelID ad now : same_service oa (admissionAllowedForMembership oa channelID ad now).2.
Proof. unfold admissionAllowedForMembership. destruct oa; [|done]. by repeat case_match. Qed.

Lemma activeDenyRules_same `{RangeOrder} oa now rules ob : activeDenyRules oa now = (rules, ob) -> same_service oa ob.
Proof. unfold activeDenyRules. destruct oa; intros [= _ <-]; done. Qed.

Lemma installRevocation_same oa target until now : same_service oa (installRevocation oa target until now).2.
Proof. unfold installRevocation. destruct oa; [|done]. by repeat case_match; simplify_eq. Qed.

Lemma same_identity_required a b : same_identity a b -> identity_isRequired b = identity_isRequired a.
Proof. destruct a, b; simpl; try done. by intros (-> & _). Qed.

Inductive server_step `{RangeOrder} (P : Z -> Prop) (s : server) : server -> Prop :=
| step_sides sz ca ia sa dg sq :
    same_auth (controlAuth s) ca -> same_identity (identityAdmissions s) ia -> same_service (serviceAdmissions s) sa ->
    server_step P s (with_sides s sz ca ia sa dg sq)
| step_join channelId senderId addr now :
    P channelId -> senderId <> 0 -> server_step P s (joinPeer channelId senderId (Some addr) now s)
| step_authenticated_join channelId senderId addr meta replay now :
    P channelId -> senderId <> 0 ->
    server_step P s (upsertAuthenticatedPeerWithReplay channelId senderId (Some addr) meta replay now s)
| step_touch channelId senderId addr now :
    P channelId -> server_step P s (touchKnownPeer channelId senderId addr now s).2
| step_accept_plain channelId senderId addr now :
    P channelId -> server_step P s (acceptUnauthenticatedPeerControl channelId senderId addr now s).2
| step_start channelId senderId addr now :
    P channelId -> server_step P s (startMembership channelId senderId addr now s).2
| step_refresh channelId senderId addr now :
    P channelId -> server_step P s (refreshMembership channelId senderId addr now s).2
| step_identity channelId senderId addr ad :
    P channelId -> server_step P s (setPeerIdentityAdmission channelId senderId addr ad s).2
| step_service channelId senderId addr ad now :
    P channelId -> server_step P s (setPeerServiceAdmission channelId senderId addr ad now s).2
| step_accept_auth pkt addr meta now :
    P (ChannelId (Header pkt)) -> server_step P s (acceptAuthenticatedPeerControl pkt addr meta now s).2
| step_codec channelId senderId payload keyID auth :
    P channelId -> server_step P s (cacheCodecConfig channelId senderId payload keyID auth s).2
| step_remove channelId senderId addr :
    P channelId -> server_step P s (removePeer channelId senderId addr s)
| step_ptt_on channelId senderId now :
    P channelId -> server_step P s (pttOn_section channelId senderId now s).2
| step_release channelId senderId :
    P channelId -> server_step P s (release_section channelId senderId s).2
| step_ptt_request channelId senderId addr now :
    P channelId -> server_step P s (pttRequest_section channelId senderId addr now s).2
| step_expire_talk channelId now :
    P channelId -> server_step P s (expireTalkIfNeeded channelId now s).2
| step_expire_membership channelId now :
    P channelId -> server_step P s (expireMembershipIfNeeded channelId now s).2
| step_cleanup now : (forall channelId, P channelId) -> server_step P s (cleanup_section now s).2
| step_revoke target : P (rt_channelID target) -> server_step P s (revoke_section target s).2.

(** ** The invariant *)

(** A peer is registered under its endpoint, has a sender ID, and is admitted by
    an identity or by a service, not by both. *)
Definition peer_ok (k : string) (p : peer) : Prop :=
  k = peerMapKey (Some (p_addr p)) /\ p_senderId p <> 0 /\
  (p_identityAdmission p = None \/ p_serviceAdmission p = None).

(** A cached codec configuration is what its sender announced, and an AES-GCM v2
    one was announced under Control Authentication. *)
Definition codec_ok (s : server) (channelId : Z) (ch : channel) (senderId : Z) (c : codecConfigState) : Prop :=
  len (cc_payload c) = 19 /\ cc_mediaNonceBase c = sub (cc_payload c) 7 12 /\ cc_mediaKeyID c = 2 /\
  codecConfigs ch !! senderId = Some (cc_payload c) /\
  (cc_mediaNonceBase c <> zeros 12 ->
   cc_controlKeyID c <> 0 /\ server_controlAuthRequired s channelId = true) /\
  (cc_mediaNonceBase c = zeros 12 -> requiresAESGCMV2MediaProfile s = false).

Record channel_ok (s : server) (channelId : Z) (ch : channel) : Prop := {
  ok_nonempty : peers ch <> ∅;
  ok_peers : map_Forall peer_ok (peers ch);
  ok_talkers : activeCount ch <= talkerLimit s;
  ok_codecs : map_Forall (codec_ok s channelId ch) (mediaCodecConfigs ch)
}.

Definition server_ok (s : server) : Prop := map_Forall (channel_ok s) (channels s).

(** ** Preservation: the shared cases *)

(** What [server_ok] reads outside the channels. *)
Definition same_config (s s' : server) : Prop :=
  multiTalk s' = multiTalk s /\ maxActiveTalkers s' = maxActiveTalkers s /\
  talkMax s' = talkMax s /\ noCrypto s' = noCrypto s /\ floorInterrupt s' = floorInterrupt s /\
  same_auth (controlAuth s) (controlAuth s') /\ same_identity (identityAdmissions s) (identityAdmissions s') /\
  same_service (serviceAdmissions s) (serviceAdmissions s') /\ membershipLease s' = membershipLease s /\
  keepaliveInterval s' = keepaliveInterval s.

Lemma same_auth_refl a : same_auth a a.
Proof. reflexivity. Qed.
Lemma same_identity_refl a : same_identity a a.
Proof. reflexivity. Qed.
Lemma same_service_refl a : same_service a a.
Proof. reflexivity. Qed.
#[export] Hint Resolve same_auth_refl same_identity_refl same_service_refl : effects.

#[export] Instance same_config_preorder : PreOrder same_config.
Proof.
  split.
  - intros s. unfold same_config. auto 15 with effects.
  - intros s1 s2 s3 (A1 & A2 & A3 & A4 & A5 & A6 & A7 & A8 & A9 & A10) (B1 & B2 & B3 & B4 & B5 & B6 & B7 & B8 & B9 & B10).
    split_and!; try congruence; by etrans.
Qed.

Lemma same_auth_requires a b channelID : same_auth a b -> requires b channelID = requires a channelID.
Proof. destruct a as [a|], b as [b|]; simpl; try done. by intros (-> & -> & _). Qed.

Lemma same_config_channel_ok s s' channelId ch :
  same_config s s' -> channel_ok s channelId ch -> channel_ok s' channelId ch.
Proof.
  intros (E1 & E2 & _ & _ & _ & Ea & _) [Hn Hp Ht Hc]. split; [done|done| |].
  - unfold talkerLimit in *. by rewrite E1, E2.
  - intros k c Hk. destruct (Hc k c Hk) as (C1 & C2 & C3 & C4 & C5 & C6). split_and!; try done.
    + intros Hb. destruct (C5 Hb). split; [done|]. unfold server_controlAuthRequired in *.
      by rewrite (same_auth_requires _ _ _ Ea).
    + intros Hb. specialize (C6 Hb). unfold requiresAESGCMV2MediaProfile in *.
      destruct (controlAuth s), (controlAuth s'); simpl in Ea; try done. by destruct Ea as [<- _].
Qed.

Lemma same_config_channels s chs : same_config s (with_channels s chs).
Proof. unfold same_config. simpl. auto 15 with effects. Qed.

(** Replacing the channels: each new channel must be fine for the old server. *)
Lemma with_channels_ok s chs : map_Forall (channel_ok s) chs -> server_ok (with_channels s chs).
Proof.
  intros H k ch Hk. eapply same_config_channel_ok; [apply same_config_channels|]. by apply H.
Qed.

Lemma insert_channel_ok s channelId ch :
  server_ok s -> channel_ok s channelId ch -> server_ok (with_channels s (<[channelId := ch]> (channels s))).
Proof. intros Hs Hc. by apply with_channels_ok, map_Forall_insert_2. Qed.

Lemma put_peer_ok s channelId key p :
  server_ok s -> peer_ok key p -> server_ok (put_peer channelId key p s).
Proof.
  intros Hs Hp. apply with_channels_ok. intros k ch Hk.
  apply lookup_alter_Some in Hk as [(<- & ch0 & Hch & ->)|[_ Hk]]; [|by apply Hs].
  destruct (Hs _ _ Hch) as [Hn Hps Ht Hc]. split; simpl; [|by apply map_Forall_insert_2|done|done].
  apply insert_non_empty.
Qed.

Lemma lookup_peer_ok s channelId addr p :
  server_ok s -> lookup_peer s channelId addr = Some p -> peer_ok (peerMapKey addr) p.
Proof.
  intros Hs. unfold lookup_peer. destruct addr as [a|]; [|done].
  intros (ch & Hch & Hp)%bind_Some. by eapply (ok_peers _ _ _ (Hs _ _ Hch)).
Qed.

Lemma member_lookup s channelId senderId addr p :
  member s channelId senderId addr = Some p ->
  lookup_peer s channelId addr = Some p /\ p_senderId p = senderId.
Proof.
  unfold member. intros (q & Hq & E)%bind_Some. case_match; [|done]. gobool. by simplify_eq.
Qed.

Lemma member_ok s channelId senderId addr p :
  server_ok s -> member s channelId senderId addr = Some p -> peer_ok (peerMapKey addr) p.
Proof. intros Hs [Hp _]%member_lookup. by eapply lookup_peer_ok. Qed.

(** A channel that only lost entries. *)
Definition shrunk (ch ch' : channel) : Prop :=
  peers ch' ⊆ peers ch /\ dom (activeTalkers ch') ⊆ dom (activeTalkers ch) /\
  (forall k c, mediaCodecConfigs ch' !! k = Some c ->
    mediaCodecConfigs ch !! k = Some c /\ codecConfigs ch' !! k = codecConfigs ch !! k).

#[export] Instance shrunk_preorder : PreOrder shrunk.
Proof.
  split; [intros ch; split_and!; auto|].
  intros c1 c2 c3 (P1 & T1 & M1) (P2 & T2 & M2). split_and!; [by etrans|by etrans|].
  intros k c Hk. destruct (M2 k c Hk) as [Hk2 E2]. destruct (M1 k c Hk2) as [Hk1 E1]. split; congruence.
Qed.

Lemma dom_size_le {A B} (m : gmap Z A) (m' : gmap Z B) : dom m' ⊆ dom m -> (size m' <= size m)%nat.
Proof. intros H. rewrite <- !size_dom. by apply subseteq_size. Qed.

Lemma shrunk_ok s channelId ch ch' :
  channel_ok s channelId ch -> shrunk ch ch' -> peers ch' <> ∅ -> channel_ok s channelId ch'.
Proof.
  intros [Hn Hp Ht Hc] (Sp & St & Sc) Hne. split; [done| | |].
  - intros k p Hk. apply Hp. by eapply lookup_weaken.
  - unfold activeCount in *. apply dom_size_le in St. lia.
  - intros k c Hk. destruct (Sc k c Hk) as [Hk' E].
    destruct (Hc k c Hk') as (C1 & C2 & C3 & C4 & C5 & C6). split_and!; try done. by rewrite E.
Qed.

(** Storing a channel that lost entries, or dropping it when no peer is left. *)
Lemma store_channel_ok s channelId ch ch' :
  server_ok s -> channels s !! channelId = Some ch -> shrunk ch ch' ->
  server_ok (store_channel channelId ch' s).
Proof.
  intros Hs Hch Hsh. unfold store_channel. destruct (size (peers ch') =? 0)%nat eqn:E.
  - apply with_channels_ok. by apply map_Forall_delete.
  - apply insert_channel_ok; [done|]. eapply shrunk_ok; [by apply Hs|done|].
    intros E0. rewrite E0, map_size_empty in E. done.
Qed.

(** ** Preservation: the expiry loops *)

(** An invariant of a loop body over a list is an invariant of the loop. *)
Lemma fold_invariant {A B} (f : A -> B -> A) (P : A -> Prop) (l : list B) a :
  P a -> (forall a b, b ∈ l -> P a -> P (f a b)) -> P (fold_left f l a).
Proof.
  revert a. induction l as [|b l IH]; intros a Ha Hf; [done|]. simpl. apply IH.
  - apply Hf; [by left|done].
  - intros a' b' Hb. apply Hf. by right.
Qed.

Lemma dropPeer_shrunk ch key senderId : shrunk ch (dropPeer ch key senderId).1.
Proof.
  split_and!; simpl; [apply delete_subseteq|rewrite dom_delete; set_solver|].
  intros k c [Hne Hk]%lookup_delete_Some. split; [done|]. by rewrite lookup_delete_ne.
Qed.

Lemma expirePeer_shrunk now acc e : shrunk acc.1 (expirePeer now acc e).1.
Proof.
  destruct acc as [ch rel], e as [k p]. simpl. destruct (membershipExpired p now); [|done].
  apply dropPeer_shrunk.
Qed.

Section loops.
Context `{RangeOrder}.

Lemma elem_of_range {K} `{Countable K} {A} (m : gmap K A) kv : kv ∈ range m <-> m !! kv.1 = Some kv.2.
Proof. rewrite (range_perm m). destruct kv. apply elem_of_map_to_list. Qed.

Lemma expirePeers_shrunk now ch : shrunk ch (expirePeers now ch).1.
Proof.
  unfold expirePeers. apply (fold_invariant _ (fun acc => shrunk ch acc.1)); [done|].
  intros acc e _ Hacc. etrans; [exact Hacc|apply expirePeer_shrunk].
Qed.

Lemma expireTalkers_dom limit now ts : dom (expireTalkers limit now ts).1 ⊆ dom ts.
Proof.
  unfold expireTalkers. apply (fold_invariant _ (fun acc : gmap Z time * list Z => dom acc.1 ⊆ dom ts)); [done|].
  intros [m rel] [k t] Hin Hm. apply elem_of_range in Hin. simpl in *.
  assert (k ∈ dom ts) by by apply elem_of_dom.
  destruct (IsZero t); [simpl; rewrite dom_insert_L; set_solver|].
  destruct (_ <? _); [done|]. simpl. rewrite dom_delete_L. set_solver.
Qed.

Lemma with_talkers_shrunk ch ts : dom ts ⊆ dom (activeTalkers ch) -> shrunk ch (with_talkers ch ts).
Proof. intros Hd. split_and!; simpl; auto. Qed.

Lemma cleanupChannel_shrunk limit now channelId ch : shrunk ch (cleanupChannel limit now channelId ch).1.1.
Proof.
  unfold cleanupChannel. pose proof (expirePeers_shrunk now ch) as Hp.
  destruct (expirePeers now ch) as [ch1 expired]. simpl in Hp.
  destruct (0 <? limit).
  - pose proof (expireTalkers_dom limit now (activeTalkers ch1)) as Hd.
    destruct (expireTalkers limit now (activeTalkers ch1)) as [ts timedOut]. simpl in *.
    etrans; [exact Hp|by apply with_talkers_shrunk].
  - simpl. etrans; [exact Hp|by apply with_talkers_shrunk].
Qed.

Lemma revokePeer_shrunk target acc e : shrunk acc.1 (revokePeer target acc e).1.
Proof.
  destruct acc as [ch rev], e as [k p]. simpl. destruct (p_serviceAdmission p); [|done].
  destruct (negb _); [done|]. apply dropPeer_shrunk.
Qed.

Lemma store_channel_lookup channelId ch s k :
  k <> channelId -> channels (store_channel channelId ch s) !! k = channels s !! k.
Proof.
  intros Hne. unfold store_channel. destruct (_ =? _)%nat; simpl.
  - by rewrite lookup_delete_ne.
  - by rewrite lookup_insert_ne.
Qed.

Lemma store_channel_config channelId ch s : same_config s (store_channel channelId ch s).
Proof. unfold store_channel. destruct (_ =? _)%nat; apply same_config_channels. Qed.

(** The channels a cleanup pass has yet to visit are as they were. *)
Lemma cleanup_ok now s : server_ok s -> server_ok (cleanup_section now s).2.
Proof.
  intros Hs. unfold cleanup_section.
  assert (forall l acc, NoDup (l.*1) -> server_ok acc.1.1 ->
    (forall k ch, (k, ch) ∈ l -> channels acc.1.1 !! k = Some ch) ->
    server_ok (fold_left (cleanup_step now) l acc).1.1) as Hfold.
  { intros l. induction l as [|[k ch] l IH]; intros [[s1 rels] deps] Hnd Hok Hl; [done|].
    simpl in Hnd. apply NoDup_cons in Hnd as [Hni Hnd]. simpl in Hok, Hl. cbn [fold_left].
    pose proof (cleanupChannel_shrunk (talkMax s1) now k ch) as Hsh. unfold cleanup_step at 2.
    destruct (cleanupChannel (talkMax s1) now k ch) as [[ch' r] d]. simpl in Hsh.
    apply IH; [done| |]; simpl.
    - eapply store_channel_ok; [done| |done]. apply Hl. by left.
    - intros k' ch1 Hin. rewrite store_channel_lookup; [apply Hl; by right|].
      intros ->. apply Hni. by apply (list_elem_of_fmap_2 fst _ (k, ch1)). }
  specialize (Hfold (range (channels s)) (s, [], [])).
  destruct (fold_left _ _ _) as [[s' rels] deps]. simpl in *. apply Hfold; [|done|].
  - rewrite (range_perm (channels s)). apply NoDup_fst_map_to_list.
  - intros k ch Hin. by apply elem_of_range in Hin.
Qed.
End loops.

(** ** Preservation: every transition *)

Section preservation.
Context `{RangeOrder}.

Lemma victim_step_elem ch now l acc :
  (fold_left (victim_step ch now) l acc).1 ∈ acc.1 :: l.
Proof.
  revert acc. induction l as [|k l IH]; intros [v p]; [by left|]. cbn [fold_left].
  specialize (IH (victim_step ch now (v, p) k)). simpl in *.
  destruct (_ || _); simpl in IH; set_solver.
Qed.

(** The victim is a talker. *)
Lemma selectVictim_talker ch now :
  (selectVictim ch now).1 <> 0 -> is_Some (activeTalkers ch !! (selectVictim ch now).1).
Proof.
  intros Hne. unfold selectVictim in *.
  pose proof (victim_step_elem ch now (fst <$> range (activeTalkers ch)) (0, 0xff)) as Hin.
  apply elem_of_cons in Hin as [E|Hin]; [done|].
  apply list_elem_of_fmap in Hin as ([k t] & -> & Hin). apply elem_of_range in Hin. by exists t.
Qed.

Lemma put_talkers_ok s channelId ch ts :
  server_ok s -> channels s !! channelId = Some ch -> Z.of_nat (size ts) <= talkerLimit s ->
  server_ok (put_talkers channelId ch ts s).
Proof.
  intros Hs Hch Hsize. apply insert_channel_ok; [done|].
  destruct (Hs _ _ Hch) as [Hn Hp Ht Hc]. by split.
Qed.

Lemma getOrCreate_insert_ok s channelId ch' :
  server_ok s -> channel_ok s channelId ch' ->
  server_ok (with_channels (getOrCreateChannel channelId s).2
    (<[channelId := ch']> (channels (getOrCreateChannel channelId s).2))).
Proof.
  intros Hs Hc. unfold getOrCreateChannel. destruct (channels s !! channelId) eqn:E.
  - by apply insert_channel_ok.
  - simpl. rewrite insert_insert_eq. by apply (insert_channel_ok s).
Qed.

Lemma alter_lookup_insert {A} (f : A -> A) (m : gmap Z A) k x :
  m !! k = Some x -> alter f k m = <[k := f x]> m.
Proof.
  intros E. rewrite <- (insert_id m k x E) at 1. by rewrite alter_insert_eq.
Qed.

(** The channel a JOIN writes its peer into. *)
Lemma joined_channel_ok s channelId key p :
  server_ok s -> peer_ok key p ->
  let ch := (getOrCreateChannel channelId s).1 in
  channel_ok s channelId (with_peers ch (<[key := p]> (peers ch))).
Proof.
  intros Hs Hp. unfold getOrCreateChannel. destruct (channels s !! channelId) as [ch|] eqn:E; simpl.
  - destruct (Hs _ _ E) as [Hn Hps Ht Hc]. split; simpl; [apply insert_non_empty|by apply map_Forall_insert_2|done|done].
  - split; simpl; [apply insert_non_empty|apply map_Forall_insert_2; [done|apply map_Forall_empty]| |apply map_Forall_empty].
    unfold activeCount, talkerLimit. change (size (activeTalkers _)) with 0%nat.
    destruct (multiTalk s); [|by vm_compute]. destruct (maxActiveTalkers s <? 1) eqn:El; gobool; lia.
Qed.

(** The admissions of a rebound peer are those it had. *)
Lemma rebound_peer s channelId (a : UDPAddr) :
  server_ok s ->
  let p := default (new_peer a) (peers (getOrCreateChannel channelId s).1 !! peerMapKey (Some a)) in
  p_identityAdmission p = None \/ p_serviceAdmission p = None.
Proof.
  intros Hs. unfold getOrCreateChannel. cbn zeta.
  destruct (channels s !! channelId) as [ch|] eqn:E; cbn [fst]; [|by left].
  destruct (peers ch !! peerMapKey (Some a)) as [q|] eqn:Hq; [|by left].
  pose proof (ok_peers _ _ _ (Hs _ _ E) _ _ Hq) as (_ & _ & Hadm). exact Hadm.
Qed.

Lemma joinPeer_ok s channelId senderId a now :
  server_ok s -> senderId <> 0 -> server_ok (joinPeer channelId senderId (Some a) now s).
Proof.
  intros Hs Hne. unfold joinPeer. destruct (getOrCreateChannel channelId s) as [ch s1] eqn:E.
  change s1 with (ch, s1).2. rewrite <- E. apply getOrCreate_insert_ok; [done|].
  unfold upsertPeer. change ch with (ch, s1).1. rewrite <- E. apply joined_channel_ok; [done|].
  split_and!; [done|done|]. by apply rebound_peer.
Qed.

Lemma authenticated_join_ok s channelId senderId a meta w now :
  server_ok s -> senderId <> 0 ->
  server_ok (upsertAuthenticatedPeerWithReplay channelId senderId (Some a) meta w now s).
Proof.
  intros Hs Hne. unfold upsertAuthenticatedPeerWithReplay.
  assert (peer_ok (peerMapKey (Some a)) (set_control (set_endpoint
    (default (new_peer a) (peers (getOrCreateChannel channelId s).1 !! peerMapKey (Some a))) senderId a now)
    true (m_sessionID meta) (m_keyID meta) w)) as Hp.
  { split_and!; [done|done|]. by apply rebound_peer. }
  pose proof (getOrCreate_insert_ok s channelId _ Hs (joined_channel_ok s channelId _ _ Hs Hp)) as Hj.
  unfold getOrCreateChannel, put_peer in *. destruct (channels s !! channelId) as [ch|] eqn:E; cbn [fst snd] in *.
  - erewrite alter_lookup_insert; [exact Hj|exact E].
  - cbn [with_channels channels] in *. rewrite alter_insert_eq. rewrite insert_insert_eq in Hj. exact Hj.
Qed.

Lemma removePeer_ok s channelId senderId addr : server_ok s -> server_ok (removePeer channelId senderId addr s).
Proof.
  intros Hs. unfold removePeer. destruct (channels s !! channelId) as [ch|] eqn:E; [|done].
  eapply store_channel_ok; [done|done|].
  destruct (removedKey ch senderId addr) as [k|]; [|done].
  assert (shrunk ch (with_peers ch (delete k (peers ch)))) as Hd.
  { split_and!; simpl; auto. apply delete_subseteq. }
  destruct (senderId =? 0); [done|]. etrans; [exact Hd|]. split_and!; simpl; auto.
  intros k' c [Hne Hk]%lookup_delete_Some. split; [done|]. by rewrite lookup_delete_ne.
Qed.

Lemma pttRequest_ok s channelId senderId addr now :
  server_ok s -> server_ok (pttRequest_section channelId senderId addr now s).2.
Proof.
  intros Hs. unfold pttRequest_section.
  destruct (channels s !! channelId) as [ch|] eqn:E; [|by destruct addr].
  destruct addr as [a|]; [|done]. destruct (peers ch !! _) as [p|]; [|done].
  destruct (_ || _); [done|]. case_bool_decide as Hact; [done|].
  pose proof (ok_talkers _ _ _ (Hs _ _ E)) as Hlim. unfold activeCount in *.
  destruct (_ <? talkerLimit s) eqn:Hroom.
  - apply put_talkers_ok; [done|done|]. gobool. rewrite map_size_insert_None by by apply eq_None_not_Some. lia.
  - destruct (selectVictim ch now) as [v vp] eqn:Hv. destruct (_ || _) eqn:Hg; [done|]. gobool.
    apply put_talkers_ok; [done|done|].
    assert (is_Some (activeTalkers ch !! v)) as Hin.
    { pose proof (selectVictim_talker ch now) as Hsv. rewrite Hv in Hsv. by apply Hsv. }
    pose proof (map_size_delete_Some v (activeTalkers ch) Hin) as Hd.
    pose proof (map_size_ne_0_lookup_2 _ _ Hin) as Hne.
    pose proof (size_insert_bound (delete v (activeTalkers ch)) senderId now (size (activeTalkers ch))). lia.
Qed.
End preservation.

(** ** Preservation: the sections, one by one *)

Section sections.
Context `{RangeOrder}.
Context (s : server) (Hs : server_ok s).

Lemma with_sides_ok sz ca ia sa dg sq :
  same_auth (controlAuth s) ca -> same_identity (identityAdmissions s) ia -> same_service (serviceAdmissions s) sa ->
  server_ok (with_sides s sz ca ia sa dg sq).
Proof.
  intros ??? k ch Hk. eapply same_config_channel_ok; [|by apply Hs].
  unfold same_config. simpl. auto 15 with effects.
Qed.

Lemma knownPeerKey_lookup ch a key p : knownPeerKey ch a = Some (key, p) -> peers ch !! key = Some p.
Proof.
  unfold knownPeerKey. destruct (peers ch !! _) eqn:El; intros Ek; [by simplify_eq|].
  apply fmap_Some in Ek as ([i kp] & Hf & E1). apply list_find_Some in Hf as (Hl & _).
  apply list_elem_of_lookup_2, elem_of_range in Hl. simpl in E1. by subst kp.
Qed.

Lemma touchKnownPeer_ok channelId senderId addr now : server_ok (touchKnownPeer channelId senderId addr now s).2.
Proof.
  unfold touchKnownPeer. destruct addr as [a|]; [|done]. destruct (_ =? 0); [done|].
  destruct (channels s !! channelId) as [ch|] eqn:E; [|done].
  destruct (knownPeerKey ch a) as [[key p]|] eqn:Ek; [|done]. destruct (negb _); [done|].
  apply put_peer_ok; [done|]. exact (ok_peers _ _ _ (Hs _ _ E) _ _ (knownPeerKey_lookup _ _ _ _ Ek)).
Qed.

(** Writing back a member whose endpoint, sender and admissions are unchanged. *)
Lemma put_member_ok channelId senderId addr p q :
  member s channelId senderId addr = Some p ->
  p_addr q = p_addr p -> p_senderId q = p_senderId p ->
  (p_identityAdmission q = None \/ p_serviceAdmission q = None) ->
  server_ok (put_peer channelId (peerMapKey addr) q s).
Proof.
  intros E Ea Es Had. apply put_peer_ok; [done|].
  destruct (member_ok _ _ _ _ _ Hs E) as (Hk & Hn & _). split_and!; [by rewrite Ea|by rewrite Es|done].
Qed.

Lemma member_admissions channelId senderId addr p :
  member s channelId senderId addr = Some p -> p_identityAdmission p = None \/ p_serviceAdmission p = None.
Proof. intros E. by destruct (member_ok _ _ _ _ _ Hs E) as (_ & _ & ?). Qed.

Ltac member_section p E :=
  destruct (member _ _ _ _) as [p|] eqn:E; [|done];
  pose proof (member_admissions _ _ _ _ E).

Lemma acceptUnauthenticatedPeerControl_ok channelId senderId addr now :
  server_ok (acceptUnauthenticatedPeerControl channelId senderId addr now s).2.
Proof.
  unfold acceptUnauthenticatedPeerControl. destruct (_ =? 0); [done|]. member_section p E.
  by eapply put_member_ok.
Qed.

Lemma startMembership_ok channelId senderId addr now : server_ok (startMembership channelId senderId addr now s).2.
Proof.
  unfold startMembership. destruct (_ =? 0); [done|]. member_section p E. by eapply put_member_ok.
Qed.

Lemma refreshMembership_ok channelId senderId addr now : server_ok (refreshMembership channelId senderId addr now s).2.
Proof.
  unfold refreshMembership. destruct (_ =? 0); [done|]. member_section p E.
  destruct (_ || _); [done|]. by eapply put_member_ok.
Qed.

Lemma setPeerIdentityAdmission_ok channelId senderId addr ad :
  server_ok (setPeerIdentityAdmission channelId senderId addr ad s).2.
Proof.
  unfold setPeerIdentityAdmission. member_section p E. destruct (p_serviceAdmission p); [done|].
  eapply put_member_ok; [done..|by right].
Qed.

Lemma acceptAuthenticatedPeerControl_ok pkt addr meta now :
  server_ok (acceptAuthenticatedPeerControl pkt addr meta now s).2.
Proof.
  unfold acceptAuthenticatedPeerControl. destruct (lookup_peer _ _ _) as [p|] eqn:E; [|done].
  destruct (_ || _); [done|]. destruct (acceptReplayCounter _ _) as [[|] w]; [|done].
  apply put_peer_ok; [done|]. exact (lookup_peer_ok _ _ _ _ Hs E).
Qed.

Lemma cacheCodecConfig_ok channelId senderId payload keyID auth :
  server_ok (cacheCodecConfig channelId senderId payload keyID auth s).2.
Proof.
  unfold cacheCodecConfig. destruct (codecConfigAllowed _ _ _ _ _) eqn:Hg; [|done]. cbn [negb].
  destruct (channels s !! channelId) as [ch|] eqn:E; [|done]. apply insert_channel_ok; [done|].
  destruct (Hs _ _ E) as [Hn Hp Ht Hc]. split; simpl; [done..|].
  intros k c [[<- <-]|[Hne Hk]]%lookup_insert_Some.
  - unfold codecConfigAllowed in Hg. destruct (len payload =? 19) eqn:Hl; [|done]. gobool.
    cbn [negb] in Hg. unfold codec_ok; cbn [cc_payload cc_mediaNonceBase cc_mediaKeyID cc_controlKeyID codecConfigs with_codecs].
    rewrite lookup_insert_eq. unfold bytes_eqb in Hg. case_bool_decide as Hz; cbn [negb] in Hg.
    + split_and!; try done. intros _. by destruct (requiresAESGCMV2MediaProfile s).
    + gobool. by split_and!.
  - destruct (Hc k c Hk) as (C1 & C2 & C3 & C4 & C5). unfold codec_ok. simpl.
    rewrite lookup_insert_ne by done. done.
Qed.

Lemma pttOn_ok channelId senderId now : server_ok (pttOn_section channelId senderId now s).2.
Proof.
  unfold pttOn_section. destruct (channels s !! channelId) as [ch|] eqn:E; [|done].
  case_bool_decide as Hact; [done|]. destruct (_ <? _) eqn:Hroom; [|done]. gobool.
  apply put_talkers_ok; [done|done|]. unfold activeCount in *.
  rewrite map_size_insert_None by by apply eq_None_not_Some. lia.
Qed.

Lemma release_ok channelId senderId : server_ok (release_section channelId senderId s).2.
Proof.
  unfold release_section. destruct (channels s !! channelId) as [ch|] eqn:E; [|done].
  case_bool_decide; [|done]. apply put_talkers_ok; [done|done|].
  pose proof (ok_talkers _ _ _ (Hs _ _ E)). unfold activeCount in *.
  pose proof (size_delete_le (activeTalkers ch) senderId). lia.
Qed.

Lemma expireTalkIfNeeded_ok channelId now : server_ok (expireTalkIfNeeded channelId now s).2.
Proof.
  unfold expireTalkIfNeeded. destruct (_ <=? 0); [done|].
  destruct (channels s !! channelId) as [ch|] eqn:E; [|done]. destruct (_ =? 0)%nat; [done|].
  pose proof (expireTalkers_dom (talkMax s) now (activeTalkers ch)) as Hd.
  destruct (expireTalkers _ _ _) as [ts rel]. apply put_talkers_ok; [done|done|].
  pose proof (ok_talkers _ _ _ (Hs _ _ E)). unfold activeCount in *. apply dom_size_le in Hd. simpl in *. lia.
Qed.

Lemma expireMembershipIfNeeded_ok channelId now : server_ok (expireMembershipIfNeeded channelId now s).2.
Proof.
  unfold expireMembershipIfNeeded. destruct (channels s !! channelId) as [ch|] eqn:E; [|done].
  pose proof (expirePeers_shrunk now ch) as Hd. destruct (expirePeers now ch) as [ch' rel].
  by eapply store_channel_ok.
Qed.

Lemma revoke_ok target : server_ok (revoke_section target s).2.
Proof.
  unfold revoke_section. destruct (channels s !! _) as [ch|] eqn:E; [|done].
  assert (shrunk ch (fold_left (revokePeer target) (range (peers ch)) (ch, [])).1) as Hd.
  { apply (fold_invariant _ (fun acc => shrunk ch acc.1)); [done|].
    intros acc e _ Hacc. etrans; [exact Hacc|apply revokePeer_shrunk]. }
  destruct (fold_left _ _ _) as [ch' rev]. by eapply store_channel_ok.
Qed.
End sections.

Lemma setPeerServiceAdmission_ok s channelId senderId addr ad now :
  server_ok s -> server_ok (setPeerServiceAdmission channelId senderId addr ad now s).2.
Proof.
  intros Hs. unfold setPeerServiceAdmission. destruct addr as [a|]; [|done].
  pose proof (allowed_same (serviceAdmissions s) channelId ad now) as Hsame. destruct (admissionAllowedForMembership _ _ _ _) as [allowed sv].
  assert (server_ok (with_service s sv)) as Hs1 by (apply with_sides_ok; auto with effects).
  destruct (negb allowed); [done|]. destruct (member _ _ _ _) as [p|] eqn:E; [|done].
  destruct (p_identityAdmission p); [done|]. eapply put_member_ok; [done..|by left].
Qed.

Create HintDb invariant.
#[export] Hint Resolve with_sides_ok joinPeer_ok authenticated_join_ok touchKnownPeer_ok
  acceptUnauthenticatedPeerControl_ok startMembership_ok refreshMembership_ok setPeerIdentityAdmission_ok
  setPeerServiceAdmission_ok acceptAuthenticatedPeerControl_ok cacheCodecConfig_ok removePeer_ok pttOn_ok
  release_ok pttRequest_ok expireTalkIfNeeded_ok expireMembershipIfNeeded_ok cleanup_ok revoke_ok : invariant.

Lemma server_step_ok `{RangeOrder} P s s' : server_step P s s' -> server_ok s -> server_ok s'.
Proof. intros Hstep Hs. destruct Hstep; auto with invariant. Qed.

Lemma server_reachable_ok `{RangeOrder} P s s' : rtc (server_step P) s s' -> server_ok s -> server_ok s'.
Proof. induction 1; eauto using server_step_ok. Qed.

(** ** Handlers are runs of transitions *)

Lemma identity_step_same `{Ed25519} `{TicketJSON} oa op : same_identity oa (identity_step oa op).
Proof.
  destruct oa as [a|].
  - destruct op; simpl; unfold identity_begin, identity_proof, identity_takeVerifiedAdmission,
      identity_admissionForJoin; repeat case_match; simpl in *; simplify_eq; done.
  - by destruct op.
Qed.

Lemma service_step_same `{Ed25519} `{GrantJSON} oa op : same_service oa (service_step oa op).
Proof.
  destruct oa as [a|]; [|by destruct op].
  destruct op; simpl; unfold service_begin, service_proof, service_takeVerifiedAdmission, service_admissionForJoin,
    admissionAllowedForMembership, installRevocation; repeat case_match; simpl in *; simplify_eq; done.
Qed.

Lemma control_step_same a op : same_auth (Some a) (Some (control_step a op)).
Proof.
  destruct op; simpl; unfold createChallenge, acceptPreJoinControl, consumeJoinChallenge;
    repeat case_match; done.
Qed.

Lemma loop_same `{Entropy} n a : same_auth (Some a) (Some (newRelayInstanceID_loop n a).2).
Proof.
  revert a. induction n as [|n IH]; intros a; simpl; [done|].
  repeat case_match; simpl; try done;
    match goal with |- context [newRelayInstanceID_loop n ?b] => exact (IH b) end.
Qed.

Lemma newRelayInstanceIDLocked_same `{Entropy} a : same_auth (Some a) (Some (newRelayInstanceIDLocked a).2).
Proof. apply loop_same. Qed.

Lemma nextRelayNonce_same `{Entropy} a : same_auth (Some a) (Some (nextRelayNonce a).2).
Proof.
  unfold nextRelayNonce. pose proof (newRelayInstanceIDLocked_same a) as Hl.
  destruct (relayCounterExhausted a).
  - destruct (newRelayInstanceIDLocked a) as [[i|] a']; simpl in *; done.
  - cbn [negb]. by destruct (relayCounter a =? 2 ^ 32 - 1).
Qed.

Section runs.
Context `{Entropy} `{RangeOrder} `{Environment} `{Ed25519} `{TicketJSON} `{GrantJSON} (P : Z -> Prop).

Lemma steps_section {A} (f : server -> A * server) :
  (forall s, server_step P s (f s).2) -> steps (server_step P) (section f).
Proof.
  intros Hf s. unfold section, atomically, final. specialize (Hf s). destruct (f s). by apply rtc_once.
Qed.

Lemma steps_modify (f : server -> server) :
  (forall s, server_step P s (f s)) -> steps (server_step P) (modify f : handler unit).
Proof. intros Hf s. by apply rtc_once. Qed.

Lemma step_identity_section {A} (g : option identityAdmissionState -> A * option identityAdmissionState) :
  (forall oa, same_identity oa (g oa).2) ->
  steps (server_step P) (section (fun s => let '(r, st) := g (identityAdmissions s) in (r, with_identity s st))).
Proof.
  intros Hg. apply steps_section. intros s. specialize (Hg (identityAdmissions s)).
  destruct (g (identityAdmissions s)). apply step_sides; auto with effects.
Qed.

Lemma step_service_section {A} (g : option serviceAdmissionState -> A * option serviceAdmissionState) :
  (forall oa, same_service oa (g oa).2) ->
  steps (server_step P) (section (fun s => let '(r, st) := g (serviceAdmissions s) in (r, with_service s st))).
Proof.
  intros Hg. apply steps_section. intros s. specialize (Hg (serviceAdmissions s)).
  destruct (g (serviceAdmissions s)). apply step_sides; auto with effects.
Qed.

Lemma step_control_section {A} (d : A) (g : controlAuthState -> A * controlAuthState) :
  (forall a, same_auth (Some a) (Some (g a).2)) ->
  steps (server_step P) (section (fun s =>
    match controlAuth s with
    | None => (d, s)
    | Some a => let '(r, a') := g a in (r, with_controlAuth s (Some a'))
    end)).
Proof.
  intros Hg. apply steps_section. intros s.
  destruct (controlAuth s) as [a|] eqn:E; [|].
  - specialize (Hg a). destruct (g a) as [r a']. simpl in *.
    apply step_sides; [by rewrite E|auto with effects..].
  - replace s with (with_sides s (sizes s) (controlAuth s) (identityAdmissions s) (serviceAdmissions s)
      (diagnostics s) (outboundSeq s)) at 2 by by destruct s.
    apply step_sides; auto with effects.
Qed.

Lemma steps_take_sequence : steps (server_step P) take_sequence.
Proof. apply steps_section. intros s. apply step_sides; auto with effects. Qed.

Lemma steps_take_nonce : steps (server_step P) take_nonce.
Proof. exact (step_control_section None nextRelayNonce nextRelayNonce_same). Qed.

Lemma steps_diagnostics id delta : steps (server_step P) (observeFloorInterruptDiagnostics id delta).
Proof.
  apply steps_bind; [auto with effects|]. intros s. destruct (floorInterrupt s); [|auto with effects].
  destruct (observeFloorInterrupt _ _ _); [|auto with effects].
  apply steps_modify. intros s'. apply step_sides; auto with effects.
Qed.
End runs.

#[export] Hint Resolve steps_take_sequence steps_take_nonce steps_diagnostics : effects.

Section handlers.
Context `{Entropy} `{RangeOrder} `{Environment} `{Ed25519} `{TicketJSON} `{GrantJSON} (P : Z -> Prop).

Lemma steps_gets {A} (f : server -> A) : steps (server_step P) (gets f : handler A).
Proof. by intros s. Qed.
Lemma steps_ret {A} (a : A) : steps (server_step P) (ret a : handler A).
Proof. by intros s. Qed.
Lemma steps_emit (o : output) : steps (server_step P) (emit o : handler unit).
Proof. by intros s. Qed.

Hint Resolve steps_gets steps_ret steps_emit : effects.

Lemma steps_publish ev ch sd svc reason : steps (server_step P) (publishManagementEvent ev ch sd svc reason).
Proof. unfold publishManagementEvent. effects. Qed.
Hint Resolve steps_publish : effects.

Lemma steps_sendAuthenticatedControl addr ch sd k t pl : steps (server_step P) (sendAuthenticatedControl addr ch sd k t pl).
Proof. unfold sendAuthenticatedControl, WriteToUDP. effects. Qed.
Hint Resolve steps_sendAuthenticatedControl : effects.

Lemma steps_relayControlForPeer ch op t sd pl : steps (server_step P) (relayControlForPeer ch op t sd pl).
Proof. unfold relayControlForPeer. effects. Qed.
Lemma steps_relayCodecConfigForPeer ch op sd c : steps (server_step P) (relayCodecConfigForPeer ch op sd c).
Proof. unfold relayCodecConfigForPeer. effects. Qed.
Hint Resolve steps_relayControlForPeer steps_relayCodecConfigForPeer : effects.

Lemma steps_send_built build p : (forall op, steps (server_step P) (build op)) -> steps (server_step P) (send_built build p).
Proof. intros Hb. unfold send_built, WriteToUDP. effects. Qed.
Hint Resolve steps_send_built : effects.

Lemma steps_sendRelayControlTo ch tgt t sd pl : steps (server_step P) (sendRelayControlTo ch tgt t sd pl).
Proof. unfold sendRelayControlTo, send_built, WriteToUDP. effects. Qed.
Lemma steps_broadcastRelayControl ch t sd pl : steps (server_step P) (broadcastRelayControl ch t sd pl).
Proof. unfold broadcastRelayControl, send_built, WriteToUDP. effects. Qed.
Lemma steps_sendRelayCodecConfig ch sd c : steps (server_step P) (sendRelayCodecConfig ch sd c).
Proof. unfold sendRelayCodecConfig, send_built, WriteToUDP. effects. Qed.
Lemma steps_sendRelayCodecConfigTo ch tgt sd c : steps (server_step P) (sendRelayCodecConfigTo ch tgt sd c).
Proof. unfold sendRelayCodecConfigTo, send_built, WriteToUDP. effects. Qed.
Lemma steps_broadcastExceptAddr ch a d : steps (server_step P) (broadcastExceptAddr ch a d).
Proof. unfold broadcastExceptAddr, WriteToUDP. effects. Qed.
Hint Resolve steps_sendRelayControlTo steps_broadcastRelayControl steps_sendRelayCodecConfig
  steps_sendRelayCodecConfigTo steps_broadcastExceptAddr : effects.

Lemma steps_sendPong addr ch sd n : steps (server_step P) (sendPong addr ch sd n).
Proof. unfold sendPong, WriteToUDP. effects. Qed.
Lemma steps_sendServerConfig ch sd : steps (server_step P) (sendServerConfig ch sd).
Proof. unfold sendServerConfig. effects. Qed.
Lemma steps_sendCurrentTalkState ch sd : steps (server_step P) (sendCurrentTalkState ch sd).
Proof. unfold sendCurrentTalkState. effects. Qed.
Lemma steps_audit r ch p res rep : steps (server_step P) (publishFloorInterruptAudit r ch p res rep).
Proof. unfold publishFloorInterruptAudit. effects. Qed.
Hint Resolve steps_sendPong steps_sendServerConfig steps_sendCurrentTalkState steps_audit : effects.

(** The sections of the channels. *)
Ltac section_step c := intros; apply steps_section; intros; apply c; auto with effects.

Lemma steps_pttOn ch sd now : P ch -> steps (server_step P) (section (pttOn_section ch sd now)).
Proof. section_step step_ptt_on. Qed.
Lemma steps_release ch sd : P ch -> steps (server_step P) (section (release_section ch sd)).
Proof. section_step step_release. Qed.
Lemma steps_pttRequest ch sd a now : P ch -> steps (server_step P) (section (pttRequest_section ch sd a now)).
Proof. section_step step_ptt_request. Qed.
Lemma steps_expireMembership ch now : P ch -> steps (server_step P) (section (expireMembershipIfNeeded ch now)).
Proof. section_step step_expire_membership. Qed.
Lemma steps_expireTalk ch now : P ch -> steps (server_step P) (section (expireTalkIfNeeded ch now)).
Proof. section_step step_expire_talk. Qed.
Lemma steps_refresh ch sd a now : P ch -> steps (server_step P) (section (refreshMembership ch sd a now)).
Proof. section_step step_refresh. Qed.
Lemma steps_start ch sd a now : P ch -> steps (server_step P) (section (startMembership ch sd a now)).
Proof. section_step step_start. Qed.
Lemma steps_plain ch sd a now : P ch -> steps (server_step P) (section (acceptUnauthenticatedPeerControl ch sd a now)).
Proof. section_step step_accept_plain. Qed.
Lemma steps_auth pkt a m now :
  P (ChannelId (Header pkt)) -> steps (server_step P) (section (acceptAuthenticatedPeerControl pkt a m now)).
Proof. section_step step_accept_auth. Qed.
Lemma steps_touch ch sd a now : P ch -> steps (server_step P) (section (touchKnownPeer ch sd a now)).
Proof. section_step step_touch. Qed.
Lemma steps_setIdentity ch sd a ad : P ch -> steps (server_step P) (section (setPeerIdentityAdmission ch sd a ad)).
Proof. section_step step_identity. Qed.
Lemma steps_setService ch sd a ad now : P ch -> steps (server_step P) (section (setPeerServiceAdmission ch sd a ad now)).
Proof. section_step step_service. Qed.
Lemma steps_codec ch sd pl k au : P ch -> steps (server_step P) (section (cacheCodecConfig ch sd pl k au)).
Proof. section_step step_codec. Qed.
Lemma steps_remove ch sd a : P ch -> steps (server_step P) (section (fun s => (tt, removePeer ch sd a s))).
Proof. section_step step_remove. Qed.
Lemma steps_join ch sd a now : P ch -> sd <> 0 -> steps (server_step P) (section (fun s => (tt, joinPeer ch sd (Some a) now s))).
Proof. by section_step step_join. Qed.
Lemma steps_authJoin ch sd a m w now :
  P ch -> sd <> 0 -> steps (server_step P) (section (fun s => (tt, upsertAuthenticatedPeerWithReplay ch sd (Some a) m w now s))).
Proof. by section_step step_authenticated_join. Qed.
Hint Resolve steps_pttOn steps_release steps_pttRequest steps_expireMembership steps_expireTalk steps_refresh
  steps_start steps_plain steps_auth steps_touch steps_setIdentity steps_setService steps_codec steps_remove
  steps_join steps_authJoin : effects.

(** The sections of the admissions and of the control authentication. *)
Lemma steps_identity_begin pkt a m now r : steps (server_step P) (section (fun s =>
  let '(x, st) := identity_begin (identityAdmissions s) pkt a m now r in (x, with_identity s st))).
Proof.
  apply (step_identity_section P (fun oa => identity_begin oa pkt a m now r)). intros oa.
  exact (identity_step_same oa (OpBegin pkt a m now r)).
Qed.
Lemma steps_identity_proof pkt a m now : steps (server_step P) (section (fun s =>
  let '(x, st) := identity_proof (identityAdmissions s) pkt a m now in (x, with_identity s st))).
Proof.
  apply (step_identity_section P (fun oa => identity_proof oa pkt a m now)). intros oa.
  exact (identity_step_same oa (OpProof pkt a m now)).
Qed.
Lemma steps_identity_take pkt a m now : steps (server_step P) (section (fun s =>
  let '(x, st) := identity_takeVerifiedAdmission (identityAdmissions s) pkt a m now in (x, with_identity s st))).
Proof.
  apply (step_identity_section P (fun oa => identity_takeVerifiedAdmission oa pkt a m now)). intros oa.
  exact (identity_step_same oa (OpTake pkt a m now)).
Qed.
Lemma steps_identity_join pkt a m now : steps (server_step P) (section (fun s =>
  let '(x, st) := identity_admissionForJoin (identityAdmissions s) pkt a m now in (x, with_identity s st))).
Proof.
  apply (step_identity_section P (fun oa => identity_admissionForJoin oa pkt a m now)). intros oa.
  exact (identity_step_same oa (OpJoin pkt a m now)).
Qed.
Lemma steps_service_begin pkt a m now r : steps (server_step P) (section (fun s =>
  let '(x, st) := service_begin (serviceAdmissions s) pkt a m now r in (x, with_service s st))).
Proof. apply (step_service_section P (fun oa => service_begin oa pkt a m now r)). intros oa. exact (service_step_same oa (SvBegin pkt a m now r)). Qed.
Lemma steps_service_proof pkt a m now : steps (server_step P) (section (fun s =>
  let '(x, st) := service_proof (serviceAdmissions s) pkt a m now in (x, with_service s st))).
Proof. apply (step_service_section P (fun oa => service_proof oa pkt a m now)). intros oa. exact (service_step_same oa (SvProof pkt a m now)). Qed.
Lemma steps_service_take pkt a m now : steps (server_step P) (section (fun s =>
  let '(x, st) := service_takeVerifiedAdmission (serviceAdmissions s) pkt a m now in (x, with_service s st))).
Proof. apply (step_service_section P (fun oa => service_takeVerifiedAdmission oa pkt a m now)). intros oa. exact (service_step_same oa (SvTake pkt a m now)). Qed.
Lemma steps_service_join pkt a m now : steps (server_step P) (section (fun s =>
  let '(x, st) := service_admissionForJoin (serviceAdmissions s) pkt a m now in (x, with_service s st))).
Proof. apply (step_service_section P (fun oa => service_admissionForJoin oa pkt a m now)). intros oa. exact (service_step_same oa (SvJoin pkt a m now)). Qed.
Lemma steps_service_revoke target until now : steps (server_step P) (section (fun s =>
  let '(x, st) := installRevocation (serviceAdmissions s) target until now in (x, with_service s st))).
Proof. apply (step_service_section P (fun oa => installRevocation oa target until now)). intros oa. exact (service_step_same oa (SvRevoke target until now)). Qed.
Lemma steps_hello pkt a m t1 t2 : steps (server_step P) (section (fun s =>
  match controlAuth s with
  | None => (inl ""%string, s)
  | Some ca => let '(r, ca') := createChallenge pkt a m t1 t2 ca in (r, with_controlAuth s (Some ca'))
  end)).
Proof.
  apply (step_control_section P (inl ""%string) (createChallenge pkt a m t1 t2)). intros ca.
  exact (control_step_same ca (Hello pkt a m t1 t2)).
Qed.
Lemma steps_prejoin pkt a m t : steps (server_step P) (section (fun s =>
  match controlAuth s with
  | None => (false, s)
  | Some ca => let '(r, ca') := acceptPreJoinControl pkt a m t ca in (r, with_controlAuth s (Some ca'))
  end)).
Proof.
  apply (step_control_section P false (acceptPreJoinControl pkt a m t)). intros ca.
  exact (control_step_same ca (PreJoin pkt a m t)).
Qed.
Lemma steps_consume pkt a m t1 t2 t3 : steps (server_step P) (section (fun s =>
  match controlAuth s with
  | None => (None, s)
  | Some ca => let '(r, ca') := consumeJoinChallenge pkt a m t1 t2 t3 ca in (r, with_controlAuth s (Some ca'))
  end)).
Proof.
  apply (step_control_section P None (consumeJoinChallenge pkt a m t1 t2 t3)). intros ca.
  exact (control_step_same ca (Join pkt a m t1 t2 t3)).
Qed.
Hint Resolve steps_identity_begin steps_identity_proof steps_identity_take steps_identity_join
  steps_service_begin steps_service_proof steps_service_take steps_service_join steps_service_revoke
  steps_hello steps_prejoin steps_consume : effects.

(** The handlers. *)
Lemma steps_announceRelease ch sd r : steps (server_step P) (announceRelease ch sd r).
Proof. unfold announceRelease. effects. Qed.
Hint Resolve steps_announceRelease : effects.
Lemma steps_releaseTalkIfNeeded ch sd r : P ch -> steps (server_step P) (releaseTalkIfNeeded ch sd r).
Proof. unfold releaseTalkIfNeeded. effects. Qed.
Lemma steps_denyPttRequest ch sd : steps (server_step P) (denyPttRequest ch sd).
Proof. unfold denyPttRequest. effects. Qed.
Hint Resolve steps_releaseTalkIfNeeded steps_denyPttRequest : effects.
Lemma steps_handlePttOff ch sd : P ch -> steps (server_step P) (handlePttOff ch sd).
Proof. unfold handlePttOff. effects. Qed.
Lemma steps_handlePttOn ch sd now : P ch -> steps (server_step P) (handlePttOn ch sd now).
Proof. unfold handlePttOn. effects. Qed.
Lemma steps_handlePttRequest ch sd a now : P ch -> steps (server_step P) (handlePttRequest ch sd a now).
Proof. unfold handlePttRequest. effects. Qed.
Lemma steps_emitMembershipExpirations ch now : P ch -> steps (server_step P) (emitMembershipExpirations ch now).
Proof. unfold emitMembershipExpirations. effects. Qed.
Lemma steps_emitTalkTimeouts ch now : P ch -> steps (server_step P) (emitTalkTimeouts ch now).
Proof. unfold emitTalkTimeouts. effects. Qed.
Lemma steps_handleMediaPacket pkt a :
  P (ChannelId (Header pkt)) -> steps (server_step P) (handleMediaPacket pkt a).
Proof. unfold handleMediaPacket. effects. Qed.
Lemma steps_resolveJoinAdmission pkt a m now : steps (server_step P) (resolveJoinAdmission pkt a m now).
Proof. unfold resolveJoinAdmission. effects. Qed.
Lemma steps_sendDeny pkt a m t r : steps (server_step P) (sendDeny pkt a m t r).
Proof. unfold sendDeny. effects. Qed.
Lemma steps_refresh_packet pkt a n :
  P (ChannelId (Header pkt)) -> steps (server_step P) (refresh pkt a n).
Proof. unfold refresh, ignore. effects. Qed.
Lemma steps_admissionSession pkt a m :
  P (ChannelId (Header pkt)) -> steps (server_step P) (admissionSession pkt a m).
Proof. unfold admissionSession. effects. Qed.
Hint Resolve steps_handlePttOff steps_handlePttOn steps_handlePttRequest steps_emitMembershipExpirations
  steps_emitTalkTimeouts steps_handleMediaPacket steps_resolveJoinAdmission steps_sendDeny steps_refresh_packet
  steps_admissionSession : effects.

Lemma steps_handleIdentityPacket pkt a :
  P (ChannelId (Header pkt)) -> steps (server_step P) (handleIdentityPacket pkt a).
Proof. unfold handleIdentityPacket. effects. Qed.
Lemma steps_handleServicePacket pkt a :
  P (ChannelId (Header pkt)) -> steps (server_step P) (handleServicePacket pkt a).
Proof. unfold handleServicePacket, ignore. effects. Qed.
Lemma steps_handleAuthenticatedJoin pkt a :
  P (ChannelId (Header pkt)) -> SenderId (Header pkt) <> 0 -> steps (server_step P) (handleAuthenticatedJoin pkt (Some a)).
Proof. intros. unfold handleAuthenticatedJoin. effects. Qed.
Lemma steps_handleUnauthenticatedJoin pkt a :
  P (ChannelId (Header pkt)) -> SenderId (Header pkt) <> 0 -> steps (server_step P) (handleUnauthenticatedJoin pkt (Some a)).
Proof. intros. unfold handleUnauthenticatedJoin. effects. Qed.
Hint Resolve steps_handleIdentityPacket steps_handleServicePacket steps_handleAuthenticatedJoin
  steps_handleUnauthenticatedJoin : effects.
Lemma steps_admitControl pkt a : P (ChannelId (Header pkt)) -> SenderId (Header pkt) <> 0 -> steps (server_step P) (admitControl pkt (Some a)).
Proof. intros. unfold admitControl. effects. Qed.
Lemma steps_dispatchControl pkt a j :
  P (ChannelId (Header pkt)) -> steps (server_step P) (dispatchControl pkt a j).
Proof. unfold dispatchControl. effects. Qed.
Lemma steps_handleHello pkt a : steps (server_step P) (handleHello pkt a).
Proof. unfold handleHello, sendAuthenticatedChallenge. effects. Qed.
Lemma steps_handlePing pkt a :
  P (ChannelId (Header pkt)) -> steps (server_step P) (handlePing pkt a).
Proof. unfold handlePing. effects. Qed.
Hint Resolve steps_admitControl steps_dispatchControl steps_handleHello steps_handlePing : effects.

Lemma steps_handlePacket pkt a :
  P (ChannelId (Header pkt)) -> steps (server_step P) (handlePacket pkt (Some a)).
Proof.
  intros HP. unfold handlePacket. destruct (_ || _) eqn:E; [auto with effects|]. gobool. effects.
Qed.
Hint Resolve steps_handlePacket : effects.

Lemma steps_receive data a : (forall ch, P ch) -> steps (server_step P) (receive data a).
Proof.
  intros HP. unfold receive. effects. apply steps_modify. intros s. apply step_sides; auto with effects.
Qed.
Lemma steps_cleanupTick now : (forall ch, P ch) -> steps (server_step P) (cleanupTick now).
Proof.
  intros HP. unfold cleanupTick. apply steps_bind; [section_step step_cleanup|]. intros [? ?]. effects.
Qed.
Lemma steps_announceRevoked rp : steps (server_step P) (announceRevoked rp).
Proof. unfold announceRevoked, send_built, WriteToUDP. effects. Qed.
Hint Resolve steps_announceRevoked : effects.
Lemma steps_revoke target until now : P (rt_channelID target) -> steps (server_step P) (revokeManagedServiceAdmission target until now).
Proof.
  intros HP. unfold revokeManagedServiceAdmission. apply steps_bind; [auto with effects|]. intros b.
  destruct (negb b); [auto with effects|]. apply steps_bind; [section_step step_revoke|]. effects.
Qed.
End handlers.

(** ** What a transition leaves alone *)

Section frame.
Context `{RangeOrder}.

(** [s'] has the configuration of [s] and the same channels but [c]. *)
Definition frame (c : Z) (s s' : server) : Prop :=
  same_config s s' /\ forall k, k <> c -> channels s' !! k = channels s !! k.

Lemma frame_refl c s : frame c s s.
Proof. split; [reflexivity|done]. Qed.

Lemma frame_insert c ch s : frame c s (with_channels s (<[c := ch]> (channels s))).
Proof. split; [apply same_config_channels|]. intros k Hk. simpl. by rewrite lookup_insert_ne. Qed.

Lemma frame_put_peer c key p s : frame c s (put_peer c key p s).
Proof. split; [apply same_config_channels|]. intros k Hk. simpl. by rewrite lookup_alter_ne. Qed.

Lemma frame_store c ch s : frame c s (store_channel c ch s).
Proof. split; [apply store_channel_config|]. intros k Hk. by apply store_channel_lookup. Qed.

Lemma frame_put_talkers c ch ts s : frame c s (put_talkers c ch ts s).
Proof. apply frame_insert. Qed.

Create HintDb frame.
Hint Resolve frame_refl frame_insert frame_put_peer frame_store frame_put_talkers : frame.

Lemma frame_trans c s1 s2 s3 : frame c s1 s2 -> frame c s2 s3 -> frame c s1 s3.
Proof. intros [C1 K1] [C2 K2]. split; [by etrans|]. intros k Hk. by rewrite K2, K1. Qed.

Lemma frame_getOrCreate c s : frame c s (getOrCreateChannel c s).2.
Proof. unfold getOrCreateChannel. destruct (channels s !! c); simpl; auto with frame. Qed.

Lemma frame_joinPeer c sd a now s : frame c s (joinPeer c sd a now s).
Proof.
  unfold joinPeer. pose proof (frame_getOrCreate c s). destruct (getOrCreateChannel c s) as [ch s1].
  eapply frame_trans; eauto with frame.
Qed.

Lemma frame_authenticated_join c sd a m w now s : frame c s (upsertAuthenticatedPeerWithReplay c sd a m w now s).
Proof.
  unfold upsertAuthenticatedPeerWithReplay. pose proof (frame_getOrCreate c s).
  destruct (getOrCreateChannel c s) as [ch s1]. destruct a; [|done].
  eapply frame_trans; eauto with frame.
Qed.

Lemma frame_service c sd a ad now s : frame c s (setPeerServiceAdmission c sd a ad now s).2.
Proof.
  unfold setPeerServiceAdmission. destruct a as [a|]; [|auto with frame].
  pose proof (allowed_same (serviceAdmissions s) c ad now) as Hsame. destruct (admissionAllowedForMembership _ _ _ _) as [b sv].
  assert (frame c s (with_service s sv)) as Hf.
  { split; [|done]. unfold same_config. simpl. auto 15 with effects. }
  destruct (negb b); [done|]. destruct (member _ _ _ _) as [p|]; [|done].
  destruct (p_identityAdmission p); [done|]. destruct Hf as [Hc Hk].
  destruct (frame_put_peer c (peerMapKey (Some a)) (set_admissions p None (Some ad)) (with_service s sv)) as [Hc2 Hk2].
  split; [by etrans|]. intros k Hne. simpl. rewrite <- (Hk k Hne). by apply Hk2.
Qed.

Ltac frames := repeat case_match; simpl; auto with frame.

Lemma cleanup_config now s : same_config s (cleanup_section now s).2.
Proof.
  unfold cleanup_section.
  assert (same_config s (fold_left (cleanup_step now) (range (channels s)) (s, [], [])).1.1) as Hc.
  { apply (fold_invariant _ (fun acc => same_config s acc.1.1)); [reflexivity|].
    intros [[s1 rels] deps] [k ch] _ Hs1. simpl in *.
    destruct (cleanupChannel _ _ _ _) as [[ch' r] d]. simpl. etrans; [exact Hs1|apply store_channel_config]. }
  by destruct (fold_left _ _ _) as [[s' rels] deps].
Qed.

(** Every transition but the cleanup pass touches one channel. *)
Lemma server_step_frame P s s' :
  server_step P s s' -> same_config s s' /\ forall k, ~ P k -> channels s' !! k = channels s !! k.
Proof.
  assert (forall c s1, P c -> frame c s s1 ->
    same_config s s1 /\ forall k, ~ P k -> channels s1 !! k = channels s !! k) as Hframe.
  { intros c s1 Hc [? Hk]. split; [done|]. intros k Hnk. apply Hk. by intros ->. }
  intros Hstep. destruct Hstep; try (eapply Hframe; [eassumption|]).
  - split; [|done]. unfold same_config. simpl. auto 15 with effects.
  - apply frame_joinPeer.
  - apply frame_authenticated_join.
  - unfold touchKnownPeer. frames.
  - unfold acceptUnauthenticatedPeerControl. frames.
  - unfold startMembership. frames.
  - unfold refreshMembership. frames.
  - unfold setPeerIdentityAdmission. frames.
  - apply frame_service.
  - unfold acceptAuthenticatedPeerControl. frames.
  - unfold cacheCodecConfig. frames.
  - unfold removePeer. frames.
  - unfold pttOn_section. frames.
  - unfold release_section. frames.
  - unfold pttRequest_section. frames.
  - unfold expireTalkIfNeeded. frames.
  - unfold expireMembershipIfNeeded. frames.
  - split; [apply cleanup_config|]. intros k Hk. by destruct Hk.
  - unfold revoke_section. frames.
Qed.

Lemma server_steps_frame P s s' :
  rtc (server_step P) s s' -> same_config s s' /\ forall k, ~ P k -> channels s' !! k = channels s !! k.
Proof.
  induction 1 as [s|s1 s2 s3 H12 _ [Hc Hk]]; [split; [reflexivity|done]|].
  apply server_step_frame in H12 as [Hc1 Hk1]. split; [by etrans|].
  intros k Hn. by rewrite Hk, Hk1.
Qed.
End frame.
