(* ===== verification/RelaySpec.v ===== *)
(** * What the relay guarantees

    The properties of the server as a whole: the invariants of every state it can
    reach under any interleaving of its goroutines, and what its handlers do and
    do not do. *)

From S2P Require Import Prelude GoTime GoNet Packet Replay ControlAuth Identity Service Diagnostics Server Membership Send Floor Relay Steps.

Open Scope eff_scope.

(** A state reached from [s0] by the sections of any handlers, interleaved. *)
Definition reachable `{RangeOrder} (s0 s : server) : Prop := rtc (server_step (fun _ => True)) s0 s.

Lemma reachable_ok `{RangeOrder} s0 s :
  channels s0 = ∅ -> reachable s0 s -> server_ok s /\ same_config s0 s.
Proof.
  intros E Hr. split; [|by apply server_steps_frame in Hr as [? _]].
  eapply server_reachable_ok; [exact Hr|]. intros k ch Hk. rewrite E in Hk. done.
Qed.

(** ** A concrete server *)

Definition toy_diagnostics : relayDiagnosticsState := {| counterEpoch := "e"; floorInterruptCounters := zero_counters |}.

(** A single-talk relay without cryptography. *)
Definition plain_server : server := newServer true 0 false 4 toy_now toy_diagnostics.

Definition endpoint (port : Z) : UDPAddr := {| IP := [192; 0; 2; 1]; Port := port; Zone := "" |}.

(** A packet without security extension. *)
Definition plain_packet (pktType sender : Z) (payload : list Z) : parsedPacket :=
  {| Header := {| Version := 1; PType := pktType; HeaderLen := 16; ChannelId := 100; SenderId := sender;
       Seq := 0; Flags := 0 |};
     Sec := zero_sec; Payload := payload; Tag := []; Raw := [1; pktType; 0; 16] ++ payload |}.

#[export] Instance toy_env : Environment :=
  {| clk := fun n => toy_now + Z.of_nat n; challenge32 := Some toy_challenge; new_id := Some "epoch-2"%string |}.
#[export] Existing Instance listing_order.
#[export] Existing Instance counting_entropy.

(** The state after handling a packet, and what was sent. *)
Definition after (pkt : parsedPacket) (port : Z) (s : server) : server :=
  final (handlePacket pkt (Some (endpoint port))) s.

Definition joined_server : server := after (plain_packet pktJoin 7 []) 5001 plain_server.
Definition talking_server : server := after (plain_packet pktPttOn 7 []) 5001 joined_server.

(** ** Properties: invariants *)

(** C1. The floor is bounded: in every state the server can reach from its
    start, under any interleaving of packets, cleanup ticks and revocations, no
    channel has more active talkers than its limit (one, or the configured
    maximum in multi-talk mode), and every channel has a registered peer. *)
Theorem floor_bounded `{RangeOrder} s0 s channelId ch :
  channels s0 = ∅ -> reachable s0 s -> channels s !! channelId = Some ch ->
  Z.of_nat (size (activeTalkers ch)) <= talkerLimit s0 /\ peers ch <> ∅.
Proof.
  intros E Hr Hch. destruct (reachable_ok _ _ E Hr) as [Hok (E1 & E2 & _)].
  destruct (Hok _ _ Hch) as [Hn _ Ht _]. split; [|done].
  unfold activeCount, talkerLimit in *. by rewrite <- E1, <- E2.
Qed.

(** Registrations are keyed by their own endpoint, belong to a non-zero
    sender, and carry an identity admission or a service admission but never
    both, in every reachable state. *)
Theorem registrations_well_formed `{RangeOrder} s0 s channelId ch k p :
  channels s0 = ∅ -> reachable s0 s -> channels s !! channelId = Some ch -> peers ch !! k = Some p ->
  k = peerMapKey (Some (p_addr p)) /\ p_senderId p <> 0 /\
  (p_identityAdmission p = None \/ p_serviceAdmission p = None).
Proof.
  intros E Hr Hch Hp. destruct (reachable_ok _ _ E Hr) as [Hok _].
  exact (ok_peers _ _ _ (Hok _ _ Hch) _ _ Hp).
Qed.

(** The media gate reads only announced configurations: in every reachable
    state a cached media configuration is a 19-byte payload its sender announced,
    with the nonce base of bytes 7..18; one with an AES-GCM v2 base was announced
    under Control Authentication with a named key, and the required policy caches
    no other kind. *)
Theorem codec_cache_sound `{RangeOrder} s0 s channelId ch senderId c :
  channels s0 = ∅ -> reachable s0 s -> channels s !! channelId = Some ch ->
  mediaCodecConfigs ch !! senderId = Some c ->
  len (cc_payload c) = 19 /\ cc_mediaNonceBase c = sub (cc_payload c) 7 12 /\
  codecConfigs ch !! senderId = Some (cc_payload c) /\
  (cc_mediaNonceBase c <> zeros 12 ->
   cc_controlKeyID c <> 0 /\ server_controlAuthRequired s0 channelId = true) /\
  (requiresAESGCMV2MediaProfile s0 = true -> cc_mediaNonceBase c <> zeros 12).
Proof.
  intros E Hr Hch Hc. destruct (reachable_ok _ _ E Hr) as [Hok (_ & _ & _ & _ & _ & Ha & _)].
  destruct (ok_codecs _ _ _ (Hok _ _ Hch) _ _ Hc) as (C1 & C2 & _ & C4 & C5 & C6).
  split_and!; try done.
  - intros Hb. destruct (C5 Hb) as [? Hreq]. split; [done|]. unfold server_controlAuthRequired in *.
    by rewrite <- (same_auth_requires _ _ channelId Ha).
  - intros Hp Hb. specialize (C6 Hb). unfold requiresAESGCMV2MediaProfile in *.
    destruct (controlAuth s0), (controlAuth s); simpl in Ha; try done.
    destruct Ha as [Hpol _]. rewrite Hpol in Hp. congruence.
Qed.

(** Every handler is a sequence of critical sections: the receive loop on any
    datagram, a cleanup tick and a revocation only change the state by
    transitions of the system, so its invariants hold wherever another goroutine
    may run in between. *)
Theorem handlers_refine_transitions `{Entropy} `{RangeOrder} `{Environment} `{Ed25519} `{TicketJSON} `{GrantJSON} s :
  (forall data a, reachable s (final (receive data a) s)) /\
  (forall now, reachable s (final (cleanupTick now) s)) /\
  (forall target until now, reachable s (final (revokeManagedServiceAdmission target until now) s)).
Proof.
  split_and!; intros; [apply steps_receive|apply steps_cleanupTick|apply steps_revoke]; done.
Qed.

(** Channels are isolated: handling a packet changes no channel but the one
    its header names, and none of the configuration. *)
Theorem channel_isolation `{Entropy} `{RangeOrder} `{Environment} `{Ed25519} `{TicketJSON} `{GrantJSON} pkt a s k :
  k <> ChannelId (Header pkt) ->
  channels (final (handlePacket pkt (Some a)) s) !! k = channels s !! k /\
  same_config s (final (handlePacket pkt (Some a)) s).
Proof.
  intros Hk. destruct (server_steps_frame (fun c => c = ChannelId (Header pkt)) s
    (final (handlePacket pkt (Some a)) s)) as [Hc Hf].
  - by apply steps_handlePacket.
  - split; [by apply Hf|done].
Qed.

Lemma floor_bounded_witness :
  exists ch, channels talking_server !! 100 = Some ch /\
    Z.of_nat (size (activeTalkers ch)) <= talkerLimit plain_server /\ peers ch <> ∅.
Proof.
  assert (reachable plain_server talking_server) as Hr.
  { unfold talking_server, joined_server, after, reachable.
    etrans; apply steps_handlePacket; done. }
  destruct (channels talking_server !! 100) as [ch|] eqn:E; [|by vm_compute in E].
  exists ch. split; [done|].
  exact (floor_bounded plain_server talking_server 100 ch eq_refl Hr E).
Defined.

Lemma registrations_well_formed_witness :
  exists ch p, channels joined_server !! 100 = Some ch /\
    peers ch !! peerMapKey (Some (endpoint 5001)) = Some p /\ p_senderId p <> 0.
Proof.
  assert (reachable plain_server joined_server) as Hr by by apply steps_handlePacket.
  destruct (channels joined_server !! 100) as [ch|] eqn:E; [|by vm_compute in E].
  destruct (peers ch !! peerMapKey (Some (endpoint 5001))) as [p|] eqn:Ep.
  - exists ch, p. split_and!; [done|done|].
    exact (proj1 (proj2 (registrations_well_formed plain_server joined_server 100 ch _ p eq_refl Hr E Ep))).
  - vm_compute in E. injection E as <-. by vm_compute in Ep.
Defined.

Definition configured_server : server := after (plain_packet pktCodecConfig 7 (zeros 19)) 5001 joined_server.

Lemma codec_cache_sound_witness :
  exists ch c, channels configured_server !! 100 = Some ch /\ mediaCodecConfigs ch !! 7 = Some c /\
    len (cc_payload c) = 19.
Proof.
  assert (reachable plain_server configured_server) as Hr.
  { unfold configured_server, joined_server, after, reachable. etrans; apply steps_handlePacket; done. }
  destruct (channels configured_server !! 100) as [ch|] eqn:E; [|by vm_compute in E].
  destruct (mediaCodecConfigs ch !! 7) as [c|] eqn:Ec.
  - exists ch, c. split_and!; [done|done|].
    exact (proj1 (codec_cache_sound plain_server configured_server 100 ch 7 c eq_refl Hr E Ec)).
  - vm_compute in E. injection E as <-. by vm_compute in Ec.
Defined.

Lemma channel_isolation_witness :
  channels (final (handlePacket (plain_packet pktJoin 7 []) (Some (endpoint 5001))) talking_server) !! 101
  = channels talking_server !! 101.
Proof.
  refine (proj1 (channel_isolation (plain_packet pktJoin 7 []) (endpoint 5001) talking_server 101 _)).
  by vm_compute.
Defined.
