(* ===== verification/FloorSpec.v ===== *)
(** * What the floor arbitration guarantees

    The choice of the talker a Floor Interrupt replaces, the independence of the
    decisions from Go's map order, and what the expiry loops leave behind. *)

From S2P Require Import Prelude GoTime GoNet Packet Replay ControlAuth Identity Service Diagnostics Server Membership Send Floor Relay Steps RelaySpec.

(** ** The victim *)

Definition talks (ch : channel) (t : Z) : Prop := is_Some (activeTalkers ch !! t).

(** [(p1, t1)] is chosen before [(p2, t2)]: lower priority, then lower sender ID. *)
Definition chosen_before (p1 t1 p2 t2 : Z) : Prop := p1 < p2 \/ (p1 = p2 /\ t1 <= t2).

Section victim.
Context `{RangeOrder}.

Lemma talks_range ch t : talks ch t <-> t ∈ fst <$> range (activeTalkers ch).
Proof.
  rewrite list_elem_of_fmap. split.
  - intros [u Hu]. exists (t, u). split; [done|]. by apply elem_of_range.
  - intros ([t' u] & -> & Hin). apply elem_of_range in Hin. by exists u.
Qed.

(** One iteration keeps the better of the two candidates. *)
Lemma victim_step_spec ch now v t :
  v <> 0 ->
  let prio t := activeTalkerPriority ch t now in
  exists w, victim_step ch now (v, prio v) t = (w, prio w) /\ (w = v \/ w = t) /\
    chosen_before (prio w) w (prio v) v /\ chosen_before (prio w) w (prio t) t.
Proof.
  intros Hv prio. unfold victim_step, chosen_before. rewrite (proj2 (Z.eqb_neq v 0) Hv), orb_false_l.
  fold (prio t). destruct ((prio t <? prio v) || _) eqn:Hb.
  - exists t. split_and!; [done|by right| |right; lia].
    apply orb_true_iff in Hb as [Hb|Hb]; gobool; lia.
  - exists v. apply orb_false_iff in Hb as [Hb1 Hb2].
    split_and!; [done|by left|right; lia|].
    apply andb_false_iff in Hb2 as [Hb2|Hb2]; gobool; lia.
Qed.

Lemma chosen_before_trans p1 t1 p2 t2 p3 t3 :
  chosen_before p1 t1 p2 t2 -> chosen_before p2 t2 p3 t3 -> chosen_before p1 t1 p3 t3.
Proof. unfold chosen_before. lia. Qed.

(** After the loop the victim is the least of the talkers visited. *)
Lemma victim_fold ch now l v :
  Forall (fun t => t <> 0) (v :: l) ->
  let prio t := activeTalkerPriority ch t now in
  exists w, fold_left (victim_step ch now) l (v, prio v) = (w, prio w) /\ w ∈ v :: l /\
    Forall (fun t => chosen_before (prio w) w (prio t) t) (v :: l).
Proof.
  intros Hnz prio. revert v Hnz. induction l as [|t l IH]; intros v Hnz; cbn [fold_left].
  - exists v. split_and!; [done|by left|]. apply Forall_singleton. right. lia.
  - apply Forall_cons in Hnz as [Hv Hl].
    destruct (victim_step_spec ch now v t Hv) as (w & E & Hw & Hwv & Hwt).
    fold (prio v) in E. fold (prio w) in E. rewrite E.
    destruct (IH w) as (x & Hx & Hin & Hall).
    { apply Forall_cons in Hl as [Ht Hl]. apply Forall_cons. destruct Hw; by subst. }
    exists x. apply Forall_cons in Hall as [Hxw Hall].
    split_and!; [done|destruct Hw; subst; set_solver|].
    rewrite !Forall_cons. eauto using chosen_before_trans.
Qed.

Lemma selectVictim_least ch now :
  activeTalkers ch <> ∅ -> (forall t, talks ch t -> t <> 0) ->
  let prio t := activeTalkerPriority ch t now in
  let '(v, vp) := selectVictim ch now in
  talks ch v /\ vp = prio v /\ forall t, talks ch t -> chosen_before vp v (prio t) t.
Proof.
  intros Hne Hnz prio. unfold selectVictim.
  assert (forall t, t ∈ fst <$> range (activeTalkers ch) <-> talks ch t) as Hr by (intros; by rewrite talks_range).
  destruct (fst <$> range (activeTalkers ch)) as [|v l] eqn:E.
  - destruct (map_choose _ Hne) as (t & u & Htu). assert (talks ch t) as Ht by by exists u.
    apply Hr in Ht. by apply elem_of_nil in Ht.
  - cbn [fold_left]. assert (victim_step ch now (0, 255) v = (v, prio v)) as -> by done.
    destruct (victim_fold ch now l v) as (w & Hw & Hin & Hall).
    { apply Forall_forall. intros t Ht. by apply Hnz, Hr. }
    cbn zeta in Hw. fold (prio v) (prio w) in Hw. rewrite Hw.
    split_and!; [by apply Hr|done|]. intros t Ht. rewrite Forall_forall in Hall. by apply Hall, Hr.
Qed.

(** ** The decision of a Floor Interrupt *)

(** The requester is registered at the endpoint, unexpired and allowed to
    interrupt. *)
Definition authorized (ch : channel) (senderId : Z) (addr : UDPAddr) (now : time) (p : peer) : Prop :=
  peers ch !! peerMapKey (Some addr) = Some p /\ p_senderId p = senderId /\
  p_membershipDeadline p <> zero_time /\ now < p_membershipDeadline p /\
  peerAllowsInterrupt (Some p) now = true.

Lemma full_channel_not_empty s ch : activeCount ch >= talkerLimit s -> activeTalkers ch <> ∅.
Proof.
  unfold activeCount. intros Hfull E. rewrite E in Hfull.
  change (size ∅) with 0%nat in Hfull. unfold talkerLimit in Hfull. destruct (_ <? 1) eqn:Hl; gobool; lia.
Qed.

(** C25. A Floor Interrupt on a full channel by an authorized requester who is
    not talking replaces exactly one talker, the one of lowest priority and among
    those of lowest sender ID, and only if its priority is strictly lower than
    the requester's; the number of talkers does not change.  It is denied, with
    no change, exactly when no talker has a lower priority. *)
Theorem floor_interrupt_decision s channelId senderId addr now ch p :
  channels s !! channelId = Some ch -> authorized ch senderId addr now p -> ~ talks ch senderId ->
  activeCount ch >= talkerLimit s -> (forall t, talks ch t -> t <> 0) ->
  let prio t := activeTalkerPriority ch t now in
  let mine := peerInterruptPriority (Some p) now in
  match pttRequest_section channelId senderId (Some addr) now s with
  | (ReqPreempted requester rp victim vp, s') =>
      requester = p /\ rp = mine /\ talks ch victim /\ vp = prio victim /\ vp < mine /\
      (forall t, talks ch t -> chosen_before vp victim (prio t) t) /\
      s' = put_talkers channelId ch (<[senderId := now]> (delete victim (activeTalkers ch))) s /\
      size (<[senderId := now]> (delete victim (activeTalkers ch))) = size (activeTalkers ch)
  | (ReqDenied requester rp current, s') =>
      requester = p /\ rp = mine /\ s' = s /\ forall t, talks ch t -> mine <= prio t
  | _ => False
  end.
Proof.
  intros Hch (Hp & Hsid & Hz & Hlive & Hallow) Hnt Hfull Hnz prio mine. unfold pttRequest_section.
  rewrite Hch, Hp, Hsid, Z.eqb_refl, Hallow.
  rewrite (proj2 (IsZero_false _)) by done. rewrite (proj2 (After_true _ _)) by done. cbn [negb orb].
  rewrite bool_decide_eq_false_2 by done. rewrite (proj2 (Z.ltb_ge _ _)) by lia.
  pose proof (full_channel_not_empty _ _ Hfull) as Hne.
  pose proof (selectVictim_least ch now Hne Hnz) as Hsel. cbn zeta in Hsel.
  destruct (selectVictim ch now) as [v vp]. destruct Hsel as (Htv & Hvp & Hall).
  rewrite (proj2 (Z.eqb_neq v 0) (Hnz v Htv)), orb_false_l.
  fold mine. destruct (mine <=? vp) eqn:Hcmp; gobool.
  - split_and!; [done..|]. intros t Ht. specialize (Hall t Ht). unfold chosen_before, prio in *. lia.
  - split_and!; try done.
    rewrite map_size_insert_None.
    + rewrite map_size_delete_Some by done. pose proof (map_size_ne_0_lookup_2 _ _ Htv). lia.
    + apply lookup_delete_None. right. by apply eq_None_not_Some.
Qed.
End victim.

(** ** Independence of Go's map order

    [range1] and [range2] are two orders Go may visit its maps in. *)

(** The registrations of one sender that carry a current admission agree on its
    priority. *)
Definition priorities_agree (ch : channel) (now : time) : Prop :=
  forall k1 k2 p1 p2 x1 x2, peers ch !! k1 = Some p1 -> peers ch !! k2 = Some p2 ->
    p_senderId p1 = p_senderId p2 ->
    currentPriority p1 now = Some x1 -> currentPriority p2 now = Some x2 -> x1 = x2.

Section order.
Variables range1 range2 : RangeOrder.

Lemma head_omap_unique {A B} (f : A -> option B) l1 l2 :
  l1 ≡ₚ l2 -> (forall x y b c, x ∈ l1 -> y ∈ l1 -> f x = Some b -> f y = Some c -> b = c) ->
  head (omap f l1) = head (omap f l2).
Proof.
  intros Hp Hu. assert (forall b c, b ∈ omap f l1 -> c ∈ omap f l2 -> b = c) as Hall.
  { intros b c Hb Hc. rewrite <- Hp in Hc. apply list_elem_of_omap in Hb as (x & Hx & E1).
    apply list_elem_of_omap in Hc as (y & Hy & E2). eauto. }
  apply (omap_Permutation f) in Hp.
  destruct (omap f l1) as [|b m1], (omap f l2) as [|c m2]; simpl; [done| | |].
  - by apply Permutation_nil_cons in Hp.
  - symmetry in Hp. by apply Permutation_nil_cons in Hp.
  - f_equal. apply Hall; left.
Qed.

Lemma activeTalkerPriority_order ch t now :
  priorities_agree ch now ->
  @activeTalkerPriority range1 ch t now = @activeTalkerPriority range2 ch t now.
Proof.
  intros Ha. unfold activeTalkerPriority. f_equal. apply head_omap_unique.
  - by rewrite (@range_perm range1), (@range_perm range2).
  - intros [k1 p1] [k2 p2] b c H1 H2. rewrite (@elem_of_range range1) in H1, H2. simpl in *.
    destruct (p_senderId p1 =? t) eqn:S1, (p_senderId p2 =? t) eqn:S2; try done. gobool.
    intros E1 E2. apply (Ha k1 k2 p1 p2); congruence.
Qed.

(** Equal sorted lists of the same elements. *)
Lemma sortedActiveTalkers_order ch : @sortedActiveTalkers range1 ch = @sortedActiveTalkers range2 ch.
Proof.
  unfold sortedActiveTalkers.
  apply (Sorted_unique Z.le); [apply Sorted_merge_sort, _..|].
  rewrite !merge_sort_Permutation. apply fmap_Permutation.
  by rewrite (@range_perm range1), (@range_perm range2).
Qed.

Lemma selectVictim_order ch now :
  priorities_agree ch now -> activeTalkers ch <> ∅ -> (forall t, talks ch t -> t <> 0) ->
  @selectVictim range1 ch now = @selectVictim range2 ch now.
Proof.
  intros Ha Hne Hnz.
  pose proof (@selectVictim_least range1 ch now Hne Hnz) as H1.
  pose proof (@selectVictim_least range2 ch now Hne Hnz) as H2. cbn zeta in *.
  destruct (@selectVictim range1 ch now) as [v1 p1], (@selectVictim range2 ch now) as [v2 p2].
  destruct H1 as (T1 & E1 & M1), H2 as (T2 & E2 & M2).
  specialize (M1 v2 T2). specialize (M2 v1 T1).
  rewrite (activeTalkerPriority_order ch v1 now Ha) in E1. rewrite (activeTalkerPriority_order ch v2 now Ha) in M1.
  unfold chosen_before in *. f_equal; lia.
Qed.

(** The floor decisions do not depend on the order Go visits its maps in: a
    PTT_ON and a Floor Interrupt request take the same decision and leave the
    same state under any two orders, provided the registrations of one sender
    agree on its priority. *)
Theorem floor_order_independent s channelId senderId addr now :
  (forall ch, channels s !! channelId = Some ch ->
    priorities_agree ch now /\ forall t, talks ch t -> t <> 0) ->
  @pttOn_section range1 channelId senderId now s = @pttOn_section range2 channelId senderId now s /\
  @pttRequest_section range1 channelId senderId addr now s = @pttRequest_section range2 channelId senderId addr now s.
Proof.
  intros Hs. unfold pttOn_section, pttRequest_section.
  destruct (channels s !! channelId) as [ch|] eqn:E; [|done]. destruct (Hs ch eq_refl) as [Ha Hnz].
  unfold firstActiveTalker. rewrite sortedActiveTalkers_order.
  split; [done|]. destruct addr as [a|]; [|done]. destruct (peers ch !! _) as [p|]; [|done].
  destruct (_ || _); [done|]. case_bool_decide; [done|].
  destruct (activeCount ch <? talkerLimit s) eqn:Hc; [done|]. gobool.
  rewrite selectVictim_order; [done|done| |done].
  apply (full_channel_not_empty s). lia.
Qed.
End order.

(** ** Concrete inputs *)

Definition floor_admission (priority : Z) : identityAdmission :=
  {| ia_permissions := 7; ia_priority := priority; ia_expiresAt := toy_now + 60 * Second;
     ia_ticketHash := []; ia_actorIDHash := [] |}.

(** Sender [n] of priority [n], at port [5000 + n]. *)
Definition floor_peer (n : Z) : peer :=
  {| p_senderId := n; p_addr := endpoint (5000 + n); p_lastSeen := toy_now; p_authenticated := true;
     p_controlSessionID := 1; p_controlKeyID := 1; p_window := {| highest := 0; seen := 0 |};
     p_identityAdmission := Some (floor_admission n); p_serviceAdmission := None;
     p_membershipLease := 30 * Second; p_keepaliveInterval := 10 * Second;
     p_membershipDeadline := toy_now + 30 * Second |}.

(** Sender 3 talks, sender 9 may interrupt it. *)
Definition floor_channel : channel :=
  {| peers := list_to_map ((fun n => (peerMapKey (Some (endpoint (5000 + n))), floor_peer n)) <$> [3; 9]);
     activeTalkers := {[3 := toy_now]}; codecConfigs := ∅; mediaCodecConfigs := ∅ |}.

Definition floor_server : server := with_channels plain_server {[100 := floor_channel]}.

Lemma floor_talks t : talks floor_channel t -> t = 3.
Proof.
  intros [u Hu]. change (({[3 := toy_now]} : gmap Z time) !! t = Some u) in Hu.
  by apply lookup_singleton_Some in Hu as [? _].
Qed.

Lemma floor_talks_nonzero t : talks floor_channel t -> t <> 0.
Proof. intros H. rewrite (floor_talks t H). discriminate. Qed.

Lemma floor_interrupt_decision_witness :
  exists requester rp vp s', pttRequest_section 100 9 (Some (endpoint 5009)) toy_now floor_server =
    (ReqPreempted requester rp 3 vp, s') /\ vp < rp /\ talks floor_channel 3.
Proof.
  assert (channels floor_server !! 100 = Some floor_channel) as Hch by apply lookup_singleton_eq.
  assert (authorized floor_channel 9 (endpoint 5009) toy_now (floor_peer 9)) as Ha.
  { split_and!; [by vm_compute|done|done|done|by vm_compute]. }
  assert (~ talks floor_channel 9) as Hn by (intros H%floor_talks; discriminate H).
  assert (activeCount floor_channel >= talkerLimit floor_server) as Hf by by vm_compute.
  assert (forall t, talks floor_channel t -> t <> 0) as Hz by exact floor_talks_nonzero.
  pose proof (floor_interrupt_decision floor_server 100 9 (endpoint 5009) toy_now floor_channel (floor_peer 9)
    Hch Ha Hn Hf Hz) as H.
  destruct (pttRequest_section _ _ _ _ _) as [d s'] eqn:E. cbn zeta in H.
  destruct d; try (exfalso; exact H).
  - exfalso. clear H. apply (f_equal (fun r => match r.1 with ReqDenied _ _ _ => true | _ => false end)) in E.
    vm_compute in E. discriminate E.
  - destruct H as (_ & -> & Ht & _ & Hlt & _). pose proof (floor_talks _ Ht) as ->.
    exists requester, (peerInterruptPriority (Some (floor_peer 9)) toy_now), victimPriority, s'.
    split; [reflexivity|]. split; [exact Hlt|exact Ht].
Defined.

(** The order opposite to [listing_order]. *)
#[refine] Definition reverse_order : RangeOrder :=
  {| range := fun K _ _ A m => rev (map_to_list m) |}.
Proof. intros. symmetry. apply Permutation_rev. Defined.

Lemma floor_order_independent_witness :
  @pttRequest_section listing_order 100 9 (Some (endpoint 5009)) toy_now floor_server =
  @pttRequest_section reverse_order 100 9 (Some (endpoint 5009)) toy_now floor_server.
Proof.
  refine (proj2 (floor_order_independent listing_order reverse_order floor_server 100 9 _ toy_now _)).
  intros ch Hch. assert (ch = floor_channel) as ->.
  { symmetry. apply (inj Some). rewrite <- Hch. symmetry. apply lookup_singleton_eq. }
  split; [|exact floor_talks_nonzero].
  intros k1 k2 p1 p2 x1 x2 H1 H2 Hs.
  apply elem_of_list_to_map_2, list_elem_of_fmap in H1 as (n1 & [= -> ->] & Hn1).
  apply elem_of_list_to_map_2, list_elem_of_fmap in H2 as (n2 & [= -> ->] & Hn2).
  simpl in Hs. subst n2. congruence.
Defined.
