(* ===== verification/ExpirySpec.v ===== *)
(** * What the expiry loops leave behind

    The talk leases, the membership deadlines, the cleanup tick and the removal of
    revoked members: which entries the loops remove, which they keep, and the
    reason they report, for every order Go may visit its maps in. *)

From S2P Require Import Prelude GoTime GoNet Packet Replay ControlAuth Identity Service Diagnostics Server Membership Send Floor Relay Steps RelaySpec FloorSpec.

(** ** Talk leases *)

(** A talk started at [u] has used up its lease at [now]. *)
Definition talk_over (limit : duration) (now u : time) : bool :=
  negb (IsZero u) && negb (Sub now u <? limit).

(** The start time the loop leaves. *)
Definition kept_start (limit : duration) (now u : time) : option time :=
  if talk_over limit now u then None else Some (if IsZero u then now else u).

Lemma expireTalker_eq limit now (ts : gmap Z time) rel t u :
  ts !! t = Some u ->
  expireTalker limit now (ts, rel) (t, u) =
  (partial_alter (fun _ => kept_start limit now u) t ts, if talk_over limit now u then rel ++ [t] else rel).
Proof.
  intros Hu. unfold expireTalker, kept_start, talk_over. destruct (IsZero u); [done|].
  destruct (Sub now u <? limit); cbn [negb andb]; [|done].
  f_equal. rewrite <- Hu. symmetry. apply partial_alter_self.
Qed.

(** The loop over entries with distinct keys decides each key on its own. *)
Lemma expireTalkers_fold limit now l ts rel :
  NoDup (fst <$> l) -> (forall t u, (t, u) ∈ l -> ts !! t = Some u) ->
  let r := fold_left (expireTalker limit now) l (ts, rel) in
  r.2 = rel ++ (fst <$> filter (fun e => talk_over limit now e.2 = true) l) /\
  forall t, r.1 !! t = if decide (t ∈ fst <$> l) then ts !! t ≫= kept_start limit now else ts !! t.
Proof.
  revert ts rel. induction l as [|[t u] l IH]; intros ts rel Hnd Hl r; subst r.
  { split; [by rewrite app_nil_r|]. done. }
  rewrite fmap_cons in *. cbn [fst] in *. apply NoDup_cons in Hnd as [Hni Hnd].
  cbn [fold_left]. rewrite expireTalker_eq by (apply Hl; left).
  destruct (IH (partial_alter (fun _ => kept_start limit now u) t ts) (if talk_over limit now u then rel ++ [t] else rel) Hnd) as [I1 I2]; [|split].
  - intros t' u' Hin. rewrite lookup_partial_alter_ne; [apply Hl; by right|].
    intros ->. apply Hni. by apply (list_elem_of_fmap_2 fst _ (t', u')).
  - rewrite I1, filter_cons. cbn [snd]. destruct (talk_over limit now u).
    + by rewrite decide_True, fmap_cons, <- app_assoc.
    + by rewrite decide_False.
  - intros t0. rewrite I2. destruct (decide (t0 = t)) as [->|Hn].
    + rewrite decide_False, decide_True by (by left || done).
      by rewrite lookup_partial_alter_eq, (Hl t u) by left.
    + rewrite lookup_partial_alter_ne by done.
      destruct (decide (t0 ∈ fst <$> l)); [by rewrite decide_True by (by right)|].
      rewrite decide_False; [done|]. by intros [?|?]%elem_of_cons.
Qed.

(** ** Loops that remove peers

    The expiry of memberships and the revocation of admissions are one loop: a
    peer [f] selects is dropped, and a record [g] of it is appended. *)

Section dropping.
Context {X R : Type} (f : peer -> option X) (g : X -> peer -> bool -> R).
Context (senderOf : R -> Z) (wasActive : R -> bool).
Hypothesis senderOf_g : forall x p a, senderOf (g x p a) = p_senderId p.
Hypothesis wasActive_g : forall x p a, wasActive (g x p a) = a.

Definition drop_step (acc : channel * list R) (entry : string * peer) : channel * list R :=
  match f entry.2 with
  | None => acc
  | Some x =>
      let '(ch', active) := dropPeer acc.1 entry.1 (p_senderId entry.2) in
      (ch', acc.2 ++ [g x entry.2 active])
  end.

(** A registration of sender [t] among the entries is selected. *)
Definition gone (l : list (string * peer)) (t : Z) : Prop :=
  Exists (fun kp => p_senderId kp.2 = t /\ is_Some (f kp.2)) l.

#[local] Instance gone_dec l t : Decision (gone l t).
Proof. unfold gone. apply _. Defined.

(** The talkers a list of records reports as released. *)
Definition active_senders (l : list R) : list Z := senderOf <$> filter (fun r => wasActive r = true) l.

Definition survives (p : peer) : option peer := match f p with Some _ => None | None => Some p end.

Definition kept_of {A} (l : list (string * peer)) (m : gmap Z A) (t : Z) : option A :=
  if decide (gone l t) then None else m !! t.

Lemma kept_of_skip {A} l k p (m : gmap Z A) t : f p = None -> kept_of ((k, p) :: l) m t = kept_of l m t.
Proof.
  intros E. unfold kept_of. apply decide_ext. unfold gone. rewrite Exists_cons. cbn [snd]. rewrite E.
  split; [|by right]. by intros [[_ [? ?]]|].
Qed.

Lemma kept_of_drop {A} l k p x (m : gmap Z A) t :
  f p = Some x -> kept_of ((k, p) :: l) m t = kept_of l (delete (p_senderId p) m) t.
Proof.
  intros E. unfold kept_of. destruct (decide (t = p_senderId p)) as [->|Hne].
  - rewrite lookup_delete_eq, decide_True; [by destruct (decide _)|]. left. split; [done|by exists x].
  - rewrite lookup_delete_ne by done. apply decide_ext. unfold gone. rewrite Exists_cons. cbn [snd].
    split; [|by right]. intros [[? _]|]; [congruence|done].
Qed.

Lemma drop_fold_peers l ch acc :
  NoDup (fst <$> l) -> (forall k p, (k, p) ∈ l -> peers ch !! k = Some p) ->
  forall k, peers (fold_left drop_step l (ch, acc)).1 !! k =
    if decide (k ∈ fst <$> l) then peers ch !! k ≫= survives else peers ch !! k.
Proof.
  revert ch acc. induction l as [|[k p] l IH]; intros ch acc Hnd Hl k0; [done|].
  rewrite fmap_cons in *. cbn [fst] in *. apply NoDup_cons in Hnd as [Hni Hnd].
  assert (peers ch !! k = Some p) as Hkp by (apply Hl; left).
  assert (forall k' p', (k', p') ∈ l -> k' <> k /\ peers ch !! k' = Some p') as Hl'.
  { intros k' p' Hin. split; [|by apply Hl; right].
    intros ->. apply Hni. by apply (list_elem_of_fmap_2 fst _ (k, p')). }
  cbn [fold_left]. unfold drop_step at 2. cbn [fst snd]. destruct (f p) as [x|] eqn:Ef.
  - cbn [dropPeer]. rewrite IH; cbn [peers]; [|done|].
    + destruct (decide (k0 = k)) as [->|Hne].
      * rewrite decide_False, decide_True by (by left || done). rewrite lookup_delete_eq, Hkp. cbn.
        unfold survives. by rewrite Ef.
      * rewrite lookup_delete_ne by done. destruct (decide (k0 ∈ fst <$> l)).
        -- by rewrite decide_True by (by right).
        -- rewrite decide_False; [done|]. by intros [?|?]%elem_of_cons.
    + intros k' p' Hin. destruct (Hl' _ _ Hin). by rewrite lookup_delete_ne.
  - rewrite IH; [|done|]; [|intros k' p' Hin; by apply Hl'].
    destruct (decide (k0 = k)) as [->|Hne].
    + rewrite decide_False, decide_True by (by left || done). rewrite Hkp. cbn. unfold survives. by rewrite Ef.
    + destruct (decide (k0 ∈ fst <$> l)); [by rewrite decide_True by (by right)|].
      rewrite decide_False; [done|]. by intros [?|?]%elem_of_cons.
Qed.

Lemma drop_fold_senders l ch acc t :
  let r := fold_left drop_step l (ch, acc) in
  activeTalkers r.1 !! t = kept_of l (activeTalkers ch) t /\
  codecConfigs r.1 !! t = kept_of l (codecConfigs ch) t /\
  mediaCodecConfigs r.1 !! t = kept_of l (mediaCodecConfigs ch) t.
Proof.
  revert ch acc. induction l as [|[k p] l IH]; intros ch acc r; [done|]. subst r.
  cbn [fold_left]. unfold drop_step at 2 4 6. cbn [fst snd]. destruct (f p) as [x|] eqn:Ef.
  - cbn [dropPeer]. rewrite !(kept_of_drop l k p x) by done. apply (IH (dropPeer ch k (p_senderId p)).1).
  - rewrite !(kept_of_skip l k p) by done. apply IH.
Qed.

Lemma drop_fold_records l ch acc :
  let r := fold_left drop_step l (ch, acc) in
  exists new, r.2 = acc ++ new /\
    (forall B (h : R -> B) (h' : X -> peer -> B), (forall x p a, h (g x p a) = h' x p) ->
      h <$> new = omap (fun kp => (fun x => h' x kp.2) <$> f kp.2) l) /\
    NoDup (active_senders new) /\
    (forall t, t ∈ active_senders new <-> is_Some (activeTalkers ch !! t) /\ gone l t).
Proof.
  revert ch acc. induction l as [|[k p] l IH]; intros ch acc r; subst r.
  { exists []. split_and!; [by rewrite app_nil_r|done|constructor|].
    intros t. split; [by intros ?%elem_of_nil|]. by intros [_ ?%Exists_nil]. }
  cbn [fold_left]. unfold drop_step at 2. cbn [fst snd]. destruct (f p) as [x|] eqn:Ef.
  - cbn [dropPeer]. set (act := bool_decide (is_Some (activeTalkers ch !! p_senderId p))).
    destruct (IH (dropPeer ch k (p_senderId p)).1 (acc ++ [g x p act])) as (new & E & Hmap & Hnd & Hact).
    exists (g x p act :: new). split_and!.
    + cbn [dropPeer fst] in E. by rewrite E, <- app_assoc.
    + intros B h h' Hh. rewrite fmap_cons, Hh, (Hmap B h h' Hh). cbn [omap list_omap snd]. by rewrite Ef.
    + cbn [dropPeer fst activeTalkers] in Hact. unfold active_senders. rewrite filter_cons, wasActive_g.
      destruct (decide (act = true)) as [Ha|Ha]; [|done]. rewrite fmap_cons, senderOf_g. constructor; [|done].
      intros [Hin _]%Hact. rewrite lookup_delete_eq in Hin. by destruct Hin.
    + intros t. cbn [dropPeer fst activeTalkers] in Hact. unfold active_senders, gone.
      rewrite filter_cons, wasActive_g, Exists_cons. cbn [snd]. rewrite Ef.
      assert (t ∈ active_senders new <-> t <> p_senderId p /\ is_Some (activeTalkers ch !! t) /\ gone l t) as Hn.
      { rewrite Hact, lookup_delete_is_Some. naive_solver. }
      unfold active_senders, gone in Hn.
      assert (act = true <-> is_Some (activeTalkers ch !! p_senderId p)) as Hb by apply bool_decide_eq_true.
      destruct (decide (act = true)) as [Ha|Ha].
      * rewrite fmap_cons, senderOf_g, elem_of_cons, Hn.
        destruct (decide (t = p_senderId p)) as [->|Hne]; naive_solver.
      * rewrite Hn. destruct (decide (t = p_senderId p)) as [->|Hne]; naive_solver.
  - destruct (IH ch acc) as (new & E & Hmap & Hnd & Hact). exists new. split_and!; [done| |done|].
    + intros B h h' Hh. rewrite (Hmap B h h' Hh). cbn [omap list_omap snd]. by rewrite Ef.
    + intros t. rewrite Hact. unfold gone. rewrite Exists_cons. cbn [snd]. rewrite Ef.
      split; [naive_solver|]. intros [? [[_ [? ?]]|?]]; naive_solver.
Qed.
End dropping.

Section expiry.
Context `{RangeOrder}.

Lemma range_keys_NoDup {K} `{Countable K} {A} (m : gmap K A) : NoDup (fst <$> range m).
Proof. rewrite (range_perm m). apply NoDup_fst_map_to_list. Qed.

Lemma expireTalkers_spec limit now ts :
  let r := expireTalkers limit now ts in
  r.2 = fst <$> filter (fun e => talk_over limit now e.2 = true) (range ts) /\
  forall t, r.1 !! t = ts !! t ≫= kept_start limit now.
Proof.
  unfold expireTalkers. destruct (expireTalkers_fold limit now (range ts) ts []) as [E1 E2].
  - apply range_keys_NoDup.
  - intros t u Hin. by apply elem_of_range in Hin.
  - split; [by rewrite E1|]. intros t. rewrite E2. destruct (decide _) as [|Hni]; [done|].
    destruct (ts !! t) as [u|] eqn:Hu; [|done]. destruct Hni.
    apply (list_elem_of_fmap_2 fst _ (t, u)). by apply elem_of_range.
Qed.

Lemma released_spec limit now ts t :
  t ∈ (expireTalkers limit now ts).2 <-> exists u, ts !! t = Some u /\ talk_over limit now u = true.
Proof.
  rewrite (proj1 (expireTalkers_spec limit now ts)), list_elem_of_fmap. split.
  - intros ([t' u] & -> & [Ho Hin]%list_elem_of_filter). exists u. by apply elem_of_range in Hin.
  - intros (u & Hu & Ho). exists (t, u). split; [done|]. apply list_elem_of_filter. by rewrite elem_of_range.
Qed.

(** A talk lease ends exactly on time: with a limit configured, the timeout
    check before a control packet releases the talkers whose talk started at
    least the limit ago and no others, reports each of them once and in order,
    gives a talk without a start time its full lease from now, and touches
    nothing else of the channel. *)
Theorem talk_lease_exact s channelId now ch :
  channels s !! channelId = Some ch -> 0 < talkMax s ->
  let '(released, s') := expireTalkIfNeeded channelId now s in
  (forall t, t ∈ released <->
    exists u, activeTalkers ch !! t = Some u /\ u <> zero_time /\ talkMax s <= Sub now u) /\
  NoDup released /\ Sorted Z.le released /\
  exists ts, channels s' = <[channelId := with_talkers ch ts]> (channels s) /\
    forall t, ts !! t =
      match activeTalkers ch !! t with
      | Some u => if decide (t ∈ released) then None else Some (if IsZero u then now else u)
      | None => None
      end.
Proof.
  intros Hch Hmax. unfold expireTalkIfNeeded. rewrite (proj2 (Z.leb_gt _ _) Hmax), Hch.
  destruct (size (activeTalkers ch) =? 0)%nat eqn:Hsize.
  - apply Nat.eqb_eq, map_size_empty_inv in Hsize. rewrite Hsize.
    split_and!; [|constructor|constructor|].
    + intros t. rewrite lookup_empty. split; [by intros ?%elem_of_nil|naive_solver].
    + exists ∅. split; [|intros t; by rewrite lookup_empty].
      rewrite insert_id; [done|]. rewrite Hch. destruct ch. simpl in *. by subst.
  - pose proof (released_spec (talkMax s) now (activeTalkers ch)) as Hrel.
    pose proof (expireTalkers_spec (talkMax s) now (activeTalkers ch)) as [E1 E2].
    destruct (expireTalkers _ _ _) as [ts released]. cbn [fst snd] in *.
    assert (forall t, t ∈ merge_sort Z.le released <-> t ∈ released) as Hperm
      by (intros; by rewrite merge_sort_Permutation).
    split_and!.
    + intros t. rewrite Hperm, Hrel. unfold talk_over, IsZero.
      split; intros (u & Hu & Hx); exists u; split; try done; gobool.
      * split; [intros ->; lia|lia].
      * destruct Hx. lia.
    + rewrite merge_sort_Permutation, E1. eapply sublist_NoDup; [apply (range_keys_NoDup (activeTalkers ch))|].
      apply fmap_sublist, sublist_filter.
    + apply Sorted_merge_sort, _.
    + exists ts. split; [done|]. intros t. rewrite E2.
      destruct (activeTalkers ch !! t) as [u|] eqn:Hu; [|done]. cbn. unfold kept_start.
      destruct (talk_over (talkMax s) now u) eqn:Ho.
      * rewrite decide_True; [done|]. rewrite Hperm, Hrel. by exists u.
      * rewrite decide_False; [done|]. rewrite Hperm, Hrel. intros (u' & Hu' & Ho'). congruence.
Qed.

(** ** Memberships *)

Definition membership_record (reason : Z) (p : peer) (active : bool) : membershipExpiry :=
  {| me_senderId := p_senderId p; me_reason := reason; me_active := active |}.

Definition expiredAt (now : time) (p : peer) : option Z := membershipExpired p now.

Lemma expirePeers_drop now ch :
  expirePeers now ch = fold_left (drop_step (expiredAt now) membership_record) (range (peers ch)) (ch, []).
Proof.
  unfold expirePeers. generalize (ch, @nil membershipExpiry).
  induction (range (peers ch)) as [|[k p] l IH]; intros [c rel]; [done|]. cbn [fold_left]. rewrite IH.
  f_equal.
Qed.

(** What a loop over all the peers of a channel leaves of it. *)
Lemma drop_all_peers {X R} (f : peer -> option X) (g : X -> peer -> bool -> R) ch :
  forall k, peers (fold_left (drop_step f g) (range (peers ch)) (ch, [])).1 !! k = peers ch !! k ≫= survives f.
Proof.
  intros k. rewrite drop_fold_peers.
  - destruct (decide _) as [|Hni]; [done|]. destruct (peers ch !! k) as [p|] eqn:E; [|done].
    destruct Hni. apply (list_elem_of_fmap_2 fst _ (k, p)). by apply elem_of_range.
  - apply range_keys_NoDup.
  - intros k' p' Hin. by apply elem_of_range in Hin.
Qed.

Lemma gone_range {X} (f : peer -> option X) ch t :
  gone f (range (peers ch)) t <->
  exists k p x, peers ch !! k = Some p /\ p_senderId p = t /\ f p = Some x.
Proof.
  unfold gone. rewrite Exists_exists. split.
  - intros ([k p] & Hin & E & x & Ef). apply elem_of_range in Hin. by exists k, p, x.
  - intros (k & p & x & Hp & E & Ef). exists (k, p). split; [by apply elem_of_range|]. split; [done|by exists x].
Qed.

(** A registration of [t] whose membership is over at [now]. *)
Definition member_expired (ch : channel) (now : time) (t : Z) : Prop :=
  exists k p reason, peers ch !! k = Some p /\ p_senderId p = t /\ membershipExpired p now = Some reason.

Lemma expirePeers_spec now ch :
  let r := expirePeers now ch in
  (forall k p, peers r.1 !! k = Some p <-> peers ch !! k = Some p /\ membershipExpired p now = None) /\
  (forall t u, activeTalkers r.1 !! t = Some u <-> activeTalkers ch !! t = Some u /\ ~ member_expired ch now t) /\
  (forall t c, codecConfigs r.1 !! t = Some c <-> codecConfigs ch !! t = Some c /\ ~ member_expired ch now t) /\
  (fun e => (me_senderId e, me_reason e)) <$> r.2 ≡ₚ
    omap (fun kp => pair (p_senderId kp.2) <$> membershipExpired kp.2 now) (map_to_list (peers ch)) /\
  NoDup (active_senders me_senderId me_active r.2) /\
  (forall t, t ∈ active_senders me_senderId me_active r.2 <->
    is_Some (activeTalkers ch !! t) /\ member_expired ch now t).
Proof.
  rewrite expirePeers_drop. cbn zeta.
  destruct (drop_fold_records (expiredAt now) membership_record me_senderId me_active
    (fun _ _ _ => eq_refl) (fun _ _ _ => eq_refl) (range (peers ch)) ch []) as (new & E & Hmap & Hnd & Hact).
  pose proof (fun t => drop_fold_senders (expiredAt now) membership_record (range (peers ch)) ch [] t) as Hsd.
  pose proof (fun t => gone_range (expiredAt now) ch t) as Hg. unfold kept_of in Hsd.
  split_and!.
  - intros k p. rewrite drop_all_peers. unfold survives, expiredAt.
    destruct (peers ch !! k) as [q|]; cbn; [|naive_solver]. destruct (membershipExpired q now) eqn:?; naive_solver.
  - intros t u. rewrite (proj1 (Hsd t)). destruct (decide _) as [Hd|Hd]; rewrite Hg in Hd; unfold member_expired; naive_solver.
  - intros t u. rewrite (proj1 (proj2 (Hsd t))). destruct (decide _) as [Hd|Hd]; rewrite Hg in Hd; unfold member_expired; naive_solver.
  - rewrite E. cbn [app]. rewrite (Hmap _ _ (fun reason p => (p_senderId p, reason))) by done.
    unfold expiredAt. apply omap_Permutation, range_perm.
  - by rewrite E.
  - intros t. rewrite E. cbn [app]. by rewrite Hact, Hg.
Qed.

Ltac split_reason :=
  first
    [ solve [split_and!; [lia|intros ? [[= <-] ?]; lia|intros ? [[= <-] ?]; lia]]
    | solve [split_and!; [lia|intros ? [[=] ?]|intros ? [[= <-] ?]; lia]]
    | solve [split_and!; [lia|intros ? [[= <-] ?]; lia|intros ? [[=] ?]]]
    | solve [split_and!; [lia|intros ? [[=] ?]|intros ? [[=] ?]]]
    | solve [left; split; [done|]; eexists; split; [split; [done|lia]|lia]]
    | solve [right; left; split; [done|]; eexists; split; [split; [done|lia]|lia]]
    | solve [right; right; split_and!; [done|lia|lia|intros ? [[[=] ?]|[[=] ?]]; lia]] ].

(** The reason of a membership expiry is the deadline that passed first: a
    peer without a reason has every deadline in the future, the identity or the
    service reason is given only when that admission is over and the lease is not,
    or was over later, and the lease reason only when no admission was over
    before it. *)
Theorem membershipExpired_reason p now :
  p_identityAdmission p = None \/ p_serviceAdmission p = None ->
  let lease_over := p_membershipDeadline p <> zero_time /\ p_membershipDeadline p <= now in
  let identity_over e := ia_expiresAt <$> p_identityAdmission p = Some e /\ e <= now in
  let service_over e := expiryDeadline <$> p_serviceAdmission p = Some e /\ e <= now in
  match membershipExpired p now with
  | None => ~ lease_over /\ (forall e, ~ identity_over e) /\ (forall e, ~ service_over e)
  | Some r =>
      (r = talkReleaseIdentityExpired /\ exists e, identity_over e /\ (lease_over -> e < p_membershipDeadline p)) \/
      (r = talkReleaseServiceExpired /\ exists e, service_over e /\ (lease_over -> e < p_membershipDeadline p)) \/
      (r = talkReleaseMembershipTimeout /\ lease_over /\
       forall e, identity_over e \/ service_over e -> p_membershipDeadline p <= e)
  end.
Proof.
  intros Hone. cbn zeta. unfold membershipExpired, After, Before, IsZero.
  set (d := p_membershipDeadline p).
  destruct (p_identityAdmission p) as [ad|], (p_serviceAdmission p) as [sa|]; [by destruct Hone| | |];
    clearbody d; clear Hone; cbn [fmap option_fmap option_map].
  - generalize (ia_expiresAt ad). intros ie.
    destruct (Z.eqb_spec d zero_time), (Z.ltb_spec now d), (Z.ltb_spec now ie), (Z.ltb_spec ie d);
      cbn [negb andb orb]; split_reason.
  - generalize (expiryDeadline sa). intros se.
    destruct (Z.eqb_spec d zero_time), (Z.ltb_spec now d), (Z.ltb_spec now se), (Z.ltb_spec se d);
      cbn [negb andb orb]; split_reason.
  - destruct (Z.eqb_spec d zero_time), (Z.ltb_spec now d); cbn [negb andb orb]; split_reason.
Qed.

(** The channel a loop stores back, [None] when its last peer is gone. *)
Definition stored (ch : channel) : option channel := if (size (peers ch) =? 0)%nat then None else Some ch.

Lemma store_channel_here channelId ch s : channels (store_channel channelId ch s) !! channelId = stored ch.
Proof.
  unfold store_channel, stored. destruct (_ =? _)%nat; simpl; [apply lookup_delete_eq|apply lookup_insert_eq].
Qed.

Lemma stored_Some ch ch' : stored ch = Some ch' <-> ch' = ch /\ peers ch <> ∅.
Proof.
  unfold stored. destruct (size (peers ch) =? 0)%nat eqn:E.
  - apply Nat.eqb_eq, map_size_empty_inv in E. naive_solver.
  - apply Nat.eqb_neq in E. split; [|naive_solver]. intros [= <-]. split; [done|].
    intros E0. rewrite E0, map_size_empty in E. done.
Qed.

(** The membership check before a packet removes exactly the registrations
    that are over at [now]: it reports each of them with its sender and reason, in
    the order of the senders, keeps every other one, ends the talk of each removed
    sender and reports it exactly once, drops its codec configuration, and
    removes the channel when no peer is left. *)
Theorem membership_expiry_exact s channelId now ch :
  channels s !! channelId = Some ch ->
  let '(expired, s') := expireMembershipIfNeeded channelId now s in
  exists ch', channels s' !! channelId = stored ch' /\
    (forall k, k <> channelId -> channels s' !! k = channels s !! k) /\
    (forall k p, peers ch' !! k = Some p <-> peers ch !! k = Some p /\ membershipExpired p now = None) /\
    (forall t u, activeTalkers ch' !! t = Some u <-> activeTalkers ch !! t = Some u /\ ~ member_expired ch now t) /\
    (forall t c, codecConfigs ch' !! t = Some c <-> codecConfigs ch !! t = Some c /\ ~ member_expired ch now t) /\
    Sorted by_sender expired /\
    (fun e => (me_senderId e, me_reason e)) <$> expired ≡ₚ
      omap (fun kp => pair (p_senderId kp.2) <$> membershipExpired kp.2 now) (map_to_list (peers ch)) /\
    NoDup (active_senders me_senderId me_active expired) /\
    (forall t, t ∈ active_senders me_senderId me_active expired <->
      is_Some (activeTalkers ch !! t) /\ member_expired ch now t).
Proof.
  intros Hch. unfold expireMembershipIfNeeded. rewrite Hch.
  destruct (expirePeers_spec now ch) as (Hp & Ht & Hc & Hrec & Hnd & Hact).
  destruct (expirePeers now ch) as [ch' released]. cbn [fst snd] in *.
  assert (active_senders me_senderId me_active (merge_sort by_sender released) ≡ₚ
    active_senders me_senderId me_active released) as Hperm.
  { unfold active_senders. apply fmap_Permutation. by rewrite merge_sort_Permutation. }
  exists ch'. split_and!; try done.
  - apply store_channel_here.
  - intros k Hk. by apply store_channel_lookup.
  - apply Sorted_merge_sort. intros x y. unfold by_sender. lia.
  - etrans; [|exact Hrec]. apply fmap_Permutation, merge_sort_Permutation.
  - by rewrite Hperm.
  - intros t. by rewrite Hperm.
Qed.

(** ** The cleanup tick *)

(** The state after the tick, channel by channel. *)
Lemma cleanup_lookup now s k :
  channels (cleanup_section now s).2 !! k =
  ch ← channels s !! k; stored (cleanupChannel (talkMax s) now k ch).1.1.
Proof.
  unfold cleanup_section.
  assert (forall l acc, NoDup (l.*1) -> talkMax acc.1.1 = talkMax s ->
    (forall k ch, (k, ch) ∈ l -> channels acc.1.1 !! k = Some ch) ->
    channels (fold_left (cleanup_step now) l acc).1.1 !! k =
    if decide (k ∈ l.*1) then ch ← channels acc.1.1 !! k; stored (cleanupChannel (talkMax s) now k ch).1.1
    else channels acc.1.1 !! k) as Hfold.
  { intros l. induction l as [|[k1 ch1] l IH]; intros [[s1 rels] deps] Hnd Hmax Hl; [done|].
    rewrite fmap_cons in *. apply NoDup_cons in Hnd as [Hni Hnd]. cbn [fst] in *. cbn [fold_left].
    assert (channels s1 !! k1 = Some ch1) as Hk1 by (apply Hl; left).
    unfold cleanup_step at 2. rewrite Hmax.
    destruct (cleanupChannel (talkMax s) now k1 ch1) as [[ch' r] d] eqn:Ecl.
    rewrite IH; cbn [fst]; [|done| |].
    - destruct (decide (k = k1)) as [->|Hne].
      + rewrite decide_False, decide_True by (by left || done).
        rewrite store_channel_here, Hk1. cbn. by rewrite Ecl.
      + rewrite store_channel_lookup by done.
        destruct (decide (k ∈ l.*1)); [by rewrite decide_True by (by right)|].
        rewrite decide_False; [done|]. by intros [?|?]%elem_of_cons.
    - unfold store_channel. by destruct (_ =? _)%nat.
    - intros k2 ch2 Hin. rewrite store_channel_lookup; [apply Hl; by right|].
      intros ->. apply Hni. by apply (list_elem_of_fmap_2 fst _ (k1, ch2)). }
  specialize (Hfold (range (channels s)) (s, [], [])). cbn [fst] in Hfold.
  destruct (fold_left _ _ _) as [[s' rels] deps]. cbn [fst snd] in *. rewrite Hfold; [|apply range_keys_NoDup|done|].
  - destruct (decide _) as [|Hni]; [done|]. destruct (channels s !! k) as [ch|] eqn:E; [|done].
    destruct Hni. apply (list_elem_of_fmap_2 fst _ (k, ch)). by apply elem_of_range.
  - intros k' ch' Hin. by apply elem_of_range in Hin.
Qed.

(** What a tick leaves of the start of a talk. *)
Definition talk_left (s : server) (now u u' : time) : Prop :=
  if decide (0 < talkMax s) then u = zero_time /\ u' = now \/ u <> zero_time /\ Sub now u < talkMax s /\ u' = u else u' = u.

Lemma talk_left_kept s now u u' :
  talk_left s now u u' <-> (if 0 <? talkMax s then kept_start (talkMax s) now u else Some u) = Some u'.
Proof.
  unfold talk_left, kept_start, talk_over, IsZero. destruct (Z.ltb_spec 0 (talkMax s)); [rewrite decide_True by done|rewrite decide_False by lia; naive_solver].
  destruct (Z.eqb_spec u zero_time) as [->|Hz]; cbn; [naive_solver|]. destruct (Z.ltb_spec (Sub now u) (talkMax s)); cbn; naive_solver lia.
Qed.

(** C24. One cleanup tick brings the whole server up to date.  A channel is gone afterwards
    exactly when there was none or every registration of it was over.  Of a channel that
    stays, the registrations are exactly those that were not over; its talks are exactly
    those whose talker has no registration that was over and that, with a talk limit,
    started less than the limit ago, their start unchanged but for one without a start,
    which starts now; and the codec configurations are those of the same senders. *)
Theorem cleanup_complete s now channelId :
  let s' := (cleanup_section now s).2 in
  (channels s' !! channelId = None <->
   forall ch k p, channels s !! channelId = Some ch -> peers ch !! k = Some p -> membershipExpired p now <> None) /\
  (forall ch', channels s' !! channelId = Some ch' -> exists ch, channels s !! channelId = Some ch /\
    (forall k p, peers ch' !! k = Some p <-> peers ch !! k = Some p /\ membershipExpired p now = None) /\
    (forall t u', activeTalkers ch' !! t = Some u' <->
      exists u, activeTalkers ch !! t = Some u /\ ~ member_expired ch now t /\ talk_left s now u u') /\
    (forall t c, codecConfigs ch' !! t = Some c <-> codecConfigs ch !! t = Some c /\ ~ member_expired ch now t)).
Proof.
  cbv zeta. rewrite cleanup_lookup. destruct (channels s !! channelId) as [ch|] eqn:Hch; cbn [mbind option_bind]; [|by split; [split|]].
  set (r := (cleanupChannel (talkMax s) now channelId ch).1.1).
  assert (
    (forall k p, peers r !! k = Some p <-> peers ch !! k = Some p /\ membershipExpired p now = None) /\
    (forall t u', activeTalkers r !! t = Some u' <->
      exists u, activeTalkers ch !! t = Some u /\ ~ member_expired ch now t /\ talk_left s now u u') /\
    (forall t c, codecConfigs r !! t = Some c <-> codecConfigs ch !! t = Some c /\ ~ member_expired ch now t)) as (Hp & Ht & Hc).
  { unfold r, cleanupChannel. destruct (expirePeers_spec now ch) as (Hp & Ht & Hc & _).
    destruct (expirePeers now ch) as [ch1 expired]. cbn [fst snd] in *.
    pose proof (proj2 (expireTalkers_spec (talkMax s) now (activeTalkers ch1))) as Hx. setoid_rewrite talk_left_kept.
    destruct (0 <? talkMax s).
    - destruct (expireTalkers _ _ _) as [ts timedOut]. cbn [fst snd with_talkers peers activeTalkers codecConfigs] in *.
      split_and!; [done| |done]. intros t u'. rewrite Hx, bind_Some. setoid_rewrite Ht. naive_solver.
    - cbn [fst snd with_talkers peers activeTalkers codecConfigs]. split_and!; [done| |done]. intros t u'. rewrite Ht. naive_solver. }
  split.
  - split.
    + intros Hn ch0 k p [= <-] Hk He. unfold stored in Hn. destruct (size (peers r) =? 0)%nat eqn:E; [|done].
      apply Nat.eqb_eq, map_size_empty_inv in E. assert (peers r !! k = Some p) as Hr by by apply Hp. by rewrite E in Hr.
    + intros Hall. destruct (stored r) as [ch'|] eqn:E; [|done]. apply stored_Some in E as [-> Hne]. destruct Hne.
      apply map_empty. intros k. destruct (peers r !! k) as [p|] eqn:E; [|done]. apply Hp in E as [Hk He]. by destruct (Hall ch k p eq_refl Hk).
  - intros ch' [-> _]%stored_Some. by exists ch.
Qed.

(** ** Revocation *)

Definition revoked_admission (target : serviceAdmissionRevocationTarget) (p : peer) : option serviceAdmission :=
  sa ← p_serviceAdmission p; if target_matches target (rt_channelID target) sa then Some sa else None.

Definition revocation_record (target : serviceAdmissionRevocationTarget) (sa : serviceAdmission) (p : peer)
    (active : bool) : revokedPeer :=
  {| rp_channelID := rt_channelID target; rp_senderID := p_senderId p; rp_serviceID := sa_serviceID sa;
     rp_active := active; rp_peer := p |}.

Lemma revoke_drop target l acc :
  fold_left (revokePeer target) l acc =
  fold_left (drop_step (revoked_admission target) (revocation_record target)) l acc.
Proof.
  revert acc. induction l as [|[k p] l IH]; intros [c rel]; [done|]. cbn [fold_left]. rewrite IH. f_equal.
  unfold drop_step, revokePeer, revoked_admission. cbn [fst snd].
  destruct (p_serviceAdmission p) as [sa|]; [|done]. cbn. by destruct (target_matches _ _ _).
Qed.

Lemma survives_revoked target (op : option peer) p :
  op ≫= survives (revoked_admission target) = Some p <->
  op = Some p /\ forall sa, p_serviceAdmission p = Some sa -> target_matches target (rt_channelID target) sa = false.
Proof.
  unfold survives, revoked_admission. destruct op as [q|]; cbn; [|by split; [|intros [? _]]].
  destruct (p_serviceAdmission q) as [sa|] eqn:Esa; cbn.
  2: { split; [|by intros [[= <-] _]]. intros [= <-]. split; [done|]. intros sa' ?. congruence. }
  destruct (target_matches _ _ sa) eqn:Em; cbn; split.
  - done.
  - intros [[= <-] Hf]. specialize (Hf sa Esa). congruence.
  - intros [= <-]. split; [done|]. intros sa' ?. congruence.
  - by intros [[= <-] _].
Qed.

(** C23. A revocation evicts exactly its members: of the named channel it removes
    the registrations whose service admission the target names, reports each of
    them, ends their talks and reports each ended talk once, and leaves every
    other registration and every other channel alone. *)
Theorem revocation_evicts s target ch :
  channels s !! rt_channelID target = Some ch ->
  let '(revoked, s') := revoke_section target s in
  exists ch', channels s' !! rt_channelID target = stored ch' /\
    (forall k, k <> rt_channelID target -> channels s' !! k = channels s !! k) /\
    (forall k p, peers ch' !! k = Some p <-> peers ch !! k = Some p /\
      forall sa, p_serviceAdmission p = Some sa -> target_matches target (rt_channelID target) sa = false) /\
    rp_peer <$> revoked ≡ₚ
      filter (fun p => is_Some (revoked_admission target p)) (snd <$> map_to_list (peers ch)) /\
    NoDup (active_senders rp_senderID rp_active revoked) /\
    (forall t, t ∈ active_senders rp_senderID rp_active revoked <->
      is_Some (activeTalkers ch !! t) /\
      exists k p sa, peers ch !! k = Some p /\ p_senderId p = t /\ p_serviceAdmission p = Some sa /\
        target_matches target (rt_channelID target) sa = true) /\
    (forall t, is_Some (activeTalkers ch' !! t) <->
      is_Some (activeTalkers ch !! t) /\ t ∉ active_senders rp_senderID rp_active revoked).
Proof.
  intros Hch. unfold revoke_section. rewrite Hch, revoke_drop.
  destruct (drop_fold_records (revoked_admission target) (revocation_record target) rp_senderID rp_active
    (fun _ _ _ => eq_refl) (fun _ _ _ => eq_refl) (range (peers ch)) ch []) as (new & E & Hmap & Hnd & Hact).
  pose proof (drop_all_peers (revoked_admission target) (revocation_record target) ch) as Hp.
  pose proof (fun t => proj1 (drop_fold_senders (revoked_admission target) (revocation_record target)
    (range (peers ch)) ch [] t)) as Ht.
  destruct (fold_left _ _ _) as [ch' revoked]. cbn [fst snd app] in *. subst new.
  exists ch'. split_and!; try done.
  - apply store_channel_here.
  - intros k Hk. by apply store_channel_lookup.
  - intros k p. rewrite Hp. apply survives_revoked.
  - rewrite (Hmap _ rp_peer (fun _ p => p)) by done. rewrite <- (range_perm (peers ch)).
    clear. induction (range (peers ch)) as [|[k p] l IH]; [done|].
    rewrite fmap_cons, filter_cons. cbn [omap list_omap snd].
    destruct (revoked_admission target p) as [sa|]; cbn [fmap option_fmap option_map].
    + rewrite decide_True by by exists sa. by constructor.
    + rewrite decide_False by by intros [? ?]. done.
  - intros t. rewrite Hact, gone_range. apply and_iff_compat_l. unfold revoked_admission. split.
    + intros (k & p & x & Hk & Hs & (sa & Hsa & Hm)%bind_Some). exists k, p, sa.
      split_and!; try done. by destruct (target_matches _ _ sa).
    + intros (k & p & sa & Hk & Hs & Hsa & Hm). exists k, p, sa. split_and!; try done. rewrite Hsa. cbn. by rewrite Hm.
  - intros t. rewrite Ht. unfold kept_of. destruct (decide _) as [Hg|Hg].
    + split; [by intros [? ?]|]. intros [Ha Hni]. destruct Hni. by apply Hact.
    + split; [intros Ha; split; [done|]|by intros [? _]]. by intros [_ ?]%Hact.
Qed.
End expiry.

(** ** Concrete inputs *)

(** The channel of [floor_channel] on a relay with a talk limit of a minute. *)
Definition timed_server : server :=
  with_channels (newServer true (60 * Second) false 4 toy_now toy_diagnostics) {[100 := floor_channel]}.

Lemma timed_channel : channels timed_server !! 100 = Some floor_channel.
Proof. apply lookup_singleton_eq. Qed.

Definition minute_later : time := toy_now + 60 * Second.

Lemma talk_lease_exact_witness :
  exists released s', expireTalkIfNeeded 100 minute_later timed_server = (released, s') /\ 3 ∈ released.
Proof.
  pose proof (talk_lease_exact timed_server 100 minute_later floor_channel timed_channel eq_refl) as H.
  destruct (expireTalkIfNeeded 100 minute_later timed_server) as [released s'].
  exists released, s'. split; [reflexivity|]. apply (proj1 H 3). exists toy_now.
  split; [apply lookup_singleton_eq|]. split; [discriminate|]. by vm_compute.
Defined.

Lemma membershipExpired_reason_witness :
  membershipExpired (floor_peer 3) minute_later = Some talkReleaseMembershipTimeout /\
  p_membershipDeadline (floor_peer 3) <= minute_later.
Proof.
  pose proof (membershipExpired_reason (floor_peer 3) minute_later (or_intror eq_refl)) as H.
  destruct (membershipExpired (floor_peer 3) minute_later) as [r|] eqn:E.
  - cbn zeta in H. destruct H as [[-> _]|[[-> _]|(-> & H & _)]]; [by vm_compute in E..|].
    split; [reflexivity|exact (proj2 H)].
  - vm_compute in E. discriminate E.
Defined.

Lemma membership_expiry_exact_witness :
  exists expired s', expireMembershipIfNeeded 100 minute_later timed_server = (expired, s') /\
    3 ∈ active_senders me_senderId me_active expired.
Proof.
  pose proof (membership_expiry_exact timed_server 100 minute_later floor_channel timed_channel) as H.
  destruct (expireMembershipIfNeeded 100 minute_later timed_server) as [expired s'].
  exists expired, s'. split; [reflexivity|]. destruct H as (ch' & _ & _ & _ & _ & _ & _ & _ & _ & H).
  apply H. split; [exists toy_now; apply lookup_singleton_eq|].
  exists (peerMapKey (Some (endpoint 5003))), (floor_peer 3), talkReleaseMembershipTimeout.
  split_and!; [by vm_compute..].
Defined.

Lemma cleanup_complete_witness :
  exists ch', channels (cleanup_section toy_now timed_server).2 !! 100 = Some ch' /\
    (forall k p, peers ch' !! k = Some p -> membershipExpired p toy_now = None).
Proof.
  destruct (channels (cleanup_section toy_now timed_server).2 !! 100) as [ch'|] eqn:E.
  - exists ch'. split; [reflexivity|].
    destruct (proj2 (cleanup_complete timed_server toy_now 100) ch' E) as (ch & _ & Hp & _). intros k p [_ Hk]%Hp. exact Hk.
  - apply (f_equal (fun o => match o with Some _ => true | None => false end)) in E.
    vm_compute in E. discriminate E.
Defined.

(** A recorder whose admission is revoked. *)
Definition service_peer : peer :=
  set_admissions (floor_peer 3) None
    (Some {| sa_permissions := 1; sa_priority := 0; sa_role := "recorder"; sa_serviceID := "svc";
             sa_grantHash := []; sa_grantIDHash := zeros 32; sa_grantExpires := minute_later; sa_grace := 0 |}).

Definition service_channel : channel :=
  with_peers floor_channel {[peerMapKey (Some (endpoint 5003)) := service_peer]}.
Definition service_server : server := with_channels plain_server {[100 := service_channel]}.

Definition svc_target : serviceAdmissionRevocationTarget :=
  {| rt_channelID := 100; rt_serviceID := "svc"; rt_grantIDHash := None |}.

Lemma revocation_evicts_witness :
  exists revoked s', revoke_section svc_target service_server = (revoked, s') /\
    3 ∈ active_senders rp_senderID rp_active revoked.
Proof.
  pose proof (revocation_evicts service_server svc_target service_channel (lookup_singleton_eq _ _)) as H.
  destruct (revoke_section svc_target service_server) as [revoked s'].
  exists revoked, s'. split; [reflexivity|]. destruct H as (ch' & _ & _ & _ & _ & _ & H & _).
  apply H. split; [exists toy_now; apply lookup_singleton_eq|].
  eexists (peerMapKey (Some (endpoint 5003))), service_peer, _.
  split; [apply lookup_singleton_eq|]. split; [reflexivity|]. split; reflexivity.
Defined.
