(* ===== verification/HandlerSpec.v ===== *)
(** * What the packet handlers guarantee

    Who may have media forwarded, which packets have no effect, what a PING and a
    JOIN change.  The handlers are run from the first section to the last with
    the equations below. *)

From S2P Require Import Prelude GoTime GoNet Packet Replay ControlAuth Identity Service Diagnostics Server Membership Send Floor Relay Steps RelaySpec.

Open Scope eff_scope.

(** ** Running a handler *)

Lemma run_gets {A B} (f : server -> A) (k : A -> handler B) s : bind (gets f) k s = k (f s) s.
Proof. unfold bind, gets. by destruct (k (f s) s) as [[??]?]. Qed.

Lemma run_ret {A B} (a : A) (k : A -> handler B) s : bind (ret a) k s = k a s.
Proof. unfold bind, ret. by destruct (k a s) as [[??]?]. Qed.

Lemma run_section {A B} (f : server -> A * server) (k : A -> handler B) s :
  bind (section f) k s = k (f s).1 (f s).2.
Proof.
  unfold bind, section, atomically. destruct (f s) as [a s1]; cbn [fst snd].
  by destruct (k a s1) as [[??]?].
Qed.

Lemma run_bind {A B C} (m : handler A) (f : A -> handler B) (k : B -> handler C) s :
  bind (bind m f) k s = bind m (fun a => bind (f a) k) s.
Proof.
  unfold bind. destruct (m s) as [[a s1] o1]. destruct (f a s1) as [[b s2] o2].
  destruct (k b s2) as [[c s3] o3]. by rewrite app_assoc.
Qed.

Lemma run_emit {B} o (k : unit -> handler B) s :
  bind (emit o) k s = (result (k tt) s, final (k tt) s, o :: outs (k tt) s).
Proof. unfold bind, emit, result, final, outs. by destruct (k tt s) as [[??]?]. Qed.

Ltac run := repeat first [rewrite run_gets | rewrite run_ret | rewrite run_section | rewrite run_bind].

(** Sending the same way to every element of a list. *)
Lemma for_each_emit {A} (g : A -> output) (l : list A) s :
  for_each l (fun x => emit (g x) : handler unit) s = (tt, s, g <$> l).
Proof.
  induction l as [|x l IH]; [done|]. change (for_each (x :: l) (fun x => emit (g x)))
    with (bind (emit (g x)) (fun _ => for_each l (fun x => emit (g x) : handler unit))).
  rewrite run_emit. unfold result, final, outs. by rewrite IH.
Qed.

(** ** Media *)

Section media.
Context `{Entropy} `{RangeOrder} `{Environment} `{Ed25519} `{TicketJSON} `{GrantJSON}.

(** The packet comes from the endpoint of a registered talker who may talk, whose
    membership is live, and, where Control Authentication is required, who is
    authenticated and announced the configuration the packet uses. *)
Record media_admitted (s : server) (ch : channel) (pkt : parsedPacket) (a : UDPAddr) (p : peer) : Prop := {
  ma_peer : peers ch !! peerMapKey (Some a) = Some p;
  ma_sender : p_senderId p = SenderId (Header pkt);
  ma_talking : is_Some (activeTalkers ch !! SenderId (Header pkt));
  ma_allowed : peerAllowsTalk (ChannelId (Header pkt)) (SenderId (Header pkt)) (Some a) (clk 10) s = true;
  ma_flag : flag_set (Flags (Header pkt)) packetFlagAESGCMV2HeaderAAD = true ->
    server_controlAuthRequired s (ChannelId (Header pkt)) = true;
  ma_auth : server_controlAuthRequired s (ChannelId (Header pkt)) = true ->
    p_authenticated p = true /\ mediaMatchesCodecConfig pkt s = true;
  ma_live : p_membershipDeadline p <> zero_time /\ clk 11 < p_membershipDeadline p
}.

Lemma member_eq s channelId senderId a ch :
  channels s !! channelId = Some ch ->
  member s channelId senderId (Some a) =
  p ← peers ch !! peerMapKey (Some a); if p_senderId p =? senderId then Some p else None.
Proof. intros Hch. unfold member, lookup_peer. rewrite Hch. done. Qed.

(** The registrations of the channel other than the one of the endpoint. *)
Lemma otherPeers_spec s channelId ch a :
  channels s !! channelId = Some ch ->
  otherPeers s channelId (peerMapKey (Some a)) ≡ₚ snd <$> map_to_list (delete (peerMapKey (Some a)) (peers ch)).
Proof.
  intros Hch. unfold otherPeers. rewrite Hch. apply fmap_Permutation.
  rewrite (range_perm (peers ch)). apply NoDup_Permutation.
  - apply NoDup_filter, NoDup_map_to_list.
  - apply NoDup_map_to_list.
  - intros [k p]. rewrite list_elem_of_filter, !elem_of_map_to_list, lookup_delete_Some.
    pose proof (peerMapKey_nonempty a). cbn [fst]. naive_solver.
Qed.

Lemma isActive_spec s channelId senderId a ch :
  channels s !! channelId = Some ch -> senderId <> 0 ->
  isActiveTalkerEndpoint channelId senderId (Some a) s = true <->
  exists p, peers ch !! peerMapKey (Some a) = Some p /\ p_senderId p = senderId /\
    is_Some (activeTalkers ch !! senderId).
Proof.
  intros Hch Hs. unfold isActiveTalkerEndpoint.
  rewrite (proj2 (Z.eqb_neq _ _) Hs), (member_eq _ _ _ _ _ Hch), Hch.
  destruct (peers ch !! _) as [p|]; cbn; [|naive_solver].
  destruct (p_senderId p =? senderId) eqn:E; gobool; [|naive_solver].
  rewrite bool_decide_eq_true. naive_solver.
Qed.

Lemma member_of s ch channelId a p :
  channels s !! channelId = Some ch -> peers ch !! peerMapKey (Some a) = Some p ->
  member s channelId (p_senderId p) (Some a) = Some p.
Proof. intros Hch Hp. rewrite (member_eq _ _ _ _ _ Hch), Hp. cbn. by rewrite Z.eqb_refl. Qed.

(** A refreshed membership and a refused refresh. *)
Lemma refresh_spec s ch channelId a p now :
  channels s !! channelId = Some ch -> peers ch !! peerMapKey (Some a) = Some p -> p_senderId p <> 0 ->
  refreshMembership channelId (p_senderId p) (Some a) now s =
  if decide (p_membershipDeadline p <> zero_time /\ now < p_membershipDeadline p)
  then (true, put_peer channelId (peerMapKey (Some a))
          (set_membership p (p_membershipLease p) (p_keepaliveInterval p) (Add now (p_membershipLease p)) now) s)
  else (false, s).
Proof.
  intros Hch Hp Hs. unfold refreshMembership. rewrite (proj2 (Z.eqb_neq _ _) Hs), (member_of _ _ _ _ _ Hch Hp).
  unfold IsZero, After. destruct (decide _) as [[Hz Hl]|Hn].
  - rewrite (proj2 (Z.eqb_neq _ _) Hz), (proj2 (Z.ltb_lt _ _) Hl). done.
  - destruct (Z.eqb_spec (p_membershipDeadline p) zero_time); [done|].
    rewrite (proj2 (Z.ltb_ge _ _)) by lia. done.
Qed.

(** Refreshing keeps the endpoints. *)
Lemma put_peer_otherPeers s channelId ch key p :
  channels s !! channelId = Some ch ->
  channels (put_peer channelId key p s) !! channelId = Some (with_peers ch (<[key := p]> (peers ch))).
Proof. intros Hch. unfold put_peer. simpl. by rewrite lookup_alter_eq, Hch. Qed.

Lemma admitted_run s ch pkt a p :
  channels s !! ChannelId (Header pkt) = Some ch -> SenderId (Header pkt) <> 0 -> media_admitted s ch pkt a p ->
  let s' := put_peer (ChannelId (Header pkt)) (peerMapKey (Some a))
        (set_membership p (p_membershipLease p) (p_keepaliveInterval p) (Add (clk 11) (p_membershipLease p)) (clk 11)) s in
  handleMediaPacket pkt (Some a) s =
  (tt, s', (fun q => Datagram (Raw pkt) (p_addr q)) <$> otherPeers s' (ChannelId (Header pkt)) (peerMapKey (Some a))).
Proof.
  intros Hch Hs [Hp Hsd Ht Hal Hfl Hau Hlive] s'. unfold handleMediaPacket. run.
  rewrite (proj2 (isActive_spec _ _ _ _ _ Hch Hs)) by eauto. cbn [negb]. run. rewrite Hal. cbn [negb]. run.
  destruct (server_controlAuthRequired s (ChannelId (Header pkt))) eqn:Hreq.
  - rewrite andb_false_r. run. destruct (Hau eq_refl) as [Ha Hm].
    unfold isAuthenticatedPeer. rewrite <- Hsd, (member_of _ _ _ _ _ Hch Hp), Ha. cbn [negb]. run. rewrite Hm.
    cbn [negb]. run. rewrite (refresh_spec _ _ _ _ _ _ Hch Hp) by congruence.
    rewrite decide_True by done. cbn [fst snd negb]. unfold broadcastExceptAddr. run. apply for_each_emit.
  - destruct (flag_set (Flags (Header pkt)) packetFlagAESGCMV2HeaderAAD); [by specialize (Hfl eq_refl)|].
    cbn [andb negb]. run. cbn [negb]. run. rewrite <- Hsd, (refresh_spec _ _ _ _ _ _ Hch Hp) by congruence.
    rewrite decide_True by done. cbn [fst snd negb]. unfold broadcastExceptAddr. run. apply for_each_emit.
Qed.

Lemma refused_run s ch pkt a :
  channels s !! ChannelId (Header pkt) = Some ch -> SenderId (Header pkt) <> 0 ->
  (forall p, ~ media_admitted s ch pkt a p) -> handleMediaPacket pkt (Some a) s = (tt, s, []).
Proof.
  intros Hch Hs Hno. unfold handleMediaPacket. run.
  destruct (isActiveTalkerEndpoint _ _ _ _) eqn:Hact; [|done].
  apply (isActive_spec _ _ _ _ _ Hch Hs) in Hact as (p & Hp & Hsd & Ht). cbn [negb]. run.
  destruct (peerAllowsTalk _ _ _ _ _) eqn:Hal; [|done]. cbn [negb]. run.
  specialize (Hno p). pose proof (refresh_spec s ch _ a p (clk 11) Hch Hp ltac:(congruence)) as Hr.
  pose proof (member_of s ch _ a p Hch Hp) as Hm. rewrite Hsd in Hr, Hm.
  destruct (server_controlAuthRequired s (ChannelId (Header pkt))) eqn:Hreq.
  - rewrite andb_false_r. run. unfold isAuthenticatedPeer. rewrite Hm.
    destruct (p_authenticated p) eqn:Ha; [|done]. cbn [negb]. run.
    destruct (mediaMatchesCodecConfig pkt s) eqn:Hc; [|done]. cbn [negb]. run. rewrite Hr.
    destruct (decide _); [|done]. destruct Hno. by split.
  - destruct (flag_set (Flags (Header pkt)) packetFlagAESGCMV2HeaderAAD) eqn:Hfl; [done|]. cbn [andb negb]. run.
    cbn [negb]. run. rewrite Hr. destruct (decide _); [|done]. destruct Hno. split; try done; congruence.
Qed.

(** C6. Media goes only from a legitimate talker to the others: a media packet
    from an admitted endpoint is forwarded, byte for byte and exactly once, to
    every other registration of its channel and to nothing else, and renews the
    membership of the talker; from any other endpoint nothing is sent and nothing
    changes. *)
Theorem media_forwarding s ch pkt a :
  channels s !! ChannelId (Header pkt) = Some ch -> SenderId (Header pkt) <> 0 ->
  (forall p, media_admitted s ch pkt a p ->
    outs (handleMediaPacket pkt (Some a)) s ≡ₚ
      (fun q => Datagram (Raw pkt) (p_addr q)) <$> (snd <$> map_to_list (delete (peerMapKey (Some a)) (peers ch))) /\
    final (handleMediaPacket pkt (Some a)) s =
      put_peer (ChannelId (Header pkt)) (peerMapKey (Some a))
        (set_membership p (p_membershipLease p) (p_keepaliveInterval p) (Add (clk 11) (p_membershipLease p)) (clk 11)) s) /\
  ((forall p, ~ media_admitted s ch pkt a p) -> handleMediaPacket pkt (Some a) s = (tt, s, [])).
Proof.
  intros Hch Hs. split; [|by apply refused_run].
  intros p Hp. unfold outs, final. rewrite (admitted_run _ _ _ _ _ Hch Hs Hp). cbn [fst snd]. split; [|done].
  apply fmap_Permutation. rewrite otherPeers_spec by (by apply put_peer_otherPeers).
  simpl peers. by rewrite delete_insert_eq.
Qed.

Lemma media_admitted_dec s ch pkt a p :
  peers ch !! peerMapKey (Some a) = Some p -> media_admitted s ch pkt a p \/ ~ media_admitted s ch pkt a p.
Proof.
  intros Hp. destruct (decide (p_senderId p = SenderId (Header pkt) /\
    is_Some (activeTalkers ch !! SenderId (Header pkt)) /\
    peerAllowsTalk (ChannelId (Header pkt)) (SenderId (Header pkt)) (Some a) (clk 10) s = true /\
    (flag_set (Flags (Header pkt)) packetFlagAESGCMV2HeaderAAD = true ->
     server_controlAuthRequired s (ChannelId (Header pkt)) = true) /\
    (server_controlAuthRequired s (ChannelId (Header pkt)) = true ->
     p_authenticated p = true /\ mediaMatchesCodecConfig pkt s = true) /\
    p_membershipDeadline p <> zero_time /\ clk 11 < p_membershipDeadline p)) as [Hy|Hn].
  - left. destruct Hy as (? & ? & ? & ? & ? & ?). by split.
  - right. intros [? ? ? ? ? ? ?]. by apply Hn.
Qed.

(** What a media packet sends, in either case. *)
Lemma media_outputs s ch pkt a o :
  channels s !! ChannelId (Header pkt) = Some ch -> SenderId (Header pkt) <> 0 ->
  o ∈ outs (handleMediaPacket pkt (Some a)) s ->
  exists k q, peers ch !! k = Some q /\ k <> peerMapKey (Some a) /\ o = Datagram (Raw pkt) (p_addr q).
Proof.
  intros Hch Hs Ho. destruct (peers ch !! peerMapKey (Some a)) as [p|] eqn:Hp.
  - destruct (media_admitted_dec s ch pkt a p Hp) as [Hm|Hm].
    + unfold outs in Ho. rewrite (admitted_run _ _ _ _ _ Hch Hs Hm) in Ho. cbn [snd] in Ho.
      apply list_elem_of_fmap in Ho as (q & -> & Hq).
      rewrite (otherPeers_spec _ _ _ _ (put_peer_otherPeers _ _ _ _ _ Hch)), list_elem_of_fmap in Hq.
      destruct Hq as ([k q'] & -> & Hk). apply elem_of_map_to_list, lookup_delete_Some in Hk as [Hne Hk].
      simpl peers in Hk. rewrite lookup_insert_ne in Hk by done. by exists k, q'.
    + unfold outs in Ho. rewrite (refused_run _ _ _ _ Hch Hs) in Ho; [by apply elem_of_nil in Ho|].
      intros p' Hm'. pose proof (ma_peer _ _ _ _ _ Hm') as Hp'. by rewrite Hp in Hp'; injection Hp' as <-.
  - unfold outs in Ho. rewrite (refused_run _ _ _ _ Hch Hs) in Ho; [by apply elem_of_nil in Ho|].
    intros p' Hm'. pose proof (ma_peer _ _ _ _ _ Hm') as Hp'. by rewrite Hp in Hp'.
Qed.

(** No echo: in a reachable state a media packet is only ever sent on as it
    came in, and the endpoint it came from gets nothing back. *)
Theorem media_never_echoed s0 s pkt a o :
  channels s0 = ∅ -> reachable s0 s -> SenderId (Header pkt) <> 0 ->
  o ∈ outs (handleMediaPacket pkt (Some a)) s -> exists b, o = Datagram (Raw pkt) b /\ b <> a.
Proof.
  intros E Hr Hs Ho. destruct (channels s !! ChannelId (Header pkt)) as [ch|] eqn:Hch.
  - destruct (media_outputs _ _ _ _ _ Hch Hs Ho) as (k & q & Hk & Hne & ->). exists (p_addr q). split; [done|].
    intros <-. destruct (reachable_ok _ _ E Hr) as [Hok _].
    by destruct (ok_peers _ _ _ (Hok _ _ Hch) _ _ Hk).
  - unfold outs, handleMediaPacket in Ho. rewrite run_gets in Ho.
    unfold isActiveTalkerEndpoint in Ho. rewrite Hch in Ho.
    destruct (_ =? 0); [by apply elem_of_nil in Ho|].
    destruct (member _ _ _ _); by apply elem_of_nil in Ho.
Qed.
End media.

Section ignored.
Context `{Entropy} `{RangeOrder} `{Environment} `{Ed25519} `{TicketJSON} `{GrantJSON}.

(** ** Packets without effect *)

(** A packet of another protocol version, or of sender 0, is dropped before
    anything is looked at: nothing is sent and nothing changes. *)
Theorem foreign_packet_ignored pkt oa s :
  Version (Header pkt) <> 1 \/ SenderId (Header pkt) = 0 -> handlePacket pkt oa s = (tt, s, []).
Proof.
  intros Hf. unfold handlePacket. destruct (_ || _) eqn:E; [done|]. exfalso.
  unfold protocolVersion in E. gobool. lia.
Qed.

Lemma verify_same_auth a b pkt :
  same_auth a b -> verifyIncomingControl a pkt = verifyIncomingControl b pkt.
Proof.
  destruct a as [a|], b as [b|]; [|by intros []..|reflexivity]. intros (_ & Hk & _).
  assert (forall c k, key (Some a) c k = key (Some b) c k) as Hkey by (intros; unfold key; by rewrite Hk).
  unfold verifyIncomingControl. rewrite Hkey. reflexivity.
Qed.

(** A JOIN without a session is refused before the challenges are looked at. *)
Lemma consume_zero_meta pkt oa t1 t2 t3 a : consumeJoinChallenge pkt oa zero_meta t1 t2 t3 a = (None, a).
Proof. by destruct oa. Qed.

Definition expiry_pass (pkt : parsedPacket) : handler unit :=
  emitMembershipExpirations (ChannelId (Header pkt)) (clk 0).

Lemma expiry_pass_config pkt s : same_config s (final (expiry_pass pkt) s).
Proof.
  destruct (server_steps_frame (fun _ => True) s (final (expiry_pass pkt) s)) as [Hc _]; [|exact Hc].
  unfold expiry_pass. by apply (steps_emitMembershipExpirations (fun _ => True)).
Qed.

(** A packet whose continuation does nothing in the state after the expiry pass
    does nothing but the expiry pass. *)
Lemma handlePacket_after pkt oa s :
  Version (Header pkt) = 1 -> SenderId (Header pkt) <> 0 ->
  handlePacket pkt oa s =
  let t := PType (Header pkt) in
  bind (expiry_pass pkt) (fun _ =>
    if (t =? pktAudio) || (t =? pktFec) then handleMediaPacket pkt oa
    else if t =? pktAuthHello then handleHello pkt oa
    else if t =? pktPing then handlePing pkt oa
    else
    let! s := gets (fun s => s) in
    if ((t =? pktIdentityBegin) || (t =? pktIdentityProof)) && bool_decide (is_Some (identityAdmissions s))
    then handleIdentityPacket pkt oa
    else if ((t =? pktServiceBegin) || (t =? pktServiceProof)) && bool_decide (is_Some (serviceAdmissions s))
    then handleServicePacket pkt oa
    else
    let! admitted := admitControl pkt oa in
    match admitted with
    | None => ret tt
    | Some joinedServiceID =>
        emitTalkTimeouts (ChannelId (Header pkt)) (clk 9) ;;;
        dispatchControl pkt oa joinedServiceID
    end) s.
Proof.
  intros Hv Hs. unfold handlePacket. rewrite Hv, (proj2 (Z.eqb_neq _ _) Hs). done.
Qed.

Lemma only_expiry pkt (k : unit -> handler unit) s :
  k tt (final (expiry_pass pkt) s) = (tt, final (expiry_pass pkt) s, []) ->
  bind (expiry_pass pkt) k s = expiry_pass pkt s.
Proof.
  intros Hk. unfold bind. rewrite (run_eta (expiry_pass pkt) s) at 2.
  destruct (expiry_pass pkt s) as [[[] s1] o] eqn:E. unfold final, result, outs in *. rewrite E in *. cbn in *.
  rewrite Hk. by rewrite app_nil_r.
Qed.

(** C5. Forged control is without effect: on a channel that requires Control
    Authentication a packet other than media that does not verify, whatever its
    type and payload, does nothing beyond the expiry pass every packet makes: no
    registration, session, challenge or talker changes and nothing is answered. *)
Theorem unverified_control_ignored pkt oa s :
  server_controlAuthRequired s (ChannelId (Header pkt)) = true ->
  verifyIncomingControl (controlAuth s) pkt = None ->
  PType (Header pkt) <> pktAudio -> PType (Header pkt) <> pktFec ->
  Version (Header pkt) = 1 -> SenderId (Header pkt) <> 0 ->
  handlePacket pkt oa s = expiry_pass pkt s.
Proof.
  intros Hreq Hver Ha Hf Hv Hs. rewrite handlePacket_after by done. cbn zeta. apply only_expiry.
  destruct (expiry_pass_config pkt s) as (_ & _ & _ & _ & _ & Hauth & _).
  set (s1 := final (expiry_pass pkt) s) in *.
  rewrite (verify_same_auth _ _ _ Hauth) in Hver.
  assert (server_controlAuthRequired s1 (ChannelId (Header pkt)) = true) as Hreq1.
  { unfold server_controlAuthRequired in *. by rewrite (same_auth_requires _ _ _ Hauth). }
  clearbody s1. rewrite (proj2 (Z.eqb_neq _ _) Ha), (proj2 (Z.eqb_neq _ _) Hf). cbn [orb].
  destruct (_ =? pktAuthHello); [unfold handleHello; run; by rewrite Hreq1, Hver|].
  destruct (_ =? pktPing); [unfold handlePing; run; rewrite Hreq1, Hver; run; done|].
  run. destruct (_ && _); [unfold handleIdentityPacket; run; by rewrite Hreq1, Hver|].
  destruct (_ && _); [unfold handleServicePacket; run; by rewrite Hreq1, Hver|].
  unfold admitControl. run. rewrite Hreq1. destruct (_ =? pktJoin); cbn [andb].
  - unfold handleAuthenticatedJoin. run. rewrite Hver. cbn [default].
    destruct (controlAuth s1) as [a|] eqn:Ea; [|done]. rewrite consume_zero_meta. cbn [fst snd].
    run. f_equal. f_equal. rewrite <- Ea. by destruct s1.
  - rewrite Hver. by run.
Qed.

Lemma member_None_auth s pkt oa meta now :
  member s (ChannelId (Header pkt)) (SenderId (Header pkt)) oa = None ->
  acceptAuthenticatedPeerControl pkt oa meta now s = (false, s).
Proof.
  unfold member, acceptAuthenticatedPeerControl. destruct (lookup_peer _ _ _) as [p|]; [|done]. cbn.
  destruct (p_senderId p =? SenderId (Header pkt)); [done|]. by rewrite orb_true_r.
Qed.

(** Only registered endpoints act: a packet that neither joins nor belongs to
    a handshake, from an endpoint that is not registered for its sender, does
    nothing beyond the expiry pass, with or without Control Authentication; it
    takes no floor, sends no media, refreshes no lease and removes nobody. *)
Theorem unregistered_endpoint_ignored pkt oa s :
  member (final (expiry_pass pkt) s) (ChannelId (Header pkt)) (SenderId (Header pkt)) oa = None ->
  PType (Header pkt) ∉ [pktJoin; pktAuthHello; pktPing; pktIdentityBegin; pktIdentityProof;
    pktServiceBegin; pktServiceProof] ->
  Version (Header pkt) = 1 -> SenderId (Header pkt) <> 0 ->
  handlePacket pkt oa s = expiry_pass pkt s.
Proof.
  intros Hm Ht Hv Hs. rewrite handlePacket_after by done. cbn zeta. apply only_expiry.
  set (s1 := final (expiry_pass pkt) s) in *. clearbody s1.
  rewrite !not_elem_of_cons in Ht. destruct Ht as (T1 & T2 & T3 & T4 & T5 & T6 & T7 & _).
  apply Z.eqb_neq in T1, T2, T3, T4, T5, T6, T7. rewrite T2, T3, T4, T5, T6, T7. cbn [orb andb].
  destruct (_ || _).
  - unfold handleMediaPacket. run. unfold isActiveTalkerEndpoint. rewrite Hm. by destruct (_ =? 0).
  - run. cbn [andb]. unfold admitControl. run. rewrite T1. cbn [andb].
    destruct (server_controlAuthRequired _ _).
    + destruct (verifyIncomingControl _ _); run; [|done]. by rewrite member_None_auth.
    + run. unfold acceptUnauthenticatedPeerControl. rewrite (proj2 (Z.eqb_neq _ _) Hs), Hm. by run.
Qed.

(** ** PING *)

(** What a registration means, without its timestamps and replay window. *)
Definition registration (p : peer) :=
  (p_senderId p, p_addr p, p_authenticated p, (p_controlSessionID p, p_controlKeyID p),
   (p_identityAdmission p, p_serviceAdmission p), (p_membershipLease p, p_keepaliveInterval p, p_membershipDeadline p)).

Definition same_registrations (s s' : server) : Prop :=
  forall c, option_Forall2 (fun ch ch' => registration <$> peers ch = registration <$> peers ch' /\
    activeTalkers ch = activeTalkers ch' /\ codecConfigs ch = codecConfigs ch' /\
    mediaCodecConfigs ch = mediaCodecConfigs ch') (channels s !! c) (channels s' !! c).

Lemma same_registrations_refl s s' : channels s = channels s' -> same_registrations s s'.
Proof. intros E c. rewrite E. by destruct (channels s' !! c); constructor. Qed.

Lemma same_registrations_trans s1 s2 s3 :
  same_registrations s1 s2 -> same_registrations s2 s3 -> same_registrations s1 s3.
Proof.
  intros H12 H23 c. specialize (H12 c). specialize (H23 c).
  destruct H12 as [ch1 ch2 (A1 & A2 & A3 & A4)|]; inversion H23 as [x ch3 (B1 & B2 & B3 & B4)|]; constructor.
  split_and!; congruence.
Qed.

Lemma put_peer_same s channelId ch key p q :
  channels s !! channelId = Some ch -> peers ch !! key = Some p -> registration q = registration p ->
  same_registrations s (put_peer channelId key q s).
Proof.
  intros Hch Hp Hq c. unfold put_peer. simpl. destruct (decide (c = channelId)) as [->|Hne].
  - rewrite lookup_alter_eq, Hch. constructor. split_and!; try done. simpl. rewrite fmap_insert, Hq.
    symmetry. apply insert_id. by rewrite lookup_fmap, Hp.
  - rewrite lookup_alter_ne by done. by destruct (channels s !! c); constructor.
Qed.

Lemma lookup_peer_Some s channelId oa p :
  lookup_peer s channelId oa = Some p ->
  exists ch, channels s !! channelId = Some ch /\ peers ch !! peerMapKey oa = Some p.
Proof. destruct oa; [|done]. unfold lookup_peer. intros (ch & Hch & Hp)%bind_Some. by exists ch. Qed.

Lemma acceptAuth_same s pkt oa meta now :
  same_registrations s (acceptAuthenticatedPeerControl pkt oa meta now s).2.
Proof.
  unfold acceptAuthenticatedPeerControl. destruct (lookup_peer _ _ _) as [p|] eqn:E.
  - apply lookup_peer_Some in E as (ch & Hch & Hp). destruct (_ || _); [by apply same_registrations_refl|].
    destruct (acceptReplayCounter _ _) as [[] w]; [|by apply same_registrations_refl].
    by eapply put_peer_same.
  - by apply same_registrations_refl.
Qed.

Lemma touch_same s channelId senderId oa now :
  same_registrations s (touchKnownPeer channelId senderId oa now s).2.
Proof.
  unfold touchKnownPeer. destruct oa as [a|]; [|by apply same_registrations_refl].
  destruct (senderId =? 0); [by apply same_registrations_refl|].
  destruct (channels s !! channelId) as [ch|] eqn:Hch; [|by apply same_registrations_refl].
  destruct (knownPeerKey ch a) as [[k p]|] eqn:E; [|by apply same_registrations_refl].
  destruct (negb _); [by apply same_registrations_refl|].
  apply knownPeerKey_lookup in E. by eapply put_peer_same.
Qed.

Definition keeps_channels {A} (m : handler A) : Prop := forall s, channels (final m s) = channels s.

Lemma keeps_bind {A B} (m : handler A) (f : A -> handler B) :
  keeps_channels m -> (forall a, keeps_channels (f a)) -> keeps_channels (bind m f).
Proof. intros Hm Hf s. by rewrite final_bind, Hf, Hm. Qed.

Lemma keeps_section {A} (f : server -> A * server) :
  (forall s, channels (f s).2 = channels s) -> keeps_channels (atomically f).
Proof. intros Hf s. unfold final, atomically. specialize (Hf s). by destruct (f s). Qed.

Lemma keeps_reads {A} (m : handler A) : reads_only m -> keeps_channels m.
Proof. intros Hm s. by rewrite Hm. Qed.

Lemma keeps_sequence : keeps_channels take_sequence.
Proof. by apply keeps_section. Qed.
Lemma keeps_nonce : keeps_channels take_nonce.
Proof. apply keeps_section. intros s. destruct (controlAuth s); [|done]. by destruct (nextRelayNonce _). Qed.

Ltac keeps :=
  repeat first
    [ progress intros
    | progress cbv zeta
    | exact keeps_sequence | exact keeps_nonce
    | apply keeps_reads; solve [auto with effects nocore]
    | apply keeps_bind
    | case_match ].

Lemma keeps_relayControlForPeer ch op t sd pl : keeps_channels (relayControlForPeer ch op t sd pl).
Proof. unfold relayControlForPeer. keeps. Qed.

Lemma keeps_sendPong oa ch sd nonce : keeps_channels (sendPong oa ch sd nonce).
Proof. unfold sendPong, WriteToUDP. keeps; try apply keeps_relayControlForPeer; keeps. Qed.

(** Every datagram goes to [a]. *)
Definition only_to (a : UDPAddr) (o : output) : Prop := exists d, o = Datagram d a.

Lemma quiet_relayControlForPeer P ch op t sd pl : only P (relayControlForPeer ch op t sd pl).
Proof. unfold relayControlForPeer, take_sequence, take_nonce. effects. Qed.

Lemma only_sendPong a ch sd nonce : only (only_to a) (sendPong (Some a) ch sd nonce).
Proof.
  unfold sendPong, WriteToUDP, take_sequence.
  effects; try (apply only_emit; eexists; reflexivity); try apply quiet_relayControlForPeer.
Qed.

(** A PING proves nothing and gains nothing: it creates, moves, renews and
    removes no registration, whatever it contains, and any answer goes to the
    endpoint it came from. *)
Theorem ping_changes_nothing pkt a s :
  same_registrations s (final (handlePing pkt (Some a)) s) /\
  Forall (only_to a) (outs (handlePing pkt (Some a)) s).
Proof.
  assert (forall ok s1, same_registrations s s1 ->
    let m := (if negb ok || negb (len (Payload pkt) =? 8) then ret tt else
      let! known := section (touchKnownPeer (ChannelId (Header pkt)) (SenderId (Header pkt)) (Some a) (clk 2)) in
      when known do sendPong (Some a) (ChannelId (Header pkt)) (SenderId (Header pkt)) (Payload pkt)) in
    same_registrations s (final m s1) /\ Forall (only_to a) (outs m s1)) as Htail.
  { intros ok s1 Hs. cbn zeta. destruct (_ || _); [by split; [|constructor]|].
    unfold final, outs. rewrite run_section.
    pose proof (touch_same s1 (ChannelId (Header pkt)) (SenderId (Header pkt)) (Some a) (clk 2)) as Ht.
    destruct (touchKnownPeer _ _ _ _ _) as [[] s2]; cbn [fst snd] in *.
    - split; [|apply only_sendPong]. eapply same_registrations_trans; [exact Hs|].
      eapply same_registrations_trans; [exact Ht|]. apply same_registrations_refl. symmetry. apply keeps_sendPong.
    - split; [by eapply same_registrations_trans|constructor]. }
  unfold handlePing, final, outs. rewrite run_gets. destruct (server_controlAuthRequired _ _).
  - destruct (verifyIncomingControl _ _) as [meta|].
    + rewrite run_section. apply Htail, acceptAuth_same.
    + rewrite run_ret. by apply (Htail false), same_registrations_refl.
  - rewrite run_ret. by apply (Htail true), same_registrations_refl.
Qed.
End ignored.

Section joining.
Context `{Entropy} `{RangeOrder} `{Environment} `{Ed25519} `{TicketJSON} `{GrantJSON}.

(** ** JOIN

    [lookup_peer] follows the registration of the joining endpoint through the
    sections of the handler. *)

Lemma lookup_put_peer s channelId a p q :
  lookup_peer s channelId (Some a) = Some p ->
  lookup_peer (put_peer channelId (peerMapKey (Some a)) q s) channelId (Some a) = Some q.
Proof.
  intros (ch & Hch & Hp)%lookup_peer_Some. unfold lookup_peer, put_peer.
  cbn [channels with_channels]. rewrite lookup_alter_eq, Hch. cbn [fmap option_fmap option_map mbind option_bind].
  apply lookup_insert_eq.
Qed.

Lemma member_lookup_peer s channelId a p :
  lookup_peer s channelId (Some a) = Some p -> member s channelId (p_senderId p) (Some a) = Some p.
Proof. intros Hp. unfold member. rewrite Hp. cbn. by rewrite Z.eqb_refl. Qed.

Lemma startMembership_at s channelId a p now :
  lookup_peer s channelId (Some a) = Some p -> p_senderId p <> 0 ->
  let r := startMembership channelId (p_senderId p) (Some a) now s in
  r.1 = true /\ lookup_peer r.2 channelId (Some a) =
    Some (set_membership p (membershipLease s) (keepaliveInterval s) (Add now (membershipLease s)) now).
Proof.
  intros Hp Hs. unfold startMembership. rewrite (proj2 (Z.eqb_neq _ _) Hs), (member_lookup_peer _ _ _ _ Hp).
  split; [done|]. by eapply lookup_put_peer.
Qed.

Lemma getOrCreate_at channelId s :
  channels (getOrCreateChannel channelId s).2 !! channelId = Some (getOrCreateChannel channelId s).1.
Proof. unfold getOrCreateChannel. destruct (channels s !! channelId) eqn:E; [done|]. simpl. apply lookup_insert_eq. Qed.

Lemma joinPeer_at s channelId senderId a now :
  exists p0, lookup_peer (joinPeer channelId senderId (Some a) now s) channelId (Some a) =
    Some (set_endpoint p0 senderId a now).
Proof.
  unfold joinPeer. destruct (getOrCreateChannel channelId s) as [ch s1]. eexists.
  unfold lookup_peer. cbn [channels with_channels]. rewrite lookup_insert_eq. cbn [mbind option_bind].
  unfold upsertPeer. cbn [peers with_peers]. by rewrite lookup_insert_eq.
Qed.

Lemma upsertAuthenticated_at s channelId senderId a meta w now :
  exists p0, lookup_peer (upsertAuthenticatedPeerWithReplay channelId senderId (Some a) meta w now s) channelId (Some a) =
    Some (set_control (set_endpoint p0 senderId a now) true (m_sessionID meta) (m_keyID meta) w).
Proof.
  unfold upsertAuthenticatedPeerWithReplay. pose proof (getOrCreate_at channelId s) as Hch.
  destruct (getOrCreateChannel channelId s) as [ch s1]. cbn [fst snd] in Hch. eexists.
  unfold lookup_peer, put_peer. cbn [channels with_channels]. rewrite lookup_alter_eq, Hch.
  cbn [fmap option_fmap option_map mbind option_bind peers with_peers]. apply lookup_insert_eq.
Qed.

(** Registrations of other channels and other endpoints. *)
Definition others_same (channelId : Z) (a : UDPAddr) (s s' : server) : Prop :=
  forall b c, c <> channelId \/ peerMapKey (Some b) <> peerMapKey (Some a) ->
    lookup_peer s' c (Some b) = lookup_peer s c (Some b).

Lemma others_same_trans channelId a s1 s2 s3 :
  others_same channelId a s1 s2 -> others_same channelId a s2 s3 -> others_same channelId a s1 s3.
Proof. intros H12 H23 b c Hne. by rewrite H23, H12. Qed.

Lemma put_peer_others channelId a p s : others_same channelId a s (put_peer channelId (peerMapKey (Some a)) p s).
Proof.
  intros b c Hne. unfold lookup_peer, put_peer. cbn [channels with_channels].
  destruct (decide (c = channelId)) as [->|Hc]; [|by rewrite lookup_alter_ne].
  rewrite lookup_alter_eq. destruct (channels s !! channelId) as [ch|]; [|done].
  cbn [fmap option_fmap option_map mbind option_bind peers with_peers]. rewrite lookup_insert_ne; [done|].
  destruct Hne; congruence.
Qed.

Lemma getOrCreate_others channelId a s : others_same channelId a s (getOrCreateChannel channelId s).2.
Proof.
  intros b c Hne. unfold getOrCreateChannel. destruct (channels s !! channelId) as [ch|] eqn:E; [done|].
  unfold lookup_peer. cbn [snd channels with_channels]. destruct (decide (c = channelId)) as [->|Hc].
  - rewrite lookup_insert_eq, E. cbn. apply lookup_empty.
  - by rewrite lookup_insert_ne.
Qed.

Lemma startMembership_others channelId senderId a now s :
  others_same channelId a s (startMembership channelId senderId (Some a) now s).2.
Proof.
  unfold startMembership. destruct (senderId =? 0); [done|]. destruct (member _ _ _ _); [|done]. apply put_peer_others.
Qed.

Lemma joinPeer_others channelId senderId a now s :
  others_same channelId a s (joinPeer channelId senderId (Some a) now s).
Proof.
  unfold joinPeer. pose proof (getOrCreate_others channelId a s) as Ho. pose proof (getOrCreate_at channelId s) as Hch.
  destruct (getOrCreateChannel channelId s) as [ch s1]. cbn [fst snd] in *.
  eapply others_same_trans; [exact Ho|]. intros b c Hne. unfold lookup_peer. cbn [channels with_channels].
  destruct (decide (c = channelId)) as [->|Hc]; [|by rewrite lookup_insert_ne].
  rewrite lookup_insert_eq, Hch. cbn [mbind option_bind]. unfold upsertPeer. cbn [peers with_peers].
  rewrite lookup_insert_ne; [done|]. destruct Hne; congruence.
Qed.

(** A JOIN without Control Authentication registers its endpoint and no other:
    with an empty payload it is admitted, sends nothing yet, and leaves at the
    endpoint a registration of the sender whose lease runs from now; every other
    registration stays as it was. *)
Theorem plain_join_registers pkt a s :
  server_controlAuthRequired s (ChannelId (Header pkt)) = false -> PType (Header pkt) = pktJoin ->
  Payload pkt = [] -> SenderId (Header pkt) <> 0 ->
  let r := admitControl pkt (Some a) in
  result r s = Some None /\ outs r s = [] /\
  (exists p, lookup_peer (final r s) (ChannelId (Header pkt)) (Some a) = Some p /\
    p_senderId p = SenderId (Header pkt) /\ p_addr p = a /\ p_membershipLease p = membershipLease s /\
    p_membershipDeadline p = Add (clk 7) (membershipLease s)) /\
  others_same (ChannelId (Header pkt)) a s (final r s).
Proof.
  intros Hreq Ht Hpl Hs. cbn zeta. unfold result, outs, final, admitControl. rewrite run_gets, Hreq, Ht.
  change (pktJoin =? pktJoin) with true. cbn [andb]. unfold handleUnauthenticatedJoin. rewrite Hpl.
  change (negb (len (@nil Z) =? 0)) with false. cbn iota. rewrite run_section, run_section. cbn [fst snd].
  destruct (joinPeer_at s (ChannelId (Header pkt)) (SenderId (Header pkt)) a (clk 5)) as [p0 Hp].
  set (s1 := joinPeer _ _ _ _ s) in *.
  destruct (startMembership_at s1 _ _ _ (clk 7) Hp Hs) as [Hr1 Hr2]. cbn [p_senderId set_endpoint] in Hr1, Hr2.
  assert (membershipLease s1 = membershipLease s) as Hl.
  { unfold s1, joinPeer, getOrCreateChannel. by destruct (channels s !! _). }
  rewrite Hr1. split_and!; [done|done| |].
  - eexists. split; [exact Hr2|]. by rewrite Hl.
  - eapply others_same_trans; [apply joinPeer_others|apply startMembership_others].
Qed.

(** ** Authenticated JOIN *)

Lemma setIdentity_at s channelId a p ad :
  lookup_peer s channelId (Some a) = Some p ->
  (setPeerIdentityAdmission channelId (p_senderId p) (Some a) ad s).1 = true ->
  lookup_peer (setPeerIdentityAdmission channelId (p_senderId p) (Some a) ad s).2 channelId (Some a) =
    Some (set_admissions p (Some ad) None).
Proof.
  intros Hp. unfold setPeerIdentityAdmission. rewrite (member_lookup_peer _ _ _ _ Hp).
  destruct (p_serviceAdmission p); [done|]. intros _. by eapply lookup_put_peer.
Qed.

Lemma setService_at s channelId a p ad now :
  lookup_peer s channelId (Some a) = Some p ->
  (setPeerServiceAdmission channelId (p_senderId p) (Some a) ad now s).1 = true ->
  lookup_peer (setPeerServiceAdmission channelId (p_senderId p) (Some a) ad now s).2 channelId (Some a) =
    Some (set_admissions p None (Some ad)).
Proof.
  intros Hp. unfold setPeerServiceAdmission.
  destruct (admissionAllowedForMembership _ _ _ _) as [allowed sv]. destruct allowed; [|done]. cbn [negb].
  assert (lookup_peer (with_service s sv) channelId (Some a) = Some p) as Hp' by exact Hp.
  rewrite (member_lookup_peer _ _ _ _ Hp').
  destruct (p_identityAdmission p); [done|]. intros _. by apply (lookup_put_peer _ _ _ p).
Qed.

Lemma identityJoin_required oa pkt addr meta now :
  identity_isRequired (identity_admissionForJoin oa pkt addr meta now).2 = identity_isRequired oa.
Proof. exact (same_identity_required _ _ (identity_step_same oa (OpJoin pkt addr meta now))). Qed.

(** The admissions a JOIN resolves to; only the admission tables change. *)
Lemma resolve_spec pkt addr meta now s :
  exists r ia sa,
    resolveJoinAdmission pkt addr meta now s = (r, with_service (with_identity s ia) sa, []) /\
    forall ad sd, r = inr (ad, sd) ->
      (ia_expiresAt ad = zero_time \/ sa_grantExpires sd = zero_time) /\
      (identity_isRequired (identityAdmissions s) = true ->
       ia_expiresAt ad <> zero_time \/ sa_grantExpires sd <> zero_time).
Proof.
  unfold resolveJoinAdmission. rewrite !run_section. cbn [fst snd].
  pose proof (identityJoin_required (identityAdmissions s) pkt addr meta now) as Hreq.
  destruct (identity_admissionForJoin (identityAdmissions s) pkt addr meta now) as [ri ia]. cbn [fst snd] in *.
  change (serviceAdmissions (with_identity s ia)) with (serviceAdmissions s).
  destruct (service_admissionForJoin (serviceAdmissions s) pkt addr meta now) as [rs sa]. cbn [fst snd].
  rewrite run_gets.
  change (identityAdmissions (with_service (with_identity s ia) sa)) with ia. rewrite Hreq. unfold IsZero.
  destruct rs as [reason|sd]; [by eexists _, ia, sa|].
  destruct ri as [reason|ad].
  - destruct (negb _) eqn:Hn; eexists _, ia, sa; (split; [reflexivity|]); [done|].
    intros ad' sd' [= <- <-]. gobool. split; [by left|]. intros _. by right.
  - destruct (_ && _) eqn:Hb; [by eexists _, ia, sa|].
    destruct (identity_isRequired (identityAdmissions s)) eqn:Er.
    + destruct (Z.eqb_spec (ia_expiresAt ad) zero_time) as [E1|E1], (Z.eqb_spec (sa_grantExpires sd) zero_time) as [E2|E2];
        cbn [negb andb] in *; try done; eexists _, ia, sa; (split; [reflexivity|]); try done;
        intros ad' sd' [= <- <-]; auto.
    + cbn [andb]. eexists _, ia, sa. split; [reflexivity|]. intros ad' sd' [= <- <-]. split; [|done].
      destruct (Z.eqb_spec (ia_expiresAt ad) zero_time); [by left|].
      destruct (Z.eqb_spec (sa_grantExpires sd) zero_time); [by right|done].
Qed.

Lemma run_known {A B} (m : handler A) (k : A -> handler B) s a s1 : m s = (a, s1, []) -> bind m k s = k a s1.
Proof. intros E. unfold bind. rewrite E. by destruct (k a s1) as [[??]?]. Qed.

Definition joined_peer (pkt : parsedPacket) (meta : controlAuthMeta) (w : window) (p : peer) : Prop :=
  p_senderId p = SenderId (Header pkt) /\ p_authenticated p = true /\
  p_controlSessionID p = m_sessionID meta /\ p_controlKeyID p = m_keyID meta /\ p_window p = w.

(** The last section of the handler and its event. *)
Definition finish_join (pkt : parsedPacket) (a : UDPAddr) (sd : serviceAdmission) : handler (option (option string)) :=
  let channelId := ChannelId (Header pkt) in
  let senderId := SenderId (Header pkt) in
  let! started := section (startMembership channelId senderId (Some a) (clk 7)) in
  if negb started then ret None else
  if negb (IsZero (sa_grantExpires sd))
  then publishManagementEvent "service_admission_issued" channelId senderId (Some (sa_serviceID sd)) None ;;;
       ret (Some (Some (sa_serviceID sd)))
  else ret (Some None).

Lemma reads_publish ev ch sd svc reason : reads_only (publishManagementEvent ev ch sd svc reason).
Proof. unfold publishManagementEvent. effects. Qed.

Lemma finish_spec pkt a sd p s :
  lookup_peer s (ChannelId (Header pkt)) (Some a) = Some p -> p_senderId p = SenderId (Header pkt) ->
  SenderId (Header pkt) <> 0 ->
  result (finish_join pkt a sd) s =
    Some (if IsZero (sa_grantExpires sd) then None else Some (sa_serviceID sd)) /\
  lookup_peer (final (finish_join pkt a sd) s) (ChannelId (Header pkt)) (Some a) =
    Some (set_membership p (membershipLease s) (keepaliveInterval s) (Add (clk 7) (membershipLease s)) (clk 7)).
Proof.
  intros Hp Hsd Hs. unfold finish_join. cbn zeta.
  destruct (startMembership_at s _ a p (clk 7) Hp ltac:(congruence)) as [Hr1 Hr2]. rewrite Hsd in Hr1, Hr2.
  unfold result, final. rewrite run_section, Hr1. cbn [negb].
  destruct (IsZero (sa_grantExpires sd)); cbn [negb]; [by split|].
  pose proof (result_bind (publishManagementEvent "service_admission_issued" (ChannelId (Header pkt))
    (SenderId (Header pkt)) (Some (sa_serviceID sd)) None) (fun _ => ret (Some (Some (sa_serviceID sd))))) as Hb.
  pose proof (final_bind (publishManagementEvent "service_admission_issued" (ChannelId (Header pkt))
    (SenderId (Header pkt)) (Some (sa_serviceID sd)) None) (fun _ => ret (Some (Some (sa_serviceID sd))))) as Hf.
  unfold result, final in Hb, Hf. rewrite Hb, Hf. split; [done|].
  pose proof (reads_publish "service_admission_issued" (ChannelId (Header pkt))
    (SenderId (Header pkt)) (Some (sa_serviceID sd)) None) as Hro. unfold reads_only, final in Hro. by rewrite Hro.
Qed.

(** The part of the handler after the admissions are resolved. *)
Definition attach_join (pkt : parsedPacket) (a : UDPAddr) (meta : controlAuthMeta) (w : window)
    (ad : identityAdmission) (sd : serviceAdmission) : handler (option (option string)) :=
  let channelId := ChannelId (Header pkt) in
  let senderId := SenderId (Header pkt) in
  section (fun s => (tt, upsertAuthenticatedPeerWithReplay channelId senderId (Some a) meta w (clk 5) s)) ;;;
  let! ok1 := if negb (IsZero (ia_expiresAt ad)) then section (setPeerIdentityAdmission channelId senderId (Some a) ad) else ret true in
  if negb ok1 then ret None else
  let! ok2 := if negb (IsZero (sa_grantExpires sd)) then section (setPeerServiceAdmission channelId senderId (Some a) sd (clk 6)) else ret true in
  if negb ok2 then ret None else finish_join pkt a sd.

Lemma attach_spec pkt a meta w ad sd s svc :
  SenderId (Header pkt) <> 0 -> ia_expiresAt ad = zero_time \/ sa_grantExpires sd = zero_time ->
  result (attach_join pkt a meta w ad sd) s = Some svc ->
  exists p, lookup_peer (final (attach_join pkt a meta w ad sd) s) (ChannelId (Header pkt)) (Some a) = Some p /\
    joined_peer pkt meta w p /\ p_membershipDeadline p = Add (clk 7) (p_membershipLease p) /\
    (ia_expiresAt ad <> zero_time -> p_identityAdmission p = Some ad) /\
    (sa_grantExpires sd <> zero_time -> p_serviceAdmission p = Some sd) /\
    svc = if IsZero (sa_grantExpires sd) then None else Some (sa_serviceID sd).
Proof.
  intros Hs Hone. unfold attach_join, result, final. cbn zeta. rewrite run_section. cbn [fst snd].
  destruct (upsertAuthenticated_at s (ChannelId (Header pkt)) (SenderId (Header pkt)) a meta w (clk 5)) as [p0 Hp].
  set (s1 := upsertAuthenticatedPeerWithReplay _ _ _ _ _ _ s) in *. clearbody s1.
  assert (forall s2 p, lookup_peer s2 (ChannelId (Header pkt)) (Some a) = Some p -> joined_peer pkt meta w p ->
    let r := finish_join pkt a sd s2 in
    r.1.1 = Some (if IsZero (sa_grantExpires sd) then None else Some (sa_serviceID sd)) /\
    exists q, lookup_peer r.1.2 (ChannelId (Header pkt)) (Some a) = Some q /\ joined_peer pkt meta w q /\
      p_membershipDeadline q = Add (clk 7) (p_membershipLease q) /\
      p_identityAdmission q = p_identityAdmission p /\ p_serviceAdmission q = p_serviceAdmission p) as Hfin.
  { intros s2 p Hp2 (J1 & J2). destruct (finish_spec pkt a sd p s2 Hp2 J1 Hs) as [F1 F2].
    split; [exact F1|]. eexists. split; [exact F2|]. by split_and!. }
  set (p1 := set_control _ _ _ _ _) in Hp. assert (joined_peer pkt meta w p1) as Hj by done. clearbody p1.
  pose proof (proj1 Hj) as Hsd. unfold IsZero in *.
  destruct (Z.eqb_spec (ia_expiresAt ad) zero_time) as [E1|E1]; cbn [negb];
    destruct (Z.eqb_spec (sa_grantExpires sd) zero_time) as [E2|E2]; cbn [negb].
  - rewrite run_ret. cbn [negb]. rewrite run_ret. cbn [negb]. destruct (Hfin _ _ Hp Hj) as [-> (q & Hq & Hjq & Hd & _)].
    intros [= <-]. exists q. by split_and!.
  - rewrite run_ret. cbn [negb]. rewrite run_section. rewrite <- Hsd.
    destruct (setPeerServiceAdmission _ _ _ _ _ s1).1 eqn:Eok; cbn [negb]; [|done].
    pose proof (setService_at _ _ _ _ _ _ Hp Eok) as Hp2.
    destruct (Hfin _ _ Hp2 Hj) as [-> (q & Hq & Hjq & Hd & Hqi & Hqs)].
    intros [= <-]. exists q. by split_and!.
  - rewrite run_section. rewrite <- Hsd.
    destruct (setPeerIdentityAdmission _ _ _ _ s1).1 eqn:Eok; cbn [negb]; [|done]. rewrite run_ret. cbn [negb].
    pose proof (setIdentity_at _ _ _ _ _ Hp Eok) as Hp2.
    destruct (Hfin _ _ Hp2 Hj) as [-> (q & Hq & Hjq & Hd & Hqi & Hqs)].
    intros [= <-]. exists q. by split_and!.
  - by destruct Hone.
Qed.

(** C4. An authenticated JOIN admits only who proved everything: when it succeeds,
    the packet verified under a configured key, it carried the cookie of a live
    challenge of its session with a fresh counter, and the registration at its
    endpoint has its sender, session, key and replay window, a lease that runs
    from now and, when the server requires identity admission, an identity or a
    service admission. *)
Theorem authenticated_join_sound pkt a s svc :
  SenderId (Header pkt) <> 0 ->
  result (handleAuthenticatedJoin pkt (Some a)) s = Some svc ->
  exists ca meta st ca' p,
    controlAuth s = Some ca /\ verifyIncomingControl (Some ca) pkt = Some meta /\
    consumeJoinChallenge pkt (Some a) meta (clk 1) (clk 2) (clk 3) ca = (Some st, ca') /\
    lookup_peer (final (handleAuthenticatedJoin pkt (Some a)) s) (ChannelId (Header pkt)) (Some a) = Some p /\
    joined_peer pkt meta (pr_window st) p /\ p_membershipDeadline p = Add (clk 7) (p_membershipLease p) /\
    (identity_isRequired (identityAdmissions s) = true ->
     is_Some (p_identityAdmission p) \/ is_Some (p_serviceAdmission p)) /\
    (forall service, svc = Some service ->
     exists sd, p_serviceAdmission p = Some sd /\ sa_serviceID sd = service).
Proof.
  intros Hs. unfold result, final, handleAuthenticatedJoin. rewrite run_gets, run_section.
  destruct (controlAuth s) as [ca|] eqn:Eca; [|done].
  destruct (verifyIncomingControl (Some ca) pkt) as [meta|] eqn:Ev;
    [change (default zero_meta (Some meta)) with meta
    |change (default zero_meta None) with zero_meta; rewrite consume_zero_meta; cbn; done].
  destruct (consumeJoinChallenge pkt (Some a) meta (clk 1) (clk 2) (clk 3) ca) as [[st|] ca'] eqn:Ec; [|done].
  cbn [fst snd]. set (s1 := with_controlAuth s (Some ca')).
  destruct (resolve_spec pkt (Some a) meta (clk 4) s1) as (r & ia & sa & Hr & Hspec).
  rewrite (run_known _ _ _ _ _ Hr). destruct r as [[dt dr]|[ad sd]].
  { unfold bind. destruct (sendDeny _ _ _ _ _ _) as [[??]?]. done. }
  destruct (Hspec ad sd eq_refl) as [Hone Hreq]. set (s2 := with_service _ _).
  intros Hres. destruct (attach_spec pkt a meta (pr_window st) ad sd s2 svc Hs Hone Hres) as (p & Hp & Hj & Hd & Hi & Hsv & ->).
  exists ca, meta, st, ca', p. split_and!; try done.
  - intros Hq. destruct (Hreq Hq) as [Hx|Hx]; [left; rewrite (Hi Hx)|right; rewrite (Hsv Hx)]; eauto.
  - unfold IsZero. intros service Hx. destruct (Z.eqb_spec (sa_grantExpires sd) zero_time) as [|Hz]; [done|].
    injection Hx as <-. eauto.
Qed.
End joining.

(** ** The configuration a client learns *)

Lemma durationToSecondsClamped_spec d :
  0 <= durationToSecondsClamped d <= maxTalkMaximumSecondsV1 /\
  (0 < d -> 1 <= durationToSecondsClamped d) /\ (durationToSecondsClamped d = 0 <-> d <= 0) /\
  (Second <= d -> durationToSecondsClamped d * Second <= d).
Proof.
  unfold durationToSecondsClamped, u16, maxTalkMaximumSecondsV1, Second.
  destruct (Z.leb_spec d 0) as [Hd|Hd]; [lia|].
  assert (Z.quot d 1000000000 = d / 1000000000) as -> by (apply Z.quot_div_nonneg; lia).
  assert (0 <= d / 1000000000) by (apply Z.div_pos; lia).
  assert (d / 1000000000 * 1000000000 <= d) by (pose proof (Z.mul_div_le d 1000000000 ltac:(lia)); lia).
  assert (1000000000 <= d -> 1 <= d / 1000000000) by (intros; apply Z.div_le_lower_bound; lia).
  repeat case_match; gobool; rewrite Z.mod_small by lia; lia.
Qed.

(** SERVER_CFG tells every client limits it can keep: the payload has 8 bytes,
    the talk limit, lease and keepalive it announces are whole seconds within the
    wire limit, positive exactly when the configured duration is and never longer
    than it from one second on, and the number of talkers is the one the floor
    enforces. *)
Theorem server_config_faithful s lease keepalive :
  let p := serverConfigPayload s lease keepalive in
  length p = 8%nat /\ bytes_ok p /\
  get_be (sub p 0 2) = durationToSecondsClamped (talkMax s) /\
  get_be (sub p 4 2) = durationToSecondsClamped lease /\
  get_be (sub p 6 2) = durationToSecondsClamped keepalive /\
  nth 3 p 0 = Z.min maxActiveTalkersV1 (talkerLimit s) /\
  (forall d, 0 <= durationToSecondsClamped d <= maxTalkMaximumSecondsV1 /\
    (durationToSecondsClamped d = 0 <-> d <= 0) /\ (Second <= d -> durationToSecondsClamped d * Second <= d)).
Proof.
  cbn zeta. unfold serverConfigPayload.
  pose proof (proj1 (durationToSecondsClamped_spec (talkMax s))) as H1.
  pose proof (proj1 (durationToSecondsClamped_spec lease)) as H2.
  pose proof (proj1 (durationToSecondsClamped_spec keepalive)) as H3.
  change maxTalkMaximumSecondsV1 with 65535 in H1, H2, H3.
  set (d1 := durationToSecondsClamped (talkMax s)) in *. set (d2 := durationToSecondsClamped lease) in *.
  set (d3 := durationToSecondsClamped keepalive) in *. clearbody d1 d2 d3.
  set (l := if multiTalk s then _ else 1).
  assert (l = Z.min maxActiveTalkersV1 (talkerLimit s)) as Hl.
  { unfold l, talkerLimit, maxActiveTalkersV1. destruct (multiTalk s); repeat case_match; gobool; lia. }
  assert (1 <= l <= 16) as Hb.
  { rewrite Hl. unfold talkerLimit, maxActiveTalkersV1. repeat case_match; gobool; lia. }
  split_and!; [done| |..].
  - repeat apply Forall_app_2; try apply bytes_ok_put_be.
    repeat constructor; unfold is_u8, u8; try (destruct (multiTalk s); lia); apply Z.mod_pos_bound; lia.
  - exact (get_put_be_small 2 d1 (conj (proj1 H1) (proj2 (Z.lt_succ_r _ _) (proj2 H1)))).
  - exact (get_put_be_small 2 d2 (conj (proj1 H2) (proj2 (Z.lt_succ_r _ _) (proj2 H2)))).
  - exact (get_put_be_small 2 d3 (conj (proj1 H3) (proj2 (Z.lt_succ_r _ _) (proj2 H3)))).
  - rewrite <- Hl. cbn. unfold u8. apply Z.mod_small. lia.
  - intros d. pose proof (durationToSecondsClamped_spec d). naive_solver.
Qed.

(** ** Concrete inputs *)

Definition toy_audio : parsedPacket := plain_packet pktAudio 7 [1; 2; 3].

(** Sender 7 talks from port 5001, sender 9 listens at port 5002. *)
Definition media_server : server := after (plain_packet pktJoin 9 []) 5002 talking_server.

Lemma media_reachable : reachable plain_server media_server.
Proof.
  unfold media_server, talking_server, joined_server, after, reachable.
  etrans; [etrans|]; apply steps_handlePacket; done.
Qed.

Lemma media_never_echoed_witness :
  exists o, o ∈ outs (handleMediaPacket toy_audio (Some (endpoint 5001))) media_server /\
    exists b, o = Datagram (Raw toy_audio) b /\ b <> endpoint 5001.
Proof.
  destruct (outs (handleMediaPacket toy_audio (Some (endpoint 5001))) media_server) as [|o l] eqn:E.
  - vm_compute in E. discriminate E.
  - exists o. split; [left|].
    apply (media_never_echoed plain_server media_server toy_audio (endpoint 5001) o eq_refl media_reachable);
      [discriminate|rewrite E; left].
Defined.

Lemma media_forwarding_witness :
  exists ch p, channels media_server !! 100 = Some ch /\
    peers ch !! peerMapKey (Some (endpoint 5001)) = Some p /\
    outs (handleMediaPacket toy_audio (Some (endpoint 5001))) media_server <> [] /\
    handleMediaPacket toy_audio (Some (endpoint 5002)) media_server = (tt, media_server, []).
Proof.
  destruct (channels media_server !! 100) as [ch|] eqn:E; [|by vm_compute in E].
  destruct (peers ch !! peerMapKey (Some (endpoint 5001))) as [p|] eqn:Ep;
    [|exfalso; apply (f_equal (fun o => match o with Some c => bool_decide (is_Some (peers c !! peerMapKey (Some (endpoint 5001)))) | None => false end)) in E; rewrite Ep in E; by vm_compute in E].
  exists ch, p. split; [reflexivity|]. split; [exact Ep|]. split; [by vm_compute|].
  refine (proj2 (media_forwarding media_server ch toy_audio (endpoint 5002) E _) _); [discriminate|].
  intros q [Hq Hs _ _ _ _ _].
  apply (f_equal (fun o => match o with Some c => p_senderId <$> peers c !! peerMapKey (Some (endpoint 5002)) | None => None end)) in E.
  rewrite Hq in E. cbn [fmap option_fmap option_map] in E. rewrite Hs in E. by vm_compute in E.
Defined.

Lemma foreign_packet_ignored_witness :
  handlePacket (plain_packet pktJoin 0 []) (Some (endpoint 5001)) plain_server = (tt, plain_server, []).
Proof. apply foreign_packet_ignored. right. reflexivity. Defined.

Lemma unregistered_endpoint_ignored_witness :
  handlePacket (plain_packet pktPttOn 9 []) (Some (endpoint 5009)) joined_server =
  expiry_pass (plain_packet pktPttOn 9 []) joined_server.
Proof.
  apply unregistered_endpoint_ignored; [by vm_compute| |reflexivity|discriminate].
  by apply (bool_decide_unpack _), I.
Defined.

Lemma plain_join_registers_witness :
  exists p, lookup_peer joined_server 100 (Some (endpoint 5001)) = Some p /\ p_senderId p = 7 /\
    result (admitControl (plain_packet pktJoin 8 []) (Some (endpoint 5002))) joined_server = Some None.
Proof.
  destruct (plain_join_registers (plain_packet pktJoin 7 []) (endpoint 5001) plain_server)
    as (_ & _ & (p & Hp & Hs & _) & _); [reflexivity|reflexivity|reflexivity|discriminate|].
  destruct (plain_join_registers (plain_packet pktJoin 8 []) (endpoint 5002) joined_server)
    as (H & _); [by vm_compute|reflexivity|reflexivity|discriminate|].
  assert (lookup_peer joined_server 100 (Some (endpoint 5001)) =
    lookup_peer (final (admitControl (plain_packet pktJoin 7 []) (Some (endpoint 5001))) plain_server) 100
      (Some (endpoint 5001))) as E by (by vm_compute).
  exists p. rewrite E. split; [exact Hp|]. split; [exact Hs|exact H].
Defined.

(** A relay that requires Control Authentication and has sent its challenge. *)
Definition handshake_server : server := with_controlAuth plain_server (Some hello_state).

(** A PTT_ON whose tag is wrong. *)
Definition forged_packet : parsedPacket := handshake_packet pktPttOn 1 [].

Lemma unverified_control_ignored_witness :
  handlePacket forged_packet (Some vector_addr) handshake_server = expiry_pass forged_packet handshake_server.
Proof.
  apply unverified_control_ignored; [by vm_compute|by vm_compute|discriminate|discriminate|reflexivity|discriminate].
Defined.

(** The JOIN that answers the challenge, a second later. *)
Definition signed_join : parsedPacket :=
  authenticated_packet pktJoin 100 1002 vector_challenge 1 vector_key 0x1234567800000001 2.

Definition handshake_env : Environment :=
  {| clk := fun _ => hello_time + Second; challenge32 := None; new_id := None |}.
#[local] Existing Instance handshake_env.

Lemma authenticated_join_sound_witness :
  exists meta p, verifyIncomingControl (Some hello_state) signed_join = Some meta /\
    lookup_peer (final (handleAuthenticatedJoin signed_join (Some vector_addr)) handshake_server) 100 (Some vector_addr) = Some p /\ p_senderId p = 1002 /\ p_authenticated p = true.
Proof.
  destruct (authenticated_join_sound signed_join vector_addr handshake_server None)
    as (ca & meta & st & ca' & p & Hca & Hv & _ & Hp & (J1 & J2 & _) & _); [discriminate|by vm_compute|].
  change (controlAuth handshake_server) with (Some hello_state) in Hca. injection Hca as <-.
  exists meta, p. split; [exact Hv|]. split; [exact Hp|]. split; [exact J1|exact J2].
Defined.
