(* ===== verification/Handshake.v ===== *)
(** * The Control Authentication handshake, end to end

    What AUTH_HELLO, everything other clients do in between, and the JOIN make of
    one session: [createChallenge] and [consumeJoinChallenge] of [control_auth.go]
    inside the handlers of [main.go]. *)

From S2P Require Import Prelude GoTime GoNet Packet Replay ControlAuth Identity Service Diagnostics Server Membership Send Floor Relay Steps RelaySpec FloorSpec ExpirySpec HandlerSpec.

(** ** What happens between the two packets *)

(** One change of the Control Authentication state: an operation of some client that
    satisfies [Q], or a nonce drawn for a packet the Relay sends. *)
Inductive control_transition `{Entropy} (Q : control_op -> Prop) (a : controlAuthState) : controlAuthState -> Prop :=
| control_client op : Q op -> control_transition Q a (control_step a op)
| control_nonce : control_transition Q a (nextRelayNonce a).2.

(** The operation reads the clock before [limit] and neither joins session [k] nor
    sends a packet of it with a counter from [counter] on. *)
Definition spares (k : provisionalReplayKey) (limit : time) (counter : Z) (op : control_op) : Prop :=
  match op with
  | Hello _ _ _ t1 t2 => t2 < limit
  | PreJoin p oa m t => t < limit /\ forall a, oa = Some a -> replay_key p a m = k -> m_counter m < counter
  | Join p oa m t1 t2 t3 => t2 < limit /\ forall a, oa = Some a -> replay_key p a m <> k
  end.

(** A session that waits for its JOIN. *)
Record waiting (p : parsedPacket) (a : UDPAddr) (meta : controlAuthMeta) (e : Z) (ck : list Z) (counter : Z)
    (ca : controlAuthState) : Prop := {
  waiting_challenge : challenges ca !! challenge_key p a meta e ck = Some (Unix e);
  waiting_session : exists st, provisional ca !! replay_key p a meta = Some st /\ pr_expiresAt st = Unix e /\
    highest (pr_window st) < counter
}.

Lemma accepted_highest w c w' : acceptReplayCounter w c = (true, w') -> highest w' = Z.max (highest w) c.
Proof.
  unfold acceptReplayCounter. destruct (Z.ltb_spec (highest w) c); [intros [= <-]; cbn; lia|].
  repeat case_match; try done. intros [= <-]. cbn. lia.
Qed.

Lemma accepts_later w c : highest w < c -> exists w', acceptReplayCounter w c = (true, w') /\ highest w' = c.
Proof. intros Hc. unfold acceptReplayCounter. rewrite (proj2 (Z.ltb_lt _ _) Hc). eauto. Qed.

Section waiting.
Context (p : parsedPacket) (a : UDPAddr) (meta : controlAuthMeta) (e : Z) (ck : list Z) (counter : Z).
Context (limit : time) (Hlimit : forall t, t < limit -> t < Unix e).

Abbreviation waits := (waiting p a meta e ck counter).

Lemma waiting_cleanup t ca : t < limit -> waits ca -> waits (cleanupPendingLocked t ca).
Proof.
  intros Ht [Hch (st & Hst & He & Hc)]. pose proof (Hlimit _ Ht) as Hx. split; cbn.
  - by apply (lookup_purge_live (fun d => d) _ _ _ (Unix e)).
  - exists st. split_and!; [|done|done]. apply (lookup_purge_live pr_expiresAt); [done|by rewrite He].
Qed.

Lemma challenge_key_other p' a' m' e' ck' :
  replay_key p' a' m' <> replay_key p a meta -> challenge_key p' a' m' e' ck' <> challenge_key p a meta e ck.
Proof. intros Hne E. apply Hne. unfold challenge_key, replay_key in *. congruence. Qed.

Lemma waiting_hello ca p' oa m' t1 t2 :
  waits ca -> t2 < limit -> waits (createChallenge p' oa m' t1 t2 ca).2.
Proof.
  intros Hw Ht. unfold createChallenge. destruct oa as [a'|]; [|done].
  destruct (_ || _); [done|]. destruct (negb _); [done|]. cbv zeta.
  pose proof (waiting_cleanup t2 ca Ht Hw) as Hc. destruct (_ <=? _); [exact Hc|].
  destruct (provisional (cleanupPendingLocked t2 ca) !! replay_key p' a' m') eqn:E; [exact Hc|].
  assert (replay_key p' a' m' <> replay_key p a meta) as Hne.
  { intros Ek. rewrite Ek in E. destruct Hc as [_ (st & Hst & _)]. congruence. }
  destruct Hc as [Hch (st & Hst & He & Hcnt)]. split; cbn -[purge] in *.
  - rewrite lookup_insert_ne; [exact Hch|]. by apply challenge_key_other.
  - exists st. by rewrite lookup_insert_ne.
Qed.

Lemma waiting_prejoin ca p' oa m' t :
  waits ca -> t < limit -> (forall a', oa = Some a' -> replay_key p' a' m' = replay_key p a meta -> m_counter m' < counter) ->
  waits (acceptPreJoinControl p' oa m' t ca).2.
Proof.
  intros Hw Ht Hq. unfold acceptPreJoinControl. destruct oa as [a'|]; [|done].
  destruct (_ =? 0); [done|]. cbv zeta. pose proof (waiting_cleanup t ca Ht Hw) as Hc.
  destruct (provisional (cleanupPendingLocked t ca) !! replay_key p' a' m') as [st'|] eqn:E; [|exact Hc].
  destruct (acceptReplayCounter _ _) as [[] w] eqn:Ew; [|exact Hc].
  destruct Hc as [Hch (st & Hst & He & Hcnt)]. split; [exact Hch|]. cbn -[purge] in *.
  destruct (decide (replay_key p' a' m' = replay_key p a meta)) as [Ek|Hne].
  - rewrite Ek in *. rewrite lookup_insert_eq. eexists. split; [reflexivity|]. rewrite Hst in E. injection E as <-.
    cbn. split; [done|]. rewrite (accepted_highest _ _ _ Ew). pose proof (Hq a' eq_refl Ek). lia.
  - exists st. by rewrite lookup_insert_ne.
Qed.

Lemma waiting_join ca p' oa m' t1 t2 t3 :
  waits ca -> t2 < limit -> (forall a', oa = Some a' -> replay_key p' a' m' <> replay_key p a meta) ->
  waits (consumeJoinChallenge p' oa m' t1 t2 t3 ca).2.
Proof.
  intros Hw Ht Hq. unfold consumeJoinChallenge. destruct oa as [a'|]; [|done]. specialize (Hq a' eq_refl).
  destruct (_ || _); [done|]. cbv zeta. destruct (_ <? _); [done|]. destruct (negb _); [done|].
  pose proof (waiting_cleanup t2 ca Ht Hw) as Hc.
  set (ckey := challenge_key p' a' m' _ _). assert (ckey <> challenge_key p a meta e ck) as Hck by by apply challenge_key_other.
  destruct (challenges (cleanupPendingLocked t2 ca) !! ckey) as [d|]; [|exact Hc].
  destruct Hc as [Hch (st & Hst & He & Hcnt)].
  assert (delete ckey (challenges (cleanupPendingLocked t2 ca)) !! challenge_key p a meta e ck = Some (Unix e)) as Hd
    by by rewrite lookup_delete_ne.
  destruct (negb _); [split; [exact Hd|by exists st]|].
  destruct (provisional _ !! replay_key p' a' m') as [st'|]; [|split; [exact Hch|by exists st]].
  destruct (acceptReplayCounter _ _) as [[] w]; [|split; [exact Hch|by exists st]].
  split; [exact Hd|]. exists st. cbn -[purge]. by rewrite lookup_delete_ne.
Qed.

Lemma nextRelayNonce_pending `{Entropy} ca :
  challenges (nextRelayNonce ca).2 = challenges ca /\ provisional (nextRelayNonce ca).2 = provisional ca.
Proof.
  assert (forall n b, challenges (newRelayInstanceID_loop n b).2 = challenges b /\
    provisional (newRelayInstanceID_loop n b).2 = provisional b) as Hl.
  { induction n as [|n IH]; intros b; simpl; [done|]. repeat case_match; simpl; try done;
      match goal with |- context [newRelayInstanceID_loop n ?b] => exact (IH b) end. }
  unfold nextRelayNonce, newRelayInstanceIDLocked. specialize (Hl 32%nat ca). destruct (relayCounterExhausted ca).
  - destruct (newRelayInstanceID_loop 32 ca) as [[i|] ca']; cbn in *; done.
  - cbn [negb]. by destruct (relayCounter ca =? 2 ^ 32 - 1).
Qed.

Lemma waiting_transitions `{Entropy} ca ca' :
  rtc (control_transition (spares (replay_key p a meta) limit counter)) ca ca' ->
  waits ca -> waits ca' /\ same_auth (Some ca) (Some ca').
Proof.
  induction 1 as [ca|ca1 ca2 ca3 Hstep _ IH]; intros Hw; [by split|].
  assert (waits ca2 /\ same_auth (Some ca1) (Some ca2)) as [Hw2 Hs2].
  { destruct Hstep as [op Hop|].
    - split; [|apply control_step_same]. destruct op; cbn in *.
      + by apply waiting_hello.
      + destruct Hop. by apply waiting_prejoin.
      + destruct Hop. by apply waiting_join.
    - split; [|apply nextRelayNonce_same]. destruct (nextRelayNonce_pending ca1) as [E1 E2].
      destruct Hw as [Hch Hst]. split; [by rewrite E1|by rewrite E2]. }
  destruct (IH Hw2) as [Hw3 Hs3]. split; [done|by etrans].
Qed.
End waiting.

(** ** The two handlers *)

Section handshake.
Context `{Entropy} `{RangeOrder} `{Ed25519} `{TicketJSON} `{GrantJSON}.

(** The handlers run at different times: each has its own readings of the clock. *)
Definition hello_at (env : Environment) (pkt : parsedPacket) (a : UDPAddr) : handler unit := handleHello pkt (Some a).
Definition join_at (env : Environment) (pkt : parsedPacket) (a : UDPAddr) : handler (option (option string)) :=
  admitControl pkt (Some a).

Lemma verify_facts ca pkt meta :
  verifyIncomingControl (Some ca) pkt = Some meta ->
  len (key (Some ca) (ChannelId (Header pkt)) (m_keyID meta)) = 32 /\ m_sessionID meta <> 0.
Proof.
  unfold verifyIncomingControl, controlNonceParts. destruct (verifyControlAuthPacket _ _) eqn:Ev; cbn [negb]; [|done].
  destruct (Z.eqb_spec (u32 (Z.shiftr (ControlNonce (Sec pkt)) 32)) 0); [done|]. intros [= <-]. cbn [m_keyID m_sessionID].
  split; [|done]. unfold verifyControlAuthPacket in Ev.
  destruct (Z.eqb_spec (len (key (Some ca) (ChannelId (Header pkt)) (KeyID (Sec pkt)))) 32); [done|]. by cbn in Ev.
Qed.

(** A session without a live predecessor gets a challenge. *)
Lemma challenge_issued p a meta t1 t2 ca :
  verifyIncomingControl (Some ca) p = Some meta -> m_counter meta = 0 ->
  (forall st, provisional ca !! replay_key p a meta = Some st -> pr_expiresAt st <= t2) ->
  Z.of_nat (size (provisional (cleanupPendingLocked t2 ca))) < maxProvisionalControlSessions ->
  let e := u32 (toUnix (Add t1 controlAuthCookieTTL)) in
  let ck := cookie ca (ChannelId (Header p)) (SenderId (Header p)) (m_keyID meta) (m_sessionID meta) e a in
  let r := createChallenge p (Some a) meta t1 t2 ca in
  r.1 = inr (put_be 4 e ++ ck) /\ same_auth (Some ca) (Some r.2) /\ forall counter, 0 < counter -> waiting p a meta e ck counter r.2.
Proof.
  intros Hv Hc0 Hfree Hroom e ck r.
  pose proof (control_step_same ca (Hello p (Some a) meta t1 t2) : same_auth (Some ca) (Some r.2)) as Hsame.
  apply verify_facts in Hv as [Hk Hs].
  assert (provisional (cleanupPendingLocked t2 ca) !! replay_key p a meta = None) as Hnone.
  { destruct (provisional (cleanupPendingLocked t2 ca) !! _) as [st|] eqn:E; [|done].
    apply lookup_purge in E as [E Hl]. pose proof (Hfree st E). lia. }
  assert (r = (inr (put_be 4 e ++ ck), set_pending (cleanupPendingLocked t2 ca)
    (<[challenge_key p a meta e ck := Unix e]> (challenges (cleanupPendingLocked t2 ca)))
    (<[replay_key p a meta := {| pr_window := first_window 0; pr_expiresAt := Unix e |}]>
       (provisional (cleanupPendingLocked t2 ca))))) as Hr.
  { unfold r, createChallenge. rewrite Hc0, Hk, (proj2 (Z.eqb_neq _ _) Hs). cbv zeta.
    rewrite (proj2 (Z.leb_gt _ _) Hroom), Hnone. done. }
  rewrite Hr in *. clear r Hr. split; [done|]. split; [exact Hsame|]. intros counter Hctr. split; cbn -[purge].
  - apply lookup_insert_eq.
  - eexists. split; [apply lookup_insert_eq|]. by cbn.
Qed.

(** AUTH_HELLO answers with the challenge, when the Relay has a nonce for it. *)
Lemma hello_answers env p a meta s ca ch :
  controlAuth s = Some ca -> requires (Some ca) (ChannelId (Header p)) = true ->
  verifyIncomingControl (Some ca) p = Some meta -> Payload p = [] ->
  let r := createChallenge p (Some a) meta (@clk env 1) (@clk env 2) ca in
  r.1 = inr ch -> same_auth (Some ca) (Some r.2) ->
  (nextRelayNonce r.2).1 <> None ->
  exists nonce sequence, outs (hello_at env p a) s =
    [Datagram (buildAuthenticatedControlPacketWithSeq pktAuthChallenge (ChannelId (Header p)) (SenderId (Header p)) ch
       (m_keyID meta) (key (Some ca) (ChannelId (Header p)) (m_keyID meta)) nonce sequence) a].
Proof.
  intros Hca Hreq Hv Hpl r Hr Hsame Hn. subst r. unfold outs, hello_at, handleHello. rewrite run_gets.
  unfold server_controlAuthRequired. rewrite Hca, Hreq, Hv, Hpl.
  change (negb true) with false. change (negb (len (@nil Z) =? 0)) with false. cbn iota.
  rewrite run_section, Hca. destruct (createChallenge _ _ _ _ _ _) as [rr ca1]. cbn [fst snd] in *. subst rr.
  unfold sendAuthenticatedChallenge, sendAuthenticatedControl. rewrite run_gets.
  change (controlAuth (with_controlAuth s (Some ca1))) with (Some ca1). cbn iota zeta.
  assert (key (Some ca1) (ChannelId (Header p)) (m_keyID meta) = key (Some ca) (ChannelId (Header p)) (m_keyID meta)) as ->.
  { unfold key. destruct Hsame as (_ & -> & _). done. }
  rewrite (proj1 (verify_facts _ _ _ Hv)). change (negb (32 =? 32)) with false. cbv iota.
  unfold take_nonce. rewrite run_section.
  change (controlAuth (with_controlAuth s (Some ca1))) with (Some ca1). cbn iota.
  destruct (nextRelayNonce ca1) as [[nonce|] ca2]; [|done]. cbn [fst snd].
  unfold take_sequence. rewrite run_section. by eexists _, _.
Qed.
(** The admissions ask nothing of this JOIN. *)
Definition free_admission (env : Environment) (q : parsedPacket) (a : UDPAddr) (meta : controlAuthMeta) (s : server) : Prop :=
  identity_isRequired (identityAdmissions s) = false /\
  (identity_admissionForJoin (identityAdmissions s) q (Some a) meta (@clk env 4)).1 = inr zero_identity /\
  (service_admissionForJoin (serviceAdmissions s) q (Some a) meta (@clk env 4)).1 = inr zero_service.

Lemma resolve_free env q a meta s :
  free_admission env q a meta s ->
  exists ia sa, resolveJoinAdmission q (Some a) meta (@clk env 4) s =
    (inr (zero_identity, zero_service), with_service (with_identity s ia) sa, []).
Proof.
  intros (Hreq & Hi & Hs). unfold resolveJoinAdmission. rewrite !run_section.
  pose proof (identityJoin_required (identityAdmissions s) q (Some a) meta (@clk env 4)) as Hr.
  destruct (identity_admissionForJoin (identityAdmissions s) q (Some a) meta (@clk env 4)) as [ri ia]. cbn [fst snd] in *.
  change (serviceAdmissions (with_identity s ia)) with (serviceAdmissions s).
  destruct (service_admissionForJoin (serviceAdmissions s) q (Some a) meta (@clk env 4)) as [rs sa]. cbn [fst snd] in *.
  subst ri rs. rewrite run_gets.
  change (identityAdmissions (with_service (with_identity s ia) sa)) with ia. rewrite Hr, Hreq.
  by exists ia, sa.
Qed.

(** A JOIN whose challenge is consumed registers its endpoint. *)
Lemma join_registers env q a meta s ca st ca' :
  controlAuth s = Some ca -> requires (Some ca) (ChannelId (Header q)) = true -> PType (Header q) = pktJoin ->
  verifyIncomingControl (Some ca) q = Some meta -> SenderId (Header q) <> 0 ->
  consumeJoinChallenge q (Some a) meta (@clk env 1) (@clk env 2) (@clk env 3) ca = (Some st, ca') ->
  free_admission env q a meta s ->
  result (join_at env q a) s = Some None /\
  exists p, lookup_peer (final (join_at env q a) s) (ChannelId (Header q)) (Some a) = Some p /\
    joined_peer q meta (pr_window st) p /\ p_membershipDeadline p = Add (@clk env 7) (membershipLease s).
Proof.
  intros Hca Hreq Ht Hv Hs Hc Hfree. unfold result, final, join_at, admitControl. rewrite run_gets.
  unfold server_controlAuthRequired. rewrite Hca, Hreq, Ht. change (pktJoin =? pktJoin) with true. cbn [andb].
  unfold handleAuthenticatedJoin. rewrite run_gets, Hca, Hv.
  change (default zero_meta (Some meta)) with meta. cbv zeta. rewrite run_section, Hca, Hc. cbn [fst snd].
  set (s1 := with_controlAuth s (Some ca')). destruct (resolve_free env q a meta s1 Hfree) as (ia & sa & Hr).
  rewrite (run_known _ _ _ _ _ Hr). cbn iota. set (s2 := with_service (with_identity s1 ia) sa).
  rewrite run_section. cbn [fst snd].
  destruct (upsertAuthenticated_at s2 (ChannelId (Header q)) (SenderId (Header q)) a meta (pr_window st) (@clk env 5)) as [p0 Hp].
  assert (membershipLease (upsertAuthenticatedPeerWithReplay (ChannelId (Header q)) (SenderId (Header q)) (Some a) meta
    (pr_window st) (@clk env 5) s2) = membershipLease s) as Hl.
  { pose proof (frame_authenticated_join (ChannelId (Header q)) (SenderId (Header q)) (Some a) meta (pr_window st) (@clk env 5) s2)
      as [(_ & _ & _ & _ & _ & _ & _ & _ & E & _) _]. exact E. }
  set (s3 := upsertAuthenticatedPeerWithReplay _ _ _ _ _ _ s2) in *. clearbody s3.
  change (negb (IsZero (ia_expiresAt zero_identity))) with false.
  change (negb (IsZero (sa_grantExpires zero_service))) with false. cbn iota.
  rewrite run_ret. cbn [negb]. rewrite run_ret. cbn [negb].
  destruct (startMembership_at s3 _ a _ (@clk env 7) Hp Hs) as [Hr1 Hr2]. cbn [p_senderId set_control set_endpoint] in Hr1, Hr2.
  rewrite run_section, Hr1. cbn [negb]. split; [done|]. eexists. split; [exact Hr2|].
  split; [by split_and!|]. cbn. by rewrite Hl.
Qed.

(** C9. An honest handshake completes.  AUTH_HELLO from a session that none is waiting
    for, with fewer than 1024 waiting, gets a challenge (sent when the Relay has a nonce
    left).  Whatever any clients send after it (further AUTH_HELLOs and packets of this
    very session with smaller counters included, its own JOIN excepted), whatever the
    Relay sends and whatever the rest of the server has become, the JOIN that carries
    the challenge back, verified, from the same endpoint in the same session, with a
    counter above every one the session used and within 29 seconds of the AUTH_HELLO,
    is admitted by the handler when no admission is demanded of it: the endpoint is
    registered for the sender, authenticated under the session and key, its replay
    window at the counter of the JOIN, with a full lease.  The clock is one that reads
    between 1970 and early 2106, where an expiry fits the 32 bits of the cookie. *)
Theorem handshake_completes env p a meta s ca :
  controlAuth s = Some ca -> requires (Some ca) (ChannelId (Header p)) = true ->
  verifyIncomingControl (Some ca) p = Some meta -> m_counter meta = 0 -> Payload p = [] ->
  before_2106 (@clk env 1) ->
  (forall st, provisional ca !! replay_key p a meta = Some st -> pr_expiresAt st <= @clk env 2) ->
  Z.of_nat (size (provisional (cleanupPendingLocked (@clk env 2) ca))) < maxProvisionalControlSessions ->
  let limit := @clk env 1 + 29 * Second in
  exists ch ca1, createChallenge p (Some a) meta (@clk env 1) (@clk env 2) ca = (inr ch, ca1) /\
    ((nextRelayNonce ca1).1 <> None -> exists nonce sequence, outs (hello_at env p a) s =
      [Datagram (buildAuthenticatedControlPacketWithSeq pktAuthChallenge (ChannelId (Header p)) (SenderId (Header p)) ch
         (m_keyID meta) (key (Some ca) (ChannelId (Header p)) (m_keyID meta)) nonce sequence) a]) /\
    forall env' q meta' ca2 s',
      ChannelId (Header q) = ChannelId (Header p) -> SenderId (Header q) = SenderId (Header p) ->
      SenderId (Header p) <> 0 -> PType (Header q) = pktJoin -> Payload q = ch ->
      verifyIncomingControl (Some ca) q = Some meta' ->
      m_keyID meta' = m_keyID meta -> m_sessionID meta' = m_sessionID meta -> 0 < m_counter meta' ->
      rtc (control_transition (spares (replay_key p a meta) limit (m_counter meta'))) ca1 ca2 ->
      controlAuth s' = Some ca2 -> free_admission env' q a meta' s' ->
      @clk env 1 <= @clk env' 1 < limit -> @clk env' 2 < limit -> @clk env' 3 < limit ->
      result (join_at env' q a) s' = Some None /\
      exists peer, lookup_peer (final (join_at env' q a) s') (ChannelId (Header q)) (Some a) = Some peer /\
        (exists w, joined_peer q meta' w peer /\ highest w = m_counter meta') /\
        p_membershipDeadline peer = Add (@clk env' 7) (membershipLease s').
Proof.
  intros Hca Hreq Hv Hc0 Hpl Ht Hfree Hroom limit.
  destruct (challenge_issued p a meta (@clk env 1) (@clk env 2) ca Hv Hc0 Hfree Hroom) as (Hr & Hsame & Hw).
  set (e := u32 (toUnix (Add (@clk env 1) controlAuthCookieTTL))) in *. set (ck := cookie _ _ _ _ _ _ _) in *.
  assert (forall t, t < limit -> t < Unix e) as Hlimit.
  { intros t Hlt. assert (limit - 1 < Unix e); [|unfold limit in *; lia].
    apply (challenge_expiry (@clk env 1) (limit - 1) Ht). unfold limit, Second. lia. }
  pose proof (hello_answers env p a meta s ca (put_be 4 e ++ ck) Hca Hreq Hv Hpl Hr Hsame) as Hans.
  destruct (createChallenge _ _ _ _ _ _) as [r ca1]. cbn [fst snd] in *. subst r.
  exists (put_be 4 e ++ ck), ca1. split; [done|]. split; [exact Hans|].
  intros env' q meta' ca2 s' Hch Hsd Hs0 Hq Hqp Hqv Hkid Hsess Hctr Hrun Hca2 Hadm T1 T2 T3.
  destruct (waiting_transitions p a meta e ck (m_counter meta') limit Hlimit ca1 ca2 Hrun (Hw _ Hctr))
    as [[Wc (st & Wst & We & Wh)] Hs2].
  assert (same_auth (Some ca) (Some ca2)) as Hs12 by by etrans.
  destruct (accepts_later (pr_window st) (m_counter meta') Wh) as (w & Hacc & Hhi).
  destruct (challenge_expiry (@clk env 1) (@clk env' 1) Ht T1) as (_ & X1 & Xe).
  destruct (consume_success ca2 q a meta' e ck (Unix e) st w (@clk env' 1) (@clk env' 2) (@clk env' 3)) as [ca3 Hcons];
    [done|done| |done| | |by apply Hlimit|by apply Hlimit| |rewrite We; by apply Hlimit|exact Hacc|].
  - rewrite Hsess. apply (verify_facts _ _ _ Hv).
  - rewrite Hch, Hsd, Hkid, Hsess. unfold ck, cookie. destruct Hs12 as (_ & _ & ->). done.
  - rewrite <- Wc. f_equal. unfold challenge_key. congruence.
  - rewrite <- Wst. f_equal. unfold replay_key. congruence.
  - destruct (join_registers env' q a meta' s' ca2 {| pr_window := w; pr_expiresAt := pr_expiresAt st |} ca3 Hca2)
      as (Hres & peer & Hp & Hj & Hd); [by rewrite (same_auth_requires _ _ _ Hs12), Hch|done|
        by rewrite <- (verify_same_auth _ _ _ Hs12)|congruence|exact Hcons|exact Hadm|].
    split; [done|]. exists peer. split; [done|]. split; [|done]. by exists w.
Qed.
End handshake.

(** ** A concrete handshake *)

Definition signed_hello : parsedPacket :=
  authenticated_packet pktAuthHello 100 1002 [] 1 vector_key 0x1234567800000000 1.

Definition env_at (t : time) : Environment := {| clk := fun _ => t; challenge32 := None; new_id := None |}.

Definition vector_server : server := with_controlAuth plain_server (Some vector_state).

(** Another client asks for a challenge, and the Relay sends a packet. *)
Definition between (ca : controlAuthState) : controlAuthState :=
  (nextRelayNonce (control_step ca
    (Hello (handshake_packet pktAuthHello 0 []) (Some (endpoint 5002)) hello_meta (hello_time + Second) (hello_time + Second)))).2.

Lemma handshake_completes_witness :
  exists ch ca1, createChallenge signed_hello (Some vector_addr) hello_meta hello_time hello_time vector_state = (inr ch, ca1) /\
    let s' := with_controlAuth plain_server (Some (between ca1)) in
    let r := join_at (env_at (hello_time + 2 * Second)) signed_join vector_addr in
    result r s' = Some None /\
    exists peer, lookup_peer (final r s') 100 (Some vector_addr) = Some peer /\ p_senderId peer = 1002.
Proof.
  destruct (handshake_completes (env_at hello_time) signed_hello vector_addr hello_meta vector_server vector_state)
    as (ch & ca1 & E & _ & Hjoin);
    [reflexivity|reflexivity|by vm_compute|reflexivity|reflexivity|by split; vm_compute|intros st Hst; by vm_compute in Hst
    |by vm_compute|].
  exists ch, ca1. split; [exact E|]. intros s' r.
  assert (ch = vector_challenge) as Ech.
  { apply (f_equal (fun x => x.1)) in E. vm_compute in E. injection E as <-. by vm_compute. }
  destruct (Hjoin (env_at (hello_time + 2 * Second)) signed_join join_meta (between ca1) s')
    as (Hres & peer & Hp & (w & (J1 & _) & _) & _);
    [by vm_compute|by vm_compute|discriminate|reflexivity|by rewrite Ech|by vm_compute|reflexivity|reflexivity|reflexivity
    | |reflexivity|by split|by split; vm_compute|by vm_compute|by vm_compute|].
  - eapply rtc_l; [apply control_client|apply rtc_once, control_nonce]. by vm_compute.
  - split; [exact Hres|]. exists peer. split; [exact Hp|exact J1].
Defined.
