(* ===== verification/Takeover.v ===== *)
(** * A registration taken over

    A JOIN that binds an endpoint to another sender ID ([upsertPeer] of [main.go],
    [upsertAuthenticatedPeerWithReplay] of [control_auth.go]) leaves the talk of the
    old sender behind: what becomes of that talk under the transitions of the
    server. *)

From S2P Require Import Prelude GoTime GoNet Packet Replay ControlAuth Identity Service Diagnostics Server Membership Send Floor Relay Steps RelaySpec FloorSpec ExpirySpec HandlerSpec.

(** Sender [t] is a talker of channel [c]. *)
Definition talking (c t : Z) (s : server) : Prop := exists ch, channels s !! c = Some ch /\ talks ch t.

(** Sender [t] has a registration in channel [c]. *)
Definition registered (c t : Z) (s : server) : Prop :=
  exists ch k p, channels s !! c = Some ch /\ peers ch !! k = Some p /\ p_senderId p = t.

(** A talker without a registration. *)
Definition stranded (c t : Z) (s : server) : Prop := talking c t s /\ ~ registered c t s.

#[export] Instance registered_dec c t s : Decision (registered c t s).
Proof.
  destruct (channels s !! c) as [ch|] eqn:E; [|right; intros (ch & k & p & Hc & _); congruence].
  destruct (decide (map_Forall (fun _ p => p_senderId p <> t) (peers ch))) as [Hall|Hsome].
  - right. intros (ch' & k & p & Hc & Hp & Ht). rewrite E in Hc. injection Hc as <-. by destruct (Hall k p Hp).
  - left. apply map_not_Forall in Hsome as (k & p & Hp & Ht); [|apply _].
    exists ch, k, p. split_and!; [done|done|]. by destruct (decide (p_senderId p = t)).
Defined.

(** ** What keeps a talk *)

Section keeps.
Context `{RangeOrder}.
Context (c t : Z).

(** The channel is gone, or [t] still talks. *)
Definition kept (s' : server) : Prop := channels s' !! c = None \/ talking c t s'.

Lemma kept_other s s' : talking c t s -> channels s' !! c = channels s !! c -> kept s'.
Proof. intros (ch & Hch & Ht) E. right. exists ch. by rewrite E. Qed.

(** Writing channel [k], whose talker [t] stays one when [k] is [c]. *)
Lemma kept_insert s s1 k ch :
  talking c t s -> channels s1 !! c = channels s !! c \/ k = c ->
  (k = c -> talks ch t) -> kept (with_channels s1 (<[k := ch]> (channels s1))).
Proof.
  intros Hs Ho Hc. destruct (decide (k = c)) as [->|Hne].
  - right. exists ch. split; [apply lookup_insert_eq|by apply Hc].
  - destruct Ho as [Ho|]; [|done]. apply (kept_other s); [done|]. simpl. by rewrite lookup_insert_ne.
Qed.

Lemma kept_store s k ch : talking c t s -> (k = c -> talks ch t) -> kept (store_channel k ch s).
Proof.
  intros Hs Hc. unfold store_channel. destruct (_ =? _)%nat.
  - destruct (decide (k = c)) as [->|Hne]; [left; apply lookup_delete_eq|].
    apply (kept_other s); [done|]. simpl. by rewrite lookup_delete_ne.
  - apply (kept_insert s s); [done|by left|done].
Qed.

Lemma kept_put_peer s s1 k key p : talking c t s -> channels s1 = channels s -> kept (put_peer k key p s1).
Proof.
  intros (ch & Hch & Ht) E. right. unfold talking, put_peer. simpl. rewrite E, lookup_alter.
  destruct (decide (k = c)) as [->|Hne]; rewrite Hch; [|by exists ch]. by exists (with_peers ch (<[key := p]> (peers ch))).
Qed.

Lemma talking_here s ch k : talking c t s -> channels s !! k = Some ch -> k = c -> talks ch t.
Proof. intros (ch' & Hch' & Ht) Hk ->. congruence. Qed.

(** The expiry loops spare a talker that has no registration. *)
Lemma expirePeers_spares s now ch : stranded c t s -> channels s !! c = Some ch -> talks (expirePeers now ch).1 t.
Proof.
  intros [(ch' & Hch' & u & Hu) Hn] Hch. rewrite Hch in Hch'. injection Hch' as <-.
  destruct (expirePeers_spec now ch) as (_ & Ht & _). exists u. apply Ht. split; [done|].
  intros (k & p & r & Hp & Hs & _). apply Hn. by exists ch, k, p.
Qed.

Lemma revoke_spares s target ch acc :
  stranded c t s -> channels s !! c = Some ch ->
  talks (fold_left (revokePeer target) (range (peers ch)) (ch, acc)).1 t.
Proof.
  intros [(ch' & Hch' & Ht) Hn] Hch. rewrite Hch in Hch'. injection Hch' as <-.
  rewrite revoke_drop. unfold talks.
  rewrite (proj1 (drop_fold_senders (revoked_admission target) (revocation_record target) (range (peers ch)) ch acc t)).
  unfold kept_of. destruct (decide _) as [Hg|]; [|done].
  apply gone_range in Hg as (k & p & x & Hp & Hs & _). destruct Hn. by exists ch, k, p.
Qed.
End keeps.

(** ** The transitions *)

Section transitions.
Context `{RangeOrder}.
Context (c t : Z).

(** Adding a talker or taking away another one. *)
Lemma kept_put_talkers s k ch ts :
  talking c t s -> (k = c -> is_Some (ts !! t)) -> kept c t (put_talkers k ch ts s).
Proof. intros Hs Hc. apply (kept_insert c t s s); [done|by left|]. exact Hc. Qed.

Lemma kept_removePeer s k sd addr : talking c t s -> kept c t (removePeer k sd addr s).
Proof.
  intros Hs. unfold removePeer. destruct (channels s !! k) as [ch|] eqn:E; [|by right].
  apply kept_store; [done|]. intros Hk. pose proof (talking_here c t s ch k Hs E Hk) as Ht.
  destruct (removedKey _ _ _); [|done]. by destruct (sd =? 0).
Qed.

Lemma kept_join s k sd addr now : talking c t s -> kept c t (joinPeer k sd addr now s).
Proof.
  intros Hs. unfold joinPeer, getOrCreateChannel. destruct (channels s !! k) as [ch|] eqn:E.
  - apply (kept_insert c t s s); [done|by left|]. intros Hk. pose proof (talking_here c t s ch k Hs E Hk) as Ht.
    unfold upsertPeer. by destruct addr.
  - assert (k <> c) as Hne by (intros ->; destruct Hs as (? & ? & _); congruence).
    apply (kept_insert c t s); [done| |done]. left. simpl. by rewrite lookup_insert_ne.
Qed.

Lemma kept_authenticated_join s k sd addr meta w now :
  talking c t s -> kept c t (upsertAuthenticatedPeerWithReplay k sd addr meta w now s).
Proof.
  intros Hs. unfold upsertAuthenticatedPeerWithReplay, getOrCreateChannel.
  destruct (channels s !! k) as [ch|] eqn:E.
  - destruct addr; [|by right]. by apply (kept_put_peer c t s).
  - assert (k <> c) as Hne by (intros ->; destruct Hs as (? & ? & _); congruence).
    destruct addr; apply (kept_other c t s); try done; simpl.
    + by rewrite lookup_alter_ne, lookup_insert_ne.
    + by rewrite lookup_insert_ne.
Qed.

Lemma kept_pttOn s k sd now : talking c t s -> kept c t (pttOn_section k sd now s).2.
Proof.
  intros Hs. unfold pttOn_section. destruct (channels s !! k) as [ch|] eqn:E; [|by right].
  destruct (bool_decide _); [by right|]. destruct (_ <? _); [|by right]. apply kept_put_talkers; [done|].
  intros Hk. destruct (talking_here c t s ch k Hs E Hk) as [u Hu].
  destruct (decide (t = sd)) as [->|Hne]; [rewrite lookup_insert_eq; by eauto|].
  rewrite lookup_insert_ne by done. by exists u.
Qed.

Lemma kept_release s k sd : talking c t s -> kept c t (release_section k sd s).2 \/ (k = c /\ sd = t).
Proof.
  intros Hs. destruct (decide (k = c /\ sd = t)) as [Heq|Hne]; [by right|]. left.
  unfold release_section. destruct (channels s !! k) as [ch|] eqn:E; [|by right].
  destruct (bool_decide _); [|by right]. apply kept_put_talkers; [done|].
  intros Hk. rewrite lookup_delete_ne; [exact (talking_here c t s ch k Hs E Hk)|]. intros ->. by apply Hne.
Qed.

Lemma kept_ptt_request s k sd addr now :
  talking c t s -> k <> c -> kept c t (pttRequest_section k sd addr now s).2.
Proof.
  intros Hs Hne. apply (kept_other c t s); [done|]. unfold pttRequest_section.
  repeat case_match; simplify_eq; simpl; try done; by rewrite lookup_insert_ne.
Qed.

Lemma kept_expire_membership s k now : stranded c t s -> kept c t (expireMembershipIfNeeded k now s).2.
Proof.
  intros Hs. unfold expireMembershipIfNeeded. destruct (channels s !! k) as [ch|] eqn:E; [|right; apply Hs].
  assert (k = c -> talks (expirePeers now ch).1 t) as Hx by (intros ->; by apply (expirePeers_spares c t s)).
  destruct (expirePeers now ch) as [ch' released]. apply kept_store; [apply Hs|exact Hx].
Qed.

Lemma kept_cleanup s now : stranded c t s -> talkMax s <= 0 -> kept c t (cleanup_section now s).2.
Proof.
  intros Hs Hmax. pose proof Hs as [(ch & Hch & _) _]. unfold kept, talking. rewrite cleanup_lookup, Hch.
  cbn [mbind option_bind]. unfold cleanupChannel. pose proof (expirePeers_spares c t s now ch Hs Hch) as Hx.
  destruct (expirePeers now ch) as [ch1 expired]. rewrite (proj2 (Z.ltb_ge _ _) Hmax). cbn [fst] in *.
  unfold stored. destruct (_ =? _)%nat; [by left|right]. by exists (with_talkers ch1 (activeTalkers ch1)).
Qed.

Lemma kept_revoke s target : stranded c t s -> kept c t (revoke_section target s).2.
Proof.
  intros Hs. unfold revoke_section. destruct (channels s !! rt_channelID target) as [ch|] eqn:E; [|right; apply Hs].
  assert (rt_channelID target = c -> talks (fold_left (revokePeer target) (range (peers ch)) (ch, [])).1 t) as Hx.
  { intros Hk. apply (revoke_spares c t s); [done|]. by rewrite <- Hk. }
  destruct (fold_left _ _ _) as [ch' revoked]. apply kept_store; [apply Hs|exact Hx].
Qed.

Lemma kept_service s k sd addr ad now : talking c t s -> kept c t (setPeerServiceAdmission k sd addr ad now s).2.
Proof.
  intros Hs. unfold setPeerServiceAdmission. destruct addr; [|by right].
  destruct (admissionAllowedForMembership _ _ _ _) as [b sv].
  destruct (negb b); [by right|]. destruct (member _ _ _ _) as [p|]; [|by right].
  destruct (p_identityAdmission p); [by right|]. by apply (kept_put_peer c t s).
Qed.

(** With no talk limit only the release of [t] itself or a Floor Interrupt ends
    the talk of a sender without a registration. *)
Lemma stranded_step P s s' :
  stranded c t s -> talkMax s <= 0 -> server_step P s s' ->
  kept c t s' \/ s' = (release_section c t s).2 \/ exists sd addr now, s' = (pttRequest_section c sd addr now s).2.
Proof.
  intros Hs Hmax Hstep. pose proof Hs as [Ht _].
  destruct Hstep as [| | | | | | | | | | | | |k sd|k sd addr now| | | |]; simpl.
  15: { destruct (decide (k = c)) as [->|]; [right; right; by eauto|left; by apply kept_ptt_request]. }
  14: { destruct (kept_release s k sd Ht) as [|[-> ->]]; auto. }
  all: left.
  - by right.
  - by apply kept_join.
  - by apply kept_authenticated_join.
  - unfold touchKnownPeer. repeat case_match; simpl; solve [by right|by apply (kept_put_peer c t s)].
  - unfold acceptUnauthenticatedPeerControl. repeat case_match; simpl; solve [by right|by apply (kept_put_peer c t s)].
  - unfold startMembership. repeat case_match; simpl; solve [by right|by apply (kept_put_peer c t s)].
  - unfold refreshMembership. repeat case_match; simpl; solve [by right|by apply (kept_put_peer c t s)].
  - unfold setPeerIdentityAdmission. repeat case_match; simpl; solve [by right|by apply (kept_put_peer c t s)].
  - by apply kept_service.
  - unfold acceptAuthenticatedPeerControl. repeat case_match; simpl; solve [by right|by apply (kept_put_peer c t s)].
  - unfold cacheCodecConfig. destruct (negb _); [by right|].
    destruct (channels s !! channelId) as [ch|] eqn:E; [|by right].
    apply (kept_insert c t s s); [done|by left|]. intros Hk. exact (talking_here c t s ch _ Ht E Hk).
  - by apply kept_removePeer.
  - by apply kept_pttOn.
  - unfold expireTalkIfNeeded. rewrite (proj2 (Z.leb_le _ _) Hmax). by right.
  - by apply kept_expire_membership.
  - by apply kept_cleanup.
  - by apply kept_revoke.
Qed.
End transitions.

(** ** Handlers *)

Section handlers.
Context `{Entropy} `{RangeOrder} `{Environment} `{Ed25519} `{TicketJSON} `{GrantJSON}.

(** A handler whose transitions touch no channel. *)
Lemma quiet_keeps {A} (m : handler A) : steps (server_step (fun _ => False)) m -> keeps_channels m.
Proof. intros Hm s. apply map_eq. intros k. apply (proj2 (server_steps_frame _ _ _ (Hm s))). tauto. Qed.

Lemma expiry_pass_channels pkt s :
  channels (final (expiry_pass pkt) s) = channels (expireMembershipIfNeeded (ChannelId (Header pkt)) (clk 0) s).2.
Proof.
  unfold expiry_pass, emitMembershipExpirations. rewrite final_bind.
  rewrite quiet_keeps.
  2: { apply steps_for_each. intros e. apply steps_bind; [|intros _; apply steps_publish].
       destruct (me_active e); [apply steps_announceRelease|apply steps_ret]. }
  unfold final, result, section, atomically. by destruct (expireMembershipIfNeeded _ _ _).
Qed.

Lemma expiry_registers_nobody pkt c t s : ~ registered c t s -> ~ registered c t (final (expiry_pass pkt) s).
Proof.
  intros Hn (ch' & k & p & Hch & Hp & Ht). apply Hn. rewrite expiry_pass_channels in Hch.
  unfold expireMembershipIfNeeded in Hch.
  destruct (channels s !! ChannelId (Header pkt)) as [ch|] eqn:E; [|by exists ch', k, p].
  destruct (expirePeers_spec (clk 0) ch) as (Hx & _). destruct (expirePeers (clk 0) ch) as [ch1 rel]. cbn [fst snd] in *.
  destruct (decide (c = ChannelId (Header pkt))) as [->|Hne].
  - rewrite store_channel_here in Hch. apply stored_Some in Hch as [-> _]. apply Hx in Hp as [Hp _]. by exists ch, k, p.
  - rewrite store_channel_lookup in Hch by done. by exists ch', k, p.
Qed.

Lemma not_registered_member c t s oa : ~ registered c t s -> member s c t oa = None.
Proof.
  intros Hn. destruct (member s c t oa) as [p|] eqn:E; [|done]. destruct Hn.
  apply member_lookup in E as [E Ht]. unfold lookup_peer in E. destruct oa as [a|]; [|done].
  apply bind_Some in E as (ch & Hch & Hp). by exists ch, (peerMapKey (Some a)), p.
Qed.

(** The endpoint of [t] bound to [u]: no registration of [t] is left. *)
Lemma rebound_unregistered c t u a s s' ch q :
  channels s !! c = Some ch -> u <> t ->
  (forall k p, peers ch !! k = Some p -> p_senderId p = t -> k = peerMapKey (Some a)) ->
  p_senderId q = u -> channels s' !! c = Some (with_peers ch (<[peerMapKey (Some a) := q]> (peers ch))) ->
  ~ registered c t s'.
Proof.
  intros Hch Hu Hall Hq Hc' (ch' & k & p & Hch' & Hp & Ht). rewrite Hc' in Hch'. injection Hch' as <-. cbn in Hp.
  apply lookup_insert_Some in Hp as [[_ <-]|[Hne Hp]]; [congruence|]. by apply Hne, eq_sym, (Hall k p).
Qed.

Lemma takeover_strands c t u a s ch now :
  channels s !! c = Some ch -> talks ch t -> u <> t ->
  (forall k p, peers ch !! k = Some p -> p_senderId p = t -> k = peerMapKey (Some a)) ->
  stranded c t (joinPeer c u (Some a) now s) /\
  forall meta w, stranded c t (upsertAuthenticatedPeerWithReplay c u (Some a) meta w now s).
Proof.
  intros Hch Ht Hu Hall. split; [|intros meta w].
  - assert (channels (joinPeer c u (Some a) now s) !! c = Some (upsertPeer ch u (Some a) now)) as E.
    { unfold joinPeer, getOrCreateChannel. rewrite Hch. apply lookup_insert_eq. }
    split; [by exists (upsertPeer ch u (Some a) now)|].
    exact (rebound_unregistered c t u a s _ ch (set_endpoint (default (new_peer a) (peers ch !! peerMapKey (Some a))) u a now)
      Hch Hu Hall eq_refl E).
  - unfold upsertAuthenticatedPeerWithReplay, getOrCreateChannel. rewrite Hch.
    set (q := set_control _ _ _ _ _).
    assert (channels (put_peer c (peerMapKey (Some a)) q s) !! c =
      Some (with_peers ch (<[peerMapKey (Some a) := q]> (peers ch)))) as E.
    { unfold put_peer. simpl. by rewrite lookup_alter_eq, Hch. }
    split; [by exists (with_peers ch (<[peerMapKey (Some a) := q]> (peers ch)))|].
    exact (rebound_unregistered c t u a s _ ch q Hch Hu Hall eq_refl E).
Qed.

(** With a single talker nobody else gets the floor. *)
Lemma floor_taken c t v now s :
  server_ok s -> talkerLimit s = 1 -> talking c t s -> v <> t -> pttOn_section c v now s = (PttDenied t, s).
Proof.
  intros Hok Hlim (ch & Hch & u & Hu) Hv. pose proof (ok_talkers _ _ _ (Hok _ _ Hch)) as Hn.
  assert (activeTalkers ch = {[t := u]}) as Em.
  { unfold activeCount in Hn. rewrite Hlim in Hn. rewrite <- (insert_delete_id _ _ _ Hu) in Hn |- *.
    rewrite map_size_insert_None in Hn by apply lookup_delete_eq.
    assert (size (delete t (activeTalkers ch)) = 0%nat) as E by lia. apply map_size_empty_inv in E. by rewrite E. }
  unfold pttOn_section. rewrite Hch, bool_decide_eq_false_2.
  2: { rewrite Em, lookup_singleton_ne by done. by intros []. }
  unfold activeCount, firstActiveTalker, sortedActiveTalkers. rewrite Em, Hlim, map_size_singleton. cbn [Z.ltb Z.of_nat Z.compare].
  pose proof (range_perm ({[t := u]} : gmap Z time)) as Hp. rewrite map_to_list_singleton in Hp.
  apply Permutation_singleton_r in Hp. by rewrite Hp.
Qed.

(** C28. A JOIN that takes over an endpoint strands its talker.  When a talker of a
    channel is registered at one endpoint only and that endpoint joins under another
    sender ID, with or without Control Authentication, the old sender stays a talker
    although no registration of it is left.  With no talk limit it stays so under every
    transition of every client, until the channel is gone, the sender registers again,
    its talk is released or a Floor Interrupt preempts it; no packet of it ends the
    talk (other than a JOIN or one of a handshake it only makes the expiry pass), and
    with no Floor Interrupt no request of another sender does.  On a channel of a
    single talker everybody else is refused the floor meanwhile. *)
Theorem taken_over_talker_strands c t u a s ch :
  channels s !! c = Some ch -> talks ch t -> u <> t ->
  (forall k p, peers ch !! k = Some p -> p_senderId p = t -> k = peerMapKey (Some a)) ->
  (forall now, stranded c t (joinPeer c u (Some a) now s)) /\
  (forall meta w now, stranded c t (upsertAuthenticatedPeerWithReplay c u (Some a) meta w now s)) /\
  forall s1, stranded c t s1 ->
    (talkMax s1 <= 0 -> forall s2, server_step (fun _ => True) s1 s2 ->
      stranded c t s2 \/ registered c t s2 \/ channels s2 !! c = None \/ s2 = (release_section c t s1).2 \/
      exists sd addr now, s2 = (pttRequest_section c sd addr now s1).2) /\
    (floorInterrupt s1 = false -> forall sd addr now,
      channels (final (handlePttRequest c sd addr now) s1) = channels s1) /\
    (forall pkt oa, ChannelId (Header pkt) = c -> SenderId (Header pkt) = t -> t <> 0 -> Version (Header pkt) = 1 ->
      PType (Header pkt) ∉ [pktJoin; pktAuthHello; pktPing; pktIdentityBegin; pktIdentityProof;
        pktServiceBegin; pktServiceProof] ->
      handlePacket pkt oa s1 = expiry_pass pkt s1) /\
    (server_ok s1 -> talkerLimit s1 = 1 -> forall v now, v <> t -> pttOn_section c v now s1 = (PttDenied t, s1)).
Proof.
  intros Hch Ht Hu Hall.
  split; [intros now; by apply (takeover_strands c t u a s ch)|].
  split; [intros meta w now; by apply (takeover_strands c t u a s ch now)|].
  intros s1 Hs. split_and!.
  - intros Hmax s2 Hstep. destruct (stranded_step c t _ s1 s2 Hs Hmax Hstep) as [[Hg|Hk]|[Hr|Hp]]; auto 10.
    destruct (decide (registered c t s2)); [auto|by left].
  - intros Hf sd addr now. unfold final, handlePttRequest. rewrite run_gets, Hf. cbn [negb orb].
    apply (quiet_keeps (denyPttRequest c sd ;;; ret false)).
    apply steps_bind; [apply steps_denyPttRequest|intros _; apply steps_ret].
  - intros pkt oa Ec Et Hz Hv Hty. apply unregistered_endpoint_ignored; [|done|done|congruence].
    rewrite Ec, Et. apply not_registered_member, expiry_registers_nobody, Hs.
  - intros Hok Hlim v now Hv. by apply floor_taken; [..|apply Hs|].
Qed.
End handlers.

(** ** A concrete takeover *)

(** The channel of [talking_server]: sender 7 talks from port 5001. *)
Definition talking_here_b (ch : channel) : bool :=
  bool_decide (is_Some (activeTalkers ch !! 7)) &&
  bool_decide (map_Forall (fun k p => p_senderId p = 7 -> k = peerMapKey (Some (endpoint 5001))) (peers ch)).

Lemma talking_channel : exists ch, channels talking_server !! 100 = Some ch /\ talks ch 7 /\
  forall k p, peers ch !! k = Some p -> p_senderId p = 7 -> k = peerMapKey (Some (endpoint 5001)).
Proof.
  assert (talking_here_b <$> channels talking_server !! 100 = Some true) as E by (by vm_compute).
  destruct (channels talking_server !! 100) as [ch|]; [|done]. injection E as E.
  apply andb_true_iff in E as [Ht Hall]. exists ch. split; [done|]. split; [by apply bool_decide_eq_true in Ht|].
  by apply bool_decide_eq_true in Hall.
Qed.

Lemma talking_server_ok : server_ok talking_server.
Proof.
  refine (proj1 (reachable_ok plain_server _ eq_refl _)). unfold talking_server, joined_server, after, reachable.
  etrans; apply steps_handlePacket; done.
Qed.

Lemma taken_over_talker_strands_witness :
  let taken := joinPeer 100 8 (Some (endpoint 5001)) toy_now talking_server in
  stranded 100 7 taken /\
  (forall sd addr now, channels (final (handlePttRequest 100 sd addr now) taken) = channels taken) /\
  pttOn_section 100 8 toy_now taken = (PttDenied 7, taken).
Proof.
  destruct talking_channel as (ch & Hch & Ht & Hall).
  destruct (taken_over_talker_strands 100 7 8 (endpoint 5001) talking_server ch Hch Ht ltac:(discriminate) Hall)
    as (H1 & _ & H2).
  destruct (H2 _ (H1 toy_now)) as (_ & H3 & _ & H4).
  split; [apply H1|]. split; [apply H3; reflexivity|].
  apply H4; [|reflexivity|discriminate].
  apply joinPeer_ok; [exact talking_server_ok|discriminate].
Defined.
