(* ===== verification/DirectorySpec.v ===== *)
(** * The Directory service: properties

    The Directory as a transition system with one transition per section of
    [Directory.v], each at any reading of the clock, so that a property of every
    reachable state holds under every interleaving of the workers, the readers,
    the publisher and the cleanup; then what its answers are. *)

From S2P Require Import Prelude GoTime GoNet Sha256 Base64 Packet Replay Identity Server DirectoryWire DirectoryPack Directory.

(** ** The transition system *)

Section system.
Context `{RangeOrder} `{DirectoryEnvironment} `{DirectoryJSON} `{AEAD}.

(** A commit acts on what opened under the keys of the Directory. *)
Inductive directory_transition (d : directoryV3) : time -> directoryV3 -> Prop :=
| dstep_clock n m t : directory_transition d t (with_reads d n m)
| dstep_purge now : directory_transition d now (purgeLocked now d)
| dstep_preauth addr now : directory_transition d now (allowPreauthentication addr now d).2
| dstep_budget count now : 1 <= count -> directory_transition d now (consumeResponseBudget count now d).2
| dstep_send job t : directory_transition d t (send_job job d).2
| dstep_receive t : directory_transition d t (receive_job d).2
| dstep_commit data bnd opened addr opened_at now :
    openDirectoryDatagram data bnd (d_keys d) opened_at = Some opened ->
    directory_transition d now (commitInbound opened addr now d).2
| dstep_take cursor now : directory_transition d now (take_cursor cursor now d).2
| dstep_store session page :
    directory_transition d (now_at (d_reads d)) (storeSnapshotCursor session page d).2.

(** The transitions at readings of the clock that satisfy [P]. *)
Definition directory_moves (P : time -> Prop) (d d' : directoryV3) : Prop :=
  exists t, P t /\ directory_transition d t d'.

Definition directory_reachable : relation directoryV3 := rtc (directory_moves (fun _ => True)).

(** The configuration is fixed, the tables are bounded, and a replay record is a
    window over a set of accepted sequence numbers. *)
Record directory_ok (d0 d : directoryV3) : Prop := {
  dok_keys : d_keys d = d_keys d0;
  dok_metadata : d_metadata d = d_metadata d0;
  dok_transport : d_transport d = d_transport d0;
  dok_ttl : freshnessTTL d = freshnessTTL d0;
  dok_jobs : len (jobs d) <= 32;
  dok_registrations : Z.of_nat (size (registrations d)) <= 64;
  dok_replay_size : Z.of_nat (size (replay d)) <= 1024;
  dok_preauth_size : Z.of_nat (size (preauth d)) <= 1024;
  dok_preauth : map_Forall (fun _ r => 0 <= rs_count r <= 16) (preauth d);
  dok_rate : 0 <= rs_count (responseRate d) <= 64;
  dok_replay : map_Forall (fun _ r => exists st, dir_rep (rr_state r) st) (replay d)
}.

Lemma fresh_directory_ok keys metadata transport interval ttl d :
  newDirectoryV3 keys metadata transport interval ttl = Some d -> directory_ok d d.
Proof.
  unfold newDirectoryV3. cbv zeta. destruct (_ || _); [done|]. destruct (_ || _) in |- *; [done|].
  intros [= <-]. split; cbn; try done; lia.
Qed.

Lemma purgeLocked_ok d0 d now : directory_ok d0 d -> directory_ok d0 (purgeLocked now d).
Proof.
  intros [K M T F J R RP P PC RT RS]. split; cbn; try done.
  - pose proof (size_purge dr_deadline now (registrations d)). lia.
  - pose proof (size_purge rr_expires now (replay d)). lia.
  - pose proof (map_subseteq_size _ _ (map_filter_subseteq
      (fun kv => Sub now (rs_window (kv.2)) < 2 * Second) (preauth d))). lia.
  - intros k r Hk. apply map_lookup_filter_Some in Hk as [Hk _]. by apply (PC k).
  - intros k r Hk. apply lookup_purge in Hk as [Hk _]. by apply (RS k).
Qed.

Lemma rates_ok d0 d pre rate :
  directory_ok d0 d -> Z.of_nat (size pre) <= 1024 -> map_Forall (fun _ r => 0 <= rs_count r <= 16) pre ->
  0 <= rs_count rate <= 64 -> directory_ok d0 (with_rates d pre rate).
Proof. intros [K M T F J R RP P PC RT RS] ? ? ?. by split. Qed.

Lemma tables_ok d0 d regs rep curs :
  directory_ok d0 d -> Z.of_nat (size regs) <= 64 -> Z.of_nat (size rep) <= 1024 ->
  map_Forall (fun _ r => exists st, dir_rep (rr_state r) st) rep -> directory_ok d0 (with_tables d regs rep curs).
Proof. intros [K M T F J R RP P PC RT RS] ? ? ?. by split. Qed.

(** Insertion behind the test [!found && len(m) >= n]. *)
Lemma size_guarded_insert {K} `{Countable K} {A} (m : gmap K A) k (v : A) (n : Z) :
  Z.of_nat (size m) <= n -> negb (bool_decide (is_Some (m !! k))) && (n <=? Z.of_nat (size m)) = false ->
  Z.of_nat (size (<[k := v]> m)) <= n.
Proof.
  intros Hm Hg. apply andb_false_iff in Hg as [Hg|Hg].
  - apply negb_false_iff, bool_decide_eq_true in Hg. by rewrite size_insert_mem.
  - gobool. pose proof (size_insert_bound m k v (Z.to_nat n)). lia.
Qed.

Lemma preauth_ok d0 d addr now : directory_ok d0 d -> directory_ok d0 (allowPreauthentication addr now d).2.
Proof.
  intros Hd. pose proof Hd as [K M T F J R RP P PC RT RS]. unfold allowPreauthentication. cbv zeta.
  set (key := IP_String (IP addr)). destruct (_ && _) eqn:Hg; [done|].
  set (state := if _ || _ then _ else default _ _).
  assert (0 <= rs_count state <= 16) as Hs.
  { unfold state. destruct (_ || _); [done|]. destruct (preauth d !! key) eqn:E; [by apply (PC key)|done]. }
  destruct (16 <=? rs_count state) eqn:H16; gobool; cbn [snd];
    (apply rates_ok; [done|by apply size_guarded_insert|apply map_Forall_insert_2; [cbn; lia|done]|done]).
Qed.

Lemma budget_ok d0 d count now :
  1 <= count -> directory_ok d0 d -> directory_ok d0 (consumeResponseBudget count now d).2.
Proof.
  intros Hc Hd. pose proof Hd as [K M T F J R RP P PC RT RS]. unfold consumeResponseBudget. cbv zeta.
  set (rate := if _ || _ then _ else _).
  assert (0 <= rs_count rate <= 64) as Hr by (unfold rate; destruct (_ || _); done || lia).
  destruct (64 <? rs_count rate + count) eqn:H64; gobool; cbn [snd]; apply rates_ok; try done. cbn. lia.
Qed.

Lemma opened_sequence data bnd keys now opened :
  openDirectoryDatagram data bnd keys now = Some opened ->
  is_u64 (e_Sequence (o_envelope opened)) /\ is_u64 (e_ExpiresAt (o_envelope opened)).
Proof.
  unfold openDirectoryDatagram. destruct (_ || _); [done|]. intros (e & Ee & E)%bind_Some.
  assert (is_u64 (e_Sequence e) /\ is_u64 (e_ExpiresAt e)) as He.
  { unfold parse_envelope in Ee. apply bind_Some in Ee as (i & Ei & Ee).
    repeat (apply bind_Some in Ee as (? & ? & Ee)). apply (inj Some) in Ee.
    assert (i = envelope_input e) as -> by (subst e; destruct i; cbn in *; by simplify_eq).
    by apply unmarshal_envelope_fits in Ei as (_ & _ & ? & ?). }
  destruct (envelope_current e now); [|done]. cbn [negb] in E.
  repeat (apply bind_Some in E as (? & ? & E)). destruct (len _ <? 16); [done|].
  repeat (apply bind_Some in E as (? & ? & E)). cbv zeta in E.
  destruct (bytes_eqb _ _); apply fmap_Some in E as (? & _ & ->); exact He.
Qed.

Lemma accept_rep s c b s' :
  is_u64 c -> (s = zero_replay \/ exists st, dir_rep s st) -> directory_accept s c = (b, s') ->
  b = true -> exists st, dir_rep s' st /\ c ∈ st.1.
Proof.
  intros Hc [->|[st Hst]] E ->.
  - injection E as <-. exists ({[c]}, c). cbn. split; [|set_solver].
    split_and!; [done..|]. cbn. apply first_window_bits.
  - destruct (directory_step _ _ _ Hst Hc) as [Hb Hr]. rewrite E in Hb, Hr. cbn in Hb, Hr.
    exists (spec_accept st c).2. split; [done|]. destruct st as [acc h]. cbn in *.
    case_decide; [cbn; set_solver|done].
Qed.

Lemma commit_replay_ok d0 d opened d' :
  is_u64 (e_Sequence (o_envelope opened)) -> directory_ok d0 d -> commit_replay opened d = Some d' -> directory_ok d0 d'.
Proof.
  intros Hseq Hd E. pose proof Hd as [K M T F J R RP P PC RT RS]. unfold commit_replay in E. cbv zeta in E.
  set (key := (e_ChannelID _, _)) in E. destruct (_ && _) eqn:Hg in E; [done|].
  destruct (directory_accept _ _) as [accepted state] eqn:Ea in E. destruct accepted; [|done]. cbn [negb] in E.
  injection E as <-. apply tables_ok; [done|done|by apply size_guarded_insert|].
  apply map_Forall_insert_2; [|done]. cbn.
  assert (rr_state (default zero_record (replay d !! key)) = zero_replay \/
    exists st, dir_rep (rr_state (default zero_record (replay d !! key))) st) as Hold.
  { destruct (replay d !! key) as [r|] eqn:Ek; [right; by apply (RS key)|by left]. }
  destruct (accept_rep _ _ _ _ Hseq Hold Ea eq_refl) as (st & Hst & _). by exists st.
Qed.

Lemma commit_payload_ok d0 d opened addr now :
  directory_ok d0 d -> directory_ok d0 (commit_payload opened addr now d).2.
Proof.
  intros Hd. pose proof Hd as [K M T F J R RP P PC RT RS]. unfold commit_payload. cbv zeta.
  destruct (bytes_eqb _ (str_bytes "request")); [done|].
  destruct (bytes_eqb _ (str_bytes "register")).
  - destruct (o_registration opened) as [g|]; [|done]. destruct (_ && _) eqn:Hg; [done|]. cbn [snd].
    apply tables_ok; [done|by apply size_guarded_insert|done|done].
  - destruct (bytes_eqb _ _); [|done]. destruct (o_registration opened) as [g|]; [|done].
    destruct (registrations d !! _) as [r|] eqn:Er; [|done]. destruct (_ || _); [done|]. cbn [snd].
    apply tables_ok; [done| |done|done]. by rewrite size_insert_mem.
Qed.

Lemma commitInbound_ok d0 d opened addr now :
  is_u64 (e_Sequence (o_envelope opened)) -> directory_ok d0 d -> directory_ok d0 (commitInbound opened addr now d).2.
Proof.
  intros Hseq Hd. unfold commitInbound. cbv zeta. pose proof (purgeLocked_ok _ _ now Hd) as Hp.
  destruct (commit_replay opened (purgeLocked now d)) as [d'|] eqn:E; [|done].
  apply commit_payload_ok. by eapply commit_replay_ok.
Qed.

Lemma store_cursor_ok d0 attempts : forall entry d,
  directory_ok d0 d -> directory_ok d0 (store_cursor attempts entry d).2.
Proof.
  induction attempts as [|k IH]; intros entry d Hd; [done|]. cbn [store_cursor].
  unfold randomIDText, randomID. cbv zeta iota. destruct (random_at (d_draws d)) as [v|]; cbn [fmap option_fmap option_map].
  2:{ by destruct Hd. }
  assert (directory_ok d0 (with_reads d (d_reads d) (S (d_draws d)))) as Hd' by by destruct Hd.
  case_bool_decide; [by apply IH|]. cbn [snd]. destruct Hd'. by apply tables_ok.
Qed.

Lemma directory_transition_ok d0 d t d' : directory_transition d t d' -> directory_ok d0 d -> directory_ok d0 d'.
Proof.
  intros [] Hd.
  - by destruct Hd.
  - by apply purgeLocked_ok.
  - by apply preauth_ok.
  - by apply budget_ok.
  - cbn. destruct (len (jobs d) <? 32) eqn:El; [|done]. destruct Hd as [K M T F J R RP P PC RT RS]. gobool.
    split; cbn; try done. rewrite len_app. unfold len in *. simpl. lia.
  - unfold receive_job. destruct Hd as [K M T F J R RP P PC RT RS].
    destruct (jobs d) as [|j js] eqn:Ej; cbn [snd]; split; cbn; try done; rewrite ?Ej; try done.
    unfold len in *. simpl in *. lia.
  - apply commitInbound_ok; [|done]. by eapply opened_sequence.
  - unfold take_cursor. cbv zeta. pose proof (purgeLocked_ok _ _ now Hd) as Hp. destruct Hp. by apply tables_ok.
  - unfold storeSnapshotCursor, read_now. cbv zeta iota. apply store_cursor_ok, purgeLocked_ok. by destruct Hd.
Qed.

Lemma moves_ok P d0 d d' : rtc (directory_moves P) d d' -> directory_ok d0 d -> directory_ok d0 d'.
Proof. induction 1 as [|d d1 d' (t & _ & Ht) _ IH]; [done|]. intros Hd. eapply IH, directory_transition_ok; eauto. Qed.

(** ** Replay protection *)

(** The table remembers, until [X], that the sequence number was accepted. *)
Definition remembered (key : Z * list Z) (sequence : Z) (X : time) (d : directoryV3) : Prop :=
  exists r st, replay d !! key = Some r /\ dir_rep (rr_state r) st /\ sequence ∈ st.1 /\ X <= rr_expires r.

Lemma accept_keeps s st c s' :
  dir_rep s st -> is_u64 c -> directory_accept s c = (true, s') -> exists st', dir_rep s' st' /\ st.1 ⊆ st'.1.
Proof.
  intros Hs Hc E. destruct (directory_step _ _ _ Hs Hc) as [_ Hr]. rewrite E in Hr.
  exists (spec_accept st c).2. split; [done|]. destruct st as [acc h]. cbn. case_decide; cbn; set_solver.
Qed.

Lemma accept_rejects s st c :
  dir_rep s st -> is_u64 c -> c ∈ st.1 -> (directory_accept s c).1 = false.
Proof.
  intros Hs Hc Hin. destruct (directory_step _ _ _ Hs Hc) as [-> _]. destruct st as [acc h].
  destruct Hs as (_ & _ & _ & Hw). cbn in *. rewrite decide_False; [done|].
  pose proof (rep_below _ _ _ Hw c Hin). unfold fresh. intros [?|[_ ?]]; [lia|done].
Qed.

Lemma purge_remembers key c X now d : now < X -> remembered key c X d -> remembered key c X (purgeLocked now d).
Proof.
  intros Hn (r & st & Hk & Hst & Hc & HX). exists r, st. split_and!; try done. cbn.
  apply lookup_purge_live; [done|lia].
Qed.

Lemma commit_replay_remembers key c X opened d d' :
  is_u64 (e_Sequence (o_envelope opened)) -> commit_replay opened d = Some d' ->
  remembered key c X d -> remembered key c X d'.
Proof.
  intros Hseq E (r & st & Hk & Hst & Hc & HX). unfold commit_replay in E. cbv zeta in E.
  destruct (_ && _) in E; [done|]. destruct (directory_accept _ _) as [accepted state] eqn:Ea in E.
  destruct accepted; [|done]. cbn [negb] in E. injection E as <-. unfold remembered. cbn [replay with_tables].
  destruct (decide ((e_ChannelID (o_envelope opened), o_epoch opened) = key)) as [<-|Hne].
  - rewrite Hk in Ea |- *. cbn [default] in Ea |- *. destruct (accept_keeps _ _ _ _ Hst Hseq Ea) as (st' & Hst' & Hsub).
    eexists _, st'. rewrite lookup_insert_eq. split_and!; [done|done|set_solver|]. cbn.
    destruct (Before (rr_expires r) _) eqn:Eb; [|done]. apply Before_true in Eb. lia.
  - exists r, st. by rewrite lookup_insert_ne.
Qed.

Lemma commit_payload_replay opened addr now d : replay (commit_payload opened addr now d).2 = replay d.
Proof. unfold commit_payload. cbv zeta. repeat (case_match; try done). Qed.

Lemma commit_remembers key c X opened addr now d :
  is_u64 (e_Sequence (o_envelope opened)) -> now < X -> remembered key c X d ->
  remembered key c X (commitInbound opened addr now d).2.
Proof.
  intros Hseq Hn Hr. unfold commitInbound. cbv zeta. apply (purge_remembers _ _ _ now) in Hr; [|done].
  destruct (commit_replay opened (purgeLocked now d)) as [d'|] eqn:E; [|done].
  unfold remembered. rewrite commit_payload_replay. by eapply commit_replay_remembers.
Qed.

Lemma store_cursor_replay attempts : forall entry d, replay (store_cursor attempts entry d).2 = replay d.
Proof.
  induction attempts as [|k IH]; intros entry d; [done|]. cbn [store_cursor]. unfold randomIDText, randomID. cbv zeta iota.
  destruct (random_at (d_draws d)); [|done]. cbn [fmap option_fmap option_map]. case_bool_decide; [|done].
  by rewrite IH.
Qed.

Lemma transition_remembers key c X d t d' :
  directory_transition d t d' -> t < X -> remembered key c X d -> remembered key c X d'.
Proof.
  intros [] Ht Hr; try done.
  - by apply purge_remembers.
  - unfold allowPreauthentication. cbv zeta. destruct (_ && _); [done|]. destruct (16 <=? _); done.
  - unfold consumeResponseBudget. cbv zeta. by destruct (64 <? _).
  - cbn. by destruct (len (jobs d) <? 32).
  - unfold receive_job. by destruct (jobs d).
  - apply commit_remembers; [|done|done]. by eapply opened_sequence.
  - unfold take_cursor. cbv zeta. by apply (purge_remembers _ _ _ now) in Hr.
  - unfold remembered, storeSnapshotCursor, read_now. cbv zeta iota. rewrite store_cursor_replay.
    by apply (purge_remembers _ _ _ (now_at (d_reads d))) in Hr.
Qed.

Lemma commit_records opened d d' :
  is_u64 (e_Sequence (o_envelope opened)) -> map_Forall (fun _ r => exists st, dir_rep (rr_state r) st) (replay d) ->
  commit_replay opened d = Some d' ->
  remembered (e_ChannelID (o_envelope opened), o_epoch opened) (e_Sequence (o_envelope opened))
    (Unix (i64 (e_ExpiresAt (o_envelope opened)))) d'.
Proof.
  intros Hseq RS E. unfold commit_replay in E. cbv zeta in E. set (key := (e_ChannelID _, _)) in *.
  destruct (_ && _) in E; [done|]. destruct (directory_accept _ _) as [accepted state] eqn:Ea in E.
  destruct accepted; [|done]. cbn [negb] in E. injection E as <-. unfold remembered. cbn [replay with_tables].
  assert (rr_state (default zero_record (replay d !! key)) = zero_replay \/
    exists st, dir_rep (rr_state (default zero_record (replay d !! key))) st) as Hold.
  { destruct (replay d !! key) as [r|] eqn:Ek; [right; by apply (RS key)|by left]. }
  destruct (accept_rep _ _ _ _ Hseq Hold Ea eq_refl) as (st & Hst & Hin).
  eexists _, st. rewrite lookup_insert_eq. split_and!; [done|done|done|]. cbn.
  destruct (Before _ _) eqn:Eb; [done|]. by apply Before_false in Eb.
Qed.

Lemma remembered_rejects opened d X :
  is_u64 (e_Sequence (o_envelope opened)) ->
  remembered (e_ChannelID (o_envelope opened), o_epoch opened) (e_Sequence (o_envelope opened)) X d ->
  commit_replay opened d = None.
Proof.
  intros Hseq (r & st & Hk & Hst & Hc & _). unfold commit_replay. cbv zeta. rewrite Hk. cbn [default].
  rewrite bool_decide_eq_true_2 by by eexists. cbn [negb andb].
  pose proof (accept_rejects _ _ _ Hst Hseq Hc) as Ha. destruct (directory_accept _ _) as [b s]. cbn in Ha. by subst b.
Qed.

(** ** What a handler does and says *)

Lemma move_keys d t d' : directory_transition d t d' -> d_keys d' = d_keys d.
Proof.
  assert (forall attempts entry d, d_keys (store_cursor attempts entry d).2 = d_keys d) as Hstore.
  { clear d d'. intros n entry. induction n as [|k IH]; intros d; [done|]. cbn [store_cursor]. unfold randomIDText, randomID.
    cbv zeta iota. destruct (random_at (d_draws d)); [|done]. cbn [fmap option_fmap option_map].
    case_bool_decide; [|done]. by rewrite IH. }
  intros []; try done.
  - unfold allowPreauthentication. cbv zeta. destruct (_ && _); [done|]. by destruct (16 <=? _).
  - unfold consumeResponseBudget. cbv zeta. by destruct (64 <? _).
  - cbn. by destruct (len (jobs d) <? 32).
  - unfold receive_job. by destruct (jobs d).
  - unfold commitInbound. cbv zeta. destruct (commit_replay _ _) as [d1|] eqn:E; [|done].
    assert (d_keys d1 = d_keys d) as <-.
    { unfold commit_replay in E. cbv zeta in E. destruct (_ && _) in E; [done|].
      destruct (directory_accept _ _) as [[] ?] in E; [|done]. by injection E as <-. }
    unfold commit_payload. cbv zeta. repeat (case_match; try done).
  - unfold storeSnapshotCursor, read_now. cbv zeta iota. by rewrite Hstore.
Qed.

Lemma moves_keys P d d' : rtc (directory_moves P) d d' -> d_keys d' = d_keys d.
Proof. induction 1 as [|d d1 d' (t & _ & Ht) _ IH]; [done|]. by rewrite IH, (move_keys _ _ _ Ht). Qed.

(** Under the keys [K], [m] moves by transitions, and what it sends satisfies [Q]. *)
Definition speaks (K : directoryKeyStore) (Q : directoryWrite -> Prop) {A} (m : dhandler A) : Prop :=
  forall d, d_keys d = K -> directory_reachable d (final m d) /\ Forall Q (outs m d).

(** [m] sends at most [n] datagrams. *)
Definition at_most (n : Z) {A} (m : dhandler A) : Prop := forall d, len (outs m d) <= n.

Section rules.
Context (K : directoryKeyStore) (Q : directoryWrite -> Prop).

Lemma speaks_bind {A B} (m : dhandler A) (f : A -> dhandler B) :
  speaks K Q m -> (forall d, d_keys d = K -> speaks K Q (f (result m d))) -> speaks K Q (bind m f).
Proof.
  intros Hm Hf d Hd. destruct (Hm d Hd) as [Hr Ho]. rewrite final_bind, outs_bind.
  destruct (Hf d Hd (final m d)) as [Hr' Ho']; [by rewrite (moves_keys _ _ _ Hr)|].
  split; [by etrans|by apply Forall_app_2].
Qed.

Lemma speaks_ret {A} (a : A) : speaks K Q (ret a).
Proof. by intros d _. Qed.
Lemma speaks_gets {A} (f : directoryV3 -> A) : speaks K Q (gets f).
Proof. by intros d _. Qed.
Lemma speaks_emit w : Q w -> speaks K Q (emit w).
Proof. intros Hw d _. split; [done|by repeat constructor]. Qed.

Lemma speaks_section {A} (f : directoryV3 -> A * directoryV3) :
  (forall d, d_keys d = K -> exists t, directory_transition d t (f d).2) -> speaks K Q (atomically f).
Proof.
  intros Hf d Hd. destruct (Hf d Hd) as [t Ht]. unfold final, outs, atomically. destruct (f d) as [a d'] eqn:E.
  cbn in *. split; [|constructor]. apply rtc_once. by exists t.
Qed.

Lemma speaks_for_each {A} (l : list A) (f : A -> dhandler unit) :
  (forall x, x ∈ l -> speaks K Q (f x)) -> speaks K Q (for_each l f).
Proof.
  induction l as [|x l IH]; intros Hf; [apply speaks_ret|]. cbn [for_each]. apply speaks_bind; [apply Hf; by left|].
  intros d _. apply IH. intros y Hy. apply Hf. by right.
Qed.
End rules.

Lemma at_most_bind n {A B} (m : dhandler A) (f : A -> dhandler B) :
  at_most 0 m -> (forall a, at_most n (f a)) -> at_most n (bind m f).
Proof.
  intros Hm Hf d. rewrite outs_bind, len_app. specialize (Hm d). specialize (Hf (result m d) (final m d)). lia.
Qed.
Lemma at_most_ret n {A} (a : A) : 0 <= n -> at_most n (ret a).
Proof. intros Hn d. exact Hn. Qed.
Lemma at_most_gets {A} (f : directoryV3 -> A) : at_most 0 (gets f).
Proof. by intros d. Qed.
Lemma at_most_section {A} (f : directoryV3 -> A * directoryV3) : at_most 0 (atomically f).
Proof. intros d. unfold outs, atomically. by destruct (f d). Qed.
Lemma at_most_emits l (f : list Z -> directoryWrite) : at_most (len l) (for_each l (fun x => emit (f x))).
Proof.
  induction l as [|x l IH]; intros d; [done|]. cbn [for_each]. rewrite outs_bind, len_app. specialize (IH (final (emit (f x)) d)).
  unfold len in *. cbn in *. lia.
Qed.

Lemma speaks_read_now K Q : speaks K Q (atomically read_now).
Proof. apply speaks_section. intros d _. exists 0. apply dstep_clock. Qed.
Lemma speaks_randomID K Q : speaks K Q (atomically randomID).
Proof. apply speaks_section. intros d _. exists 0. apply dstep_clock. Qed.
Lemma speaks_randomIDText K Q : speaks K Q (atomically randomIDText).
Proof. apply speaks_section. intros d _. exists 0. apply dstep_clock. Qed.
Lemma speaks_store K Q session page : speaks K Q (atomically (storeSnapshotCursor session page)).
Proof. apply speaks_section. intros d _. eexists. apply dstep_store. Qed.

End system.

Create HintDb directory.
#[export] Hint Resolve speaks_ret speaks_gets speaks_read_now speaks_randomID speaks_randomIDText speaks_store
  at_most_ret at_most_gets at_most_section : directory.

(** ** Answers *)

Section answers.
Context `{RangeOrder} `{SliceSort} `{DirectoryEnvironment} `{DirectoryJSON} `{DirectoryPayloadJSON} `{AEAD}.

(** A datagram sealed with the relay key of a channel. *)
Definition relay_sealed (K : directoryKeyStore) (channelID : Z) (data : list Z) : Prop :=
  exists material plaintext type epoch sequence expiresAt bnd,
    K !! channelID = Some material /\
    sealDirectoryDatagram plaintext type channelID material epoch sequence expiresAt bnd = Some data.

(** A write to [addr] of a datagram of the channel, of whatever type: which datagrams an
    answer has is the subject of [DirectoryAnswers]. *)
Definition answer (K : directoryKeyStore) (channelID : Z) (addr : option UDPAddr) (w : directoryWrite) : Prop :=
  Some (w_addr w) = addr /\ relay_sealed K channelID (w_data w).

Lemma seal_groups_spec {Row} encode seal (groups : list (list Row)) : forall index datagrams,
  seal_groups encode seal index groups = Sealed datagrams ->
  length datagrams = length groups /\
  forall i group, groups !! i = Some group -> exists payload datagram,
    encode (index + Z.of_nat i) group = Some payload /\ seal (index + Z.of_nat i) payload = Some datagram /\
    datagrams !! i = Some datagram.
Proof.
  induction groups as [|g groups IH]; intros index datagrams E; cbn in E; [by injection E as <-|].
  destruct (encode index g) as [payload|] eqn:Ee; [|done]. destruct (seal index payload) as [datagram|] eqn:Es; [|done].
  destruct (seal_groups encode seal (index + 1) groups) as [| |ds] eqn:Eg; [done..|]. injection E as <-.
  destruct (IH _ _ Eg) as [Hl Hi]. split; [cbn; by rewrite Hl|]. intros [|i] group Hg; cbn in Hg |- *.
  - injection Hg as ->. rewrite Z.add_0_r. eauto.
  - destruct (Hi i group Hg) as (p & dg & ? & ? & ?). replace (index + Z.of_nat (S i)) with (index + 1 + Z.of_nat i) by lia. eauto.
Qed.

(** Groups that were each found to fit are sealed. *)
Lemma seal_groups_complete {Row} encode seal (groups : list (list Row)) : forall index,
  (forall i group, groups !! i = Some group -> exists payload,
     encode (index + Z.of_nat i) group = Some payload /\ is_Some (seal (index + Z.of_nat i) payload)) ->
  exists datagrams, seal_groups encode seal index groups = Sealed datagrams.
Proof.
  induction groups as [|g groups IH]; intros index Hg; cbn; [eauto|].
  destruct (Hg 0%nat g eq_refl) as (p & Ep & [dg Es]). rewrite Z.add_0_r in Ep, Es. rewrite Ep, Es.
  destruct (IH (index + 1)) as [ds ->]; [|eauto]. intros i group Hi.
  replace (index + 1 + Z.of_nat i) with (index + Z.of_nat (S i)) by lia. by apply Hg.
Qed.

Lemma sendDatagrams_speaks K channelID addr datagrams :
  Forall (relay_sealed K channelID) datagrams -> speaks K (answer K channelID addr) (sendDatagrams datagrams addr).
Proof.
  intros Hd. unfold sendDatagrams. destruct addr as [a|]; [|apply speaks_ret]. destruct (len datagrams <? 1) eqn:El; [apply speaks_ret|].
  apply speaks_bind; [apply speaks_read_now|]. intros d _. apply speaks_bind.
  - apply speaks_section. intros d' _. eexists. apply dstep_budget. by gobool.
  - intros d' _. destruct (result _ _); [|apply speaks_ret]. apply speaks_for_each. intros x Hx. apply speaks_emit.
    rewrite Forall_forall in Hd. split; [done|by apply Hd].
Qed.

Lemma sendDatagrams_at_most datagrams addr : at_most (len datagrams) (sendDatagrams datagrams addr).
Proof.
  pose proof (len_nonneg datagrams). unfold sendDatagrams. destruct addr as [a|]; [|by apply at_most_ret].
  destruct (len datagrams <? 1); [by apply at_most_ret|].
  apply at_most_bind; [apply at_most_section|]. intros now. apply at_most_bind; [apply at_most_section|].
  intros []; [apply at_most_emits|by apply at_most_ret].
Qed.

Lemma sendError_speaks K channelID requestID code addr bnd :
  speaks K (answer K channelID addr) (sendError channelID requestID code addr bnd).
Proof.
  unfold sendError. destruct (_ || _); [apply speaks_ret|]. apply speaks_bind; [apply speaks_gets|]. intros d Hd.
  change (result _ d) with d. rewrite Hd. destruct (K !! channelID) as [material|] eqn:Em; [|apply speaks_ret].
  apply speaks_bind; [apply speaks_read_now|]. intros d1 _. cbv zeta. apply speaks_bind; [apply speaks_randomID|]. intros d2 _.
  destruct (result _ d2) as [epoch|]; [|apply speaks_ret]. destruct (marshal_error _); [|apply speaks_ret].
  destruct (sealDirectoryDatagram _ _ _ _ _ _ _ _) as [datagram|] eqn:Es; [|apply speaks_ret].
  apply sendDatagrams_speaks. constructor; [|constructor]. by repeat eexists.
Qed.

Lemma sendError_at_most channelID requestID code addr bnd : at_most 1 (sendError channelID requestID code addr bnd).
Proof.
  unfold sendError. destruct (_ || _); [by apply at_most_ret|]. apply at_most_bind; [apply at_most_gets|]. intros d.
  destruct (d_keys d !! channelID); [|by apply at_most_ret].
  apply at_most_bind; [apply at_most_section|]. intros now. cbv zeta. apply at_most_bind; [apply at_most_section|].
  intros [epoch|]; [|by apply at_most_ret]. destruct (marshal_error _); [|by apply at_most_ret].
  destruct (sealDirectoryDatagram _ _ _ _ _ _ _ _) as [datagram|]; [|by apply at_most_ret].
  apply (sendDatagrams_at_most [datagram]).
Qed.

Lemma send_groups_speaks {Row} K (groups : loop (option (list (list Row)))) encode seal channelID requestID addr bnd :
  (forall index payload data, seal index payload = Some data -> relay_sealed K channelID data) ->
  speaks K (answer K channelID addr) (send_groups groups encode seal channelID requestID addr bnd).
Proof.
  intros Hs. unfold send_groups. destruct groups as [[groups|]|]; [|apply sendError_speaks|apply speaks_ret].
  destruct (seal_groups _ _ _ _) as [| |datagrams] eqn:E; [apply speaks_ret|apply sendError_speaks|].
  apply sendDatagrams_speaks. apply seal_groups_spec in E as [Hl Hi]. apply Forall_lookup. intros i data Hdata.
  destruct (groups !! i) as [group|] eqn:Eg.
  - destruct (Hi i group Eg) as (p & dg & _ & Hsd & Hdg). simplify_eq. by eapply Hs.
  - apply lookup_ge_None in Eg. apply lookup_lt_Some in Hdata. lia.
Qed.

Lemma send_groups_at_most {Row} (groups : loop (option (list (list Row)))) encode seal channelID requestID addr bnd :
  (forall gs, groups = Stop (Some gs) -> len gs <= 32) ->
  at_most 32 (send_groups groups encode seal channelID requestID addr bnd).
Proof.
  assert (forall r c d, len (outs (sendError channelID r c addr bnd) d) <= 32) as He.
  { intros. pose proof (sendError_at_most channelID r c addr bnd d). lia. }
  intros Hg. unfold send_groups. destruct groups as [[groups|]|]; [|exact (He _ _)|by apply at_most_ret].
  destruct (seal_groups _ _ _ _) as [| |datagrams] eqn:E; [by apply at_most_ret|exact (He _ _)|].
  apply seal_groups_spec in E as [Hl _]. specialize (Hg _ eq_refl). intros d.
  pose proof (sendDatagrams_at_most datagrams addr d). unfold len in *. lia.
Qed.

Lemma packDirectoryRows_bound {Row} encode fits (rows : list Row) gs :
  packDirectoryRows encode fits rows = Stop (Some gs) -> len gs <= 32.
Proof.
  destruct rows as [|r l]; [by intros [= <-]|]. destruct (pack_attempts_spec encode fits 6 1 (r :: l)) as (res & E & Hr).
  unfold packDirectoryRows. rewrite E. intros [= ->]. by destruct (Hr _ eq_refl) as (_ & _ & Hl).
Qed.

Lemma packDirectorySnapshotRows_bound {Row} encode fits (rows : list Row) gs :
  packDirectorySnapshotRows encode fits rows = Stop (Some gs) -> len gs <= 32.
Proof.
  destruct rows as [|r l]; [by intros [= <-]|].
  destruct (pack_snapshot_spec encode fits (S (length (r :: l))) [] (r :: l) []) as (res & E & Hr).
  { unfold snapshot_fuel. case_decide; lia. }
  { split_and!; [by split|constructor|done]. }
  unfold packDirectorySnapshotRows. rewrite E. intros [= ->]. by destruct (Hr _ eq_refl) as (_ & _ & Hl).
Qed.
(** Walk through a handler: its reads, draws and branches. *)
Ltac talk :=
  repeat first
    [ progress intros
    | progress cbv zeta
    | solve [eauto with directory nocore]
    | apply sendError_speaks
    | apply speaks_bind
    | match goal with
      | |- speaks _ _ (match ?x with _ => _ end) => destruct x eqn:?
      end ].

Ltac count :=
  repeat first
    [ progress intros
    | progress cbv zeta
    | solve [eauto with directory nocore]
    | apply at_most_ret; lia
    | apply at_most_bind
    | match goal with
      | |- at_most _ (match ?x with _ => _ end) => destruct x eqn:?
      end ].

Lemma sendParticipants_speaks K channelID requestID rows addr bnd :
  speaks K (answer K channelID addr) (sendParticipants channelID requestID rows addr bnd).
Proof.
  unfold sendParticipants. destruct (_ <? _); [apply sendError_speaks|]. apply speaks_bind; [apply speaks_gets|].
  intros d Hd. change (result _ d) with d. rewrite Hd. destruct (K !! channelID) as [material|] eqn:Em; [|apply speaks_ret].
  talk. apply send_groups_speaks. intros. by repeat eexists.
Qed.

Lemma error_at_most channelID requestID code addr bnd : at_most 32 (sendError channelID requestID code addr bnd).
Proof. intros d. pose proof (sendError_at_most channelID requestID code addr bnd d). lia. Qed.
Hint Resolve error_at_most : directory.

Lemma sendParticipants_at_most channelID requestID rows addr bnd :
  at_most 32 (sendParticipants channelID requestID rows addr bnd).
Proof. unfold sendParticipants. count. apply send_groups_at_most. intros gs. apply packDirectoryRows_bound. Qed.

Lemma sendSnapshotPage_speaks K channelID requestID session pageIndex addr bnd :
  speaks K (answer K channelID addr) (sendSnapshotPage channelID requestID session pageIndex addr bnd).
Proof.
  unfold sendSnapshotPage. destruct (splitDirectorySnapshotPages _) as [pages|]; [|apply speaks_ret].
  destruct (index pages pageIndex) as [pageRows|]; [|apply sendError_speaks]. apply speaks_bind; [apply speaks_gets|].
  intros d Hd. change (result _ d) with d. rewrite Hd. destruct (K !! channelID) as [material|] eqn:Em; [|apply speaks_ret].
  talk. apply send_groups_speaks. intros. by repeat eexists.
Qed.

Lemma sendSnapshotPage_at_most channelID requestID session pageIndex addr bnd :
  at_most 32 (sendSnapshotPage channelID requestID session pageIndex addr bnd).
Proof. unfold sendSnapshotPage. count. apply send_groups_at_most. intros gs. apply packDirectorySnapshotRows_bound. Qed.

Lemma sendSnapshot_speaks K channelID request addr bnd :
  speaks K (answer K channelID addr) (sendSnapshot channelID request addr bnd).
Proof.
  unfold sendSnapshot, sendSnapshotCursor. talk; try apply sendSnapshotPage_speaks.
  apply speaks_section. intros d' _. eexists. apply dstep_take.
Qed.

Lemma sendSnapshot_at_most channelID request addr bnd : at_most 32 (sendSnapshot channelID request addr bnd).
Proof. unfold sendSnapshot, sendSnapshotCursor. count; apply sendSnapshotPage_at_most. Qed.

Context (participants : Z -> list directoryParticipantRow).

Lemma serveRequest_speaks K channelID request addr :
  speaks K (answer K channelID addr) (serveRequest participants channelID request addr).
Proof. unfold serveRequest. talk; [apply sendParticipants_speaks|apply sendSnapshot_speaks]. Qed.

Lemma serveRequest_at_most channelID request addr : at_most 32 (serveRequest participants channelID request addr).
Proof. unfold serveRequest. count; [apply sendParticipants_at_most|apply sendSnapshot_at_most]. Qed.

(** The answer to a job: to its endpoint, for the channel its datagram opened to. *)
Definition job_answer (K : directoryKeyStore) (job : directoryInboundJob) (w : directoryWrite) : Prop :=
  exists opened t, openDirectoryDatagram (j_data job) (j_binding job) K t = Some opened /\
    e_Type (o_envelope opened) = str_bytes "request" /\ answer K (e_ChannelID (o_envelope opened)) (j_addr job) w.

Lemma commitInbound_request opened addr now d request :
  (commitInbound opened addr now d).1 = Some request -> e_Type (o_envelope opened) = str_bytes "request".
Proof.
  unfold commitInbound, commit_payload. cbv zeta. destruct (commit_replay _ _) as [d'|]; [|done].
  destruct (bytes_eqb _ (str_bytes "request")) eqn:E; [intros _; unfold bytes_eqb in E; by apply bool_decide_eq_true in E|].
  destruct (bytes_eqb _ (str_bytes "register")).
  - destruct (o_registration opened); [|done]. by destruct (_ && _).
  - destruct (bytes_eqb _ (str_bytes "heartbeat")); [|done]. destruct (o_registration opened); [|done].
    destruct (registrations d' !! _); [|done]. by destruct (_ || _).
Qed.

Lemma result_atomically {A} (f : directoryV3 -> A * directoryV3) d : result (atomically f : dhandler A) d = (f d).1.
Proof. unfold result, atomically. by destruct (f d). Qed.

Lemma handle_speaks K job : speaks K (job_answer K job) (handle participants job).
Proof.
  unfold handle. apply speaks_bind; [apply speaks_read_now|]. intros d0 _. apply speaks_bind; [apply speaks_gets|].
  intros d Hd. change (result _ d) with d. rewrite Hd.
  destruct (openDirectoryDatagram _ _ K _) as [opened|] eqn:Eo; [|apply speaks_ret].
  apply speaks_bind; [apply speaks_read_now|]. intros d1 Hd1. apply speaks_bind.
  - apply speaks_section. intros d' Hd'. eexists. eapply dstep_commit. rewrite Hd'. exact Eo.
  - intros d2 _. set (now := result _ d1). destruct (result _ d2) as [request|] eqn:Er; [|apply speaks_ret].
    intros d3 Hd3. destruct (serveRequest_speaks K (e_ChannelID (o_envelope opened)) request (j_addr job) d3 Hd3) as [Hr Ho].
    split; [done|]. eapply Forall_impl; [exact Ho|]. intros w Hw. eexists opened, _. split; [exact Eo|]. split; [|done].
    rewrite result_atomically in Er. by eapply commitInbound_request.
Qed.

Lemma handle_at_most job : at_most 32 (handle participants job).
Proof. unfold handle. count; [apply sendParticipants_at_most|apply sendSnapshot_at_most]. Qed.

(** Publication goes to registered endpoints. *)
Definition publication (K : directoryKeyStore) (w : directoryWrite) : Prop :=
  exists channelID addr, answer K channelID addr w.

Lemma publish_speaks K : speaks K (publication K) (publishParticipants participants).
Proof.
  unfold publishParticipants. apply speaks_bind; [apply speaks_read_now|]. intros d0 _. apply speaks_bind.
  - apply speaks_section. intros d _. eexists. apply dstep_purge.
  - intros d _. apply speaks_for_each. intros [channelID regs] _. apply speaks_for_each. intros target _.
    intros d' Hd'. destruct (sendParticipants_speaks K channelID [] (participants channelID) (dr_addr target) (dr_binding target) d' Hd') as [Hr Ho].
    split; [done|]. eapply Forall_impl; [exact Ho|]. intros w Hw. by exists channelID, (dr_addr target).
Qed.

Lemma enqueue_speaks K data addr bnd : speaks K (fun _ => False) (enqueue data addr bnd).
Proof.
  unfold enqueue. talk.
  - apply speaks_section. intros d' _. eexists. apply dstep_preauth.
  - apply speaks_section. intros d' _. exists 0. apply dstep_send.
Qed.
End answers.

(** ** Properties *)

Section properties.
Context `{RangeOrder} `{SliceSort} `{DirectoryEnvironment} `{DirectoryJSON} `{DirectoryPayloadJSON} `{AEAD}.

(** C37. Whatever arrives and however the goroutines interleave, the tables of the
    Directory stay bounded: 64 registrations, 1024 replay domains, 1024 sources
    with at most 16 datagrams each per window, 64 responses per window, 32 queued
    jobs; and its configuration never changes. *)
Theorem directory_bounded keys metadata transport interval ttl d0 d :
  newDirectoryV3 keys metadata transport interval ttl = Some d0 -> directory_reachable d0 d ->
  len (jobs d) <= 32 /\ Z.of_nat (size (registrations d)) <= 64 /\ Z.of_nat (size (replay d)) <= 1024 /\
  Z.of_nat (size (preauth d)) <= 1024 /\ map_Forall (fun _ r => 0 <= rs_count r <= 16) (preauth d) /\
  0 <= rs_count (responseRate d) <= 64 /\ d_keys d = keys /\ d_metadata d = metadata.
Proof.
  intros E Hr. assert (d_keys d0 = keys /\ d_metadata d0 = metadata) as [<- <-].
  { unfold newDirectoryV3 in E. cbv zeta in E. destruct (_ || _) in E; [done|]. destruct (_ || _) in E; [done|]. by injection E as <-. }
  destruct (moves_ok _ _ _ _ Hr (fresh_directory_ok _ _ _ _ _ _ E)). split_and!; done || lia.
Qed.

(** Every goroutine of the Directory changes its state only by the transitions
    of the system: an arriving datagram, a worker's job, a publication and a
    cleanup tick. *)
Theorem directory_handlers_refine participants data addr bnd d :
  directory_reachable d (final (enqueue data addr bnd) d) /\
  directory_reachable d (final (dedicatedRead data addr) d) /\
  directory_reachable d (final (worker participants) d) /\
  directory_reachable d (final (publishParticipants participants) d) /\
  directory_reachable d (final directory_cleanup d).
Proof.
  assert (forall bnd, directory_reachable d (final (enqueue data addr bnd) d)) as He.
  { intros b. by destruct (enqueue_speaks (d_keys d) data addr b d eq_refl). }
  split_and!; [apply He| | | |].
  - unfold dedicatedRead. destruct (negb _); [done|apply He].
  - unfold worker. rewrite final_bind. assert (directory_reachable d (final (atomically receive_job : dhandler _) d)) as Hj.
    { destruct (speaks_section (d_keys d) (fun _ => True) receive_job) with (d := d) as [? _]; [|done..].
      intros d' _. exists 0. apply dstep_receive. }
    etrans; [exact Hj|]. destruct (result _ d) as [job|]; [|done].
    eapply (handle_speaks participants (d_keys d) job). by rewrite (moves_keys _ _ _ Hj).
  - by destruct (publish_speaks participants (d_keys d) d eq_refl).
  - unfold directory_cleanup, final, atomically, read_now. cbn [fst snd]. etrans; apply rtc_once.
    + exists 0. split; [done|]. apply dstep_clock.
    + exists (now_at (d_reads d)). split; [done|]. apply dstep_purge.
Qed.

(** C36. No replay before expiry: in a reachable state, once a datagram was
    committed, a datagram of the same channel, epoch and sequence number has no
    effect before the expiry of the first, whatever the Directory did in between. *)
Theorem directory_no_replay keys metadata transport interval ttl d0 d data bnd opened addr opened_at now d1 d2 opened' addr' now' :
  newDirectoryV3 keys metadata transport interval ttl = Some d0 -> directory_reachable d0 d ->
  openDirectoryDatagram data bnd (d_keys d) opened_at = Some opened ->
  let X := Unix (i64 (e_ExpiresAt (o_envelope opened))) in
  commit_replay opened (purgeLocked now d) = Some d1 ->
  rtc (directory_moves (fun t => t < X)) (commitInbound opened addr now d).2 d2 ->
  e_ChannelID (o_envelope opened') = e_ChannelID (o_envelope opened) -> o_epoch opened' = o_epoch opened ->
  e_Sequence (o_envelope opened') = e_Sequence (o_envelope opened) -> now' < X ->
  commitInbound opened' addr' now' d2 = (None, purgeLocked now' d2).
Proof.
  intros Enew Hr Eo X Hc Hmoves Hch Hep Hseq Hn.
  destruct (opened_sequence _ _ _ _ _ Eo) as [Hu _].
  pose proof (purgeLocked_ok _ _ now (moves_ok _ _ _ _ Hr (fresh_directory_ok _ _ _ _ _ _ Enew))) as Hok.
  pose proof (commit_records _ _ _ Hu (dok_replay _ _ Hok) Hc) as Hrem. fold X in Hrem.
  assert (remembered (e_ChannelID (o_envelope opened), o_epoch opened) (e_Sequence (o_envelope opened)) X
    (commitInbound opened addr now d).2) as Hrem1.
  { unfold commitInbound. cbv zeta. rewrite Hc. unfold remembered. by rewrite commit_payload_replay. }
  assert (remembered (e_ChannelID (o_envelope opened), o_epoch opened) (e_Sequence (o_envelope opened)) X d2) as Hrem2.
  { clear -Hmoves Hrem1. induction Hmoves as [|x1 x2 x3 (t & Ht & Hs) _ IH]; [done|]. apply IH. by eapply transition_remembers. }
  unfold commitInbound. cbv zeta. rewrite (remembered_rejects opened' _ X); [done|by rewrite Hseq|].
  rewrite Hch, Hep, Hseq. by apply purge_remembers.
Qed.

(** The Directory answers only what opened: handling a job sends at most 32
    datagrams, all to the endpoint the job came from, and each is sealed with the
    relay key of the channel that the job's datagram, a request, opened for. *)
Theorem directory_answers participants job d :
  Forall (job_answer (d_keys d) job) (outs (handle participants job) d) /\ len (outs (handle participants job) d) <= 32.
Proof. split; [by destruct (handle_speaks participants (d_keys d) job d eq_refl)|apply handle_at_most]. Qed.

(** C38. A registration is created, moved and renewed by its own client only: an
    entry after a commit is the entry before it, still alive, or belongs to the
    channel and instance of the datagram and lasts 90 seconds from now; then the
    datagram registers the endpoint it came from, or it is a heartbeat from the
    registered endpoint over the registered transport, which keeps both. *)
Theorem registration_changes opened addr now d key r :
  registrations (commitInbound opened addr now d).2 !! key = Some r ->
  (registrations d !! key = Some r /\ now < dr_deadline r) \/
  (exists g, o_registration opened = Some g /\
    key = (e_ChannelID (o_envelope opened), default (zeros 16) (decodeCanonicalDirectoryID (rg_InstanceID g))) /\
    dr_deadline r = now + 90 * Second /\ dr_binding r = o_binding opened /\
    ((e_Type (o_envelope opened) = str_bytes "register" /\ dr_addr r = addr) \/
     (e_Type (o_envelope opened) = str_bytes "heartbeat" /\ sameUDPEndpoint (dr_addr r) addr = true /\
      exists r0, registrations d !! key = Some r0 /\ dr_addr r = dr_addr r0 /\ dr_binding r = dr_binding r0))).
Proof.
  unfold commitInbound. cbv zeta. set (d1 := purgeLocked now d).
  assert (registrations d1 !! key = Some r -> registrations d !! key = Some r /\ now < dr_deadline r) as Hold
    by (intros Hk; by apply lookup_purge in Hk).
  destruct (commit_replay opened d1) as [d2|] eqn:Ec; [|auto].
  assert (registrations d2 = registrations d1) as Hregs.
  { unfold commit_replay in Ec. cbv zeta in Ec. destruct (_ && _) in Ec; [done|].
    destruct (directory_accept _ _) as [[] ?] in Ec; [|done]. by injection Ec as <-. }
  unfold commit_payload. cbv zeta. rewrite Hregs.
  destruct (bytes_eqb _ (str_bytes "request")); [cbn [snd]; rewrite Hregs; auto|].
  destruct (bytes_eqb _ (str_bytes "register")) eqn:Ereg.
  - destruct (o_registration opened) as [g|]; [|cbn [snd]; rewrite Hregs; auto].
    destruct (_ && _); [cbn [snd]; rewrite Hregs; auto|]. cbn [snd registrations with_tables].
    set (k := (_, _)). destruct (decide (k = key)) as [<-|Hne].
    + rewrite lookup_insert_eq. intros [= <-]. right. exists g. cbn. rewrite cloneUDPAddr_id. unfold bytes_eqb in Ereg.
      apply bool_decide_eq_true in Ereg. split_and!; auto.
    + rewrite lookup_insert_ne by done. auto.
  - destruct (bytes_eqb _ (str_bytes "heartbeat")) eqn:Ehb; [|cbn [snd]; rewrite Hregs; auto].
    destruct (o_registration opened) as [g|]; [|cbn [snd]; rewrite Hregs; auto].
    set (k := (_, _)). destruct (registrations d1 !! k) as [r0|] eqn:E0; [|cbn [snd]; rewrite Hregs; auto].
    destruct (_ || _) eqn:Eg; [cbn [snd]; rewrite Hregs; auto|]. cbn [snd registrations with_tables].
    destruct (decide (k = key)) as [<-|Hne]; [|rewrite lookup_insert_ne by done; auto].
    rewrite lookup_insert_eq. intros [= <-]. right. exists g. cbn. unfold bytes_eqb in Ehb. apply bool_decide_eq_true in Ehb.
    apply orb_false_iff in Eg as [Eb%negb_false_iff%Z.eqb_eq Ea%negb_false_iff]. apply lookup_purge in E0 as [E0 _].
    split_and!; auto. right. split_and!; auto. eauto.
Qed.

(** A snapshot cursor is fresh and serves once: until the session ends the
    first request with it gets the stored page, and no request after that gets
    anything. *)
Theorem snapshot_cursor_once session page d cursor d' now1 now2 :
  storeSnapshotCursor session page d = (Some cursor, d') -> now1 < ss_expires session ->
  let '(entry1, d1) := take_cursor cursor now1 d' in
  entry1 = Some {| sc_session := session; sc_page := page |} /\ (take_cursor cursor now2 d1).1 = None /\
  cursors (purgeLocked (now_at (d_reads d)) d) !! cursor = None.
Proof.
  assert (forall n entry d cursor d', store_cursor n entry d = (Some cursor, d') ->
    cursors d' = <[cursor := entry]> (cursors d) /\ cursors d !! cursor = None) as Hs.
  { clear. induction n as [|n IH]; intros entry d cursor d' E; [done|]. cbn [store_cursor] in E.
    unfold randomIDText, randomID in E. cbv zeta iota in E. destruct (random_at (d_draws d)) as [v|]; [|done].
    cbn [fmap option_fmap option_map] in E. case_bool_decide as Hin; [by apply IH in E|]. injection E as <- <-. cbn.
    split; [done|]. cbn in Hin. by apply eq_None_not_Some. }
  unfold storeSnapshotCursor, read_now. cbv zeta iota. intros E Hn. apply Hs in E as [Ec Hfresh].
  unfold take_cursor. cbv zeta iota. split_and!.
  - cbn. rewrite Ec. apply lookup_purge_live; [apply lookup_insert_eq|done].
  - cbn. apply lookup_purge_None, lookup_delete_eq.
  - exact Hfresh.
Qed.
End properties.

(** ** Concrete inputs *)

Section witnesses.
Local Existing Instances listing_order merge_sort_order counting_environment toy_directory_json toy_payload_json toy_aead.

Definition sample_metadata : directoryMetadata :=
  {| md_channels := {[ 111 := {| cr_ChannelID := 111; cr_Name := str_bytes "ops" |} ]};
     md_speakers := {[ 111 := {[ 7 := {| sr_ChannelID := 111; sr_SenderID := 7; sr_Name := str_bytes "seven" |} ]} ]};
     md_fallback := {[ 7 := {| sr_ChannelID := 0; sr_SenderID := 7; sr_Name := str_bytes "any" |};
                       9 := {| sr_ChannelID := 0; sr_SenderID := 9; sr_Name := str_bytes "nine" |} ]} |}.

Definition sample_directory : directoryV3 :=
  {| d_keys := directory_store; d_metadata := sample_metadata; d_transport := directoryTransportMediaPort;
     freshnessTTL := 90 * Second; jobs := []; registrations := ∅; replay := ∅; cursors := ∅; preauth := ∅;
     responseRate := {| rs_window := zero_time; rs_count := 0 |}; d_reads := 0; d_draws := 0 |}.

Definition sample_client : UDPAddr := {| IP := [10; 0; 0; 1]; Port := 5000; Zone := EmptyString |}.

Lemma sample_directory_new :
  newDirectoryV3 directory_store sample_metadata directoryTransportMediaPort 0 0 = Some sample_directory.
Proof.
  unfold newDirectoryV3. cbv zeta. cbn [orb Z.eqb Z.ltb Z.compare]. unfold directory_store, sample_metadata. cbn [md_channels].
  rewrite !bool_decide_eq_true_2 by by rewrite !dom_singleton_L. reflexivity.
Qed.

Definition sample_opened : directoryOpenedDatagram :=
  match openDirectoryDatagram (carried directoryTransportMedia directory_datagram) directoryTransportMedia directory_store
    directory_now with Some o => o | None => {| o_envelope := sample_envelope 1; o_epoch := []; o_binding := 0;
      o_request := None; o_registration := None |} end.

Lemma sample_opens :
  openDirectoryDatagram (carried directoryTransportMedia directory_datagram) directoryTransportMedia directory_store
    directory_now = Some sample_opened.
Proof.
  unfold sample_opened. destruct (openDirectoryDatagram _ _ _ _) as [o|] eqn:E; [reflexivity|].
  apply (f_equal (fun x => bool_decide (is_Some x))) in E. vm_compute in E. discriminate E.
Qed.

Lemma directory_bounded_witness :
  Z.of_nat (size (registrations (final (enqueue [1] (Some sample_client) 1) sample_directory))) <= 64.
Proof.
  assert (directory_reachable sample_directory (final (enqueue [1] (Some sample_client) 1) sample_directory)) as Hr
    by (destruct (enqueue_speaks directory_store [1] (Some sample_client) 1 sample_directory eq_refl) as [Hr _]; exact Hr).
  exact (proj1 (proj2 (directory_bounded _ _ _ _ _ _ _ sample_directory_new Hr))).
Defined.

Lemma sample_replay_commits :
  is_Some (commit_replay sample_opened (purgeLocked directory_now sample_directory)).
Proof.
  destruct (commit_replay sample_opened (purgeLocked directory_now sample_directory)) as [d|] eqn:E; [by exists d|].
  apply (f_equal (fun x => bool_decide (is_Some x))) in E. vm_compute in E. discriminate E.
Qed.

Lemma directory_no_replay_witness :
  commitInbound sample_opened (Some sample_client) directory_now
    (commitInbound sample_opened (Some sample_client) directory_now sample_directory).2 =
  (None, purgeLocked directory_now (commitInbound sample_opened (Some sample_client) directory_now sample_directory).2).
Proof.
  destruct sample_replay_commits as [d1 Hd1].
  apply (directory_no_replay _ _ _ _ _ _ sample_directory (carried directoryTransportMedia directory_datagram)
    directoryTransportMedia sample_opened (Some sample_client) directory_now directory_now d1 _ sample_opened _ _
    sample_directory_new (rtc_refl _ _) sample_opens Hd1 (rtc_refl _ _) eq_refl eq_refl eq_refl).
  vm_compute. reflexivity.
Defined.

Definition sample_registration : directoryOpenedDatagram :=
  {| o_envelope := {| e_Version := 3; e_Type := str_bytes "register"; e_ChannelID := 111; e_Epoch := []; e_Sequence := 5;
                      e_ExpiresAt := 1700000010; e_Ciphertext := [] |};
     o_epoch := directory_epoch; o_binding := 1; o_request := None;
     o_registration := Some {| rg_Version := 3; rg_IssuedAt := 1700000000; rg_ExpiresAt := 1700000010;
                               rg_InstanceID := RawURL_Encode directory_epoch |} |}.

Lemma registration_changes_witness :
  exists key r, registrations (commitInbound sample_registration (Some sample_client) directory_now sample_directory).2 !! key
    = Some r /\ dr_deadline r = directory_now + 90 * Second.
Proof.
  exists (111, directory_epoch).
  destruct (registrations (commitInbound sample_registration (Some sample_client) directory_now sample_directory).2
    !! (111, directory_epoch)) as [r|] eqn:E.
  - exists r. split; [reflexivity|]. apply registration_changes in E as [[E _]|(g & _ & _ & E & _)]; [|exact E].
    vm_compute in E. discriminate E.
  - apply (f_equal (fun x => bool_decide (is_Some x))) in E. vm_compute in E. discriminate E.
Defined.

Definition sample_session : directorySnapshotSession :=
  {| ss_channel := {| cr_ChannelID := 111; cr_Name := str_bytes "ops" |}; ss_speakers := []; ss_revision := [];
     ss_expires := Unix 1700000030 |}.

Lemma snapshot_cursor_once_witness :
  exists cursor d', storeSnapshotCursor sample_session 1 sample_directory = (Some cursor, d') /\
    (take_cursor cursor directory_now d').1 = Some {| sc_session := sample_session; sc_page := 1 |}.
Proof.
  destruct (storeSnapshotCursor sample_session 1 sample_directory) as [[cursor|] d'] eqn:E.
  - exists cursor, d'. split; [reflexivity|].
    exact (proj1 (snapshot_cursor_once sample_session 1 sample_directory cursor d' directory_now directory_now E eq_refl)).
  - apply (f_equal (fun x => bool_decide (is_Some x.1))) in E. vm_compute in E. discriminate E.
Defined.
End witnesses.
