(* ===== verification/DirectoryAnswers.v ===== *)
(** * What the Directory answers

    The rows of its answers (speakers of the metadata, participants of the
    server) and the datagrams a participant list and a snapshot page become. *)

From S2P Require Import Prelude GoTime GoNet Sha256 Base64 Packet Replay Identity Server DirectoryWire DirectoryPack Directory DirectorySpec.

(** ** Lists and maps *)

(** Assignments [m[k] = f(v)] for the entries of a list with distinct keys. *)
Lemma foldl_insert_lookup {K} `{Countable K} {A B} (f : A -> B) (l : list (K * A)) (m : gmap K B) k :
  NoDup l.*1 ->
  foldl (fun acc kv => <[kv.1 := f (kv.2)]> acc) m l !! k =
    match (list_to_map l : gmap K A) !! k with Some v => Some (f v) | None => m !! k end.
Proof.
  intros Hnd. revert m. induction l as [|[k' v'] l IH]; intros m; [done|]. apply NoDup_cons in Hnd as [Hn Hnd].
  cbn [foldl]. rewrite IH by done. cbn. destruct (decide (k' = k)) as [->|Hne].
  - rewrite lookup_insert_eq. rewrite (not_elem_of_list_to_map_1 _ _ Hn). by rewrite lookup_insert_eq.
  - by rewrite !lookup_insert_ne.
Qed.

Lemma range_lookup `{RangeOrder} {K} `{Countable K} {A B} (f : A -> B) (m0 : gmap K B) (m : gmap K A) k :
  foldl (fun acc kv => <[kv.1 := f (kv.2)]> acc) m0 (range m) !! k =
    match m !! k with Some v => Some (f v) | None => m0 !! k end.
Proof.
  assert (NoDup (range m).*1) as Hnd by (rewrite range_perm; apply NoDup_fst_map_to_list).
  rewrite foldl_insert_lookup by done.
  assert ((list_to_map (range m) : gmap K A) = m) as ->; [|done].
  rewrite <- (list_to_map_to_list m) at 2. apply list_to_map_proper; [done|apply range_perm].
Qed.

Lemma range_lookup_id `{RangeOrder} {K} `{Countable K} {A} (m0 m : gmap K A) k :
  foldl (fun acc kv => <[kv.1 := kv.2]> acc) m0 (range m) !! k = match m !! k with Some v => Some v | None => m0 !! k end.
Proof. exact (range_lookup (fun x => x) m0 m k). Qed.

Lemma elem_of_range_values `{RangeOrder} {K} `{Countable K} {A} (m : gmap K A) v :
  v ∈ (range m).*2 <-> exists k, m !! k = Some v.
Proof.
  rewrite list_elem_of_fmap. split.
  - intros ([k v'] & -> & Hin). rewrite range_perm in Hin. apply elem_of_map_to_list in Hin. by exists k.
  - intros [k Hk]. exists (k, v). split; [done|]. rewrite range_perm. by apply elem_of_map_to_list.
Qed.

(** ** Rows *)

Section rows.
Context `{RangeOrder} `{SliceSort}.

(** Rows are kept under their sender. *)
Definition metadata_ok (m : directoryMetadata) : Prop :=
  map_Forall (fun k row => sr_SenderID row = k) (md_fallback m) /\
  map_Forall (fun _ rows => map_Forall (fun k row => sr_SenderID row = k) rows) (md_speakers m).

(** The row of one sender: the channel's own, otherwise the fallback's with the
    channel put in. *)
Definition speaker_row (m : directoryMetadata) (channelID senderID : Z) : option directorySpeakerRow :=
  match default ∅ (md_speakers m !! channelID) !! senderID with
  | Some row => Some row
  | None => set_channel channelID <$> md_fallback m !! senderID
  end.

Lemma resolved_map_lookup m channelID senderID :
  resolved_map m channelID !! senderID = speaker_row m channelID senderID.
Proof.
  unfold resolved_map, speaker_row. cbv zeta. rewrite range_lookup_id, (range_lookup (set_channel channelID)).
  rewrite lookup_empty. destruct (_ !! senderID); [done|]. by destruct (md_fallback m !! senderID).
Qed.

Lemma speaker_row_sender m channelID senderID row :
  metadata_ok m -> speaker_row m channelID senderID = Some row -> sr_SenderID row = senderID.
Proof.
  intros [Hf Hs]. unfold speaker_row. destruct (md_speakers m !! channelID) as [rows|] eqn:Ec; cbn.
  - destruct (rows !! senderID) as [r|] eqn:Er; [intros [= <-]; exact (Hs channelID rows Ec senderID r Er)|].
    intros (r & Hr & ->)%fmap_Some. exact (Hf senderID r Hr).
  - rewrite lookup_empty. intros (r & Hr & ->)%fmap_Some. exact (Hf senderID r Hr).
Qed.

(** The speakers of a channel are, in ascending order of their sender and each
    once, the channel's own rows and, for the senders it does not name, the
    fallback rows under that channel. *)
Theorem resolvedSpeakers_correct m channelID :
  metadata_ok m ->
  (forall row, row ∈ resolvedSpeakers m channelID <-> speaker_row m channelID (sr_SenderID row) = Some row) /\
  StronglySorted Z.lt (sr_SenderID <$> resolvedSpeakers m channelID).
Proof.
  intros Hm. split.
  - intros row. unfold resolvedSpeakers. rewrite sort_Slice_perm, elem_of_range_values.
    setoid_rewrite resolved_map_lookup. split; [|eauto]. intros [k Hk].
    by rewrite (speaker_row_sender _ _ _ _ Hm Hk).
  - pose proof (sort_Slice_sorted sr_SenderID (range (resolved_map m channelID)).*2) as Hs.
    assert (NoDup (sr_SenderID <$> resolvedSpeakers m channelID)) as Hnd.
    { unfold resolvedSpeakers. rewrite sort_Slice_perm.
      assert (sr_SenderID <$> (range (resolved_map m channelID)).*2 = (range (resolved_map m channelID)).*1) as ->.
      { rewrite <- list_fmap_compose. apply list_fmap_ext. intros i [k v] Hi. cbn.
        apply list_elem_of_lookup_2 in Hi. rewrite range_perm in Hi. apply elem_of_map_to_list in Hi.
        rewrite resolved_map_lookup in Hi. by eapply speaker_row_sender. }
      rewrite range_perm. apply NoDup_fst_map_to_list. }
    unfold resolvedSpeakers in *. revert Hnd Hs. generalize (sr_SenderID <$> sort_Slice sr_SenderID (range (resolved_map m channelID)).*2) as l.
    induction l as [|x l IH]; intros Hnd Hs; [constructor|]. apply NoDup_cons in Hnd as [Hx Hnd].
    apply StronglySorted_inv in Hs as [Hs Hall]. constructor; [by apply IH|]. rewrite Forall_forall in *.
    intros y Hy. specialize (Hall y Hy). assert (x <> y) by by intros ->. lia.
Qed.

(** The participants of a channel are in ascending order of their sender, one
    row per live registration with a sender that was ever heard, with the second
    it was last heard and whether it holds the floor. *)
Theorem directoryParticipants_correct channelID now s :
  match channels s !! channelID with
  | None => directoryParticipants channelID now s = []
  | Some ch =>
      StronglySorted Z.le (dp_SenderID <$> directoryParticipants channelID now s) /\
      (len (directoryParticipants channelID now s) <= Z.of_nat (size (peers ch))) /\
      forall row, row ∈ directoryParticipants channelID now s <->
        exists k p, peers ch !! k = Some p /\
          p_senderId p <> 0 /\ (p_membershipDeadline p = 0 \/ now < p_membershipDeadline p) /\ 1 <= toUnix (p_lastSeen p) /\
          dp_ChannelID row = channelID /\ dp_SenderID row = p_senderId p /\ LastSeenAt row = toUnix (p_lastSeen p) /\
          (Talking row = true <-> is_Some (activeTalkers ch !! p_senderId p))
  end.
Proof.
  unfold directoryParticipants. destruct (channels s !! channelID) as [ch|]; [|done]. split_and!.
  - apply sort_Slice_sorted.
  - unfold len. rewrite sort_Slice_perm.
    assert (forall l : list peer, (length (omap (participantRow channelID ch now) l) <= length l)%nat) as Hl.
    { induction l as [|p l IH]; [done|]. cbn. destruct (participantRow channelID ch now p); cbn in *; lia. }
    specialize (Hl (range (peers ch)).*2). assert (length (range (peers ch)).*2 = size (peers ch)) as Hsz.
    { by rewrite length_fmap, range_perm, length_map_to_list. }
    lia.
  - intros row. rewrite sort_Slice_perm, list_elem_of_omap. setoid_rewrite elem_of_range_values.
    assert (forall p, participantRow channelID ch now p = Some row <->
      p_senderId p <> 0 /\ (p_membershipDeadline p = 0 \/ now < p_membershipDeadline p) /\ 1 <= toUnix (p_lastSeen p) /\
      dp_ChannelID row = channelID /\ dp_SenderID row = p_senderId p /\ LastSeenAt row = toUnix (p_lastSeen p) /\
      (Talking row = true <-> is_Some (activeTalkers ch !! p_senderId p))) as Hrow; [|naive_solver].
    intros p. unfold participantRow, IsZero, zero_time, After. cbv zeta.
    assert (is_u64 (u64 (toUnix (p_lastSeen p)))) as Hu by (unfold is_u64, u64; apply Z.mod_pos_bound; lia).
    assert (1 <= toUnix (p_lastSeen p) -> u64 (toUnix (p_lastSeen p)) = toUnix (p_lastSeen p)) as Hid.
    { intros Hp. apply Z.mod_small. pose proof (toUnix_bound (p_lastSeen p)). lia. }
    destruct (p_senderId p =? 0) eqn:E0; gobool; cbn [orb]; [naive_solver|].
    destruct (p_membershipDeadline p =? 0) eqn:E1, (now <? p_membershipDeadline p) eqn:E2; gobool; cbn [negb andb];
      try (split; [done|lia]).
    all: destruct (toUnix (p_lastSeen p) <? 1) eqn:E3; gobool; [split; [done|lia]|].
    all: split; [intros [= <-]; cbn; rewrite bool_decide_eq_true; rewrite Hid by done; split_and!; first [done|lia|auto]|].
    all: destruct row as [rc rs rl rt]; cbn; intros (_ & _ & _ & -> & -> & -> & Ht); rewrite Hid by done.
    all: do 2 f_equal; destruct rt; case_bool_decide; naive_solver.
Qed.
End rows.

(** ** Responses *)

Section responses.
Context `{RangeOrder} `{SliceSort} `{DirectoryEnvironment} `{DirectoryJSON} `{DirectoryPayloadJSON} `{AEAD}.

Lemma outs_gets_bind {A B} (f : directoryV3 -> A) (k : A -> dhandler B) d : outs (bind (gets f) k) d = outs (k (f d)) d.
Proof. by rewrite outs_bind. Qed.

Lemma outs_section_bind {A B} (f : directoryV3 -> A * directoryV3) (k : A -> dhandler B) d :
  outs (bind (atomically f) k) d = outs (k (f d).1) (f d).2.
Proof. rewrite outs_bind. unfold outs, result, final, atomically. by destruct (f d). Qed.

Lemma outs_emits (f : list Z -> directoryWrite) l (d : directoryV3) : outs (for_each l (fun x => emit (f x))) d = f <$> l.
Proof. revert d. induction l as [|x l IH]; intros d; [done|]. cbn [for_each]. by rewrite outs_bind, IH. Qed.

Definition writes (a : UDPAddr) (datagrams : list (list Z)) : list directoryWrite :=
  (fun data => {| w_data := data; w_addr := a |}) <$> datagrams.

(** Within half of the response budget a response of at most 32 datagrams is sent. *)
Lemma sendDatagrams_delivers datagrams a d :
  rs_count (responseRate d) <= 32 -> 1 <= len datagrams <= 32 -> outs (sendDatagrams datagrams (Some a)) d = writes a datagrams.
Proof.
  intros Hr Hl. unfold sendDatagrams. rewrite (proj2 (Z.ltb_ge _ _)) by lia. rewrite outs_section_bind, outs_section_bind.
  assert (forall now d, rs_count (responseRate d) <= 32 -> (consumeResponseBudget (len datagrams) now d).1 = true) as Hok.
  { clear -Hl. intros now d Hr. unfold consumeResponseBudget. cbv zeta. destruct (_ || _).
    - cbn [rs_count]. by rewrite (proj2 (Z.ltb_ge _ _)) by lia.
    - by rewrite (proj2 (Z.ltb_ge _ _)) by lia. }
  rewrite Hok by done. apply outs_emits.
Qed.

(** What a response of fragments is: one datagram per group, each the seal of the
    group's payload at its index under the final count. *)
Definition fragments_of {Row} (encode : Z -> Z -> list Row -> option (list Z)) (seal : Z -> list Z -> option (list Z))
    (groups : list (list Row)) (datagrams : list (list Z)) : Prop :=
  length datagrams = length groups /\
  forall i group, groups !! i = Some group -> exists payload datagram,
    encode (Z.of_nat i) (len groups) group = Some payload /\ seal (Z.of_nat i) payload = Some datagram /\
    datagrams !! i = Some datagram.

Lemma send_groups_delivers {Row} (groups : list (list Row)) encode seal channelID requestID a bnd d :
  rs_count (responseRate d) <= 32 -> 1 <= len groups <= 32 ->
  (forall i group, groups !! i = Some group -> exists payload,
     encode (Z.of_nat i) (len groups) group = Some payload /\ is_Some (seal (Z.of_nat i) payload)) ->
  exists datagrams, outs (send_groups (Stop (Some groups)) encode seal channelID requestID (Some a) bnd) d = writes a datagrams /\
    fragments_of encode seal groups datagrams.
Proof.
  intros Hr Hl Hg. destruct (seal_groups_complete (fun index => encode index (len groups)) seal groups 0 Hg) as [ds E].
  exists ds. unfold send_groups. rewrite E. destruct (seal_groups_spec _ _ _ _ _ E) as [Hlen Hi].
  split; [apply sendDatagrams_delivers; [done|unfold len in *; lia]|by split].
Qed.

(** The error datagram a state gives for a request, [None] when the request has no
    identifier, the random source fails, or the error cannot be encoded or sealed. *)
Definition error_datagram (d : directoryV3) (channelID : Z) (material : directoryKeyMaterial) (requestID code : list Z) (bnd : Z)
    : option (list Z) :=
  if decide (requestID = []) then None
  else
    epoch ← random_at (d_draws d);
    let issuedAt := u64 (toUnix (now_at (d_reads d))) in
    let expiresAt := u64 (toUnix (Add (now_at (d_reads d)) (freshnessTTL d))) in
    payload ← marshal_error {| ep_Version := directoryV3Version; ep_IssuedAt := issuedAt; ep_ExpiresAt := expiresAt;
                               ep_RequestID := requestID; ep_Code := code |};
    sealDirectoryDatagram payload (str_bytes "error") channelID material epoch 1 expiresAt bnd.

Definition error_response (d : directoryV3) (channelID : Z) (material : directoryKeyMaterial) (requestID code : list Z) (a : UDPAddr) (bnd : Z)
    : list directoryWrite :=
  writes a (option_list (error_datagram d channelID material requestID code bnd)).

Lemma sendError_response d channelID material requestID code a bnd :
  d_keys d !! channelID = Some material -> code ∈ [RESPONSE_TOO_LARGE; INVALID_CURSOR; PAGING_SESSION_EXPIRED] ->
  rs_count (responseRate d) <= 32 ->
  outs (sendError channelID requestID code (Some a) bnd) d = error_response d channelID material requestID code a bnd.
Proof.
  intros Hk Hcode Hr. unfold sendError, error_response, error_datagram.
  assert (negb (bytes_eqb code RESPONSE_TOO_LARGE) && negb (bytes_eqb code INVALID_CURSOR)
    && negb (bytes_eqb code PAGING_SESSION_EXPIRED) = false) as ->.
  { rewrite !elem_of_cons in Hcode. destruct Hcode as [-> | [-> | [-> | []%elem_of_nil]]]; reflexivity. }
  unfold bytes_eqb. rewrite orb_false_r. case_bool_decide as Hid; [by rewrite decide_True|]. rewrite decide_False by done.
  rewrite outs_gets_bind, Hk, outs_section_bind. cbn [fst snd read_now]. cbv zeta. rewrite outs_section_bind.
  cbn [fst snd randomID d_draws with_reads]. destruct (random_at (d_draws d)) as [epoch|]; [|done]. cbn [mbind option_bind].
  destruct (marshal_error _) as [payload|]; [|done]. cbn [mbind option_bind].
  destruct (sealDirectoryDatagram _ _ _ _ _ _ _ _) as [datagram|]; [|done]. cbn [option_list].
  by apply sendDatagrams_delivers.
Qed.

(** C40. A participant list is answered completely or by one error.  For a configured
    channel and a non-empty list of at most 128 rows, with the response budget at most
    half used and the random source good for an epoch and an identifier: when a packing
    is found, the answer is the list cut into at most 32 groups in order, one datagram of
    type participants for each, sealed with the key of the channel under consecutive
    sequence numbers of a fresh epoch; otherwise it is one datagram of type error for
    the request, RESPONSE_TOO_LARGE, sealed with the same key, or nothing at all when
    the request has no identifier or that error cannot be made (no third random draw,
    or it does not encode or seal).  No list is answered in part. *)
Theorem participants_response d channelID requestID rows a bnd material epoch rid :
  d_keys d !! channelID = Some material -> random_at (d_draws d) = Some epoch -> random_at (S (d_draws d)) = Some rid ->
  rows <> [] -> len rows <= 128 -> rs_count (responseRate d) <= 32 ->
  let now := now_at (d_reads d) in
  let expiresAt := u64 (toUnix (Add now (freshnessTTL d))) in
  let encode := encode_participants (u64 (toUnix now)) expiresAt requestID (RawURL_Encode rid) in
  let seal index payload :=
    sealDirectoryDatagram payload (str_bytes "participants") channelID material epoch (index + 1) expiresAt bnd in
  let ws := outs (sendParticipants channelID requestID rows (Some a) bnd) d in
  match packDirectoryRows encode (fun index _ payload => bool_decide (is_Some (seal index payload))) rows with
  | Stop (Some groups) =>
      concat groups = rows /\ len groups <= 32 /\ exists datagrams, ws = writes a datagrams /\ fragments_of encode seal groups datagrams
  | Stop None =>
      ws = error_response (with_reads d (S (d_reads d)) (S (S (d_draws d)))) channelID material requestID RESPONSE_TOO_LARGE a bnd
  | OutOfFuel => False
  end.
Proof.
  intros Hk He Hid Hrows Hl Hr. cbv zeta. unfold sendParticipants. unfold directoryMaxParticipants.
  rewrite (proj2 (Z.ltb_ge _ _)) by lia. rewrite outs_gets_bind, Hk, outs_section_bind. cbn [fst snd read_now]. cbv zeta.
  rewrite outs_section_bind. cbn [fst snd randomID d_draws with_reads]. rewrite He.
  rewrite outs_section_bind. cbn [fst snd randomIDText randomID d_draws d_reads with_reads]. rewrite Hid.
  cbn [fst snd fmap option_fmap option_map].
  set (encode := encode_participants _ _ _ _). set (fits := fun index _ payload => _).
  destruct (packDirectoryRows_correct encode fits rows Hrows) as (result & E & Hgroups & _). rewrite E.
  destruct result as [groups|].
  - destruct (Hgroups groups eq_refl) as (Hc & Hlen & Hne & Hpacked). split; [done|]. split; [done|].
    apply send_groups_delivers; [done| |].
    + split; [|done]. destruct groups; [by subst rows|]. unfold len. simpl. lia.
    + intros i group Hi. destruct (Hpacked i group Hi) as (payload & Ep & Ef). exists payload. split; [done|].
      unfold fits in Ef. by apply bool_decide_eq_true in Ef.
  - cbn [send_groups]. apply sendError_response; [done|left|done].
Qed.

Lemma store_cursor_rate attempts : forall entry d, responseRate (store_cursor attempts entry d).2 = responseRate d.
Proof.
  induction attempts as [|k IH]; intros entry d; [done|]. cbn [store_cursor]. unfold randomIDText, randomID. cbv zeta iota.
  destruct (random_at (d_draws d)); [|done]. cbn [fmap option_fmap option_map]. case_bool_decide; [|done].
  by rewrite IH.
Qed.

(** The cursor a page announces: a stored one when there is a next page. *)
Definition next_cursor (session : directorySnapshotSession) (pages : list (list directorySpeakerRow)) (pageIndex : Z)
    (d : directoryV3) : option (list Z) * directoryV3 :=
  if pageIndex + 1 <? len pages then storeSnapshotCursor session (pageIndex + 1) d else (None, d).

(** A snapshot page is answered completely or by one error: for a configured
    channel and within half of the response budget, page [pageIndex] of a
    session is its speakers cut in order into at most 32 groups, one sealed
    datagram for each with the channel row in the first and the cursor of the
    next page, when there is one, in all, or it is nothing or an error datagram. *)
Theorem snapshot_page_response d channelID requestID session pageIndex pages rows a bnd material epoch rid next d1 :
  d_keys d !! channelID = Some material ->
  splitDirectorySnapshotPages (ss_speakers session) = Stop pages -> index pages pageIndex = Some rows -> rows <> [] ->
  next_cursor session pages pageIndex d = (next, d1) -> (pageIndex + 1 < len pages -> is_Some next) ->
  random_at (d_draws d1) = Some epoch -> random_at (S (d_draws d1)) = Some rid -> rs_count (responseRate d) <= 32 ->
  let now := now_at (d_reads d1) in
  let expiresAt := u64 (toUnix (Add now (freshnessTTL d))) in
  let page := {| pg_Index := pageIndex; pg_Count := len pages; pg_NextCursor := next |} in
  let encode := encode_snapshot session (u64 (toUnix now)) expiresAt requestID (RawURL_Encode rid) page in
  let seal index payload :=
    sealDirectoryDatagram payload (str_bytes "snapshot") channelID material epoch (index + 1) expiresAt bnd in
  let ws := outs (sendSnapshotPage channelID requestID session pageIndex (Some a) bnd) d in
  (exists groups datagrams, concat groups = rows /\ len groups <= 32 /\ ws = writes a datagrams /\
     fragments_of encode seal groups datagrams) \/
  ws = [] \/ (exists d' code, ws = error_response d' channelID material requestID code a bnd).
Proof.
  intros Hk Hpages Hrow Hrows Hnext Hsome He Hid Hr. cbv zeta. unfold sendSnapshotPage. rewrite Hpages, Hrow.
  rewrite outs_gets_bind, Hk. cbv zeta. rewrite outs_bind.
  assert (d_keys d1 = d_keys d /\ responseRate d1 = responseRate d) as [Hkeys Hrate].
  { unfold next_cursor in Hnext. destruct (_ <? _); [|by injection Hnext as <- <-].
    apply (f_equal snd) in Hnext. cbn [snd] in Hnext. subst d1.
    split; [exact (move_keys _ _ _ (dstep_store d session (pageIndex + 1)))|].
    unfold storeSnapshotCursor, read_now. cbv zeta iota. by rewrite store_cursor_rate. }
  set (m := if _ <? _ then _ else ret None).
  assert (outs m d = [] /\ result m d = next /\ final m d = d1) as (-> & -> & ->).
  { unfold m, next_cursor in *. destruct (_ <? _).
    - unfold outs, result, final, atomically. by rewrite Hnext.
    - by injection Hnext as <- <-. }
  assert ((pageIndex + 1 <? len pages) && negb (bool_decide (is_Some next)) = false) as ->.
  { destruct (pageIndex + 1 <? len pages) eqn:El; [|done]. gobool. by rewrite bool_decide_eq_true_2 by by apply Hsome. }
  cbn [app]. rewrite outs_section_bind. cbn [fst snd read_now].
  rewrite outs_section_bind. cbn [fst snd randomID d_draws with_reads]. rewrite He.
  rewrite outs_section_bind. cbn [fst snd randomIDText randomID d_draws d_reads with_reads]. rewrite Hid.
  cbn [fst snd fmap option_fmap option_map].
  set (encode := encode_snapshot _ _ _ _ _ _). set (fits := fun index _ payload => _). set (seal := fun index payload => _).
  set (d' := with_reads _ _ _).
  assert (exists d2 code, outs (sendError channelID requestID RESPONSE_TOO_LARGE (Some a) bnd) d' =
    error_response d2 channelID material requestID code a bnd) as Herr.
  { eexists _, _. apply sendError_response; [cbn; by rewrite Hkeys|left|cbn; by rewrite Hrate]. }
  destruct (packDirectorySnapshotRows_correct encode fits rows Hrows) as (result & E & Hgroups). rewrite E.
  destruct result as [groups|]; [|by right; right].
  destruct (Hgroups groups eq_refl) as (Hc & Hlen & _). unfold send_groups.
  destruct (seal_groups (fun index => encode index (len groups)) seal 0 groups) as [| |ds] eqn:Es; [by right; left|by right; right|].
  left. exists groups, ds. pose proof (seal_groups_spec _ _ _ _ _ Es) as Hs.
  assert (1 <= len groups) by (destruct groups; [by subst rows|unfold len; simpl; lia]).
  unfold directoryMaxFragments in Hlen. split_and!; [done|done| |exact Hs].
  apply sendDatagrams_delivers; [by rewrite <- Hrate in Hr|]. destruct Hs as [Hl _]. unfold len in *. lia.
Qed.
End responses.

(** ** Concrete inputs *)

Section witnesses.
Local Existing Instances listing_order merge_sort_order counting_environment toy_directory_json toy_payload_json toy_aead.

Lemma resolvedSpeakers_correct_witness :
  exists row, row ∈ resolvedSpeakers sample_metadata 111 /\ sr_SenderID row = 9 /\ sr_ChannelID row = 111.
Proof.
  assert (metadata_ok sample_metadata) as Hm.
  { split; [apply (bool_decide_eq_true_1 (map_Forall _ _)); vm_compute; reflexivity|].
    unfold sample_metadata; cbn [md_speakers]. apply map_Forall_singleton, map_Forall_singleton. reflexivity. }
  exists {| sr_ChannelID := 111; sr_SenderID := 9; sr_Name := str_bytes "nine" |}.
  split; [|split; reflexivity]. apply (resolvedSpeakers_correct sample_metadata 111 Hm). vm_compute. reflexivity.
Defined.

Definition sample_rows : list directoryParticipantRow :=
  (fun n => {| dp_ChannelID := 111; dp_SenderID := n; LastSeenAt := 1700000000; Talking := false |}) <$> [1; 2; 3; 4; 5; 6].

(** Six rows make two fragments. *)
Lemma participants_response_witness :
  length (outs (sendParticipants 111 [] sample_rows (Some sample_client) 1) sample_directory) = 2%nat.
Proof.
  pose proof (participants_response sample_directory 111 [] sample_rows sample_client 1 directory_material
    (put_be 16 0) (put_be 16 1) (lookup_singleton_eq _ _) eq_refl eq_refl ltac:(discriminate) ltac:(discriminate)
    ltac:(discriminate)) as H. cbv zeta in H.
  match type of H with match ?x with _ => _ end => destruct x as [[groups|]|] eqn:E end.
  - destruct H as (_ & _ & ds & -> & Hl & _). unfold writes. rewrite length_fmap, Hl.
    apply (f_equal (fun r => match r with Stop (Some g) => length g | _ => 0%nat end)) in E. rewrite <- E.
    vm_compute. reflexivity.
  - apply (f_equal (fun r => match r with Stop (Some _) => true | _ => false end)) in E. vm_compute in E. discriminate E.
  - destruct H.
Defined.

Definition paged_session : directorySnapshotSession :=
  {| ss_channel := {| cr_ChannelID := 111; cr_Name := str_bytes "ops" |};
     ss_speakers := (fun n => {| sr_ChannelID := 111; sr_SenderID := Z.of_nat n; sr_Name := [] |}) <$> seq 1 40;
     ss_revision := []; ss_expires := Unix 1700000030 |}.

(** Page 1 of 40 speakers has nine and is the last. *)
Lemma snapshot_page_response_witness :
  len (outs (sendSnapshotPage 111 [1] paged_session 1 (Some sample_client) 1) sample_directory) <= 32.
Proof.
  destruct (splitDirectorySnapshotPages (ss_speakers paged_session)) as [pages|] eqn:Ep;
    [|vm_compute in Ep; discriminate Ep].
  vm_compute in Ep. injection Ep as Ep.
  destruct (snapshot_page_response sample_directory 111 [1] paged_session 1 pages
    (drop 31 (ss_speakers paged_session)) sample_client 1 directory_material (put_be 16 0) (put_be 16 1) None sample_directory)
    as [(groups & ds & _ & Hl & -> & Hf & _)|[-> | (d' & code & ->)]];
    [apply lookup_singleton_eq|subst pages; reflexivity|subst pages; reflexivity|discriminate|subst pages; reflexivity
    |subst pages; discriminate|reflexivity|reflexivity|discriminate| | |].
  - unfold writes, len in *. rewrite length_fmap, Hf. exact Hl.
  - discriminate.
  - unfold error_response, writes, len. rewrite length_fmap. by destruct (error_datagram _ _ _ _ _ _).
Defined.
End witnesses.
