(* ===== verification/DirectoryConfig.v ===== *)
(** * The configuration of the Directory

    The loaders of [directory_v3.go]: the lines of a CSV file, the Directory keys,
    the channels and speakers, and the start of the service from them.  The
    content of a file is an argument ([None] when it cannot be read); reading a
    CSV record is the interface [CSV]. *)

From S2P Require Import Prelude GoTime Text Base64 Sha256 DirectoryWire DirectoryPack Directory DirectorySpec DirectoryAnswers.

Definition directoryMaxChannels : Z := 256.
Definition directoryMaxSpeakers : Z := 4096.

Definition parseDirectoryTransport (value : list Z) : option directoryTransport :=
  let value := ToLower (TrimSpace value) in
  if bytes_eqb value [] || bytes_eqb value (str_bytes "media-port") then Some directoryTransportMediaPort
  else if bytes_eqb value (str_bytes "dedicated-udp") then Some directoryTransportDedicatedUDP
  else None.

Definition directory_line (line : list Z) : bool :=
  let trimmed := TrimSpace line in negb (bytes_eqb trimmed [] || HasPrefix trimmed [35]).

Definition readDirectoryCSV `{CSV} (data : option (list Z)) : option (list (list (list Z))) :=
  data ← data;
  if HasPrefix data [239; 187; 191] then None
  else
    let kept := filter (fun line => directory_line line = true) (split_byte 10 (crlf_to_lf data)) in
    if len kept =? 0 then Some [] else csv_ReadAll (join_byte 10 kept).

Fixpoint isDirectoryHeader (row expected : list (list Z)) : bool :=
  match row, expected with
  | [], [] => true
  | field :: row', name :: expected' => EqualFold (TrimSpace field) name && isDirectoryHeader row' expected'
  | _, _ => false
  end.

Definition parseDirectoryU32 (value : list Z) (nonzero : bool) : option Z :=
  let value := TrimSpace value in
  if bytes_eqb value [] || HasPrefix value [43] || HasPrefix value [45] || bool_decide (120 ∈ value) || bool_decide (88 ∈ value)
  then None
  else
    parsed ← ParseUint value 32;
    if nonzero && (parsed =? 0) then None else Some parsed.

Definition validDirectoryName (value : list Z) : bool :=
  negb (bytes_eqb value []) && match rune_count value with Some n => Z.of_nat n <=? 128 | None => false end.

(** The rows without a header. *)
Definition drop_header (header : list (list Z)) (rows : list (list (list Z))) : list (list (list Z)) :=
  match rows with
  | row :: rest => if isDirectoryHeader row header then rest else rows
  | [] => []
  end.

(** One row of the key file. *)
Definition add_key (keys : directoryKeyStore) (row : list (list Z)) : option directoryKeyStore :=
  match row with
  | [id; text] =>
      channelID ← parseDirectoryU32 id false;
      let encoded := TrimSpace text in
      decoded ← RawURL_Decode encoded;
      if negb (len decoded =? 32) || negb (bytes_eqb (RawURL_Encode decoded) encoded) then None
      else if forallb (fun value => value =? 0) decoded then None
      else if bool_decide (is_Some (keys !! channelID)) then None
      else
        material ← newDirectoryKeyMaterial decoded;
        Some (<[channelID := material]> keys)
  | _ => None
  end.

Fixpoint add_rows {S Row} (add : S -> Row -> option S) (s : S) (rows : list Row) : option S :=
  match rows with
  | [] => Some s
  | row :: rest => s' ← add s row; add_rows add s' rest
  end.

Definition loadDirectoryKeyStore `{CSV} (file : option (list Z)) : option directoryKeyStore :=
  rows ← readDirectoryCSV file;
  if len rows =? 0 then None
  else
    let rows := drop_header [str_bytes "channel_id"; str_bytes "directory_channel_key_base64url"] rows in
    if len rows =? 0 then None else add_rows add_key ∅ rows.

(** One row of the channels file, and one of the speakers file. *)
Definition add_channel (m : directoryMetadata) (row : list (list Z)) : option directoryMetadata :=
  match row with
  | [id; name] =>
      channelID ← parseDirectoryU32 id false;
      if negb (validDirectoryName name) then None
      else if bool_decide (is_Some (md_channels m !! channelID)) then None
      else Some {| md_channels := <[channelID := {| cr_ChannelID := channelID; cr_Name := name |}]> (md_channels m);
                   md_speakers := md_speakers m; md_fallback := md_fallback m |}
  | _ => None
  end.

Definition add_speaker (m : directoryMetadata) (row : list (list Z)) : option directoryMetadata :=
  match row with
  | [id; sender; name] =>
      senderID ← parseDirectoryU32 sender true;
      if negb (validDirectoryName name) then None
      else if EqualFold (TrimSpace id) (str_bytes "all") then
        if bool_decide (is_Some (md_fallback m !! senderID)) then None
        else Some {| md_channels := md_channels m; md_speakers := md_speakers m;
                     md_fallback := <[senderID := {| sr_ChannelID := 0; sr_SenderID := senderID; sr_Name := name |}]> (md_fallback m) |}
      else
        channelID ← parseDirectoryU32 id false;
        if negb (bool_decide (is_Some (md_channels m !! channelID))) then None
        else
          let rows := default ∅ (md_speakers m !! channelID) in
          if bool_decide (is_Some (rows !! senderID)) then None
          else
            let row := {| sr_ChannelID := channelID; sr_SenderID := senderID; sr_Name := name |} in
            Some {| md_channels := md_channels m; md_speakers := <[channelID := <[senderID := row]> rows]> (md_speakers m);
                    md_fallback := md_fallback m |}
  | _ => None
  end.

Definition loadDirectoryMetadata `{CSV} (channelsFile speakersFile : option (list Z)) : option directoryMetadata :=
  channelsRows ← readDirectoryCSV channelsFile;
  let channelsRows := drop_header [str_bytes "channel_id"; str_bytes "name"] channelsRows in
  if (len channelsRows =? 0) || (directoryMaxChannels <? len channelsRows) then None
  else
    metadata ← add_rows add_channel {| md_channels := ∅; md_speakers := ∅; md_fallback := ∅ |} channelsRows;
    speakerRows ← readDirectoryCSV speakersFile;
    let speakerRows := drop_header [str_bytes "channel_id"; str_bytes "sender_id"; str_bytes "name"] speakerRows in
    if directoryMaxSpeakers <? len speakerRows then None else add_rows add_speaker metadata speakerRows.

(** The start of the service from its configuration. *)
Definition configureDirectory `{CSV} (transport : list Z) (publishInterval ttl : duration)
    (keyFile channelsFile speakersFile : option (list Z)) : option directoryV3 :=
  transport ← parseDirectoryTransport transport;
  keys ← loadDirectoryKeyStore keyFile;
  metadata ← loadDirectoryMetadata channelsFile speakersFile;
  newDirectoryV3 keys metadata transport publishInterval ttl.

(** ** Lemmas *)

(** What every accepted row keeps holds at the end of a file. *)
Lemma add_rows_ind {S Row} (add : S -> Row -> option S) (I : Z -> S -> Prop) rows : forall n s s',
  (forall n s row s', I n s -> add s row = Some s' -> I (n + 1) s') ->
  I n s -> add_rows add s rows = Some s' -> I (n + len rows) s'.
Proof.
  induction rows as [|row rows IH]; intros n s s' Hadd HI E; cbn in E.
  - injection E as <-. unfold len. simpl. by rewrite Z.add_0_r.
  - apply bind_Some in E as (s1 & E1 & E). replace (n + len (row :: rows)) with (n + 1 + len rows) by (unfold len; simpl; lia).
    eapply IH; eauto.
Qed.

Lemma parseDirectoryU32_bound value nonzero v :
  parseDirectoryU32 value nonzero = Some v -> is_u32 v /\ (nonzero = true -> v <> 0).
Proof.
  unfold parseDirectoryU32. cbv zeta. destruct (_ || _); [done|]. intros (p & Ep & E)%bind_Some.
  apply ParseUint_bound in Ep. destruct (nonzero && (p =? 0)) eqn:Ez; [done|]. injection E as <-. split; [done|].
  intros ->. cbn in Ez. by gobool.
Qed.

Definition key_ok (material : directoryKeyMaterial) : Prop :=
  length (dk_channel material) = 32%nat /\ (exists b, b ∈ dk_channel material /\ b <> 0) /\
  hkdfSHA256 (dk_channel material) None directoryC2RInfo 32 = Some (c2r material) /\
  hkdfSHA256 (dk_channel material) None directoryR2CInfo 32 = Some (r2c material).

Lemma add_key_ok keys row keys' :
  add_key keys row = Some keys' -> map_Forall (fun id m => is_u32 id /\ key_ok m) keys ->
  map_Forall (fun id m => is_u32 id /\ key_ok m) keys'.
Proof.
  unfold add_key. destruct row as [|id [|text []]]; try done. intros (channelID & Eid & E)%bind_Some Hk. cbv zeta in E.
  apply bind_Some in E as (decoded & Ed & E). destruct (_ || _) eqn:E1 in E; [done|].
  destruct (forallb _ decoded) eqn:E0; [done|]. case_bool_decide; [done|]. apply bind_Some in E as (material & Em & E).
  injection E as <-. apply map_Forall_insert_2; [|done]. apply parseDirectoryU32_bound in Eid as [Hid _]. split; [done|].
  unfold newDirectoryKeyMaterial in Em. destruct (len decoded =? 32) eqn:El; cbn [negb] in Em; [|done].
  apply bind_Some in Em as (k1 & Ek1 & Em). apply bind_Some in Em as (k2 & Ek2 & Em). injection Em as <-.
  unfold key_ok. cbn [dk_channel c2r r2c]. split_and!; [unfold len in El; gobool; lia| |done|done].
  clear -E0. induction decoded as [|b l IH]; [done|]. cbn in E0. destruct (b =? 0) eqn:Eb.
  - destruct (IH E0) as (c & Hc & Hn). exists c. split; [by right|done].
  - exists b. split; [by left|]. by gobool.
Qed.

(** What the channels and speakers files make. *)
Record metadata_loaded (nchannels nspeakers : Z) (m : directoryMetadata) : Prop := {
  ml_ok : metadata_ok m;
  ml_channels : Z.of_nat (size (md_channels m)) <= nchannels;
  ml_ids : map_Forall (fun id row => is_u32 id /\ cr_ChannelID row = id /\ validDirectoryName (cr_Name row) = true) (md_channels m);
  ml_speakers : dom (md_speakers m) ⊆ dom (md_channels m);
  ml_rows : forall channelID, Z.of_nat (size (md_fallback m)) + Z.of_nat (size (default ∅ (md_speakers m !! channelID))) <= nspeakers;
  ml_senders : forall channelID senderID row, speaker_row m channelID senderID = Some row ->
    is_u32 senderID /\ senderID <> 0 /\ sr_ChannelID row = channelID /\ validDirectoryName (sr_Name row) = true
}.

Lemma add_channel_ok n k m row m' :
  add_channel m row = Some m' -> metadata_loaded n k m -> metadata_loaded (n + 1) k m'.
Proof.
  unfold add_channel. destruct row as [|id [|name []]]; try done. intros (channelID & Eid & E)%bind_Some [Hok Hc Hi Hs Hr Hsp].
  destruct (validDirectoryName name) eqn:En; cbn [negb] in E; [|done]. case_bool_decide as Hnew; [done|]. injection E as <-.
  split; cbn; try done.
  - rewrite map_size_insert_None; [lia|]. by apply eq_None_not_Some.
  - apply map_Forall_insert_2; [|done]. apply parseDirectoryU32_bound in Eid as [? _]. done.
  - rewrite dom_insert_L. set_solver.
Qed.

Lemma add_speaker_ok n k m row m' :
  add_speaker m row = Some m' -> metadata_loaded n k m -> metadata_loaded n (k + 1) m'.
Proof.
  unfold add_speaker. destruct row as [|id [|sender [|name []]]]; try done. intros (senderID & Es & E)%bind_Some [[Hf Hsp] Hc Hi Hs Hr Hrow].
  apply parseDirectoryU32_bound in Es as [Hu Hnz]. specialize (Hnz eq_refl).
  destruct (validDirectoryName name) eqn:En; cbn [negb] in E; [|done]. destruct (EqualFold _ _).
  - case_bool_decide as Hnew; [done|]. injection E as <-. split; cbn; try done.
    + split; cbn; [|done]. by apply map_Forall_insert_2.
    + intros ch. rewrite map_size_insert_None by by apply eq_None_not_Some. specialize (Hr ch). lia.
    + intros ch sid r. unfold speaker_row in *. cbn. specialize (Hrow ch sid).
      destruct (default ∅ (md_speakers m !! ch) !! sid) as [r0|] eqn:E0; [intros [= <-]; by apply Hrow|].
      destruct (decide (senderID = sid)) as [->|Hne].
      * rewrite lookup_insert_eq. by intros [= <-].
      * rewrite lookup_insert_ne by done. apply Hrow.
  - apply bind_Some in E as (channelID & Ech & E). case_bool_decide as Hch; cbn [negb] in E; [|done]. cbv zeta in E.
    case_bool_decide as Hnew; [done|]. injection E as <-. split; cbn; try done.
    + split; cbn; [done|]. apply map_Forall_insert_2; [|done]. apply map_Forall_insert_2; [done|].
      destruct (md_speakers m !! channelID) as [rows|] eqn:Er; [by apply (Hsp channelID)|]. cbn. apply map_Forall_empty.
    + rewrite dom_insert_L. apply elem_of_dom in Hch. set_solver.
    + intros ch. destruct (decide (channelID = ch)) as [->|Hne].
      * rewrite lookup_insert_eq. cbn. rewrite map_size_insert_None by by apply eq_None_not_Some. specialize (Hr ch). lia.
      * rewrite lookup_insert_ne by done. specialize (Hr ch). lia.
    + intros ch sid r. unfold speaker_row in *. cbn. specialize (Hrow ch sid).
      destruct (decide (channelID = ch)) as [->|Hne]; [|rewrite lookup_insert_ne by done; apply Hrow].
      rewrite lookup_insert_eq. cbn. destruct (decide (senderID = sid)) as [->|Hne].
      * rewrite lookup_insert_eq. by intros [= <-].
      * rewrite lookup_insert_ne by done. apply Hrow.
Qed.

Lemma empty_metadata_loaded : metadata_loaded 0 0 {| md_channels := ∅; md_speakers := ∅; md_fallback := ∅ |}.
Proof.
  by split.
Qed.

Lemma metadata_loaded_mono n k n' k' m : metadata_loaded n k m -> n <= n' -> k <= k' -> metadata_loaded n' k' m.
Proof. intros [] ? ?. split; try done; [lia|]. intros ch. specialize (ml_rows0 ch). lia. Qed.

Lemma loadDirectoryMetadata_ok `{CSV} channelsFile speakersFile m :
  loadDirectoryMetadata channelsFile speakersFile = Some m -> metadata_loaded 256 4096 m.
Proof.
  unfold loadDirectoryMetadata, directoryMaxChannels, directoryMaxSpeakers. intros (rows & _ & E)%bind_Some. cbv zeta in E.
  destruct (_ || _) eqn:El in E; [done|]. apply bind_Some in E as (m1 & E1 & E). apply bind_Some in E as (srows & _ & E).
  destruct (_ <? _) eqn:El2 in E; [done|]. gobool.
  apply (add_rows_ind add_channel (fun n m => metadata_loaded n 0 m)) with (n := 0) in E1; [|by intros; eapply add_channel_ok|apply empty_metadata_loaded].
  eapply (add_rows_ind add_speaker (fun k m => metadata_loaded _ k m)) in E; [|by intros; eapply add_speaker_ok|exact E1].
  eapply metadata_loaded_mono; [exact E|lia|lia].
Qed.

Lemma loadDirectoryKeyStore_ok `{CSV} file keys :
  loadDirectoryKeyStore file = Some keys -> map_Forall (fun id m => is_u32 id /\ key_ok m) keys.
Proof.
  unfold loadDirectoryKeyStore. intros (rows & _ & E)%bind_Some. destruct (len rows =? 0); [done|]. cbv zeta in E.
  destruct (_ =? 0) in E; [done|].
  eapply (add_rows_ind add_key (fun _ keys => map_Forall (fun id m => is_u32 id /\ key_ok m) keys) _ 0) in E; [exact E| |apply map_Forall_empty].
  intros ? ? ? ? ? ?. by eapply add_key_ok.
Qed.

Lemma length_resolvedSpeakers `{RangeOrder} `{SliceSort} m channelID :
  (length (resolvedSpeakers m channelID) <= size (md_fallback m) + size (default ∅ (md_speakers m !! channelID)))%nat.
Proof.
  unfold resolvedSpeakers. rewrite sort_Slice_perm, length_fmap, range_perm, length_map_to_list.
  rewrite <- !size_dom.
  assert (dom (resolved_map m channelID) ⊆ dom (md_fallback m) ∪ dom (default ∅ (md_speakers m !! channelID))) as Hsub.
  { intros k. rewrite elem_of_union, !elem_of_dom, resolved_map_lookup. unfold speaker_row. intros [row Hrow].
    destruct (default ∅ (md_speakers m !! channelID) !! k); [right; by eexists|].
    left. by destruct (md_fallback m !! k); [eexists|]. }
  apply subseteq_size in Hsub. rewrite size_union_alt in Hsub.
  assert (size (dom (default ∅ (md_speakers m !! channelID)) ∖ dom (md_fallback m)) <=
    size (dom (default ∅ (md_speakers m !! channelID))))%nat by (apply subseteq_size; set_solver).
  lia.
Qed.

(** A Directory that is configured soundly: every channel with a key has metadata and
    every channel with metadata a key, a 32-byte key that is not zero with the two
    directional keys derived from it; names and senders are valid, at most 256 channels; a
    snapshot has at most 4096 speakers and so at most 256 pages; and a freshness between
    one and ninety seconds. *)
Definition directory_configured `{RangeOrder} `{SliceSort} (d : directoryV3) : Prop :=
  dom (d_keys d) = dom (md_channels (d_metadata d)) /\
  map_Forall (fun id m => is_u32 id /\ key_ok m) (d_keys d) /\
  metadata_loaded 256 4096 (d_metadata d) /\ Second <= freshnessTTL d <= 90 * Second /\
  (forall channelID, len (resolvedSpeakers (d_metadata d) channelID) <= 4096 /\
    exists pages, splitDirectorySnapshotPages (resolvedSpeakers (d_metadata d) channelID) = Stop pages /\
      len pages <= directoryMaxSnapshotPages).

Lemma configureDirectory_sound `{CSV} `{RangeOrder} `{SliceSort} transport interval ttl keyFile channelsFile speakersFile d :
  configureDirectory transport interval ttl keyFile channelsFile speakersFile = Some d -> directory_configured d.
Proof.
  unfold configureDirectory. intros (t & _ & E)%bind_Some. apply bind_Some in E as (keys & Ek & E).
  apply bind_Some in E as (m & Em & E). apply loadDirectoryKeyStore_ok in Ek. apply loadDirectoryMetadata_ok in Em.
  unfold newDirectoryV3 in E. cbv zeta in E. destruct (_ || _) eqn:Et in E; [done|].
  destruct (_ || _) eqn:Ed in E; [done|]. injection E as <-. unfold directory_configured. cbn [d_keys d_metadata freshnessTTL].
  apply orb_false_iff in Ed as [Ed1 Ed2]. apply negb_false_iff, bool_decide_eq_true in Ed1, Ed2. gobool.
  split_and!; [by apply set_eq_subseteq|done|done|lia|lia|].
  intros channelID. pose proof (length_resolvedSpeakers m channelID) as Hl. pose proof (ml_rows _ _ _ Em channelID).
  assert (len (resolvedSpeakers m channelID) <= 4096) as Hlen by (unfold len; lia). split; [done|].
  destruct (splitDirectorySnapshotPages_correct (resolvedSpeakers m channelID)) as (pages & Ep & _ & _ & _ & _ & Hp).
  exists pages. split; [done|by apply Hp].
Qed.

(** ** Concrete inputs: files of plain fields *)

Definition nl : list Z := [10].
Definition keys_file : list Z :=
  str_bytes "# keys" ++ [13; 10] ++ str_bytes "channel_id,directory_channel_key_base64url" ++ nl
  ++ str_bytes "111, " ++ RawURL_Encode directory_key ++ nl.
Definition channels_file : list Z := str_bytes "Channel_ID,Name" ++ nl ++ str_bytes "111,Ops" ++ nl.
Definition speakers_file : list Z := str_bytes "ALL,7,Anyone" ++ nl ++ str_bytes "111,7,Seven" ++ nl.
