(* ===== verification/PrivateControl.v ===== *)
(** * The private control link: messages, frames and tables

    The data of [private_control.go], the JSON validation of a frame and the
    framing, the validation of every message, and the tables of a link: the
    idempotency entries of revocations, connection failures, command and
    connection slots, sessions and their queues. *)

From S2P Require Import Prelude GoTime Text Sha256 Base64 Service Diagnostics.

Definition privateControlMaxFrameBytes : Z := 65536.
Definition privateControlMaxJSONInteger : Z := 9007199254740991.
Definition privateControlSessionQueueDepth : Z := 256.
Definition privateControlIdempotencyTTL : duration := 10 * Minute.
Definition privateControlMaxDenyPeriod : duration := 90 * Minute.
Definition privateControlDiagnosticsMinInterval : duration := 10 * Second.
Definition privateControlMaxIdempotency : Z := 1024.
Definition privateControlMaxCommands : Z := 32.
Definition privateControlMaxConnections : Z := 64.
Definition privateControlFailureWindow : duration := Minute.
Definition privateControlMaxFailures : Z := 8.
Definition privateControlMaxFailureSources : Z := 1024.
Definition privateControlSchemaVersion : string := "private-control-link-v1".

(** ** Messages *)

Record privateControlHello := {
  hl_SchemaVersion : string; hl_Type : string; hl_MessageID : list Z; hl_ManagementServiceID : string;
  hl_WantLifecycleEvents : option bool; hl_WantAuditInputs : option bool; hl_WantDiagnostics : option bool
}.

(** [privateControlPing], [privateControlGetRelayDiagnostics],
    [privateControlGetRelayStateSnapshot] and [privateControlCommandEnvelope] have
    the same members. *)
Record privateControlCommandEnvelope := { ce_SchemaVersion : string; ce_Type : string; ce_MessageID : list Z }.

Record privateControlRevokeServiceAdmission := {
  rv_SchemaVersion : string; rv_Type : string; rv_MessageID : list Z; rv_ChannelID : Z; rv_ServiceID : string;
  rv_GrantIDHash : list Z; rv_Reason : string; rv_DenyUntil : Z
}.

Record privateControlAck := {
  ak_SchemaVersion : string; ak_Type : string; ak_MessageID : list Z; ak_InReplyTo : list Z; ak_Outcome : string;
  ak_DenyUntil : Z; ak_AffectedMembershipCount : Z; ak_TalkReleaseCount : Z
}.

Record privateControlHelloAck := {
  ha_MessageID : list Z; ha_InReplyTo : list Z; ha_SessionID : list Z; ha_RelayID : list Z;
  ha_LifecycleEventsAccepted : bool; ha_AuditInputsAccepted : bool; ha_DiagnosticsAccepted : bool
}.

Record privateControlSnapshotParticipant := { sn_SenderID : Z; sn_State : string }.
Record privateControlSnapshotChannel := { sn_ChannelID : Z; sn_Participants : list privateControlSnapshotParticipant }.

Record privateControlRelayStateSnapshot := {
  rs_MessageID : list Z; rs_InReplyTo : list Z; rs_SnapshotID : list Z; rs_ChunkIndex : Z; rs_ChunkCount : Z;
  rs_Channels : list privateControlSnapshotChannel
}.

Record privateControlLifecycleEvent := {
  le_MessageID : list Z; le_OccurredAt : time; le_EventType : string; le_ChannelID : option Z; le_SenderID : option Z;
  le_ServiceID : option string; le_RecordingJobID : option string; le_State : option string; le_Reason : option string
}.

Record privateControlFloorInterruptAudit := {
  fa_RequesterPriority : Z; fa_ReplacedSenderID : option Z; fa_ReplacedPriority : option Z
}.

Record privateControlAuditInput := {
  ai_MessageID : list Z; ai_OccurredAt : time; ai_Action : string; ai_ActorType : string; ai_ActorID : string;
  ai_ChannelID : Z; ai_Result : string; ai_FloorInterrupt : privateControlFloorInterruptAudit
}.

(** What a session queue carries ([chan any]); constant members are left out. *)
Inductive pc_message :=
| MAck (ack : privateControlAck)
| MError (messageID inReplyTo : list Z) (code : string)
| MHelloAck (ack : privateControlHelloAck)
| MPong (messageID inReplyTo : list Z)
| MEvent (event : privateControlLifecycleEvent)
| MAudit (input : privateControlAuditInput)
| MDiagnostics (messageID inReplyTo relayID : list Z) (counterEpoch : string) (observedAt : time)
    (floorInterrupt : relayFloorInterruptCounters)
| MSnapshot (chunk : privateControlRelayStateSnapshot).

(** ** Identifiers and message validation *)

Definition validPrivateControlID (value : list Z) : bool :=
  if negb (len value =? 22) then false
  else match RawURL_Decode value with
       | Some decoded => (len decoded =? 16) && bytes_eqb (RawURL_Encode decoded) value
       | None => false
       end.

(** [None] is the invalid case; the empty string is a nil hash. *)
Definition decodePrivateControlGrantIDHash (value : list Z) : option (option (list Z)) :=
  if bytes_eqb value [] then Some None
  else
    decoded ← RawURL_Decode value;
    if negb (len decoded =? 32) || negb (bytes_eqb (RawURL_Encode decoded) value) then None else Some (Some decoded).

Definition validPrivateControlRevocation (message : privateControlRevokeServiceAdmission)
    : option serviceAdmissionRevocationTarget :=
  if negb (String.eqb (rv_SchemaVersion message) privateControlSchemaVersion)
     || negb (String.eqb (rv_Type message) "revoke_service_admission")
     || negb (validPrivateControlID (rv_MessageID message)) || (rv_DenyUntil message <? 1)
     || (privateControlMaxJSONInteger <? rv_DenyUntil message)
     || (negb (String.eqb (rv_ServiceID message) "") && negb (managedServiceIDPattern (rv_ServiceID message)))
     || (negb (String.eqb (rv_Reason message) "acl_removed") && negb (String.eqb (rv_Reason message) "service_disabled")
         && negb (String.eqb (rv_Reason message) "grant_revoked")) then None
  else
    match decodePrivateControlGrantIDHash (rv_GrantIDHash message) with
    | None => None
    | Some grantIDHash =>
        if String.eqb (rv_ServiceID message) "" && negb (bool_decide (is_Some grantIDHash)) then None
        else Some {| rt_channelID := rv_ChannelID message; rt_serviceID := rv_ServiceID message; rt_grantIDHash := grantIDHash |}
    end.

Definition validPrivateControlHello (message : privateControlHello) : bool :=
  String.eqb (hl_SchemaVersion message) privateControlSchemaVersion && String.eqb (hl_Type message) "hello"
  && validPrivateControlID (hl_MessageID message) && managedServiceIDPattern (hl_ManagementServiceID message)
  && bool_decide (is_Some (hl_WantLifecycleEvents message)) && bool_decide (is_Some (hl_WantAuditInputs message))
  && bool_decide (is_Some (hl_WantDiagnostics message)).

(** [validPrivateControlPing] and the validation of the two queries, by type. *)
Definition validPrivateControlCommand (type : string) (message : privateControlCommandEnvelope) : bool :=
  String.eqb (ce_SchemaVersion message) privateControlSchemaVersion && String.eqb (ce_Type message) type
  && validPrivateControlID (ce_MessageID message).

(** ** JSON *)

(** The tokens of [json.Decoder]: a delimiter, a string, or another value. *)
Inductive jtoken := JOpen | JClose | JOpenArray | JCloseArray | JString (s : list Z) | JOther.

(** How the token stream of a text ends: at the end of the text or on a syntax
    error. *)
Inductive jend := EndOfText | SyntaxError.

(** [encoding/json]: the token stream of a text, [json.Unmarshal] into each
    message type (unknown members refused, one value), the lax selector decoding, and
    [json.Marshal]. *)
Class PrivateControlJSON := {
  json_tokens : list Z -> list jtoken * jend;
  decode_hello : list Z -> option privateControlHello;
  decode_command : list Z -> option privateControlCommandEnvelope;
  decode_revocation : list Z -> option privateControlRevokeServiceAdmission;
  decode_selector : list Z -> option privateControlCommandEnvelope;
  marshal_revocation : privateControlRevokeServiceAdmission -> option (list Z);
  marshal_message : pc_message -> option (list Z)
}.

(** The results of a scan; [ScanEOF] is [io.EOF]. *)
Inductive scan (A : Type) := ScanOk (a : A) | ScanEOF | ScanError.
Arguments ScanOk {A} a.
Arguments ScanEOF {A}.
Arguments ScanError {A}.

(** [decoder.Token] at the end of its tokens. *)
Definition at_end {A} (e : jend) : scan A := match e with EndOfText => ScanEOF | SyntaxError => ScanError end.

(** [scanPrivateControlJSONValue]: [scan_value] scans one value, [scan_members] and
    [scan_elements] are its loops.  Every call consumes a token, so the number of tokens
    plus one is enough fuel; out of fuel is an error. *)
Fixpoint scan_value (fuel : nat) (e : jend) (toks : list jtoken) : scan (list jtoken) :=
  match fuel with
  | O => ScanError
  | S k =>
      match toks with
      | [] => at_end e
      | JOpen :: rest => scan_members k e [] rest
      | JOpenArray :: rest => scan_elements k e rest
      | JString _ :: rest | JOther :: rest => ScanOk rest
      | JClose :: _ | JCloseArray :: _ => ScanError
      end
  end
with scan_members (fuel : nat) (e : jend) (seen : list (list Z)) (toks : list jtoken) : scan (list jtoken) :=
  match fuel with
  | O => ScanError
  | S k =>
      match toks with
      | [] => at_end e
      | JClose :: rest => ScanOk rest
      | JString key :: rest =>
          if bool_decide (key ∈ seen) then ScanError
          else match scan_value k e rest with
               | ScanOk rest => scan_members k e (key :: seen) rest
               | failure => failure
               end
      | _ => ScanError
      end
  end
with scan_elements (fuel : nat) (e : jend) (toks : list jtoken) : scan (list jtoken) :=
  match fuel with
  | O => ScanError
  | S k =>
      match toks with
      | [] => at_end e
      | JCloseArray :: rest => ScanOk rest
      | JClose :: _ => ScanError
      | _ => match scan_value k e toks with
             | ScanOk rest => scan_elements k e rest
             | failure => failure
             end
      end
  end.

(** [validatePrivateControlJSON]: the error is nil, [io.EOF] or another. *)
Definition validatePrivateControlJSON `{PrivateControlJSON} (raw : list Z) : scan unit :=
  if negb (bool_decide (is_Some (rune_count raw))) then ScanError
  else
    let '(toks, e) := json_tokens raw in
    match scan_value (S (length toks)) e toks with
    | ScanOk [] => match e with EndOfText => ScanOk tt | SyntaxError => ScanError end
    | ScanOk _ => ScanError
    | ScanEOF => ScanEOF
    | ScanError => ScanError
    end.

(** [decodePrivateControlJSON] with the decoder of the target. *)
Definition decodePrivateControlJSON `{PrivateControlJSON} {A} (decode : list Z -> option A) (raw : list Z) : option A :=
  match validatePrivateControlJSON raw with
  | ScanOk _ => decode raw
  | _ => None
  end.

Definition decodePrivateControlSelector `{PrivateControlJSON} (raw : list Z) : option privateControlCommandEnvelope :=
  selector ← decode_selector raw;
  if negb (String.eqb (ce_SchemaVersion selector) privateControlSchemaVersion)
     || negb (validPrivateControlID (ce_MessageID selector)) || String.eqb (ce_Type selector) "" then None
  else Some selector.

Definition privateControlRevocationDigest `{PrivateControlJSON} (message : privateControlRevokeServiceAdmission)
    : option (list Z) := sha256 <$> marshal_revocation message.

(** ** Frames *)

(** The result of reading a frame from a stream, its rest included; [FrameEOF] is an
    error that is [io.EOF]. *)
Inductive frame := Frame (payload rest : list Z) | FrameEOF | FrameBad.

Definition readPrivateControlFrame `{PrivateControlJSON} (stream : list Z) : frame :=
  match stream with
  | [] => FrameEOF
  | _ =>
      if len stream <? 4 then FrameBad
      else
        let length := get_be (take 4 stream) in
        let body := drop 4 stream in
        if (length <? 2) || (privateControlMaxFrameBytes <? length) then FrameBad
        else if len body =? 0 then FrameEOF
        else if len body <? length then FrameBad
        else
          let payload := take (Z.to_nat length) body in
          match validatePrivateControlJSON payload with
          | ScanOk _ => Frame payload (drop (Z.to_nat length) body)
          | ScanEOF => FrameEOF
          | ScanError => FrameBad
          end
  end.

(** The bytes [writePrivateControlFrame] writes. *)
Definition writePrivateControlFrame `{PrivateControlJSON} (message : pc_message) : option (list Z) :=
  payload ← marshal_message message;
  if (len payload <? 2) || (privateControlMaxFrameBytes <? len payload) then None
  else Some (put_be 4 (u32 (len payload)) ++ payload).

(** [writePrivateControlBytes]: the [k]-th call of [Write] answers with the number of bytes
    of its argument it has written, [None] for an error.  Every turn writes a byte, so [fuel] is as much as
    bytes; the result is whether all are written, the number of calls and what has left. *)
Fixpoint write_bytes (fuel : nat) (Write : nat -> list Z -> option Z) (k : nat) (payload sent : list Z) : option (bool * nat * list Z) :=
  match payload with
  | [] => Some (true, k, sent)
  | _ =>
      match fuel with
      | O => None
      | S fuel =>
          match Write k payload with
          | None => Some (false, S k, sent)
          | Some written =>
              if written <=? 0 then Some (false, S k, sent)
              else
                rest ← slice payload written (len payload);
                write_bytes fuel Write (S k) rest (sent ++ take (Z.to_nat written) payload)
          end
      end
  end.
Definition writePrivateControlBytes (Write : nat -> list Z -> option Z) (k : nat) (payload sent : list Z) : option (bool * nat * list Z) :=
  write_bytes (length payload) Write k payload sent.

(** The writes of [writePrivateControlFrame]: the length and the payload. *)
Definition write_frame (Write : nat -> list Z -> option Z) (k : nat) (payload sent : list Z) : option (bool * nat * list Z) :=
  '(ok, k, sent) ← writePrivateControlBytes Write k (put_be 4 (u32 (len payload))) sent;
  if negb ok then Some (false, k, sent) else writePrivateControlBytes Write k payload sent.

(** ** State *)

Record privateControlFailureState := { fs_windowStarted : time; fs_count : Z; fs_lastSeen : time }.

(** [ie_ack] is the pointer [ack]; the channel [done] is closed when the entry is
    completed or deleted. *)
Record privateControlIdempotencyEntry := {
  ie_bodyHash : list Z; ie_ack : option privateControlAck; ie_expiresAt : time; ie_completed : bool
}.

(** [se_send] is the buffer of the queue, [se_done] that [done] is closed. *)
Record privateControlSession := {
  se_serviceID : string; se_lifecycleEvents : bool; se_auditInputs : bool; se_diagnostics : bool;
  se_lastDiagnostics : time; se_send : list pc_message; se_done : bool
}.

(** Sessions are shared objects: [pl_objects] is the store, and [pl_sessions] the
    map from service to object.  [commandSlots] and [connections] are the numbers
    of taken slots. *)
Record privateControlPolicy := { byCertificate : gmap (list Z) string; byUID : gmap Z string }.

Record privateControlLink := {
  pl_relayID : list Z;
  pl_policy : privateControlPolicy;
  pl_sessions : gmap string nat;
  pl_objects : gmap nat privateControlSession;
  pl_next : nat;
  pl_dropped : Z;
  pl_failures : gmap string privateControlFailureState;
  pl_idempotency : gmap (string * list Z) privateControlIdempotencyEntry;
  commandSlots : Z;
  connections : Z
}.

Definition with_sessions (l : privateControlLink) sess objs next dropped : privateControlLink :=
  {| pl_relayID := pl_relayID l; pl_policy := pl_policy l; pl_sessions := sess; pl_objects := objs;
     pl_next := next; pl_dropped := dropped; pl_failures := pl_failures l; pl_idempotency := pl_idempotency l;
     commandSlots := commandSlots l; connections := connections l |}.

Definition with_control (l : privateControlLink) fails idem : privateControlLink :=
  {| pl_relayID := pl_relayID l; pl_policy := pl_policy l; pl_sessions := pl_sessions l;
     pl_objects := pl_objects l; pl_next := pl_next l; pl_dropped := pl_dropped l; pl_failures := fails;
     pl_idempotency := idem; commandSlots := commandSlots l; connections := connections l |}.

Definition with_slots (l : privateControlLink) cmds conns : privateControlLink :=
  {| pl_relayID := pl_relayID l; pl_policy := pl_policy l; pl_sessions := pl_sessions l;
     pl_objects := pl_objects l; pl_next := pl_next l; pl_dropped := pl_dropped l; pl_failures := pl_failures l;
     pl_idempotency := pl_idempotency l; commandSlots := cmds; connections := conns |}.

(** ** Idempotency of revocations *)

Definition entry_kept (now : time) (entry : privateControlIdempotencyEntry) : bool :=
  negb (ie_completed entry && bool_decide (is_Some (ie_ack entry)) && negb (After (ie_expiresAt entry) now)).

Definition cleanupIdempotencyLocked (now : time) (l : privateControlLink) : privateControlLink :=
  with_control l
    (filter (fun kv => Sub now (fs_lastSeen (kv.2)) <= privateControlFailureWindow) (pl_failures l))
    (filter (fun kv => entry_kept now (kv.2) = true) (pl_idempotency l)).

(** The five results of [beginRevocation]. *)
Inductive begun_revocation := Cached (ack : privateControlAck) | Pending | Execute | Conflict | Overloaded.

Definition beginRevocation (serviceID : string) (messageID bodyHash : list Z) (now : time) (l : privateControlLink)
    : begun_revocation * privateControlLink :=
  let l := cleanupIdempotencyLocked now l in
  let key := (serviceID, messageID) in
  match pl_idempotency l !! key with
  | Some entry =>
      if negb (bytes_eqb (ie_bodyHash entry) bodyHash) then (Conflict, l)
      else match ie_ack entry with
           | Some ack => if ie_completed entry then (Cached ack, l) else (Pending, l)
           | None => (Pending, l)
           end
  | None =>
      if privateControlMaxIdempotency <=? Z.of_nat (size (pl_idempotency l)) then (Overloaded, l)
      else
        let entry := {| ie_bodyHash := bodyHash; ie_ack := None; ie_expiresAt := Add now privateControlIdempotencyTTL;
                        ie_completed := false |} in
        (Execute, with_control l (pl_failures l) (<[key := entry]> (pl_idempotency l)))
  end.

Definition privateControlIdempotencyExpiry (ack : privateControlAck) (now : time) : time :=
  let expiresAt := Add now privateControlIdempotencyTTL in
  if String.eqb (ak_Outcome ack) "applied" then
    let denyUntil := Unix (ak_DenyUntil ack) in
    if After denyUntil expiresAt then denyUntil else expiresAt
  else expiresAt.

(** The two sections of [completeRevocation], around the write of the state. *)
Definition store_ack (serviceID : string) (messageID bodyHash : list Z) (ack : privateControlAck) (now : time)
    (l : privateControlLink) : bool * privateControlLink :=
  let key := (serviceID, messageID) in
  match pl_idempotency l !! key with
  | Some entry =>
      if negb (bytes_eqb (ie_bodyHash entry) bodyHash) || ie_completed entry then (false, l)
      else
        let entry := {| ie_bodyHash := ie_bodyHash entry; ie_ack := Some ack;
                        ie_expiresAt := privateControlIdempotencyExpiry ack (Add now privateControlIdempotencyTTL);
                        ie_completed := ie_completed entry |} in
        (true, with_control l (pl_failures l) (<[key := entry]> (pl_idempotency l)))
  | None => (false, l)
  end.

Definition finish_ack (serviceID : string) (messageID bodyHash : list Z) (l : privateControlLink) : bool * privateControlLink :=
  let key := (serviceID, messageID) in
  match pl_idempotency l !! key with
  | Some entry =>
      if negb (bytes_eqb (ie_bodyHash entry) bodyHash) || ie_completed entry || negb (bool_decide (is_Some (ie_ack entry)))
      then (false, l)
      else
        let entry := {| ie_bodyHash := ie_bodyHash entry; ie_ack := ie_ack entry; ie_expiresAt := ie_expiresAt entry;
                        ie_completed := true |} in
        (true, with_control l (pl_failures l) (<[key := entry]> (pl_idempotency l)))
  | None => (false, l)
  end.

Definition abandonRevocation (serviceID : string) (messageID bodyHash : list Z) (l : privateControlLink) : privateControlLink :=
  let key := (serviceID, messageID) in
  match pl_idempotency l !! key with
  | Some entry =>
      if negb (bytes_eqb (ie_bodyHash entry) bodyHash) || ie_completed entry then l
      else with_control l (pl_failures l) (delete key (pl_idempotency l))
  | None => l
  end.

Definition cachedCompletedRevocation (serviceID : string) (messageID bodyHash : list Z) (l : privateControlLink)
    : option privateControlAck :=
  entry ← pl_idempotency l !! (serviceID, messageID);
  if negb (bytes_eqb (ie_bodyHash entry) bodyHash) || negb (ie_completed entry) then None else ie_ack entry.

(** ** Slots and failures *)

Definition acquireCommand (l : privateControlLink) : bool * privateControlLink :=
  if commandSlots l <? privateControlMaxCommands then (true, with_slots l (commandSlots l + 1) (connections l)) else (false, l).
Definition releaseCommand (l : privateControlLink) : privateControlLink := with_slots l (commandSlots l - 1) (connections l).
Definition acquireConnection (l : privateControlLink) : bool * privateControlLink :=
  if connections l <? privateControlMaxConnections then (true, with_slots l (commandSlots l) (connections l + 1)) else (false, l).
Definition releaseConnection (l : privateControlLink) : privateControlLink := with_slots l (commandSlots l) (connections l - 1).

(** The remote address of a connection: the host of [SplitHostPort] on its text, [None] an
    error, and its network; [None] when there is no address. *)
Definition privateControlFailureSource (remote : option (option string * string)) : string :=
  match remote with
  | None => "unknown"
  | Some (Some host, network) => if negb (String.eqb host "") then host else network
  | Some (None, network) => network
  end.

Definition allowConnectionAttempt (source : string) (now : time) (l : privateControlLink) : bool * privateControlLink :=
  let l := cleanupIdempotencyLocked now l in
  match pl_failures l !! source with
  | None => (true, l)
  | Some state =>
      if privateControlFailureWindow <=? Sub now (fs_windowStarted state) then (true, l)
      else (fs_count state <? privateControlMaxFailures, l)
  end.

Section failures.
Context `{RangeOrder}.

(** The source that was seen longest ago, the empty string when there is none. *)
Definition oldest_source (failures : gmap string privateControlFailureState) : string * time :=
  foldl (fun acc kv => if IsZero (acc.2) || Before (fs_lastSeen (kv.2)) (acc.2) then (kv.1, fs_lastSeen (kv.2)) else acc)
    (EmptyString, zero_time) (range failures).

Definition recordConnectionFailure (source : string) (now : time) (l : privateControlLink) : privateControlLink :=
  let l := cleanupIdempotencyLocked now l in
  let state := default {| fs_windowStarted := zero_time; fs_count := 0; fs_lastSeen := zero_time |} (pl_failures l !! source) in
  let '(state, failures) :=
    if IsZero (fs_windowStarted state) || (privateControlFailureWindow <=? Sub now (fs_windowStarted state)) then
      ({| fs_windowStarted := now; fs_count := 0; fs_lastSeen := zero_time |},
       if (privateControlMaxFailureSources <=? Z.of_nat (size (pl_failures l)))
          && negb (String.eqb (oldest_source (pl_failures l)).1 "")
       then delete (oldest_source (pl_failures l)).1 (pl_failures l) else pl_failures l)
    else (state, pl_failures l) in
  let count := if fs_count state <? 255 then fs_count state + 1 else fs_count state in
  let state := {| fs_windowStarted := fs_windowStarted state; fs_count := count; fs_lastSeen := now |} in
  with_control l (<[source := state]> failures) (pl_idempotency l).
End failures.

(** ** Sessions *)

Definition set_send (se : privateControlSession) (send : list pc_message) : privateControlSession :=
  {| se_serviceID := se_serviceID se; se_lifecycleEvents := se_lifecycleEvents se; se_auditInputs := se_auditInputs se;
     se_diagnostics := se_diagnostics se; se_lastDiagnostics := se_lastDiagnostics se; se_send := send;
     se_done := se_done se |}.
Definition set_done (se : privateControlSession) : privateControlSession :=
  {| se_serviceID := se_serviceID se; se_lifecycleEvents := se_lifecycleEvents se; se_auditInputs := se_auditInputs se;
     se_diagnostics := se_diagnostics se; se_lastDiagnostics := se_lastDiagnostics se; se_send := se_send se; se_done := true |}.
Definition set_lastDiagnostics (se : privateControlSession) (now : time) : privateControlSession :=
  {| se_serviceID := se_serviceID se; se_lifecycleEvents := se_lifecycleEvents se; se_auditInputs := se_auditInputs se;
     se_diagnostics := se_diagnostics se; se_lastDiagnostics := now; se_send := se_send se; se_done := se_done se |}.

(** [session.enqueue] on the session itself. *)
Definition session_enqueue (message : pc_message) (se : privateControlSession) : bool * privateControlSession :=
  if se_done se then (false, se)
  else if len (se_send se) <? privateControlSessionQueueDepth then (true, set_send se (se_send se ++ [message]))
  else (false, se).

(** A method of the session object [sid]; no object is a nil pointer. *)
Definition on_session {A} (sid : nat) (dflt : A) (f : privateControlSession -> A * privateControlSession)
    (l : privateControlLink) : A * privateControlLink :=
  match pl_objects l !! sid with
  | None => (dflt, l)
  | Some se =>
      let '(a, se') := f se in
      (a, with_sessions l (pl_sessions l) (<[sid := se']> (pl_objects l)) (pl_next l) (pl_dropped l))
  end.

Definition pc_enqueue (sid : nat) (message : pc_message) : privateControlLink -> bool * privateControlLink :=
  on_session sid false (session_enqueue message).

Definition close_session (sid : nat) (l : privateControlLink) : privateControlLink :=
  (on_session sid tt (fun se => (tt, set_done se)) l).2.

(** [addSession] of a new object; the previous session of the service is closed. *)
Definition addSession (se : privateControlSession) (l : privateControlLink) : nat * privateControlLink :=
  let sid := pl_next l in
  let previous := pl_sessions l !! se_serviceID se in
  let l := with_sessions l (<[se_serviceID se := sid]> (pl_sessions l)) (<[sid := se]> (pl_objects l)) (S sid) (pl_dropped l) in
  (sid, match previous with Some p => close_session p l | None => l end).

Definition removeSession (sid : nat) (l : privateControlLink) : privateControlLink :=
  match pl_objects l !! sid with
  | None => l
  | Some se =>
      let sess := if bool_decide (pl_sessions l !! se_serviceID se = Some sid)
                  then delete (se_serviceID se) (pl_sessions l) else pl_sessions l in
      close_session sid (with_sessions l sess (pl_objects l) (pl_next l) (pl_dropped l))
  end.

Section events.
Context `{RangeOrder}.

(** The loop of [enqueueLifecycleEvent] and [enqueueAuditInput]: every session that
    wants the message gets it or counts as dropped. *)
Definition enqueue_wanted (wants : privateControlSession -> bool) (message : pc_message) (l : privateControlLink)
    : privateControlLink :=
  foldl (fun l kv =>
    match pl_objects l !! kv.2 with
    | None => l
    | Some se =>
        if wants se then
          let '(queued, l) := pc_enqueue (kv.2) message l in
          if queued then l else with_sessions l (pl_sessions l) (pl_objects l) (pl_next l) (u64 (pl_dropped l + 1))
        else l
    end) l (range (pl_sessions l)).

Definition enqueueLifecycleEvent (event : privateControlLifecycleEvent) : privateControlLink -> privateControlLink :=
  enqueue_wanted se_lifecycleEvents (MEvent event).
Definition enqueueAuditInput (input : privateControlAuditInput) : privateControlLink -> privateControlLink :=
  enqueue_wanted se_auditInputs (MAudit input).
End events.

(** The writer goroutine takes the oldest message of an open session. *)
Definition take_message (sid : nat) : privateControlLink -> option pc_message * privateControlLink :=
  on_session sid None (fun se =>
    if se_done se then (None, se)
    else match se_send se with
         | [] => (None, se)
         | message :: rest => (Some message, set_send se rest)
         end).

Definition newPrivateControlLink (relayID : list Z) (policy : privateControlPolicy) : option privateControlLink :=
  if bytes_eqb (TrimSpace relayID) [] || (128 <? len relayID)
     || (bool_decide (byCertificate policy = ∅) && bool_decide (byUID policy = ∅)) then None
  else Some {| pl_relayID := relayID; pl_policy := policy; pl_sessions := ∅; pl_objects := ∅; pl_next := 0;
               pl_dropped := 0; pl_failures := ∅; pl_idempotency := ∅; commandSlots := 0; connections := 0 |}.

(** ** An instance

    Every text is one JSON value that no message decodes from, and every message is
    the text of a number. *)
Definition plain_control_json : PrivateControlJSON :=
  {| json_tokens := fun _ => ([JOther], EndOfText); decode_hello := fun _ => None; decode_command := fun _ => None;
     decode_revocation := fun _ => None; decode_selector := fun _ => None; marshal_revocation := fun _ => Some [49; 50];
     marshal_message := fun _ => Some [49; 50] |}.
