(* ===== verification/PrivateState.v ===== *)
(** * The durable state of the private control link

    [private_control_state.go]: the deny rules and the acknowledgements of
    revocations as they are written to the state file and restored from it at the
    start, with what survives a restart and what prevents one. *)

From S2P Require Import Prelude GoTime Text Sha256 Base64 Service PrivateControl.

Definition privateControlStateSchemaVersion : string := "private-control-link-state-v1".

Record privateControlPersistentRule := {
  pr_ChannelID : Z; pr_ServiceID : string; pr_GrantIDHash : list Z; pr_DenyUntil : Z
}.

Record privateControlPersistentIdempotency := {
  pi_ManagementServiceID : string; pi_MessageID : list Z; pi_BodySHA256 : list Z; pi_Ack : privateControlAck; pi_ExpiresAt : Z
}.

Record privateControlPersistentState := {
  ps_SchemaVersion : string;
  ps_Rules : list privateControlPersistentRule;
  ps_Idempotency : list privateControlPersistentIdempotency
}.

(** [encoding/json] on the state; [decode_state] refuses unknown members and a
    second value.  A state whose marshalling succeeds decodes to itself when its
    strings are text and its integers fit. *)
Class PrivateStateJSON := {
  marshal_state : privateControlPersistentState -> option (list Z);
  decode_state : list Z -> option privateControlPersistentState
}.

Definition validPrivateControlAck (ack : privateControlAck) : bool :=
  String.eqb (ak_SchemaVersion ack) privateControlSchemaVersion && String.eqb (ak_Type ack) "ack"
  && validPrivateControlID (ak_MessageID ack) && validPrivateControlID (ak_InReplyTo ack)
  && (String.eqb (ak_Outcome ack) "applied" || String.eqb (ak_Outcome ack) "already_expired")
  && (1 <=? ak_DenyUntil ack) && (ak_DenyUntil ack <=? privateControlMaxJSONInteger)
  && (negb (String.eqb (ak_Outcome ack) "already_expired")
      || ((ak_AffectedMembershipCount ack =? 0) && (ak_TalkReleaseCount ack =? 0))).

(** [None] is the invalid case. *)
Definition persistentRuleTarget (rule : privateControlPersistentRule) : option serviceAdmissionRevocationTarget :=
  if (pr_DenyUntil rule <? 1) || (privateControlMaxJSONInteger <? pr_DenyUntil rule)
     || (negb (String.eqb (pr_ServiceID rule) "") && negb (managedServiceIDPattern (pr_ServiceID rule))) then None
  else
    match decodePrivateControlGrantIDHash (pr_GrantIDHash rule) with
    | None => None
    | Some grantIDHash =>
        if String.eqb (pr_ServiceID rule) "" && negb (bool_decide (is_Some grantIDHash)) then None
        else Some {| rt_channelID := pr_ChannelID rule; rt_serviceID := pr_ServiceID rule; rt_grantIDHash := grantIDHash |}
    end.

Definition privateControlPersistentRuleFromEntry (entry : serviceAdmissionDenyRuleEntry) : privateControlPersistentRule :=
  {| pr_ChannelID := dr_channelID (de_rule entry); pr_ServiceID := dr_serviceID (de_rule entry);
     pr_GrantIDHash := if dr_hasGrantIDHash (de_rule entry) then RawURL_Encode (dr_grantIDHash (de_rule entry)) else [];
     pr_DenyUntil := toUnix (de_expiresAt entry) |}.

Definition decodePersistentBodyHash (value : list Z) : option (list Z) :=
  decoded ← RawURL_Decode value;
  if negb (len decoded =? 32) || negb (bytes_eqb (RawURL_Encode decoded) value) then None else Some decoded.

(** The file, [None] when it does not exist. *)
Definition loadPrivateControlPersistentState `{PrivateStateJSON} (file : option (list Z)) : option privateControlPersistentState :=
  match file with
  | None => Some {| ps_SchemaVersion := privateControlStateSchemaVersion; ps_Rules := []; ps_Idempotency := [] |}
  | Some data =>
      state ← decode_state data;
      if negb (String.eqb (ps_SchemaVersion state) privateControlStateSchemaVersion) then None else Some state
  end.

(** How the file operations of a write end: before the rename the old file stays,
    after it the new one is in place, synchronised or not. *)
Inductive write_outcome := WriteDone | WriteFailed | RenamedUnsynced.

(** [writePrivateControlPersistentState]; [true] is a nil error. *)
Definition writePrivateControlPersistentState `{PrivateStateJSON} (outcome : write_outcome)
    (state : privateControlPersistentState) (file : option (list Z)) : bool * option (list Z) :=
  match marshal_state state with
  | None => (false, file)
  | Some encoded =>
      match outcome with
      | WriteDone => (true, Some encoded)
      | WriteFailed => (false, file)
      | RenamedUnsynced => (false, Some encoded)
      end
  end.

(** The record of an entry, when it has an acknowledgement and is not over. *)
Definition persistent_entry (now : time) (kv : (string * list Z) * privateControlIdempotencyEntry)
    : option privateControlPersistentIdempotency :=
  match ie_ack (kv.2) with
  | None => None
  | Some ack =>
      if negb (After (ie_expiresAt (kv.2)) now) then None
      else Some {| pi_ManagementServiceID := kv.1.1; pi_MessageID := kv.1.2;
                   pi_BodySHA256 := RawURL_Encode (ie_bodyHash (kv.2)); pi_Ack := ack;
                   pi_ExpiresAt := toUnix (ie_expiresAt (kv.2)) |}
  end.

(** The section of [persistentStateSnapshot] under the lock of the link, after the
    deny rules were read under the lock of the service admission. *)
Definition snapshot_idempotency `{RangeOrder} (now : time) (l : privateControlLink)
    : list privateControlPersistentIdempotency * privateControlLink :=
  let l := cleanupIdempotencyLocked now l in
  (omap (persistent_entry now) (range (pl_idempotency l)), l).

Definition persistent_state (rules : list serviceAdmissionDenyRuleEntry) (entries : list privateControlPersistentIdempotency)
    : privateControlPersistentState :=
  {| ps_SchemaVersion := privateControlStateSchemaVersion; ps_Rules := privateControlPersistentRuleFromEntry <$> rules;
     ps_Idempotency := entries |}.

(** The loop over the rules: an expired one is skipped. *)
Fixpoint restore_rules (now : time) (rules : list privateControlPersistentRule) (sa : option serviceAdmissionState)
    : option (option serviceAdmissionState) :=
  match rules with
  | [] => Some sa
  | rule :: rest =>
      target ← persistentRuleTarget rule;
      let denyUntil := Unix (pr_DenyUntil rule) in
      if negb (After denyUntil now) then restore_rules now rest sa
      else
        let '(installed, sa) := installRevocation sa target denyUntil now in
        if negb installed then None else restore_rules now rest sa
  end.

Fixpoint restore_entries (now : time) (entries : list privateControlPersistentIdempotency)
    (idem : gmap (string * list Z) privateControlIdempotencyEntry) : option (gmap (string * list Z) privateControlIdempotencyEntry) :=
  match entries with
  | [] => Some idem
  | p :: rest =>
      if negb (managedServiceIDPattern (pi_ManagementServiceID p)) || negb (validPrivateControlID (pi_MessageID p))
         || negb (validPrivateControlAck (pi_Ack p)) || negb (bytes_eqb (ak_InReplyTo (pi_Ack p)) (pi_MessageID p))
         || (pi_ExpiresAt p <=? toUnix now) then None
      else
        bodyHash ← decodePersistentBodyHash (pi_BodySHA256 p);
        let key := (pi_ManagementServiceID p, pi_MessageID p) in
        if bool_decide (is_Some (idem !! key)) then None
        else
          let entry := {| ie_bodyHash := bodyHash; ie_ack := Some (pi_Ack p); ie_expiresAt := Unix (pi_ExpiresAt p);
                          ie_completed := true |} in
          restore_entries now rest (<[key := entry]> idem)
  end.

(** [restorePersistentState] of a configured file; [None] is the error the start
    fails with. *)
Definition restorePersistentState `{PrivateStateJSON} (file : option (list Z)) (now : time)
    (sa : option serviceAdmissionState) (l : privateControlLink) : option (option serviceAdmissionState * privateControlLink) :=
  state ← loadPrivateControlPersistentState file;
  if negb (len (ps_Rules state) =? 0) && negb (bool_decide (is_Some sa)) then None
  else
    sa ← restore_rules now (ps_Rules state) sa;
    idem ← restore_entries now (ps_Idempotency state) (pl_idempotency l);
    Some (sa, with_control l (pl_failures l) idem).

(** ** Lemmas *)

Lemma grant_hash_roundtrip h : bytes_ok h -> length h = 32%nat ->
  decodePrivateControlGrantIDHash (RawURL_Encode h) = Some (Some h).
Proof.
  intros Hok Hl. unfold decodePrivateControlGrantIDHash, bytes_eqb. rewrite bool_decide_eq_false_2.
  - rewrite RawURL_Decode_Encode by done. cbn [mbind option_bind]. unfold len. rewrite Hl.
    by rewrite bool_decide_eq_true_2.
  - intros E. by destruct h as [|? [|? [|]]].
Qed.

Lemma body_hash_roundtrip h : bytes_ok h -> length h = 32%nat -> decodePersistentBodyHash (RawURL_Encode h) = Some h.
Proof.
  intros Hok Hl. unfold decodePersistentBodyHash, bytes_eqb. rewrite RawURL_Decode_Encode by done.
  cbn [mbind option_bind]. unfold len. rewrite Hl. by rewrite bool_decide_eq_true_2.
Qed.

(** A deny rule as a revocation of the link installs it: its target is valid and
    it ends at a whole second that JSON carries. *)
Definition rule_storable (rule : serviceAdmissionDenyRule) (expiresAt : time) : Prop :=
  (dr_serviceID rule = EmptyString \/ managedServiceIDPattern (dr_serviceID rule) = true) /\
  (if dr_hasGrantIDHash rule then bytes_ok (dr_grantIDHash rule) /\ length (dr_grantIDHash rule) = 32%nat
   else dr_grantIDHash rule = zeros 32 /\ dr_serviceID rule <> EmptyString) /\
  exists k, 1 <= k <= privateControlMaxJSONInteger /\ expiresAt = Unix k.

Definition rule_target (rule : serviceAdmissionDenyRule) : serviceAdmissionRevocationTarget :=
  {| rt_channelID := dr_channelID rule; rt_serviceID := dr_serviceID rule;
     rt_grantIDHash := if dr_hasGrantIDHash rule then Some (dr_grantIDHash rule) else None |}.

Lemma rule_roundtrip rule e :
  rule_storable rule e ->
  persistentRuleTarget (privateControlPersistentRuleFromEntry {| de_rule := rule; de_expiresAt := e |}) = Some (rule_target rule) /\
  denyRule (rule_target rule) = rule /\
  Unix (pr_DenyUntil (privateControlPersistentRuleFromEntry {| de_rule := rule; de_expiresAt := e |})) = e /\
  (String.eqb (dr_serviceID rule) "" && match rt_grantIDHash (rule_target rule) with None => true | _ => false end) = false.
Proof.
  intros (Hid & Hhash & k & Hk & ->). unfold persistentRuleTarget, privateControlPersistentRuleFromEntry, rule_target.
  unfold privateControlMaxJSONInteger in *. cbn [pr_DenyUntil pr_ServiceID pr_GrantIDHash pr_ChannelID de_rule de_expiresAt].
  rewrite toUnix_Unix by lia. rewrite (proj2 (Z.ltb_ge k 1)), (proj2 (Z.ltb_ge _ k)) by lia. cbn [orb].
  assert (negb (String.eqb (dr_serviceID rule) "") && negb (managedServiceIDPattern (dr_serviceID rule)) = false) as ->.
  { destruct Hid as [-> | ->]; [done|]. cbn. by rewrite andb_false_r. }
  destruct rule as [ch sid h has]. cbn in *. destruct has.
  - destruct Hhash as [Hok Hl]. rewrite grant_hash_roundtrip by done. rewrite andb_false_r. by rewrite andb_false_r.
  - destruct Hhash as [-> Hne]. apply String.eqb_neq in Hne. rewrite Hne. done.
Qed.

(** Installing a rule that is not there, on rules that are all alive. *)
Lemma install_new a target until now :
  now < until -> (String.eqb (rt_serviceID target) "" && match rt_grantIDHash target with None => true | _ => false end) = false ->
  map_Forall (fun _ e => now < e) (sv_denied a) -> sv_denied a !! denyRule target = None ->
  Z.of_nat (size (sv_denied a)) < 1024 ->
  exists a', installRevocation (Some a) target until now = (true, Some a') /\
    sv_denied a' = <[denyRule target := until]> (sv_denied a).
Proof.
  intros Hn Ht Hlive Hnew Hsize. unfold installRevocation. rewrite Ht. unfold After.
  rewrite (proj2 (Z.ltb_lt _ _)) by done. cbn [negb orb]. cbv zeta.
  assert (sv_denied (service_cleanupLocked now a) = sv_denied a) as Hc by (apply purge_live; exact Hlive).
  rewrite Hc, Hnew. unfold maxServiceAdmissionDenyRules. rewrite (proj2 (Z.leb_gt _ _)) by done.
  eexists. split; [reflexivity|]. cbn [sv_denied set_service]. by rewrite <- Hc.
Qed.

Lemma restore_rules_spec now (kvs : list (serviceAdmissionDenyRule * time)) : forall a,
  NoDup kvs.*1 -> Forall (fun kv => rule_storable (kv.1) (kv.2)) kvs ->
  map_Forall (fun _ e => now < e) (sv_denied a) -> Forall (fun kv => sv_denied a !! kv.1 = None) kvs ->
  Z.of_nat (size (sv_denied a)) + len kvs <= 1024 ->
  exists a', restore_rules now ((fun kv => privateControlPersistentRuleFromEntry {| de_rule := kv.1; de_expiresAt := kv.2 |}) <$> kvs) (Some a)
    = Some (Some a') /\
    forall rule, sv_denied a' !! rule =
      match (list_to_map kvs : gmap _ time) !! rule with
      | Some e => if now <? e then Some e else None
      | None => sv_denied a !! rule
      end.
Proof.
  induction kvs as [|[rule e] kvs IH]; intros a Hnd Hok Hlive Hnew Hsize; [by exists a|].
  apply NoDup_cons in Hnd as [Hni Hnd]. apply Forall_cons in Hok as [Hr Hok]. apply Forall_cons in Hnew as [Hn Hnew].
  cbn in Hr, Hn, Hni. destruct (rule_roundtrip rule e Hr) as (Et & Ed & Eu & Eb).
  assert (len ((rule, e) :: kvs) = len kvs + 1) as Hlen by (unfold len; simpl; lia).
  cbn [fmap list_fmap restore_rules]. cbn [fst snd]. rewrite Et. cbn [mbind option_bind]. cbv zeta. rewrite Eu.
  assert (list_to_map kvs !! rule = @None time) as Hmap by by apply not_elem_of_list_to_map_1.
  pose proof (len_nonneg kvs).
  destruct (now <? e) eqn:Ee; unfold After; rewrite Ee; gobool; cbn [negb].
  - destruct (install_new a (rule_target rule) e now) as (a1 & E1 & Hd1); try done; [by rewrite Ed|lia|].
    rewrite E1. cbn [negb]. rewrite Ed in Hd1.
    destruct (IH a1) as (a' & E' & Hd'); try done.
    + rewrite Hd1. by apply map_Forall_insert_2.
    + rewrite Forall_forall in Hnew |- *. intros [r e'] Hin. cbn. rewrite Hd1, lookup_insert_ne; [by apply (Hnew (r, e'))|].
      intros ->. apply Hni. apply list_elem_of_fmap. by exists (r, e').
    + rewrite Hd1, map_size_insert_None by done. lia.
    + exists a'. split; [exact E'|]. intros r. rewrite Hd', Hd1. cbn. destruct (decide (rule = r)) as [<-|Hne].
      * rewrite Hmap, !lookup_insert_eq. by rewrite (proj2 (Z.ltb_lt _ _)).
      * by rewrite !lookup_insert_ne.
  - destruct (IH a) as (a' & E' & Hd'); try done; [lia|]. exists a'. split; [exact E'|]. intros r. rewrite Hd'. cbn.
    destruct (decide (rule = r)) as [<-|Hne].
    + rewrite Hmap, lookup_insert_eq. rewrite (proj2 (Z.ltb_ge _ _)) by done. exact Hn.
    + by rewrite lookup_insert_ne.
Qed.

(** An acknowledged entry as a revocation of the link completes it. *)
Definition entry_storable (key : string * list Z) (entry : privateControlIdempotencyEntry) : Prop :=
  managedServiceIDPattern key.1 = true /\ validPrivateControlID key.2 = true /\
  bytes_ok (ie_bodyHash entry) /\ length (ie_bodyHash entry) = 32%nat /\
  forall ack, ie_ack entry = Some ack -> validPrivateControlAck ack = true /\ ak_InReplyTo ack = key.2.

(** What an entry is after a restart: completed, and cut to its second. *)
Definition restored (entry : privateControlIdempotencyEntry) : privateControlIdempotencyEntry :=
  {| ie_bodyHash := ie_bodyHash entry; ie_ack := ie_ack entry; ie_expiresAt := Unix (toUnix (ie_expiresAt entry));
     ie_completed := true |}.

(** The acknowledgements the file keeps: stored and not over. *)
Definition kept_entry (now : time) (entry : privateControlIdempotencyEntry) : bool :=
  bool_decide (is_Some (ie_ack entry)) && (now <? ie_expiresAt entry).

Lemma restore_entries_spec now now' (kvs : list ((string * list Z) * privateControlIdempotencyEntry)) : forall idem,
  NoDup kvs.*1 -> Forall (fun kv => idem !! kv.1 = None) kvs ->
  Forall (fun kv => kept_entry now kv.2 = true -> entry_storable kv.1 kv.2 /\ toUnix now' < toUnix (ie_expiresAt kv.2)) kvs ->
  restore_entries now' (omap (persistent_entry now) kvs) idem =
    Some ((restored <$> (list_to_map (filter (fun kv => kept_entry now kv.2 = true) kvs) : gmap _ _)) ∪ idem).
Proof.
  induction kvs as [|[key entry] kvs IH]; intros idem Hnd Hnew Hok; [cbn; by rewrite fmap_empty, map_empty_union|].
  apply NoDup_cons in Hnd as [Hni Hnd]. apply Forall_cons in Hok as [Hr Hok]. apply Forall_cons in Hnew as [Hn Hnew].
  cbn in Hr, Hn, Hni. cbn [omap list_omap]. unfold persistent_entry at 1. cbn [fst snd].
  rewrite filter_cons. cbn [fst snd]. destruct (kept_entry now entry) eqn:Ek.
  2:{ rewrite decide_False by done. unfold kept_entry in Ek. destruct (ie_ack entry) as [ack|] eqn:Eack; [|by apply IH].
      cbn in Ek. unfold After. rewrite Ek. by apply IH. }
  rewrite decide_True by done. destruct (Hr eq_refl) as [(H1 & H2 & H3 & H4 & H5) Hlate].
  unfold kept_entry in Ek. apply andb_true_iff in Ek as [Eack Ee]. apply bool_decide_eq_true in Eack as [ack Eack].
  rewrite Eack. destruct (H5 _ Eack) as [H6 H7]. unfold After. rewrite Ee.
  cbn [negb restore_entries pi_ManagementServiceID pi_MessageID pi_Ack pi_ExpiresAt pi_BodySHA256]. rewrite H1, H2, H6. cbn [negb orb].
  unfold bytes_eqb. rewrite bool_decide_eq_true_2 by done. rewrite (proj2 (Z.leb_gt _ _)) by done. cbn [negb orb].
  rewrite body_hash_roundtrip by done. cbn [mbind option_bind]. cbv zeta.
  assert ((key.1, key.2) = key) as -> by by destruct key. rewrite Hn. rewrite bool_decide_eq_false_2 by by intros [].
  rewrite IH; try done.
  - f_equal. apply map_eq. intros k. cbn [list_to_map foldr].
    rewrite !lookup_union, !lookup_fmap. cbn [fst snd]. destruct (decide (key = k)) as [<-|Hne]; [|by rewrite !lookup_insert_ne].
    rewrite !lookup_insert_eq, Hn. rewrite not_elem_of_list_to_map_1; [cbn; unfold restored; by rewrite Eack|].
    intros Hin. apply Hni. apply list_elem_of_fmap in Hin as (x & -> & Hx). apply list_elem_of_filter in Hx as [_ Hx].
    apply list_elem_of_fmap. by exists x.
  - rewrite Forall_forall in Hnew |- *. intros [k en] Hin. cbn. rewrite lookup_insert_ne; [by apply (Hnew (k, en))|].
    intros ->. apply Hni. apply list_elem_of_fmap. by exists (k, en).
Qed.

(** ** Restart *)

Section restart.
Context `{RangeOrder} `{PrivateStateJSON}.

(** [persistStateSnapshot]: what a link and a service admission leave in the file. *)
Definition persistentStateSnapshot (now : time) (a : serviceAdmissionState) (l : privateControlLink)
    : privateControlPersistentState :=
  persistent_state (activeDenyRules (Some a) now).1 (snapshot_idempotency now l).1.

Lemma kept_survives_cleanup now l key entry :
  kept_entry now entry = true ->
  pl_idempotency (cleanupIdempotencyLocked now l) !! key = Some entry <-> pl_idempotency l !! key = Some entry.
Proof.
  intros Hk. apply andb_true_iff in Hk as [Ha He]. cbn. rewrite map_lookup_filter_Some. split; [by intros []|].
  intros Hl. split; [done|]. cbn. unfold entry_kept, After. rewrite He. cbn. by rewrite andb_false_r.
Qed.

Lemma ranged_map {K} `{Countable K} {A} (m : gmap K A) : (list_to_map (range m) : gmap K A) = m.
Proof.
  transitivity (list_to_map (map_to_list m) : gmap K A); [|apply list_to_map_to_list].
  apply list_to_map_proper; [|by apply range_perm]. rewrite (range_perm m). apply NoDup_fst_map_to_list.
Qed.

Lemma range_NoDup {K} `{Countable K} {A} (m : gmap K A) : NoDup (range m).*1.
Proof. rewrite (range_perm m). apply NoDup_fst_map_to_list. Qed.

Lemma range_in {K} `{Countable K} {A} (m : gmap K A) kv : kv ∈ range m <-> m !! kv.1 = Some kv.2.
Proof. rewrite (range_perm m). destruct kv. apply elem_of_map_to_list. Qed.

Lemma range_len {K} `{Countable K} {A} (m : gmap K A) : len (range m) = Z.of_nat (size m).
Proof. unfold len. by rewrite (range_perm m), length_map_to_list. Qed.

Lemma filtered_map {K} `{Countable K} {A} (P : K * A -> Prop) `{forall x, Decision (P x)} (m : gmap K A) key :
  (list_to_map (filter P (range m)) : gmap K A) !! key = (filter P m) !! key.
Proof.
  apply option_eq. intros v. rewrite map_lookup_filter_Some.
  assert (NoDup (filter P (range m)).*1) as Hnd.
  { eapply sublist_NoDup; [apply (range_NoDup m)|]. apply fmap_sublist, sublist_filter. }
  rewrite <- elem_of_list_to_map by done. rewrite list_elem_of_filter, range_in. naive_solver.
Qed.

(** What [restorePersistentState] makes of a state written by the link. *)
Lemma restore_snapshot now now' a l a0 l0 raw :
  decode_state raw = Some (persistentStateSnapshot now a l) ->
  map_Forall rule_storable (purge (fun e => e) now (sv_denied a)) ->
  map_Forall (fun key entry => kept_entry now entry = true -> entry_storable key entry /\ toUnix now' < toUnix (ie_expiresAt entry))
    (pl_idempotency l) ->
  Z.of_nat (size (sv_denied a)) <= 1024 -> sv_denied a0 = ∅ -> pl_idempotency l0 = ∅ ->
  exists a' l', restorePersistentState (Some raw) now' (Some a0) l0 = Some (Some a', l') /\
    (forall rule, sv_denied a' !! rule = (e ← sv_denied a !! rule; if (now <? e) && (now' <? e) then Some e else None)) /\
    (forall key, pl_idempotency l' !! key =
       (entry ← pl_idempotency l !! key; if kept_entry now entry then Some (restored entry) else None)).
Proof.
  intros Hraw Hrules Hentries Hsize Ha0 Hl0. unfold restorePersistentState. cbn [loadPrivateControlPersistentState].
  rewrite Hraw. cbn [mbind option_bind]. rewrite String.eqb_refl. cbn [negb mbind option_bind].
  unfold persistentStateSnapshot, persistent_state, snapshot_idempotency. cbn [ps_Rules ps_Idempotency fst activeDenyRules].
  set (rs := range (sv_denied (service_cleanupLocked now a))).
  assert (privateControlPersistentRuleFromEntry <$> ((λ '(rule, e), {| de_rule := rule; de_expiresAt := e |}) <$> rs)
    = (fun kv => privateControlPersistentRuleFromEntry {| de_rule := kv.1; de_expiresAt := kv.2 |}) <$> rs) as ->.
  { rewrite <- list_fmap_compose. apply list_fmap_ext. intros _ [] _. done. }
  rewrite (bool_decide_eq_true_2 (is_Some (Some a0))) by by eexists. rewrite andb_false_r.
  assert (sv_denied (service_cleanupLocked now a) = purge (fun e => e) now (sv_denied a)) as Hc by done.
  destruct (restore_rules_spec now' rs a0) as (a' & -> & Hd).
  - apply range_NoDup.
  - apply Forall_forall. intros kv Hkv. apply range_in in Hkv. rewrite Hc in Hkv. by apply (Hrules kv.1).
  - by rewrite Ha0.
  - apply Forall_forall. intros. by rewrite Ha0.
  - rewrite Ha0, map_size_empty. unfold rs. rewrite range_len, Hc. pose proof (size_purge (fun e => e) now (sv_denied a)). lia.
  - cbn [mbind option_bind]. rewrite Hl0, restore_entries_spec.
    + cbn [mbind option_bind]. eexists _, _. split; [reflexivity|]. split.
      * intros rule. rewrite Hd, Ha0, lookup_empty. unfold rs. rewrite ranged_map, Hc.
        destruct (sv_denied a !! rule) as [e|] eqn:E; cbn [mbind option_bind]; [|by rewrite lookup_purge_None].
        destruct (now <? e) eqn:Ee; gobool; [by rewrite (lookup_purge_live _ _ _ _ _ E)|].
        destruct (purge _ _ _ !! rule) eqn:Ep; [|done]. apply lookup_purge in Ep as [Ep ?]. rewrite E in Ep. injection Ep as <-. exfalso. lia.
      * intros key. cbn [pl_idempotency with_control]. rewrite map_union_empty, lookup_fmap, filtered_map.
        destruct (pl_idempotency l !! key) as [entry|] eqn:E; cbn [mbind option_bind].
        -- destruct (kept_entry now entry) eqn:Ek.
           ++ rewrite (proj2 (map_lookup_filter_Some _ _ _ entry)); [done|]. split; [|done]. by apply kept_survives_cleanup.
           ++ rewrite (proj2 (map_lookup_filter_None _ _ _)); [done|]. right. cbn. intros x Hx.
              apply map_lookup_filter_Some in Hx as [Hx _]. rewrite E in Hx. injection Hx as <-. by rewrite Ek.
        -- rewrite (proj2 (map_lookup_filter_None _ _ _)); [done|]. left. apply map_lookup_filter_None. by left.
    + apply range_NoDup.
    + apply Forall_forall. intros. apply lookup_empty.
    + apply Forall_forall. intros kv Hkv Hk. apply range_in in Hkv. apply kept_survives_cleanup in Hkv; [|done].
      by apply (Hentries kv.1).
Qed.
End restart.

(** ** An instance

    A state is encoded as one number; every state round-trips. *)

#[export] Instance ack_eq : EqDecision privateControlAck.
Proof. solve_decision. Defined.
#[export] Instance persistent_rule_eq : EqDecision privateControlPersistentRule.
Proof. solve_decision. Defined.
#[export] Instance persistent_idempotency_eq : EqDecision privateControlPersistentIdempotency.
Proof. solve_decision. Defined.
#[export] Instance persistent_state_eq : EqDecision privateControlPersistentState.
Proof. solve_decision. Defined.

#[export, refine] Instance ack_countable : Countable privateControlAck :=
  inj_countable' (fun a => (ak_SchemaVersion a, ak_Type a, ak_MessageID a, ak_InReplyTo a, ak_Outcome a, ak_DenyUntil a,
                            ak_AffectedMembershipCount a, ak_TalkReleaseCount a))
    (fun '(v, t, m, r, o, d, n, k) => {| ak_SchemaVersion := v; ak_Type := t; ak_MessageID := m; ak_InReplyTo := r; ak_Outcome := o;
       ak_DenyUntil := d; ak_AffectedMembershipCount := n; ak_TalkReleaseCount := k |}) _.
Proof. by intros []. Defined.
#[export, refine] Instance persistent_rule_countable : Countable privateControlPersistentRule :=
  inj_countable' (fun r => (pr_ChannelID r, pr_ServiceID r, pr_GrantIDHash r, pr_DenyUntil r))
    (fun '(c, s, g, d) => {| pr_ChannelID := c; pr_ServiceID := s; pr_GrantIDHash := g; pr_DenyUntil := d |}) _.
Proof. by intros []. Defined.
#[export, refine] Instance persistent_idempotency_countable : Countable privateControlPersistentIdempotency :=
  inj_countable' (fun p => (pi_ManagementServiceID p, pi_MessageID p, pi_BodySHA256 p, pi_Ack p, pi_ExpiresAt p))
    (fun '(s, m, b, a, e) => {| pi_ManagementServiceID := s; pi_MessageID := m; pi_BodySHA256 := b; pi_Ack := a; pi_ExpiresAt := e |}) _.
Proof. by intros []. Defined.
#[export, refine] Instance persistent_state_countable : Countable privateControlPersistentState :=
  inj_countable' (fun s => (ps_SchemaVersion s, ps_Rules s, ps_Idempotency s))
    (fun '(v, r, i) => {| ps_SchemaVersion := v; ps_Rules := r; ps_Idempotency := i |}) _.
Proof. by intros []. Defined.

Definition number_json : PrivateStateJSON :=
  {| marshal_state := fun st => Some [Zpos (encode st)];
     decode_state := fun raw => match raw with [Zpos p] => decode p | _ => None end |}.

Lemma number_json_roundtrip st raw :
  @marshal_state number_json st = Some raw -> @decode_state number_json raw = Some st.
Proof. intros [= <-]. apply countable.decode_encode. Qed.
