(* ===== verification/StateFile.v ===== *)
(** * The state file on the disk

    [writePrivateControlPersistentState] of [private_control_state.go] call by call, on a
    directory whose changes reach the disk late: a crash keeps of every name one of the
    entries it had since the directory was last synchronised, and of a file that was not
    synchronised any content.  The write is atomic under a crash, and it is the operation
    [writePrivateControlPersistentState] of [PrivateState] otherwise. *)

From S2P Require Import Prelude Identity PrivateControl PrivateState.

Open Scope eff_scope.

(** ** A directory *)

Record inode := { in_data : list Z; in_mode : Z; in_synced : bool }.

(** The entries a name had since the last synchronisation, the newest first: [None] is
    no file. *)
Record disk := { dk_inodes : gmap nat inode; dk_names : gmap string (list (option nat)) }.

Definition entries (d : disk) (name : string) : list (option nat) := default [] (dk_names d !! name).
Definition entry (d : disk) (name : string) : option nat := default None (head (entries d name)).

(** The content of a file now. *)
Definition file_content (d : disk) (name : string) : option (list Z) := ino ← entry d name; in_data <$> dk_inodes d !! ino.

Definition set_inodes (d : disk) (inodes : gmap nat inode) : disk := {| dk_inodes := inodes; dk_names := dk_names d |}.
Definition set_entry (d : disk) (name : string) (ino : option nat) : disk :=
  {| dk_inodes := dk_inodes d; dk_names := <[name := ino :: entries d name]> (dk_names d) |}.

(** [d'] is what a crash may leave of [d]: what is read after it is on the disk. *)
Record crashes (d d' : disk) : Prop := {
  cr_entries : forall name, entries d' name = [] /\ entries d name = [] \/
    exists e, entries d' name = [e] /\ e ∈ entries d name;
  cr_inode : forall ino, match dk_inodes d !! ino, dk_inodes d' !! ino with
                         | Some i, Some i' => in_synced i' = true /\ (in_synced i = true -> in_data i' = in_data i)
                         | None, None => True
                         | _, _ => False
                         end
}.

(** ** The system calls *)

Definition create (name : string) (ino : nat) (d : disk) : disk :=
  set_entry (set_inodes d (<[ino := {| in_data := []; in_mode := 0x180; in_synced := false |}]> (dk_inodes d))) name (Some ino).
Definition chmod (ino : nat) (mode : Z) (d : disk) : disk :=
  set_inodes d (alter (fun i => {| in_data := in_data i; in_mode := mode; in_synced := in_synced i |}) ino (dk_inodes d)).
Definition append (ino : nat) (data : list Z) (d : disk) : disk :=
  set_inodes d (alter (fun i => {| in_data := in_data i ++ data; in_mode := in_mode i; in_synced := false |}) ino (dk_inodes d)).
Definition fsync (ino : nat) (d : disk) : disk :=
  set_inodes d (alter (fun i => {| in_data := in_data i; in_mode := in_mode i; in_synced := true |}) ino (dk_inodes d)).
Definition rename (from to : string) (d : disk) : disk :=
  match entry d from with
  | None => d
  | Some ino => set_entry (set_entry d to (Some ino)) from None
  end.
Definition unlink (name : string) (d : disk) : disk :=
  match entry d name with None => d | Some _ => set_entry d name None end.
Definition fsync_directory (d : disk) : disk :=
  {| dk_inodes := dk_inodes d; dk_names := (fun es => take 1 es) <$> dk_names d |}.

(** Whether the [n]-th call succeeds, how much a failing write has written, and the name
    the call asks for. *)
Class DiskEnvironment := { call_ok : nat -> bool; written : nat -> nat; temp_suffix : nat -> string }.

(** The disk and the number of calls; the outputs are the disks a crash may find. *)
Abbreviation on_disk := (M (disk * nat) disk).

Section write.
Context `{DiskEnvironment}.

Definition syscall (good bad : nat -> disk -> disk) : on_disk bool :=
  fun '(d, n) => let d' := (if call_ok n then good else bad) n d in (call_ok n, (d', S n), [d']).
Definition same : nat -> disk -> disk := fun _ d => d.

(** One [OpenFile] with [O_EXCL] of [os.CreateTemp]: [None] when the name exists. *)
Definition temp_name (n : nat) : string := String.append ".private-control-state-" (temp_suffix n).
Definition open_temp : on_disk (option (option (string * nat))) :=
  fun '(d, n) =>
    let ino := fresh (dom (dk_inodes d)) in
    if negb (call_ok n) then (Some None, (d, S n), [d])
    else if bool_decide (entry d (temp_name n) = None)
    then let d' := create (temp_name n) ino d in (Some (Some (temp_name n, ino)), (d', S n), [d'])
    else (None, (d, S n), [d]).

(** [os.CreateTemp(directory, ".private-control-state-*")] makes a file of its own, and
    gives up after 10000 names that exist. *)
Fixpoint create_temp (tries : nat) : on_disk (option (string * nat)) :=
  match tries with
  | O => ret None
  | S tries =>
      let! opened := open_temp in
      match opened with
      | Some result => ret result
      | None => create_temp tries
      end
  end.
Definition CreateTemp : on_disk (option (string * nat)) := create_temp (Z.to_nat 10000).

(** From [Chmod] to [syncPrivateControlStateDirectory]; closing a file changes nothing. *)
Definition write_temporary (temporary : string) (ino : nat) (path : string) (encoded : list Z) : on_disk bool :=
  let! ok := syscall (fun _ => chmod ino 0x180) same in
  if negb ok then ret false
  else
    let! ok := syscall (fun _ => append ino encoded) (fun n => append ino (take (written n) encoded)) in
    if negb ok then ret false
    else
      let! ok := syscall (fun _ => fsync ino) same in
      if negb ok then ret false
      else
        let! ok := syscall same same in
        if negb ok then ret false
        else
          let! ok := syscall (fun _ => rename temporary path) same in
          if negb ok then ret false
          else syscall (fun _ => fsync_directory) same.

(** [true] is a nil error. *)
Definition write_state_file (path : string) (encoded : list Z) : on_disk bool :=
  let! ok := syscall same same in
  if negb ok then ret false
  else
    let! temporary := CreateTemp in
    match temporary with
    | None => ret false
    | Some (temporary, ino) =>
        let! done := write_temporary temporary ino path encoded in
        syscall (fun _ => unlink temporary) same ;;;
        ret done
    end.

Definition write_persistent_state `{PrivateStateJSON} (path : string) (state : privateControlPersistentState) : on_disk bool :=
  if blank path then ret false
  else match marshal_state state with None => ret false | Some encoded => write_state_file path encoded end.
End write.

(** ** Crashes *)

(** Every name refers to a file that exists. *)
Definition disk_ok (d : disk) : Prop := forall name ino, Some ino ∈ entries d name -> is_Some (dk_inodes d !! ino).

(** A crash leaves one of [P] at a path. *)
Definition survives (d : disk) (path : string) (P : option (list Z) -> Prop) : Prop :=
  forall d', crashes d d' -> P (file_content d' path).

Lemma crash_ok d d' : disk_ok d -> crashes d d' -> disk_ok d'.
Proof.
  intros Hok [Hn Hi] name ino Hin. specialize (Hi ino). destruct (Hn name) as [[E _]|(e & E & He)]; rewrite E in Hin; [by inversion Hin|].
  apply list_elem_of_singleton in Hin as <-. destruct (Hok _ _ He) as [i Ei]. rewrite Ei in Hi. by destruct (dk_inodes d' !! ino).
Qed.

Lemma entry_in d name ino : entry d name = Some ino -> Some ino ∈ entries d name.
Proof. unfold entry. destruct (entries d name) as [|e es]; [done|]. cbn. intros ->. by left. Qed.

(** A crash of [dv], seen as a crash of the disk before the write. *)
Definition rewound (d d' : disk) (path : string) : disk :=
  {| dk_inodes := map_imap (fun ino i => Some (default {| in_data := in_data i; in_mode := in_mode i; in_synced := true |} (dk_inodes d' !! ino))) (dk_inodes d);
     dk_names := <[path := entries d' path]> ((fun es => take 1 es) <$> dk_names d) |}.

(** The file a write makes: its content is on the disk. *)
Definition written_file (d : disk) (encoded : list Z) (e : option nat) : Prop :=
  exists ino i, e = Some ino /\ dk_inodes d !! ino = Some i /\ in_synced i = true /\ in_data i = encoded.

(** What a write has changed: no file of before, and at the path only a written file has
    been added. *)
Record changed (d : disk) (path : string) (encoded : list Z) (dv : disk) : Prop := {
  ch_inodes : dk_inodes d ⊆ dk_inodes dv;
  ch_path : forall e, e ∈ entries dv path -> e ∈ entries d path \/ written_file dv encoded e;
  ch_some : entries dv path = [] -> entries d path = []
}.

Section crash.
Context (d : disk) (path : string) (encoded : list Z).
Hypothesis Hok : disk_ok d.

Lemma rewound_crash dv d' : dk_inodes d ⊆ dk_inodes dv -> crashes dv d' ->
  entries d' path = [] /\ entries d path = [] \/ (exists e, entries d' path = [e] /\ e ∈ entries d path) ->
  crashes d (rewound d d' path) /\ file_content (rewound d d' path) path = file_content d' path.
Proof using Hok.
  intros Hi [_ Hc] He. assert (entries (rewound d d' path) path = entries d' path) as Ep.
  { unfold entries at 1, rewound. cbn. by rewrite lookup_insert_eq. }
  split; [constructor|].
  - intros name. destruct (decide (name = path)) as [->|Hn]; [by rewrite Ep|].
    unfold entries, rewound. cbn. rewrite lookup_insert_ne, lookup_fmap by done.
    destruct (dk_names d !! name) as [[|e es]|]; cbn; [by left|right|by left]. exists e. split; [done|by left].
  - intros ino. cbn. rewrite map_lookup_imap. destruct (dk_inodes d !! ino) as [i|] eqn:Ei; [|done]. cbn.
    specialize (Hc ino). rewrite (lookup_weaken _ _ _ _ Ei Hi) in Hc. by destruct (dk_inodes d' !! ino).
  - unfold file_content, entry. rewrite Ep. destruct He as [[-> _]|(e & -> & He)]; [done|]. destruct e as [ino|]; [|done].
    cbn. rewrite map_lookup_imap. destruct (Hok _ _ He) as [i Ei]. rewrite Ei. cbn. specialize (Hc ino).
    rewrite (lookup_weaken _ _ _ _ Ei Hi) in Hc. by destruct (dk_inodes d' !! ino).
Qed.

(** A file that was written survives. *)
Lemma written_content dv d' e : written_file dv encoded e -> crashes dv d' -> entries d' path = [e] -> file_content d' path = Some encoded.
Proof.
  intros (ino & i & -> & Ei & Hs & Ed) [_ Hc] E. unfold file_content, entry. rewrite E. cbn. specialize (Hc ino). rewrite Ei in Hc.
  destruct (dk_inodes d' !! ino) as [i'|]; [|done]. cbn. destruct Hc as [_ Hc]. by rewrite (Hc Hs), Ed.
Qed.

Lemma changed_survives dv P : changed d path encoded dv -> survives d path P ->
  survives dv path (fun c => P c \/ c = Some encoded).
Proof using Hok.
  intros [Hi Hp Hs] HP d' Hc.
  assert (entries d' path = [] /\ entries d path = [] \/ (exists e, entries d' path = [e] /\ e ∈ entries d path) -> P (file_content d' path)) as Hold.
  { intros He. destruct (rewound_crash dv d' Hi Hc He) as [Hcr <-]. by apply HP. }
  destruct (cr_entries _ _ Hc path) as [[E E']|(e & E & He)]; [left; apply Hold; by auto|].
  destruct (Hp e He) as [He'|Hw]; [left; apply Hold; by eauto|right; by eapply written_content].
Qed.

(** After the synchronisation of the directory only the new file is left. *)
Lemma synced_survives dv e : entries dv path = [e] -> written_file dv encoded e -> survives dv path (fun c => c = Some encoded).
Proof.
  intros Ep Hw d' Hc. destruct (cr_entries _ _ Hc path) as [[_ E]|(e' & E & He)]; rewrite Ep in *; [done|].
  apply list_elem_of_singleton in He as ->. by eapply written_content.
Qed.
End crash.

(** ** The calls of a write *)

(** [pre] before, [inv] at every crash, [post] after. *)
Definition triple {A} (pre inv : disk -> Prop) (m : on_disk A) (post : A -> disk -> Prop) : Prop :=
  forall d n, pre d -> Forall inv (outs m (d, n)) /\ post (result m (d, n)) (fst (final m (d, n))).

Lemma triple_bind {A B} pre inv (m : on_disk A) mid (f : A -> on_disk B) post :
  triple pre inv m mid -> (forall a, triple (mid a) inv (f a) post) -> triple pre inv (bind m f) post.
Proof.
  intros Hm Hf d n Hpre. destruct (Hm d n Hpre) as [Hi Hmid]. rewrite outs_bind, result_bind, final_bind.
  destruct (final m (d, n)) as [d' n'] eqn:E. destruct (Hf _ d' n' Hmid) as [Hi' Hpost]. split; [by apply Forall_app|done].
Qed.

Lemma triple_ret {A} pre inv (a : A) post : (forall d, pre d -> post a d) -> triple pre inv (ret a) post.
Proof. intros H d n Hpre. split; [constructor|by apply H]. Qed.

Section calls.
Context `{DiskEnvironment} (d : disk) (path : string) (encoded : list Z).

Lemma triple_syscall pre inv good bad post :
  (forall n dv, pre dv -> inv (good n dv) /\ post true (good n dv)) ->
  (forall n dv, pre dv -> inv (bad n dv) /\ post false (bad n dv)) -> triple pre inv (syscall good bad) post.
Proof.
  intros Hg Hb dv n Hpre. unfold outs, result, final, syscall. cbn.
  destruct (call_ok n); [destruct (Hg n dv Hpre)|destruct (Hb n dv Hpre)]; by repeat constructor.
Qed.

(** What a write leaves, [done] when it has returned no error. *)
Record left_by (done : bool) (dv : disk) : Prop := {
  lb_ok : disk_ok dv;
  lb_inodes : dk_inodes d ⊆ dk_inodes dv;
  lb_path : done = false /\ entries dv path = entries d path \/
    exists e, written_file dv encoded e /\
      (done = false /\ entries dv path = e :: entries d path \/ done = true /\ entries dv path = [e])
}.

Lemma left_changed done dv : left_by done dv -> changed d path encoded dv.
Proof.
  intros [_ Hi Hp]. constructor; [done|..]; destruct Hp as [[_ ->]|(e & He & [[_ ->]|[_ ->]])]; auto; try done.
  - intros e' Hin. apply elem_of_cons in Hin as [->|Hin]; auto.
  - intros e' Hin. apply list_elem_of_singleton in Hin as ->. auto.
Qed.

(** A call of the write: an error ends it with what it has left. *)
Lemma triple_call pre good bad (mid : disk -> Prop) (k : on_disk bool) :
  (forall n dv, pre dv -> left_by false (good n dv) /\ mid (good n dv)) ->
  (forall n dv, pre dv -> left_by false (bad n dv)) -> triple mid (changed d path encoded) k left_by ->
  triple pre (changed d path encoded) (let! ok := syscall good bad in if negb ok then ret false else k) left_by.
Proof.
  intros Hg Hb Hk. eapply (triple_bind _ _ _ (fun (ok : bool) dv => if ok then mid dv else left_by false dv)).
  - apply triple_syscall; intros n dv Hpre.
    + destruct (Hg n dv Hpre). split; [by eapply left_changed|done].
    + split; [eapply left_changed|]; by apply Hb.
  - intros []; [exact Hk|by apply triple_ret].
Qed.

(** The temporary file is there and the path as before. *)
Record writing (temporary : string) (ino : nat) (i : inode) (dv : disk) : Prop := {
  wr_ok : disk_ok dv;
  wr_inodes : dk_inodes dv = <[ino := i]> (dk_inodes d);
  wr_entry : entry dv temporary = Some ino;
  wr_path : entries dv path = entries d path
}.

Lemma entries_set dv name ino name' :
  entries (set_entry dv name ino) name' = if decide (name = name') then ino :: entries dv name else entries dv name'.
Proof.
  unfold entries at 1. cbn. destruct (decide (name = name')) as [->|Hn]; [by rewrite lookup_insert_eq|by rewrite lookup_insert_ne].
Qed.

Lemma set_entry_ok dv name e : disk_ok dv -> (forall ino, e = Some ino -> is_Some (dk_inodes dv !! ino)) -> disk_ok (set_entry dv name e).
Proof.
  intros Hok He name' ino. rewrite entries_set. destruct (decide _) as [<-|_]; [|by apply Hok].
  intros Hin. apply elem_of_cons in Hin as [Hin|Hin]; [by apply He|by eapply Hok].
Qed.

Section temporary.
Context (temporary : string) (ino : nat).
Hypothesis Hnew : dk_inodes d !! ino = None.
Hypothesis Htmp : temporary <> path.

Lemma writing_left i dv : writing temporary ino i dv -> left_by false dv.
Proof using Hnew.
  intros [Hok Hi _ Hp]. constructor; [done| |by left]. rewrite Hi. by apply insert_subseteq.
Qed.

(** [Chmod], [Write] and [Sync] change the new file alone. *)
Lemma writing_alter i f i' dv : writing temporary ino i dv -> f i = i' -> writing temporary ino i' (set_inodes dv (alter f ino (dk_inodes dv))).
Proof.
  intros [Hok Hi He Hp] <-. constructor; [|cbn|done..].
  - intros name k Hin. cbn. destruct (Hok name k Hin) as [i' Ei']. destruct (decide (ino = k)) as [<-|Hn].
    + rewrite lookup_alter_eq, Ei'. by eexists.
    + rewrite lookup_alter_ne by done. by eexists.
  - rewrite Hi. apply map_eq. intros k. destruct (decide (ino = k)) as [<-|Hn].
    + by rewrite lookup_alter_eq, !lookup_insert_eq.
    + by rewrite lookup_alter_ne, !lookup_insert_ne by done.
Qed.

Lemma rename_left i dv : writing temporary ino i dv -> in_synced i = true -> in_data i = encoded ->
  let dv' := rename temporary path dv in
  left_by false dv' /\ entries dv' path = Some ino :: entries d path /\ written_file dv' encoded (Some ino).
Proof using Hnew Htmp.
  intros Hw Hs Hd. pose proof (writing_left _ _ Hw) as [_ Hle _]. destruct Hw as [Hok Hi He Hp]. unfold rename. rewrite He. cbv zeta.
  assert (written_file (set_entry (set_entry dv path (Some ino)) temporary None) encoded (Some ino)) as Hf.
  { exists ino, i. cbn. rewrite Hi, lookup_insert_eq. auto. }
  assert (entries (set_entry (set_entry dv path (Some ino)) temporary None) path = Some ino :: entries d path) as E.
  { rewrite entries_set, decide_False, entries_set, decide_True by done. by rewrite Hp. }
  split; [|by split]. constructor; [|exact Hle|right; exists (Some ino); auto].
  apply set_entry_ok; [|done]. apply set_entry_ok; [done|]. intros k [= <-]. by apply (Hok temporary), entry_in.
Qed.

Lemma unlink_left done dv : left_by done dv -> left_by done (unlink temporary dv).
Proof using Htmp.
  intros Hl. unfold unlink. destruct (entry dv temporary); [|done]. destruct Hl as [Hok Hi Hp].
  constructor; [by apply set_entry_ok|done|]. by rewrite entries_set, decide_False.
Qed.

Lemma fsync_left dv : left_by false dv -> entries dv path = Some ino :: entries d path -> written_file dv encoded (Some ino) ->
  left_by true (fsync_directory dv).
Proof.
  intros [Hok Hi _] E Hf. assert (forall name, entries (fsync_directory dv) name = take 1 (entries dv name)) as Et.
  { intros name. unfold entries, fsync_directory. cbn. rewrite lookup_fmap. by destruct (dk_names dv !! name). }
  constructor; [|done|right; exists (Some ino); split; [done|right; by rewrite Et, E]].
  intros name k Hin. rewrite Et in Hin. apply (Hok name). by eapply elem_of_take in Hin as (j & Hj & _); apply list_elem_of_lookup; eauto.
Qed.
End temporary.
End calls.

(** ** The write *)

Section write_proof.
Context `{DiskEnvironment} (d : disk) (path : string) (encoded : list Z).
Hypothesis Hok : disk_ok d.
Hypothesis Hpath : forall n, path <> temp_name n.

Lemma unchanged_left : left_by d path encoded false d.
Proof using Hok. constructor; [done..|by left]. Qed.

Lemma write_temporary_triple temporary ino i : dk_inodes d !! ino = None -> temporary <> path -> in_data i = [] ->
  triple (writing d path temporary ino i) (changed d path encoded) (write_temporary temporary ino path encoded) (left_by d path encoded).
Proof.
  intros Hnew Htmp Hi. unfold write_temporary.
  set (i1 := {| in_data := in_data i; in_mode := 0x180; in_synced := in_synced i |}).
  set (i2 := {| in_data := in_data i ++ encoded; in_mode := 0x180; in_synced := false |}).
  set (i3 := {| in_data := in_data i ++ encoded; in_mode := 0x180; in_synced := true |}).
  apply (triple_call _ _ _ _ _ _ (writing d path temporary ino i1)).
  { intros n dv Hw. split; [eapply writing_left; [done|]|]; by eapply writing_alter. }
  { intros n dv Hw. by eapply writing_left. }
  apply (triple_call _ _ _ _ _ _ (writing d path temporary ino i2)).
  { intros n dv Hw. split; [eapply writing_left; [done|]|]; by eapply writing_alter. }
  { intros n dv Hw. eapply writing_left; [done|]. by eapply writing_alter. }
  apply (triple_call _ _ _ _ _ _ (writing d path temporary ino i3)).
  { intros n dv Hw. split; [eapply writing_left; [done|]|]; by eapply writing_alter. }
  { intros n dv Hw. by eapply writing_left. }
  apply (triple_call _ _ _ _ _ _ (writing d path temporary ino i3)).
  { intros n dv Hw. split; [by eapply writing_left|done]. }
  { intros n dv Hw. by eapply writing_left. }
  apply (triple_call _ _ _ _ _ _ (fun dv => left_by d path encoded false dv /\ entries dv path = Some ino :: entries d path /\
                                             written_file dv encoded (Some ino))).
  { intros n dv Hw. assert (in_data i3 = encoded) as E by (cbn; by rewrite Hi).
    destruct (rename_left d path encoded temporary ino Hnew Htmp i3 dv Hw eq_refl E) as (? & ? & ?). auto. }
  { intros n dv Hw. by eapply writing_left. }
  apply triple_syscall; intros n dv (Hl & E & Hf).
  - split; [eapply left_changed|]; by eapply fsync_left.
  - split; [by eapply left_changed|done].
Qed.

Lemma create_writing n : entry d (temp_name n) = None ->
  writing d path (temp_name n) (fresh (dom (dk_inodes d))) {| in_data := []; in_mode := 0x180; in_synced := false |}
    (create (temp_name n) (fresh (dom (dk_inodes d))) d).
Proof using Hok Hpath.
  intros _. set (ino := fresh _). unfold create. constructor; [|done|..].
  - apply set_entry_ok.
    + intros name k Hin. cbn. destruct (Hok name k Hin) as [i Ei]. destruct (decide (ino = k)) as [<-|Hn].
      * rewrite lookup_insert_eq. by eexists.
      * rewrite lookup_insert_ne by done. by eexists.
    + intros k [= <-]. cbn. rewrite lookup_insert_eq. by eexists.
  - unfold entry. by rewrite entries_set, decide_True.
  - rewrite entries_set, decide_False; [done|]. intros E. by apply (Hpath n).
Qed.

Lemma create_temp_triple tries :
  let ino := fresh (dom (dk_inodes d)) in
  triple (eq d) (changed d path encoded) (create_temp tries) (fun t dv => match t with
    | None => left_by d path encoded false dv
    | Some (temporary, ino') => ino' = ino /\ temporary <> path /\
        writing d path temporary ino {| in_data := []; in_mode := 0x180; in_synced := false |} dv
    end).
Proof using Hok Hpath.
  cbv zeta. assert (dk_inodes d !! fresh (dom (dk_inodes d)) = None) as Hnew by (apply not_elem_of_dom; apply is_fresh).
  induction tries as [|tries IH]; cbn [create_temp]; [apply triple_ret; intros dv <-; apply unchanged_left|].
  apply (triple_bind _ _ _ (fun t dv => match t with
    | None => d = dv
    | Some None => left_by d path encoded false dv
    | Some (Some (temporary, ino')) => ino' = fresh (dom (dk_inodes d)) /\ temporary <> path /\
        writing d path temporary (fresh (dom (dk_inodes d))) {| in_data := []; in_mode := 0x180; in_synced := false |} dv
    end)).
  - intros dv n <-. unfold outs, result, final, open_temp. destruct (call_ok n); cbn [negb].
    2:{ split; [constructor; [|done]; by apply (left_changed _ _ _ false), unchanged_left|apply unchanged_left]. }
    case_bool_decide as E; cbn [fst snd].
    + pose proof (create_writing n E) as Hw. assert (temp_name n <> path) as Hn by (intros E'; by apply (Hpath n)).
      split; [constructor; [|constructor]|cbn; by split_and!].
      eapply left_changed, writing_left; [|exact Hw]. done.
    + split; [constructor; [|constructor]; by apply (left_changed _ _ _ false), unchanged_left|done].
  - intros [[[temporary ino']|]|]; [apply triple_ret; intros dv Hd; exact Hd..|exact IH].
Qed.

Lemma write_state_file_triple : triple (eq d) (changed d path encoded) (write_state_file path encoded) (left_by d path encoded).
Proof using Hok Hpath.
  unfold write_state_file. apply (triple_call _ _ _ _ _ _ (eq d)); [intros n dv <-; split; [apply unchanged_left|done]|intros n dv <-; apply unchanged_left|].
  assert (dk_inodes d !! fresh (dom (dk_inodes d)) = None) as Hnew by (apply not_elem_of_dom; apply is_fresh).
  apply (triple_bind _ _ _ _ _ _ (create_temp_triple (Z.to_nat 10000))).
  intros [[temporary ino']|]; [|by apply triple_ret]. intros dv n (-> & Htmp & Hw).
  refine (triple_bind _ _ _ _ _ _ (write_temporary_triple temporary _
    {| in_data := []; in_mode := 0x180; in_synced := false |} Hnew Htmp eq_refl) _ dv n Hw).
  intros done. apply (triple_bind _ _ _ (fun _ => left_by d path encoded done)); [|by intros; apply triple_ret].
  apply triple_syscall; intros k dv' Hl; (split; [eapply left_changed|]); try apply unlink_left; eauto.
Qed.
End write_proof.

Section state_file.
Context `{DiskEnvironment} `{PrivateStateJSON}.

Lemma unchanged_content d path dv : disk_ok d -> dk_inodes d ⊆ dk_inodes dv -> entries dv path = entries d path -> file_content dv path = file_content d path.
Proof.
  intros Hok Hi E. unfold file_content, entry. rewrite E. destruct (default None (head (entries d path))) as [ino|] eqn:Ee; [|done].
  destruct (Hok path ino) as [i Ei]; [by apply entry_in|]. cbn. by rewrite Ei, (lookup_weaken _ _ _ _ Ei Hi).
Qed.

Lemma written_now d path encoded e es : entries d path = e :: es -> written_file d encoded e -> file_content d path = Some encoded.
Proof. intros E (ino & i & -> & Ei & _ & Hd). unfold file_content, entry. rewrite E. cbn. by rewrite Ei, <- Hd. Qed.

(** How the write ended, seen from the outcomes of [PrivateState]. *)
Lemma left_outcome d path state encoded done dv : disk_ok d -> left_by d path encoded done dv -> marshal_state state = Some encoded ->
  exists outcome, (done, file_content dv path) = writePrivateControlPersistentState outcome state (file_content d path).
Proof.
  intros Hok [_ Hi Hp] Em. unfold writePrivateControlPersistentState. rewrite Em.
  destruct Hp as [[-> E]|(e & Hf & [[-> E]|[-> E]])].
  - exists WriteFailed. by rewrite (unchanged_content d path dv).
  - exists RenamedUnsynced. by rewrite (written_now _ _ _ _ _ E Hf).
  - exists WriteDone. by rewrite (written_now _ _ _ _ _ E Hf).
Qed.

(** What crashes leave of a write of a state that has been encoded. *)
Lemma write_crashes d n path state encoded P :
  disk_ok d -> (forall k, path <> temp_name k) -> blank path = false -> survives d path P -> marshal_state state = Some encoded ->
  let m := write_persistent_state path state in
  let d' := fst (final m (d, n)) in
  left_by d path encoded (result m (d, n)) d' /\
  Forall (fun dv => survives dv path (fun c => P c \/ c = Some encoded)) (d' :: outs m (d, n)) /\
  (result m (d, n) = true -> file_content d' path = Some encoded /\ survives d' path (fun c => c = Some encoded)).
Proof.
  intros Hok Hpath Hb HP Em. unfold write_persistent_state. rewrite Hb, Em. cbv zeta.
  destruct (write_state_file_triple d path encoded Hok Hpath d n eq_refl) as [Hout Hl].
  assert (forall dv, changed d path encoded dv -> survives dv path (fun c => P c \/ c = Some encoded)) as Hs.
  { intros dv Hch. by apply (changed_survives d path encoded Hok dv P). }
  split; [done|]. split; [constructor; [by eapply Hs, left_changed|]; by eapply Forall_impl|].
  intros E. rewrite E in Hl. destruct Hl as [_ _ [[? _]|(e & Hf & [[? _]|[_ Ep]])]]; [done..|].
  split; [by eapply written_now|by eapply synced_survives].
Qed.

(** C12. Writing the state file is atomic under a crash at any point.  Whatever the file
    system calls answer, if every crash of the disk before the write leaves one of [P] at
    the path (a synchronised disk leaves its one content), then every crash during and
    after the write leaves one of [P] or the whole new state, never a part of it; after a
    write without an error only the new state is left; the disk stays well-formed, so the
    writes of a run can be chained; and without a crash the write is the operation
    [writePrivateControlPersistentState] that the link's model uses, at one of its outcomes. *)
Theorem state_file_crash_safe d n path state (P : option (list Z) -> Prop) :
  disk_ok d -> (forall k, path <> temp_name k) -> blank path = false -> survives d path P ->
  let m := write_persistent_state path state in
  let d' := fst (final m (d, n)) in
  disk_ok d' /\
  Forall (fun dv => survives dv path (fun c => P c \/ exists encoded, marshal_state state = Some encoded /\ c = Some encoded))
    (d' :: outs m (d, n)) /\
  (result m (d, n) = true -> exists encoded, marshal_state state = Some encoded /\ survives d' path (fun c => c = Some encoded)) /\
  exists outcome, (result m (d, n), file_content d' path) = writePrivateControlPersistentState outcome state (file_content d path).
Proof.
  intros Hok Hpath Hb HP. cbv zeta. destruct (marshal_state state) as [encoded|] eqn:Em.
  2:{ unfold write_persistent_state. rewrite Hb, Em. split; [done|split]; [|split; [done|exists WriteFailed; unfold writePrivateControlPersistentState; by rewrite Em]].
      constructor; [|constructor]. intros dc Hc. left. by apply HP. }
  destruct (write_crashes d n path state encoded P Hok Hpath Hb HP Em) as (Hl & Hs & Hdone).
  split; [by eapply lb_ok|]. split; [|split].
  - eapply Forall_impl; [exact Hs|]. intros dv Hdv dc Hc. destruct (Hdv dc Hc); eauto.
  - intros E. exists encoded. split; [done|]. by apply Hdone.
  - by eapply left_outcome.
Qed.
End state_file.

(** ** An instance *)

(** A synchronised disk with one file; every call succeeds but the one numbered [failing]. *)
Definition one_file (name : string) (data : list Z) : disk :=
  {| dk_inodes := {[ 0%nat := {| in_data := data; in_mode := 0x180; in_synced := true |} ]}; dk_names := {[ name := [Some 0%nat] ]} |}.
Definition failing_at (failing : nat) : DiskEnvironment :=
  {| call_ok := fun n => negb (Nat.eqb n failing); written := fun _ => 0%nat; temp_suffix := fun _ => "1" |}.
Definition one_state : privateControlPersistentState :=
  {| ps_SchemaVersion := privateControlStateSchemaVersion; ps_Rules := []; ps_Idempotency := [] |}.

Lemma one_file_ok name data : disk_ok (one_file name data).
Proof.
  intros name' ino. unfold entries. cbn [dk_names dk_inodes one_file]. destruct (decide (name = name')) as [->|Hn].
  - rewrite lookup_singleton_eq. cbn. intros Hin. apply list_elem_of_singleton in Hin as [= ->]. by eexists.
  - rewrite lookup_singleton_ne by done. cbn. intros Hin. by inversion Hin.
Qed.

Lemma one_file_survives name data : survives (one_file name data) name (fun c => c = Some data).
Proof.
  apply (synced_survives name data (one_file name data) (Some 0%nat)); [by unfold entries; cbn [dk_names one_file]; rewrite lookup_singleton_eq|].
  exists 0%nat, {| in_data := data; in_mode := 0x180; in_synced := true |}. by repeat split.
Qed.

(** The eighth call, the synchronisation of the directory, fails: the new state is in
    place, the write reports an error, and a crash leaves the old content or the new one. *)
Lemma state_file_crash_safe_witness :
  let m := @write_persistent_state (failing_at 7) number_json "state.json" one_state in
  let d' := fst (final m (one_file "state.json" [1], 0%nat)) in
  result m (one_file "state.json" [1], 0%nat) = false /\ file_content d' "state.json" = @marshal_state number_json one_state /\
  survives d' "state.json" (fun c => c = Some [1] \/ exists encoded, @marshal_state number_json one_state = Some encoded /\ c = Some encoded).
Proof.
  cbv zeta. split; [by vm_compute|split; [by vm_compute|]].
  pose proof (@state_file_crash_safe (failing_at 7) number_json (one_file "state.json" [1]) 0%nat "state.json" one_state
    (fun c => c = Some [1]) (one_file_ok _ _) ltac:(done) ltac:(reflexivity) (one_file_survives _ _)) as (_ & Hall & _).
  by apply Forall_cons in Hall as [Hd _].
Defined.
