(* ===== verification/PrivateSnapshot.v ===== *)
(** * Snapshots of the Relay state for the private control link

    [private_control_snapshot.go]: the entries of a snapshot under the lock of the
    server and their division into chunks that fit a frame.  [chunks_correct] says
    what the chunks are, [snapshot_faithful] that they are the state. *)

From S2P Require Import Prelude GoTime Server Directory PrivateControl.

Definition privateControlSnapshotMaxChunks : Z := 64.
Definition privateControlSnapshotMaxJSONBytes : Z := privateControlMaxFrameBytes - 1024.

(** [AAAAAAAAAAAAAAAAAAAAAA]. *)
Definition probeID : list Z := repeat 65 22.

Section chunks.
Context `{PrivateControlJSON}.

Definition privateControlSnapshotChannelsFit (channels : list privateControlSnapshotChannel) : bool :=
  let probe := {| rs_MessageID := probeID; rs_InReplyTo := probeID; rs_SnapshotID := probeID;
                  rs_ChunkIndex := privateControlSnapshotMaxChunks - 1; rs_ChunkCount := privateControlSnapshotMaxChunks;
                  rs_Channels := channels |} in
  match marshal_message (MSnapshot probe) with
  | Some payload => len payload <=? privateControlSnapshotMaxJSONBytes
  | None => false
  end.

(** [chunks] and [current]; every error is [errPrivateControlSnapshotTooLarge]. *)
Definition chunking : Type := list (list privateControlSnapshotChannel) * list privateControlSnapshotChannel.

Definition appendChunk (entry : privateControlSnapshotChannel) (st : chunking) : option chunking :=
  let '(chunks, current) := st in
  let candidate := current ++ [entry] in
  if privateControlSnapshotChannelsFit candidate then Some (chunks, candidate)
  else if len current =? 0 then None
  else if negb (privateControlSnapshotChannelsFit [entry]) then None
  else Some (chunks ++ [current], [entry]).

Definition batch_of (channelID : Z) (participants : list privateControlSnapshotParticipant) : privateControlSnapshotChannel :=
  {| sn_ChannelID := channelID; sn_Participants := participants |}.

(** The loop over the participants of a channel; [batch] is [batch.Participants]. *)
Fixpoint append_participants (channelID : Z) (participants batch : list privateControlSnapshotParticipant) (st : chunking)
    : option (list privateControlSnapshotParticipant * chunking) :=
  match participants with
  | [] => Some (batch, st)
  | participant :: rest =>
      let candidate := batch ++ [participant] in
      if privateControlSnapshotChannelsFit [batch_of channelID candidate] then append_participants channelID rest candidate st
      else if len batch =? 0 then None
      else
        st ← appendChunk (batch_of channelID batch) st;
        append_participants channelID rest [participant] st
  end.

Fixpoint append_entries (entries : list privateControlSnapshotChannel) (st : chunking) : option chunking :=
  match entries with
  | [] => Some st
  | entry :: rest =>
      if len (sn_Participants entry) =? 0 then
        st ← appendChunk entry st;
        append_entries rest st
      else
        '(batch, st) ← append_participants (sn_ChannelID entry) (sn_Participants entry) [] st;
        st ← appendChunk (batch_of (sn_ChannelID entry) batch) st;
        append_entries rest st
  end.

Definition privateControlChunkSnapshotEntries (entries : list privateControlSnapshotChannel)
    : option (list (list privateControlSnapshotChannel)) :=
  '(chunks, current) ← append_entries entries ([], []);
  let chunks := if 0 <? len current then chunks ++ [current] else chunks in
  let chunks := if len chunks =? 0 then chunks ++ [[]] else chunks in
  if privateControlSnapshotMaxChunks <? len chunks then None else Some chunks.
End chunks.

Section entries.
Context `{RangeOrder} `{SliceSort}.

Definition participant_entry (ch : channel) (senderID : Z) : privateControlSnapshotParticipant :=
  {| sn_SenderID := senderID;
     sn_State := if bool_decide (is_Some (activeTalkers ch !! senderID)) then "talking" else "idle" |}.

(** The section of [privateControlSnapshotChunks] under the lock of the server. *)
Definition snapshot_entries (s : server) : list privateControlSnapshotChannel :=
  let channelIDs := sort_Slice (fun channelID => channelID) (fst <$> range (channels s)) in
  omap (fun channelID =>
    ch ← channels s !! channelID;
    let senderIDs := sort_Slice (fun senderID => senderID) ((fun kv => p_senderId kv.2) <$> range (peers ch)) in
    Some (batch_of channelID (participant_entry ch <$> senderIDs))) channelIDs.

Definition privateControlSnapshotChunks `{PrivateControlJSON} (s : server) : option (list (list privateControlSnapshotChannel)) :=
  privateControlChunkSnapshotEntries (snapshot_entries s).
End entries.

(** ** What the chunks carry *)

(** The rows of an entry: one per participant, and one for a channel without any. *)
Definition rows (entry : privateControlSnapshotChannel) : list (Z * option privateControlSnapshotParticipant) :=
  match sn_Participants entry with
  | [] => [(sn_ChannelID entry, None)]
  | participants => (fun p => (sn_ChannelID entry, Some p)) <$> participants
  end.

Definition all_rows (entries : list privateControlSnapshotChannel) : list (Z * option privateControlSnapshotParticipant) :=
  flat_map rows entries.

(** The entry that carries one row. *)
Definition row_entry (row : Z * option privateControlSnapshotParticipant) : privateControlSnapshotChannel :=
  batch_of row.1 match row.2 with Some p => [p] | None => [] end.

Lemma rows_batch channelID participants : participants <> [] ->
  rows (batch_of channelID participants) = (fun p => (channelID, Some p)) <$> participants.
Proof. by destruct participants. Qed.

Lemma all_rows_snoc entries entry : all_rows (entries ++ [entry]) = all_rows entries ++ rows entry.
Proof. unfold all_rows. rewrite flat_map_app. cbn. by rewrite app_nil_r. Qed.

Lemma all_rows_len entries : len entries <= len (all_rows entries).
Proof.
  unfold len. induction entries as [|e entries IH]; [done|]. cbn [all_rows flat_map]. rewrite length_app. fold (all_rows entries).
  assert (1 <= length (rows e))%nat; [|cbn [length]; lia]. unfold rows. destruct (sn_Participants e); cbn; lia.
Qed.

Section chunks_spec.
Context `{PrivateControlJSON}.

Abbreviation fits := privateControlSnapshotChannelsFit.

Definition content (st : chunking) : list privateControlSnapshotChannel := concat st.1 ++ st.2.

Definition chunking_ok (st : chunking) : Prop :=
  Forall (fun chunk => chunk <> [] /\ fits chunk = true) st.1 /\ (st.2 = [] \/ fits st.2 = true).

Lemma appendChunk_ok entry st st' :
  chunking_ok st -> appendChunk entry st = Some st' -> chunking_ok st' /\ content st' = content st ++ [entry].
Proof.
  destruct st as [chunks current]. unfold appendChunk, content. intros [Hc Hcur] E. cbn [fst snd] in *.
  destruct (fits (current ++ [entry])) eqn:Ef.
  - injection E as <-. split; [split; [done|by right]|]. cbn. by rewrite app_assoc.
  - destruct (len current =? 0) eqn:El; [done|]. destruct (fits [entry]) eqn:E1; [|done]. injection E as <-. cbn [fst snd].
    assert (current <> []) as Hne by by intros ->.
    split; [|by rewrite concat_app; cbn; rewrite app_nil_r]. split; [|by right]. cbn [fst].
    apply Forall_app_2; [done|]. apply Forall_singleton. split; [done|]. by destruct Hcur.
Qed.

Lemma appendChunk_some entry st : fits [entry] = true -> exists st', appendChunk entry st = Some st'.
Proof.
  intros E. destruct st as [chunks current]. unfold appendChunk. destruct (fits (current ++ [entry])) eqn:Ef; [by eexists|].
  destruct current; [cbn in Ef; congruence|]. cbn [length]. rewrite E. by eexists.
Qed.

Lemma append_participants_ok channelID participants : forall batch st batch' st',
  chunking_ok st -> append_participants channelID participants batch st = Some (batch', st') ->
  chunking_ok st' /\ (participants <> [] \/ batch <> [] -> batch' <> []) /\
  all_rows (content st') ++ ((fun p => (channelID, Some p)) <$> batch') =
  all_rows (content st) ++ ((fun p => (channelID, Some p)) <$> (batch ++ participants)).
Proof.
  induction participants as [|p participants IH]; intros batch st batch' st' Hok E.
  - injection E as -> ->. rewrite app_nil_r. naive_solver.
  - cbn [append_participants] in E. destruct (fits [batch_of channelID (batch ++ [p])]).
    + apply IH in E as (H1 & H2 & H3); [|done]. split; [done|]. split; [intros _; apply H2; right; by destruct batch|].
      rewrite H3. by rewrite <- app_assoc.
    + destruct (len batch =? 0) eqn:El; [done|]. assert (batch <> []) as Hne by by intros ->.
      destruct (appendChunk _ st) as [st1|] eqn:E1; [|done]. cbn [mbind option_bind] in E.
      apply appendChunk_ok in E1 as [H1 H2]; [|done]. apply IH in E as (H3 & H4 & H5); [|done].
      split; [done|]. split; [intros _; apply H4; by right|]. rewrite H5, H2, all_rows_snoc, rows_batch by done.
      rewrite <- app_assoc. f_equal. by rewrite <- fmap_app.
Qed.

Lemma append_participants_some channelID participants : forall batch st,
  Forall (fun p => fits [batch_of channelID [p]] = true) participants ->
  (batch = [] \/ fits [batch_of channelID batch] = true) ->
  exists batch' st', append_participants channelID participants batch st = Some (batch', st') /\
    (participants <> [] \/ batch <> [] -> fits [batch_of channelID batch'] = true).
Proof.
  induction participants as [|p participants IH]; intros batch st Hp Hb.
  - eexists batch, st. split; [done|]. naive_solver.
  - apply Forall_cons in Hp as [Hp Hps]. cbn [append_participants].
    destruct (fits [batch_of channelID (batch ++ [p])]) eqn:Ef.
    + destruct (IH (batch ++ [p]) st) as (b & s & E & Hf); [done|by right|]. exists b, s. split; [done|]. intros _. apply Hf. right. by destruct batch.
    + destruct batch as [|x batch]; [cbn in Ef; congruence|]. cbn [length]. destruct Hb as [|Hb]; [done|].
      destruct (appendChunk_some _ st Hb) as [st1 ->]. cbn [mbind option_bind].
      destruct (IH [p] st1) as (b & s & E & Hf); [done|by right|]. exists b, s. split; [done|]. intros _. apply Hf. by right.
Qed.

Lemma append_entries_ok entries : forall st st',
  chunking_ok st -> append_entries entries st = Some st' ->
  chunking_ok st' /\ all_rows (content st') = all_rows (content st) ++ all_rows entries.
Proof.
  induction entries as [|e entries IH]; intros st st' Hok E; [injection E as ->; by rewrite app_nil_r|].
  cbn [append_entries] in E. change (all_rows (e :: entries)) with (rows e ++ all_rows entries).
  destruct (len (sn_Participants e) =? 0) eqn:El.
  - destruct (appendChunk e st) as [st1|] eqn:E1; [|done]. cbn [mbind option_bind] in E. apply appendChunk_ok in E1 as [H1 H2]; [|done].
    apply IH in E as [H3 H4]; [|done]. split; [done|]. by rewrite H4, H2, all_rows_snoc, <- app_assoc.
  - assert (sn_Participants e <> []) as Hne by by intros E0; rewrite E0 in El.
    destruct (append_participants _ _ _ _) as [[b st1]|] eqn:E1; [|done]. cbn [mbind option_bind] in E.
    apply append_participants_ok in E1 as (H1 & H2 & H3); [|done].
    destruct (appendChunk _ st1) as [st2|] eqn:E2; [|done]. cbn [mbind option_bind] in E. apply appendChunk_ok in E2 as [H4 H5]; [|done].
    apply IH in E as [H6 H7]; [|done]. split; [done|]. rewrite H7, H5, all_rows_snoc, rows_batch by (apply H2; by left).
    rewrite H3, <- app_assoc. do 2 f_equal. cbn. unfold rows. by destruct (sn_Participants e).
Qed.

Lemma append_entries_some entries : forall st,
  Forall (fun row => fits [row_entry row] = true) (all_rows entries) -> exists st', append_entries entries st = Some st'.
Proof.
  induction entries as [|e entries IH]; intros st Hf; [by eexists|].
  change (all_rows (e :: entries)) with (rows e ++ all_rows entries) in Hf. apply Forall_app in Hf as [Hf Hfs].
  cbn [append_entries]. destruct e as [id ps]. unfold rows in Hf. cbn [sn_Participants sn_ChannelID] in *. destruct ps as [|p ps].
  - apply Forall_cons in Hf as [Hf _]. cbn [length]. destruct (appendChunk_some {| sn_ChannelID := id; sn_Participants := [] |} st Hf) as [st1 ->]. cbn [mbind option_bind]. by apply IH.
  - assert ((len (p :: ps) =? 0) = false) as -> by done.
    destruct (append_participants_some id (p :: ps) [] st) as (b & st1 & -> & Hb).
    + rewrite Forall_fmap in Hf. exact Hf.
    + by left.
    + cbn [mbind option_bind]. destruct (appendChunk_some (batch_of id b) st1) as [st2 ->]; [apply Hb; by left|]. by apply IH.
Qed.

Lemma concat_len (chunks : list (list privateControlSnapshotChannel)) :
  Forall (fun chunk => chunk <> []) chunks -> len chunks <= len (concat chunks).
Proof.
  unfold len. induction 1 as [|c cs Hc _ IH]; [done|]. cbn [concat length]. rewrite length_app.
  assert (1 <= length c)%nat by (destruct c; [done|cbn; lia]). lia.
Qed.

(** C33. A snapshot that is sent has 1 to 64 chunks, each fits a frame, and together they
    carry exactly the rows of the entries in their order; and when each row fits
    alone and there are at most 64 the snapshot is never refused. *)
Theorem privateControlChunkSnapshotEntries_correct entries :
  match privateControlChunkSnapshotEntries entries with
  | Some chunks =>
      1 <= len chunks <= 64 /\ all_rows (concat chunks) = all_rows entries /\
      (chunks = [[]] /\ entries = [] \/ Forall (fun chunk => chunk <> [] /\ fits chunk = true) chunks)
  | None => len (all_rows entries) <= 64 -> Exists (fun row => fits [row_entry row] = false) (all_rows entries)
  end.
Proof.
  unfold privateControlChunkSnapshotEntries. destruct (append_entries entries ([], [])) as [[chunks current]|] eqn:E; cbn [mbind option_bind].
  2:{ intros _. destruct (decide (Forall (fun row => fits [row_entry row] = true) (all_rows entries))) as [Hf|Hf].
      - apply append_entries_some with (st := ([], [])) in Hf as [st E']. congruence.
      - apply not_Forall_Exists in Hf; [|apply _]. eapply Exists_impl; [exact Hf|]. intros row. cbn. by destruct (fits _). }
  apply append_entries_ok in E as [[Hc Hcur] Hrows]; [|by split; [|left]]. unfold content in Hrows. cbn [fst snd concat app] in *.
  change (all_rows []) with (@nil (Z * option privateControlSnapshotParticipant)) in Hrows. cbn [app] in Hrows.
  set (chunks1 := if 0 <? len current then chunks ++ [current] else chunks).
  assert (concat chunks1 = concat chunks ++ current) as Hc1.
  { unfold chunks1. destruct current as [|x current]; [cbn; by rewrite app_nil_r|].
    change (0 <? len (x :: current)) with true. cbv iota. rewrite concat_app. cbn. by rewrite app_nil_r. }
  assert (Forall (fun chunk => chunk <> [] /\ fits chunk = true) chunks1) as Hok1.
  { unfold chunks1. destruct current as [|x current]; [done|].
    change (0 <? len (x :: current)) with true. cbv iota. apply Forall_app_2; [done|]. apply Forall_singleton. by destruct Hcur. }
  rewrite <- Hc1 in Hrows. clearbody chunks1. assert (len chunks1 <= len (all_rows entries)) as Hlen.
  { etransitivity; [apply concat_len; by eapply Forall_impl; [exact Hok1|intros ? []]|]. rewrite <- Hrows. apply all_rows_len. }
  unfold privateControlSnapshotMaxChunks. destruct chunks1 as [|c chunks1]; cbn [length len app].
  - cbn. split; [by split|]. split; [done|]. left. split; [done|]. destruct entries as [|e entries]; [done|].
    cbn in Hrows. symmetry in Hrows. apply app_eq_nil in Hrows as [Hr _]. unfold rows in Hr. by destruct (sn_Participants e).
  - assert ((len (c :: chunks1) =? 0) = false) as -> by done. pose proof (len_nonneg chunks1).
    destruct (64 <? len (c :: chunks1)) eqn:E64; gobool; [lia|]. assert (len (c :: chunks1) = len chunks1 + 1) by (unfold len; cbn; lia).
    split; [lia|]. split; [done|]. by right.
Qed.
End chunks_spec.

Section entries_spec.
Context `{RangeOrder} `{SliceSort}.

Lemma range_keys {K} `{Countable K} {A} (m : gmap K A) k : k ∈ (range m).*1 <-> is_Some (m !! k).
Proof.
  rewrite (range_perm m), list_elem_of_fmap. split.
  - intros ([k' v] & -> & Hin). apply elem_of_map_to_list in Hin. by eexists.
  - intros [v Hv]. exists (k, v). split; [done|]. by apply elem_of_map_to_list.
Qed.

Lemma sorted_keys_lt {A} (m : gmap Z A) : StronglySorted Z.lt (sort_Slice (fun k => k) (range m).*1).
Proof.
  pose proof (sort_Slice_sorted (fun k : Z => k) (range m).*1) as Hs. rewrite list_fmap_id in Hs.
  assert (NoDup (sort_Slice (fun k : Z => k) (range m).*1)) as Hnd.
  { rewrite (sort_Slice_perm _ _), (range_perm m). apply NoDup_fst_map_to_list. }
  induction Hs as [|k l Hs IH Hk]; [constructor|]. apply NoDup_cons in Hnd as [Hni Hnd]. constructor; [by apply IH|].
  rewrite Forall_forall in Hk |- *. intros x Hx. specialize (Hk x Hx). assert (k <> x) by (intros ->; done). lia.
Qed.

(** The entries of a snapshot are the channels of the server in order, each with
    its registered senders in order and who is talking. *)
Theorem snapshot_entries_correct s :
  StronglySorted Z.lt (sn_ChannelID <$> snapshot_entries s) /\
  (forall channelID, channelID ∈ sn_ChannelID <$> snapshot_entries s <-> is_Some (channels s !! channelID)) /\
  Forall (fun entry => exists ch, channels s !! sn_ChannelID entry = Some ch /\
    StronglySorted Z.le (sn_SenderID <$> sn_Participants entry) /\
    (sn_SenderID <$> sn_Participants entry) ≡ₚ ((fun kv => p_senderId kv.2) <$> map_to_list (peers ch)) /\
    Forall (fun p => (sn_State p = "talking"%string <-> is_Some (activeTalkers ch !! sn_SenderID p)) /\
                     (sn_State p = "idle"%string <-> activeTalkers ch !! sn_SenderID p = None)) (sn_Participants entry))
    (snapshot_entries s).
Proof.
  unfold snapshot_entries. cbv zeta.
  set (ids := sort_Slice (fun k : Z => k) (range (channels s)).*1).
  assert (forall k, k ∈ ids <-> is_Some (channels s !! k)) as Hids.
  { intros k. unfold ids. rewrite (sort_Slice_perm _ _). apply range_keys. }
  set (entry_of := fun channelID => ch ← channels s !! channelID; _).
  assert (sn_ChannelID <$> omap entry_of ids = ids) as Hmap.
  { assert (Forall (fun k => is_Some (channels s !! k)) ids) as Hall by (apply Forall_forall; intros; by apply Hids).
    clearbody ids. clear Hids. induction Hall as [|k l [ch Hk] _ IH]; [done|]. cbn [omap list_omap]. unfold entry_of at 1.
    rewrite Hk. cbn [mbind option_bind]. cbn [fmap list_fmap sn_ChannelID batch_of]. by f_equal. }
  rewrite Hmap. split; [apply sorted_keys_lt|]. split; [done|]. apply Forall_forall. intros e He.
  apply list_elem_of_omap in He as (k & _ & He). unfold entry_of in He. destruct (channels s !! k) as [ch|] eqn:Ech; [|done].
  cbn [mbind option_bind] in He. injection He as <-. exists ch. cbn [sn_ChannelID batch_of sn_Participants]. split; [done|].
  rewrite <- list_fmap_compose.
  assert (forall l, (sn_SenderID ∘ participant_entry ch) <$> l = l) as Hid by (intros l; rewrite (list_fmap_ext _ (fun x => x)); [apply list_fmap_id|done]).
  rewrite Hid. split; [|split].
  - pose proof (sort_Slice_sorted (fun senderID : Z => senderID) ((fun kv => p_senderId kv.2) <$> range (peers ch))) as Hs.
    by rewrite list_fmap_id in Hs.
  - rewrite (sort_Slice_perm _ _). by rewrite (range_perm (peers ch)).
  - apply Forall_fmap, Forall_forall. intros senderID _. cbn. destruct (activeTalkers ch !! senderID) eqn:Et.
    + rewrite bool_decide_eq_true_2 by by eexists. naive_solver.
    + rewrite bool_decide_eq_false_2 by by intros []. split; split; try done; by intros [].
Qed.
End entries_spec.
