(* ===== verification/PrivateFrames.v ===== *)
(** * Frames of the private control link, read and written

    The framing of [private_control.go] accepts exactly the length-prefixed payloads
    that pass the JSON validation, and the validation accepts exactly the texts of one
    JSON value without duplicate keys. *)

From S2P Require Import Prelude GoTime Text PrivateControl.

(** ** JSON values *)

#[warnings="-register-all"]
Inductive json := JValue | JText (s : list Z) | JObject (members : list (list Z * json)) | JArray (elements : list json).

Fixpoint tokens_of (v : json) : list jtoken :=
  match v with
  | JValue => [JOther]
  | JText s => [JString s]
  | JObject members => JOpen :: flat_map (fun member => JString member.1 :: tokens_of member.2) members ++ [JClose]
  | JArray elements => JOpenArray :: flat_map tokens_of elements ++ [JCloseArray]
  end.

(** No object of the value has a key twice. *)
Fixpoint unique_keys (v : json) : Prop :=
  match v with
  | JValue | JText _ => True
  | JObject members => NoDup members.*1 /\ foldr (fun member rest => unique_keys member.2 /\ rest) True members
  | JArray elements => foldr (fun element rest => unique_keys element /\ rest) True elements
  end.

Abbreviation member_tokens := (flat_map (fun member : list Z * json => JString member.1 :: tokens_of member.2)).
Abbreviation unique_members := (foldr (fun (member : list Z * json) rest => unique_keys member.2 /\ rest) True).
Abbreviation unique_elements := (foldr (fun element rest => unique_keys element /\ rest) True).

Lemma scan_sound e fuel :
  (forall toks rest, scan_value fuel e toks = ScanOk rest -> exists v, toks = tokens_of v ++ rest /\ unique_keys v) /\
  (forall seen toks rest, scan_members fuel e seen toks = ScanOk rest ->
     exists ms, toks = member_tokens ms ++ JClose :: rest /\ NoDup ms.*1 /\ Forall (fun k => k ∉ seen) ms.*1 /\ unique_members ms) /\
  (forall toks rest, scan_elements fuel e toks = ScanOk rest ->
     exists vs, toks = flat_map tokens_of vs ++ JCloseArray :: rest /\ unique_elements vs).
Proof.
  induction fuel as [|k (IHv & IHm & IHe)]; [done|]. split; [|split].
  - intros toks rest E. cbn [scan_value] in E. destruct toks as [|t toks]; [by destruct e|]. destruct t as [| | | |s|].
    + apply IHm in E as (ms & -> & H1 & _ & H2). exists (JObject ms). split; [|done]. cbn. by rewrite <- app_assoc.
    + done.
    + apply IHe in E as (vs & -> & H1). exists (JArray vs). split; [|done]. cbn. by rewrite <- app_assoc.
    + done.
    + injection E as ->. by exists (JText s).
    + injection E as ->. by exists JValue.
  - intros seen toks rest E. cbn [scan_members] in E. destruct toks as [|t toks]; [by destruct e|]. destruct t as [| | | |s|]; try done.
    + injection E as ->. exists []. split; [done|]. split; [constructor|]. by split.
    + case_bool_decide as Hin; [done|]. destruct (scan_value k e toks) as [rest1| |] eqn:Ev; try done.
      apply IHv in Ev as (v & -> & Hv). apply IHm in E as (ms & -> & H1 & H2 & H3). exists ((s, v) :: ms).
      split; [cbn; by rewrite <- app_assoc|]. cbn. split; [|split; [|done]].
      * constructor; [|done]. intros Hs. rewrite Forall_forall in H2. apply (H2 _ Hs). apply list_elem_of_here.
      * constructor; [done|]. eapply Forall_impl; [exact H2|]. cbn. intros x Hx Hin'. apply Hx. by apply list_elem_of_further.
  - intros toks rest E. cbn [scan_elements] in E. destruct toks as [|t toks]; [by destruct e|].
    destruct t as [| | | |s|]; try done; [|
      |injection E as ->; by exists []|  | ];
      (destruct (scan_value k e _) as [rest1| |] eqn:Ev; try done;
       apply IHv in Ev as (v & Hv1 & Hv2); apply IHe in E as (vs & -> & H1); exists (v :: vs);
       split; [cbn; rewrite <- app_assoc; exact Hv1|by split]).
Qed.

Lemma tokens_head v : exists t ts, tokens_of v = t :: ts /\ t <> JClose /\ t <> JCloseArray.
Proof. destruct v; by eexists _, _. Qed.

Lemma scan_complete e fuel :
  (forall v rest, (length (tokens_of v) <= fuel)%nat -> unique_keys v -> scan_value fuel e (tokens_of v ++ rest) = ScanOk rest) /\
  (forall ms seen rest, (length (member_tokens ms) < fuel)%nat -> NoDup ms.*1 -> Forall (fun k => k ∉ seen) ms.*1 -> unique_members ms ->
     scan_members fuel e seen (member_tokens ms ++ JClose :: rest) = ScanOk rest) /\
  (forall vs rest, (length (flat_map tokens_of vs) < fuel)%nat -> unique_elements vs ->
     scan_elements fuel e (flat_map tokens_of vs ++ JCloseArray :: rest) = ScanOk rest).
Proof.
  induction fuel as [|k (IHv & IHm & IHe)].
  { split; [|by split; intros; lia]. intros v rest Hl. destruct (tokens_head v) as (t & ts & Et & _). rewrite Et in Hl. cbn in Hl. lia. }
  split; [|split].
  - intros v rest Hl Hu. destruct v as [|s|ms|vs]; cbn [tokens_of app scan_value] in *; try done.
    + rewrite <- app_assoc. cbn [app]. cbn [length] in Hl. rewrite length_app in Hl. cbn [length] in Hl. destruct Hu as [H1 H2].
      apply IHm; [lia|done| |done]. apply Forall_forall. intros x _. apply not_elem_of_nil.
    + rewrite <- app_assoc. cbn [app]. cbn [length] in Hl. rewrite length_app in Hl. cbn [length] in Hl. apply IHe; [lia|done].
  - intros ms seen rest Hl Hnd Hs Hu. destruct ms as [|[s v] ms]; [done|]. cbn [flat_map fst snd app scan_members] in *.
    cbn [length] in Hl. rewrite length_app in Hl. destruct Hu as [Hv Hu]. apply Forall_cons in Hs as [Hs Hss].
    apply NoDup_cons in Hnd as [Hni Hnd]. cbn in Hs, Hni, Hss. rewrite bool_decide_eq_false_2 by done. rewrite <- app_assoc.
    rewrite IHv by (done || lia). apply IHm; [lia|done| |done]. rewrite Forall_forall in Hss |- *. intros x Hx Hin.
    apply elem_of_cons in Hin as [->|Hin]; [done|]. by apply (Hss x).
  - intros vs rest Hl Hu. destruct vs as [|v vs]; [done|]. cbn [flat_map] in Hl |- *. rewrite length_app in Hl. destruct Hu as [Hv Hu].
    rewrite <- app_assoc. pose proof (IHv v (flat_map tokens_of vs ++ JCloseArray :: rest) ltac:(lia) Hv) as E.
    assert (scan_elements k e (flat_map tokens_of vs ++ JCloseArray :: rest) = ScanOk rest) as E2.
    { apply IHe; [|done]. destruct (tokens_head v) as (t & ts & Et & _). rewrite Et in Hl. cbn in Hl. lia. }
    destruct (tokens_head v) as (t & ts & Et & H1 & H2). rewrite Et in *. cbn [app] in *. cbn [scan_elements].
    destruct t; try done; by rewrite E.
Qed.

Section frames.
Context `{PrivateControlJSON}.

(** C32. A payload is accepted exactly when it is text and its tokens are those of one
    JSON value in which no object has a key twice. *)
Theorem validatePrivateControlJSON_correct raw :
  validatePrivateControlJSON raw = ScanOk tt <->
  is_Some (rune_count raw) /\ exists v, json_tokens raw = (tokens_of v, EndOfText) /\ unique_keys v.
Proof.
  unfold validatePrivateControlJSON. case_bool_decide as Hr; cbn [negb]; [|naive_solver].
  destruct (json_tokens raw) as [toks e]. split.
  - destruct (scan_value _ e toks) as [[|t rest]| |] eqn:E; try done. destruct e; [|done]. intros _. split; [done|].
    apply (proj1 (scan_sound _ _)) in E as (v & -> & Hv). exists v. by rewrite app_nil_r.
  - intros (_ & v & [= -> ->] & Hv).
    pose proof (proj1 (scan_complete EndOfText (S (length (tokens_of v)))) v [] ltac:(lia) Hv) as E.
    rewrite app_nil_r in E. by rewrite E.
Qed.

(** A frame is read from a stream exactly when the stream starts with the length of
    a payload of 2 to 65536 bytes and a payload that is accepted. *)
Theorem readPrivateControlFrame_exact stream (Hbytes : bytes_ok stream) payload rest :
  readPrivateControlFrame stream = Frame payload rest <->
  stream = put_be 4 (len payload) ++ payload ++ rest /\ 2 <= len payload <= privateControlMaxFrameBytes /\
  validatePrivateControlJSON payload = ScanOk tt.
Proof.
  unfold privateControlMaxFrameBytes. split.
  - unfold readPrivateControlFrame, privateControlMaxFrameBytes. destruct stream as [|b stream]; [done|].
    set (s := b :: stream) in *. clearbody s. destruct (len s <? 4) eqn:E4; [done|]. cbv zeta.
    destruct (_ || _) eqn:El; [done|]. destruct (len (drop 4 s) =? 0) eqn:E0; [done|]. destruct (len (drop 4 s) <? _) eqn:Eb; [done|].
    gobool. set (n := get_be (take 4 s)) in *. destruct (validatePrivateControlJSON _) as [[]| |] eqn:Ev; try done. intros [= <- <-].
    assert (len (take (Z.to_nat n) (drop 4 s)) = n) as Hn.
    { unfold len in *. rewrite length_take. lia. }
    rewrite Hn. split; [|split; [lia|done]]. rewrite take_drop.
    assert (length (take 4 s) = 4%nat) as Ht by (unfold len in E4; rewrite length_take; lia).
    assert (put_be 4 n = take 4 s) as ->; [|by rewrite take_drop].
    subst n. pose proof (put_get_be (take 4 s)) as Hp. rewrite Ht in Hp. apply Hp. by apply Forall_take.
  - intros (-> & Hl & Hv). unfold readPrivateControlFrame, privateControlMaxFrameBytes.
    pose proof (length_put_be 4 (len payload)) as Hp. set (hd := put_be 4 (len payload)) in *.
    assert (take 4 (hd ++ payload ++ rest) = hd) as -> by by rewrite <- Hp, take_app_length.
    assert (drop 4 (hd ++ payload ++ rest) = payload ++ rest) as -> by by rewrite <- Hp, drop_app_length.
    assert (get_be hd = len payload) as -> by (apply get_put_be_small; cbn; lia).
    pose proof (len_nonneg rest). rewrite !len_app. assert (len hd = 4) as -> by by unfold len; rewrite Hp.
    rewrite (proj2 (Z.ltb_ge _ 4)), (proj2 (Z.ltb_ge (len payload) 2)), (proj2 (Z.ltb_ge 65536 _)), (proj2 (Z.eqb_neq _ 0)),
      (proj2 (Z.ltb_ge _ (len payload))) by lia. cbn [orb].
    assert (Z.to_nat (len payload) = length payload) as -> by (unfold len; lia).
    rewrite take_app_length, drop_app_length, Hv. by destruct hd.
Qed.
End frames.

(** ** Writing *)

(** [Write] writes no more than it is given, as [io.Writer] demands. *)
Definition writer_ok (Write : nat -> list Z -> option Z) : Prop := forall k payload n, Write k payload = Some n -> n <= len payload.

(** The loop over partial writes ends and never slices out of range; it has sent a prefix,
    all of it when there was no error. *)
Lemma write_bytes_sent Write : writer_ok Write -> forall fuel payload k sent, (length payload <= fuel)%nat ->
  exists ok j m, write_bytes fuel Write k payload sent = Some (ok, j, sent ++ take m payload) /\ (ok = true -> (length payload <= m)%nat).
Proof.
  intros Hw. induction fuel as [|fuel IH]; intros [|b payload] k sent Hf; try (cbn in Hf; lia).
  1,2: exists true, k, 0%nat; cbn; by rewrite app_nil_r.
  set (p := b :: payload) in *. assert (len p = Z.of_nat (length p)) as Hlen by done.
  change (write_bytes (S fuel) Write k p sent) with (match Write k p with
    | None => Some (false, S k, sent)
    | Some written => if written <=? 0 then Some (false, S k, sent)
        else rest ← slice p written (len p); write_bytes fuel Write (S k) rest (sent ++ take (Z.to_nat written) p)
    end).
  destruct (Write k p) as [written|] eqn:Ew.
  2:{ exists false, (S k), 0%nat. by rewrite take_0, app_nil_r. }
  destruct (written <=? 0) eqn:E0; gobool.
  { exists false, (S k), 0%nat. by rewrite take_0, app_nil_r. }
  apply Hw in Ew. unfold slice. rewrite (proj2 (Z.leb_le 0 written)), (proj2 (Z.leb_le _ (len p))), Z.leb_refl by lia. cbn [andb mbind option_bind].
  rewrite take_ge by (rewrite length_drop; lia).
  destruct (IH (drop (Z.to_nat written) p) (S k) (sent ++ take (Z.to_nat written) p)) as (ok & j & m & E & Hm); [rewrite length_drop; lia|].
  exists ok, j, (Z.to_nat written + m)%nat. rewrite E, <- app_assoc. split.
  - do 2 f_equal. f_equal. rewrite <- (take_drop (Z.to_nat written) (take (Z.to_nat written + m) p)).
    rewrite take_take, Nat.min_l by lia. f_equal. rewrite <- take_drop_commute. done.
  - intros Hok. specialize (Hm Hok). rewrite length_drop in Hm. lia.
Qed.

(** A frame that is written without an error is read by the peer, whatever the pieces it was
    sent in and whatever is sent next. *)
Lemma written_frame_read `{PrivateControlJSON} Write k payload j sent rest : writer_ok Write -> bytes_ok payload -> bytes_ok rest ->
  2 <= len payload <= privateControlMaxFrameBytes -> validatePrivateControlJSON payload = ScanOk tt ->
  write_frame Write k payload [] = Some (true, j, sent) -> readPrivateControlFrame (sent ++ rest) = Frame payload rest.
Proof.
  intros Hw Hb Hr Hl Hv E. unfold write_frame, writePrivateControlBytes in E. unfold privateControlMaxFrameBytes in *.
  assert (u32 (len payload) = len payload) as Hu by (unfold u32; apply Z.mod_small; lia). rewrite Hu in E.
  destruct (write_bytes_sent Write Hw _ (put_be 4 (len payload)) k [] (le_n _)) as (ok1 & j1 & m1 & E1 & H1'). rewrite E1 in E. cbn [mbind option_bind] in E.
  destruct ok1; [|done]. cbn [negb] in E.
  destruct (write_bytes_sent Write Hw _ payload j1 ([] ++ take m1 (put_be 4 (len payload))) (le_n _)) as (ok2 & j2 & m2 & E2 & H2'). rewrite E2 in E.
  injection E as -> _ <-. rewrite !take_ge by auto. apply readPrivateControlFrame_exact.
  - apply Forall_app_2; [|exact Hr]. apply Forall_app_2; [exact (bytes_ok_put_be 4 (len payload))|exact Hb].
  - by rewrite <- app_assoc.
Qed.

Lemma readPrivateControlFrame_exact_witness :
  @readPrivateControlFrame plain_control_json [0; 0; 0; 2; 49; 50; 7] = Frame [49; 50] [7].
Proof.
  apply (@readPrivateControlFrame_exact plain_control_json [0; 0; 0; 2; 49; 50; 7]).
  - repeat constructor; unfold is_u8; lia.
  - by vm_compute.
Defined.
