(* ===== verification/PrivateLink.v ===== *)
(** * The connections of the private control link

    The handlers of [private_control.go]: a revocation with the persistence of its
    acknowledgement, the two queries, the connection loop, and the events the
    server publishes to the sessions.  They run on the Relay's server, the link and
    the state file together. *)

From S2P Require Import Prelude GoTime Sha256 Base64 ControlAuth Identity Service Diagnostics Server Send Relay Directory PrivateControl PrivateState PrivateSnapshot.

Open Scope eff_scope.

(** The readings of the clock, the 16-byte draws of [newPrivateControlID] ([None]
    when [rand.Read] fails), how writes of the state end, whether a command that is
    awaited ends before [privateControlHelloDeadline], and how many messages the
    writer of a session takes between two frames. *)
Class PrivateEnvironment := {
  pc_now : nat -> time;
  pc_random : nat -> option (list Z);
  pc_write : nat -> write_outcome;
  pc_awaited : nat -> bool;
  pc_taken : nat -> nat;
  pc_random_bytes : forall n v, pc_random n = Some v -> bytes_ok v /\ length v = 16%nat
}.

(** The server, the link and its state file; [w_tick] counts the uses of the
    environment. *)
Record pc_world := { w_server : server; w_link : privateControlLink; w_file : option (list Z); w_tick : nat }.

Abbreviation control := (M pc_world output).

Definition set_link (w : pc_world) (l : privateControlLink) : pc_world :=
  {| w_server := w_server w; w_link := l; w_file := w_file w; w_tick := w_tick w |}.
Definition set_server (w : pc_world) (s : server) : pc_world :=
  {| w_server := s; w_link := w_link w; w_file := w_file w; w_tick := w_tick w |}.
Definition set_file (w : pc_world) (file : option (list Z)) : pc_world :=
  {| w_server := w_server w; w_link := w_link w; w_file := file; w_tick := w_tick w |}.

(** A section of the link under its lock. *)
Definition on_link {A} (f : privateControlLink -> A * privateControlLink) : control A :=
  atomically (fun w => let '(a, l) := f (w_link w) in (a, set_link w l)).

(** The next value of the environment. *)
Definition next {A} (f : nat -> A) : control A :=
  atomically (fun w => (f (w_tick w), {| w_server := w_server w; w_link := w_link w; w_file := w_file w; w_tick := S (w_tick w) |})).

Section link.
Context `{Entropy} `{RangeOrder} `{PrivateControlJSON} `{PrivateStateJSON} `{PrivateEnvironment}.

Definition newPrivateControlID : control (option (list Z)) :=
  let! raw := next pc_random in ret (RawURL_Encode <$> raw).

Definition newPrivateControlError (inReplyTo : list Z) (code : string) : control (option pc_message) :=
  let! messageID := newPrivateControlID in
  ret ((fun id => MError id inReplyTo code) <$> messageID).

(** ** Events *)

Definition newPrivateControlLifecycleEvent (eventType : string) (channelID senderID : option Z)
    (serviceID jobID state reason : option string) : control (option privateControlLifecycleEvent) :=
  let! messageID := newPrivateControlID in
  match messageID with
  | None => ret None
  | Some messageID =>
      let! now := next pc_now in
      ret (Some {| le_MessageID := messageID; le_OccurredAt := now; le_EventType := eventType; le_ChannelID := channelID;
                   le_SenderID := senderID; le_ServiceID := serviceID; le_RecordingJobID := jobID; le_State := state;
                   le_Reason := reason |})
  end.

Definition publishLifecycleEvent (eventType : string) (channelID senderID : option Z)
    (serviceID jobID state reason : option string) : control unit :=
  let! event := newPrivateControlLifecycleEvent eventType channelID senderID serviceID jobID state reason in
  match event with
  | None => ret tt
  | Some event => on_link (fun l => (tt, enqueueLifecycleEvent event l))
  end.

Definition pc_publishFloorInterruptAudit (actorType actorID : string) (channelID requesterPriority : Z) (auditResult : string)
    (replacedSenderID replacedPriority : option Z) : control unit :=
  if (negb (String.eqb actorType "identity") && negb (String.eqb actorType "service")) || String.eqb actorID ""
     || (negb (String.eqb auditResult "success") && negb (String.eqb auditResult "denied")
         && negb (String.eqb auditResult "failed")) then ret tt
  else
    let! messageID := newPrivateControlID in
    match messageID with
    | None => ret tt
    | Some messageID =>
        let! now := next pc_now in
        on_link (fun l => (tt, enqueueAuditInput
          {| ai_MessageID := messageID; ai_OccurredAt := now; ai_Action := "floor_interrupt"; ai_ActorType := actorType;
             ai_ActorID := actorID; ai_ChannelID := channelID; ai_Result := auditResult;
             ai_FloorInterrupt := {| fa_RequesterPriority := requesterPriority; fa_ReplacedSenderID := replacedSenderID;
                                     fa_ReplacedPriority := replacedPriority |} |} l))
    end.

(** The calls of the server into the link: its outputs of these two kinds. *)
Definition deliver (o : output) : control unit :=
  emit o ;;;
  match o with
  | LifecycleEvent eventType channelID senderID serviceID reason =>
      publishLifecycleEvent eventType (Some channelID) (Some senderID) serviceID None None reason
  | FloorInterruptAudit actorType actorID channelID requesterPriority auditResult replaced =>
      pc_publishFloorInterruptAudit actorType actorID channelID requesterPriority auditResult (fst <$> replaced) (snd <$> replaced)
  | _ => ret tt
  end.

(** A handler of the server run by the link.  The server does not read the link, so
    its calls into the link are made when it is done. *)
Definition on_server {A} (m : handler A) : control A :=
  fun w => let '(a, s, os) := m (w_server w) in
           let '(_, w', os') := for_each os deliver (set_server w s) in (a, w', os').

(** ** Persistence *)

(** [persistState]: the rules are read under the lock of the service admission, the
    entries under the lock of the link, and the file is written under neither. *)
Definition persistState (now : time) : control bool :=
  let! s := gets w_server in
  match serviceAdmissions s with
  | None => ret false
  | Some _ =>
      let! rules := atomically (fun w =>
        let '(rules, sa) := activeDenyRules (serviceAdmissions (w_server w)) now in
        (rules, set_server w (with_service (w_server w) sa))) in
      let! entries := on_link (snapshot_idempotency now) in
      let! outcome := next pc_write in
      atomically (fun w =>
        let '(ok, file) := writePrivateControlPersistentState outcome (persistent_state rules entries) (w_file w) in
        (ok, set_file w file))
  end.

(** [true] is a nil error. *)
Definition completeRevocation (serviceID : string) (messageID bodyHash : list Z) (ack : privateControlAck) (now : time)
    : control bool :=
  let! stored := on_link (store_ack serviceID messageID bodyHash ack now) in
  if negb stored then ret false
  else
    let! persisted := persistState now in
    if negb persisted then
      on_link (fun l => (tt, abandonRevocation serviceID messageID bodyHash l)) ;;; ret false
    else on_link (finish_ack serviceID messageID bodyHash).

(** ** Commands *)

(** What a command handler returns: [response, closeConnection], where a response
    that could not be built is [(None, true)]. *)
Definition reply : Type := option pc_message * bool.

Definition error_reply (inReplyTo : list Z) (code : string) : control reply :=
  let! response := newPrivateControlError inReplyTo code in
  match response with
  | Some response => ret (Some response, false)
  | None => ret (None, true)
  end.

Definition abandon (serviceID : string) (messageID bodyHash : list Z) : control unit :=
  on_link (fun l => (tt, abandonRevocation serviceID messageID bodyHash l)).

(** [s.serviceAdmission == nil || s.serviceAdmission.mode == serviceAdmissionOff]. *)
Definition revocation_off (s : server) : bool := negb (bool_decide (is_Some (serviceAdmissions s))).

(** [handleRevocation] with its command slot taken and released by the caller. *)
Definition execute_revocation (serviceID : string) (selectorID : list Z) (command : privateControlRevokeServiceAdmission)
    (target : serviceAdmissionRevocationTarget) (bodyHash : list Z) : control reply :=
  let! s := gets w_server in
  if revocation_off s then abandon serviceID selectorID bodyHash ;;; error_reply selectorID "unauthorized"
  else
    let! now := next pc_now in
    let denyUntil := Unix (rv_DenyUntil command) in
    if After denyUntil (Add now privateControlMaxDenyPeriod) then
      abandon serviceID selectorID bodyHash ;;; error_reply selectorID "invalid_revocation_deadline"
    else
      let! ackID := newPrivateControlID in
      match ackID with
      | None => abandon serviceID selectorID bodyHash ;;; ret (None, true)
      | Some ackID =>
          let ack outcome affected talks :=
            {| ak_SchemaVersion := privateControlSchemaVersion; ak_Type := "ack"; ak_MessageID := ackID;
               ak_InReplyTo := selectorID; ak_Outcome := outcome; ak_DenyUntil := rv_DenyUntil command;
               ak_AffectedMembershipCount := affected; ak_TalkReleaseCount := talks |} in
          let finish a :=
            let! completed := completeRevocation serviceID selectorID bodyHash a now in
            if completed then ret (Some (MAck a), false) else error_reply selectorID "overloaded" in
          if negb (After denyUntil now) then finish (ack "already_expired"%string 0 0)
          else
            let! revoked := on_server (revokeManagedServiceAdmission target denyUntil now) in
            match revoked with
            | None => abandon serviceID selectorID bodyHash ;;; error_reply selectorID "overloaded"
            | Some r => finish (ack "applied"%string (affectedMemberships r) (talkReleases r))
            end
      end.

Definition handleRevocation (serviceID : string) (raw : list Z) (selectorID : list Z) : control reply :=
  match decodePrivateControlJSON decode_revocation raw with
  | None => ret (None, true)
  | Some command =>
      match validPrivateControlRevocation command with
      | None => ret (None, true)
      | Some target =>
          match privateControlRevocationDigest command with
          | None => ret (None, true)
          | Some bodyHash =>
              let! now := next pc_now in
              let! begun := on_link (beginRevocation serviceID selectorID bodyHash now) in
              match begun with
              | Conflict => ret (None, true)
              | Cached ack => ret (Some (MAck ack), false)
              | Overloaded => error_reply selectorID "overloaded"
              | Pending =>
                  let! awaited := next pc_awaited in
                  let! l := gets w_link in
                  match (if awaited : bool then cachedCompletedRevocation serviceID selectorID bodyHash l else None) with
                  | Some ack => ret (Some (MAck ack), false)
                  | None => error_reply selectorID "overloaded"
                  end
              | Execute =>
                  let! acquired := on_link acquireCommand in
                  if negb acquired then abandon serviceID selectorID bodyHash ;;; error_reply selectorID "overloaded"
                  else
                    let! response := execute_revocation serviceID selectorID command target bodyHash in
                    on_link (fun l => (tt, releaseCommand l)) ;;; ret response
              end
          end
      end
  end.

Definition handleRelayDiagnostics (sid : nat) (raw selectorID : list Z) : control reply :=
  match decodePrivateControlJSON decode_command raw with
  | None => ret (None, true)
  | Some request =>
      if negb (validPrivateControlCommand "get_relay_diagnostics" request) then ret (None, true)
      else
        let! l := gets w_link in
        match pl_objects l !! sid with
        | None => ret (None, true)
        | Some se =>
            if negb (se_diagnostics se) then error_reply selectorID "unsupported_message"
            else
              let! now := next pc_now in
              if negb (IsZero (se_lastDiagnostics se))
                 && (Sub now (se_lastDiagnostics se) <? privateControlDiagnosticsMinInterval) then error_reply selectorID "overloaded"
              else
                let! messageID := newPrivateControlID in
                match messageID with
                | None => error_reply selectorID "internal_error"
                | Some messageID =>
                    let! snapshot := gets (fun w => relayDiagnosticsSnapshot (floorInterrupt (w_server w)) (diagnostics (w_server w))) in
                    on_link (on_session sid tt (fun se => (tt, set_lastDiagnostics se now))) ;;;
                    ret (Some (MDiagnostics messageID (ce_MessageID request) (pl_relayID l) (fst snapshot) now (snd snapshot)), false)
                end
        end
  end.

(** The loop over the chunks of a snapshot. *)
Fixpoint enqueue_chunks (sid : nat) (inReplyTo snapshotID : list Z) (count index : Z)
    (chunks : list (list privateControlSnapshotChannel)) : control bool :=
  match chunks with
  | [] => ret true
  | entries :: rest =>
      let! messageID := newPrivateControlID in
      match messageID with
      | None => ret false
      | Some messageID =>
          let! queued := on_link (pc_enqueue sid (MSnapshot
            {| rs_MessageID := messageID; rs_InReplyTo := inReplyTo; rs_SnapshotID := snapshotID; rs_ChunkIndex := u16 index;
               rs_ChunkCount := u16 count; rs_Channels := entries |})) in
          if negb queued then ret false else enqueue_chunks sid inReplyTo snapshotID count (index + 1) rest
      end
  end.

Definition enqueue_error (sid : nat) (inReplyTo : list Z) (code : string) : control bool :=
  let! response := newPrivateControlError inReplyTo code in
  match response with
  | None => ret false
  | Some response => on_link (pc_enqueue sid response)
  end.

Context `{SliceSort}.

Definition handleRelayStateSnapshot (sid : nat) (raw selectorID : list Z) : control bool :=
  match decodePrivateControlJSON decode_command raw with
  | None => ret false
  | Some request =>
      if negb (validPrivateControlCommand "get_relay_state_snapshot" request) then ret false
      else
        let! chunks := gets (fun w => privateControlSnapshotChunks (w_server w)) in
        match chunks with
        | None => enqueue_error sid selectorID "overloaded"
        | Some chunks =>
            let! snapshotID := newPrivateControlID in
            match snapshotID with
            | None => ret false
            | Some snapshotID => enqueue_chunks sid (ce_MessageID request) snapshotID (len chunks) 0 chunks
            end
        end
  end.

(** ** Connections *)

Definition record_failure (source : string) : control unit :=
  let! now := next pc_now in
  on_link (fun l => (tt, recordConnectionFailure source now l)).

Definition send_reply (sid : nat) (source : string) (r : reply) : control bool :=
  match r with
  | (_, true) => record_failure source ;;; ret false
  | (None, false) => ret false
  | (Some response, false) => on_link (pc_enqueue sid response)
  end.

(** One turn of the loop of [handleConnection]; [false] ends the connection. *)
Definition handle_message (sid : nat) (serviceID source : string) (raw : list Z) : control bool :=
  match decodePrivateControlSelector raw with
  | None => record_failure source ;;; ret false
  | Some selector =>
      if String.eqb (ce_Type selector) "ping" then
        match decodePrivateControlJSON decode_command raw with
        | Some ping =>
            if negb (validPrivateControlCommand "ping" ping) then record_failure source ;;; ret false
            else
              let! pongID := newPrivateControlID in
              match pongID with
              | None => ret false
              | Some pongID => on_link (pc_enqueue sid (MPong pongID (ce_MessageID ping)))
              end
        | None => record_failure source ;;; ret false
        end
      else if String.eqb (ce_Type selector) "revoke_service_admission" then
        let! response := handleRevocation serviceID raw (ce_MessageID selector) in send_reply sid source response
      else if String.eqb (ce_Type selector) "get_relay_diagnostics" then
        let! response := handleRelayDiagnostics sid raw (ce_MessageID selector) in send_reply sid source response
      else if String.eqb (ce_Type selector) "get_relay_state_snapshot" then
        handleRelayStateSnapshot sid raw (ce_MessageID selector)
      else enqueue_error sid (ce_MessageID selector) "unsupported_message"
  end.

(** The writer takes up to [n] messages. *)
Fixpoint drain (n : nat) (sid : nat) : control unit :=
  match n with
  | O => ret tt
  | S n => on_link (take_message sid) ;;; drain n sid
  end.

(** The loop of [handleConnection] over what the peer sends before it closes; the
    result is [false] only out of fuel. *)
Fixpoint serve (fuel : nat) (sid : nat) (serviceID source : string) (stream : list Z) : control bool :=
  match fuel with
  | O => ret false
  | S k =>
      match readPrivateControlFrame stream with
      | FrameEOF => ret true
      | FrameBad => record_failure source ;;; ret true
      | Frame raw rest =>
          let! continue := handle_message sid serviceID source raw in
          if negb continue then ret true
          else
            let! taken := next pc_taken in
            drain taken sid ;;;
            serve k sid serviceID source rest
      end
  end.

(** [handleConnection] of a connection authenticated as [serviceID]. *)
Definition handle_session (serviceID source : string) (hello : privateControlHello) (stream : list Z) : control bool :=
  match hl_WantLifecycleEvents hello, hl_WantAuditInputs hello, hl_WantDiagnostics hello with
  | Some events, Some audits, Some diags =>
      let se := {| se_serviceID := serviceID; se_lifecycleEvents := events; se_auditInputs := audits; se_diagnostics := diags;
                   se_lastDiagnostics := zero_time; se_send := []; se_done := false |} in
      let! sid := on_link (addSession se) in
      let! served := (
        let! sessionID := newPrivateControlID in
        let! ackID := (match sessionID with None => ret None | Some _ => newPrivateControlID end) in
        match sessionID, ackID with
        | Some sessionID, Some ackID =>
            let! l := gets w_link in
            let! queued := on_link (pc_enqueue sid (MHelloAck
              {| ha_MessageID := ackID; ha_InReplyTo := hl_MessageID hello; ha_SessionID := sessionID; ha_RelayID := pl_relayID l;
                 ha_LifecycleEventsAccepted := events; ha_AuditInputsAccepted := audits; ha_DiagnosticsAccepted := diags |})) in
            if negb queued then ret true
            else
              let! healthy := (
                if negb events then ret true
                else
                  let! health := newPrivateControlLifecycleEvent "relay_health_changed" None None None None (Some "healthy"%string) None in
                  match health with
                  | None => ret false
                  | Some health => on_link (pc_enqueue sid (MEvent health))
                  end) in
              if negb healthy then ret true else serve (S (length stream)) sid serviceID source stream
        | _, _ => ret true
        end) in
      on_link (fun l => (tt, removeSession sid l)) ;;; ret served
  | _, _, _ => ret true
  end.

(** [authenticate] and what it returns is [serviceID], [None] its error. *)
Definition handleConnection (source : string) (serviceID : option string) (stream : list Z) : control bool :=
  let! now := next pc_now in
  let! allowed := on_link (allowConnectionAttempt source now) in
  if negb allowed then ret true
  else
    match serviceID with
    | None => record_failure source ;;; ret true
    | Some serviceID =>
        match readPrivateControlFrame stream with
        | FrameEOF => ret true
        | FrameBad => record_failure source ;;; ret true
        | Frame raw rest =>
            match decodePrivateControlJSON decode_hello raw with
            | None => record_failure source ;;; ret true
            | Some hello =>
                if negb (validPrivateControlHello hello) then record_failure source ;;; ret true
                else if negb (String.eqb (hl_ManagementServiceID hello) serviceID) then
                  let! _ := newPrivateControlError (hl_MessageID hello) "identity_mismatch" in ret true
                else handle_session serviceID source hello rest
            end
        end
    end.

(** [acceptLoop] of one connection. *)
Definition acceptConnection (source : string) (serviceID : option string) (stream : list Z) : control bool :=
  let! acquired := on_link acquireConnection in
  if negb acquired then ret true
  else
    let! served := handleConnection source serviceID stream in
    on_link (fun l => (tt, releaseConnection l)) ;;; ret served.
End link.

(** An environment whose clock starts at [toy_now] and goes on by a nanosecond, and
    whose writes succeed. *)
#[refine] Definition counting_link_environment : PrivateEnvironment :=
  {| pc_now := fun n => toy_now + Z.of_nat n; pc_random := fun n => Some (replicate 16 (Z.of_nat n mod 256));
     pc_write := fun _ => WriteDone; pc_awaited := fun _ => true; pc_taken := fun _ => 1%nat |}.
Proof.
  intros n v [= <-]. split; [|done]. repeat constructor; unfold is_u8; change (2 ^ 8) with 256; apply Z.mod_pos_bound; lia.
Defined.
