(* ===== verification/PrivateSpec.v ===== *)
(** * The private control link under any interleaving

    The sections of the link as labelled steps ([link_does]), the transitions of the
    server, the link and the state file together ([control_step]), that every handler
    of [PrivateLink] is a run of them, and what holds in every reachable state: the
    tables are bounded, and a revocation is executed once per message. *)

From S2P Require Import Prelude GoTime Sha256 Base64 ControlAuth Identity Service Diagnostics Server Send Relay Steps Directory PrivateControl PrivateState PrivateSnapshot PrivateLink.

(** ** Steps *)

(** What a section of the link does to its idempotency entries. *)
Inductive link_event :=
| EvBegin (serviceID : string) (messageID bodyHash : list Z) (now : time)
| EvStore (serviceID : string) (messageID bodyHash : list Z) (ack : privateControlAck) (now : time)
| EvFinish (serviceID : string) (messageID bodyHash : list Z)
| EvAbandon (serviceID : string) (messageID bodyHash : list Z)
| EvSnapshot (now : time)
| EvAttempt (source : string) (now : time)
| EvFailure (source : string) (now : time)
| EvSlots (f : privateControlLink -> bool * privateControlLink)
| EvSessions (f : privateControlLink -> privateControlLink).

(** The four operations on slots. *)
Inductive slot_operation : (privateControlLink -> bool * privateControlLink) -> Prop :=
| slot_acquireCommand : slot_operation acquireCommand
| slot_releaseCommand : slot_operation (fun l => (true, releaseCommand l))
| slot_acquireConnection : slot_operation acquireConnection
| slot_releaseConnection : slot_operation (fun l => (true, releaseConnection l)).

Section steps.
Context `{RangeOrder}.

(** The operations on sessions and their queues. *)
Inductive session_operation : (privateControlLink -> privateControlLink) -> Prop :=
| op_enqueue sid message : session_operation (fun l => (pc_enqueue sid message l).2)
| op_add se : se_send se = [] -> se_done se = false -> session_operation (fun l => (addSession se l).2)
| op_remove sid : session_operation (removeSession sid)
| op_take sid : session_operation (fun l => (take_message sid l).2)
| op_diagnostics sid now : session_operation (fun l => (on_session sid tt (fun se => (tt, set_lastDiagnostics se now)) l).2)
| op_events wants message : session_operation (enqueue_wanted wants message).

Inductive link_does (l : privateControlLink) : link_event -> privateControlLink -> Prop :=
| does_begin serviceID messageID bodyHash now :
    link_does l (EvBegin serviceID messageID bodyHash now) (beginRevocation serviceID messageID bodyHash now l).2
| does_store serviceID messageID bodyHash ack now :
    link_does l (EvStore serviceID messageID bodyHash ack now) (store_ack serviceID messageID bodyHash ack now l).2
| does_finish serviceID messageID bodyHash :
    link_does l (EvFinish serviceID messageID bodyHash) (finish_ack serviceID messageID bodyHash l).2
| does_abandon serviceID messageID bodyHash :
    link_does l (EvAbandon serviceID messageID bodyHash) (abandonRevocation serviceID messageID bodyHash l)
| does_snapshot now : link_does l (EvSnapshot now) (snapshot_idempotency now l).2
| does_attempt source now : link_does l (EvAttempt source now) (allowConnectionAttempt source now l).2
| does_failure source now : source <> EmptyString -> link_does l (EvFailure source now) (recordConnectionFailure source now l)
| does_slots f : slot_operation f -> link_does l (EvSlots f) (f l).2
| does_sessions f : session_operation f -> link_does l (EvSessions f) (f l).

Context `{Entropy} `{PrivateStateJSON}.

(** One section of any goroutine: of the server, of the service admission, of the
    link, a write of the state file, or a use of the environment. *)
Inductive control_step (w : pc_world) : pc_world -> Prop :=
| cstep_server s : server_step (fun _ => True) (w_server w) s -> control_step w (set_server w s)
| cstep_link ev l : link_does (w_link w) ev l -> control_step w (set_link w l)
| cstep_file outcome st : control_step w (set_file w (writePrivateControlPersistentState outcome st (w_file w)).2)
| cstep_tick n : control_step w {| w_server := w_server w; w_link := w_link w; w_file := w_file w; w_tick := n |}.

(** ** The handlers are runs of the steps *)

Lemma steps_atomically {S O A} (R : relation S) (f : S -> A * S) :
  (forall s, R s (f s).2) -> steps R (atomically f : M S O A).
Proof. intros Hf s. unfold final, atomically. specialize (Hf s). destruct (f s). by apply rtc_once. Qed.

Lemma steps_on_link {A} (f : privateControlLink -> A * privateControlLink) :
  (forall l, exists ev, link_does l ev (f l).2) -> steps control_step (on_link f).
Proof.
  intros Hf. apply steps_atomically. intros w. destruct (Hf (w_link w)) as [ev Hev].
  destruct (f (w_link w)) as [a l]. by eapply cstep_link.
Qed.

Lemma steps_next {A} (f : nat -> A) : steps control_step (next f).
Proof. apply steps_atomically. intros w. apply cstep_tick. Qed.
Hint Resolve steps_next : effects.

Ltac link_section c := intros; unfold abandon; apply steps_on_link; intros l; eexists; by apply c.

Lemma steps_begin serviceID messageID bodyHash now : steps control_step (on_link (beginRevocation serviceID messageID bodyHash now)).
Proof. link_section does_begin. Qed.
Lemma steps_store serviceID messageID bodyHash ack now : steps control_step (on_link (store_ack serviceID messageID bodyHash ack now)).
Proof. link_section does_store. Qed.
Lemma steps_finish serviceID messageID bodyHash : steps control_step (on_link (finish_ack serviceID messageID bodyHash)).
Proof. link_section does_finish. Qed.
Lemma steps_abandon serviceID messageID bodyHash : steps control_step (abandon serviceID messageID bodyHash).
Proof. link_section does_abandon. Qed.
Lemma steps_entries now : steps control_step (on_link (snapshot_idempotency now)).
Proof. link_section does_snapshot. Qed.
Lemma steps_attempt source now : steps control_step (on_link (allowConnectionAttempt source now)).
Proof. link_section does_attempt. Qed.
Lemma steps_slots f : slot_operation f -> steps control_step (on_link f).
Proof. link_section does_slots. Qed.
Lemma steps_slots_unit f : slot_operation (fun l => (true, f l)) -> steps control_step (on_link (fun l => (tt, f l))).
Proof. intros Hf. apply steps_on_link. intros l. eexists. by apply (does_slots _ (fun l => (true, f l))). Qed.
Lemma steps_sessions {A} (f : privateControlLink -> A * privateControlLink) :
  session_operation (fun l => (f l).2) -> steps control_step (on_link f).
Proof. intros Hf. apply steps_on_link. intros l. eexists. by apply (does_sessions l (fun l => (f l).2)). Qed.
Hint Resolve steps_begin steps_store steps_finish steps_abandon steps_entries steps_attempt steps_slots steps_slots_unit
  steps_sessions slot_acquireCommand slot_releaseCommand slot_acquireConnection slot_releaseConnection : effects.

Lemma steps_enqueue sid message : steps control_step (on_link (pc_enqueue sid message)).
Proof. apply steps_sessions. apply op_enqueue. Qed.
Lemma steps_add se : se_send se = [] -> se_done se = false -> steps control_step (on_link (addSession se)).
Proof. intros. apply steps_sessions. by apply op_add. Qed.
Lemma steps_removeSession sid : steps control_step (on_link (fun l => (tt, removeSession sid l))).
Proof. apply (steps_sessions (fun l => (tt, removeSession sid l))). apply op_remove. Qed.
Lemma steps_take sid : steps control_step (on_link (take_message sid)).
Proof. apply steps_sessions. apply op_take. Qed.
Lemma steps_lastDiagnostics sid now :
  steps control_step (on_link (on_session sid tt (fun se => (tt, set_lastDiagnostics se now)))).
Proof. apply steps_sessions. apply op_diagnostics. Qed.
Lemma steps_wanted wants message : steps control_step (on_link (fun l => (tt, enqueue_wanted wants message l))).
Proof. apply (steps_sessions (fun l => (tt, enqueue_wanted wants message l))). apply op_events. Qed.
Hint Resolve steps_enqueue steps_add steps_removeSession steps_take steps_lastDiagnostics steps_wanted : effects.
Hint Unfold enqueueLifecycleEvent enqueueAuditInput : effects.

Context `{PrivateControlJSON} `{PrivateEnvironment}.

Lemma steps_id : steps control_step newPrivateControlID.
Proof. unfold newPrivateControlID. effects. Qed.
Hint Resolve steps_id : effects.
Lemma steps_error messageID code : steps control_step (newPrivateControlError messageID code).
Proof. unfold newPrivateControlError. effects. Qed.
Hint Resolve steps_error : effects.
Lemma steps_error_reply messageID code : steps control_step (error_reply messageID code).
Proof. unfold error_reply. effects. Qed.
Lemma steps_event et ch sd sv job st rs : steps control_step (newPrivateControlLifecycleEvent et ch sd sv job st rs).
Proof. unfold newPrivateControlLifecycleEvent. effects. Qed.
Hint Resolve steps_error_reply steps_event : effects.
Lemma steps_publishLifecycle et ch sd sv job st rs : steps control_step (publishLifecycleEvent et ch sd sv job st rs).
Proof. unfold publishLifecycleEvent, enqueueLifecycleEvent. effects. Qed.
Lemma steps_pc_audit at_ ai ch p res rs rp : steps control_step (pc_publishFloorInterruptAudit at_ ai ch p res rs rp).
Proof. unfold pc_publishFloorInterruptAudit, enqueueAuditInput. effects. Qed.
Hint Resolve steps_publishLifecycle steps_pc_audit : effects.
Lemma steps_deliver o : steps control_step (deliver o).
Proof. unfold deliver. effects. Qed.
Hint Resolve steps_deliver : effects.

Lemma server_run w s s' :
  rtc (server_step (fun _ => True)) s s' -> rtc control_step (set_server w s) (set_server w s').
Proof. induction 1 as [|s1 s2 s3 Hs _ IH]; [done|]. eapply rtc_l; [|exact IH]. by apply (cstep_server (set_server w s1)). Qed.

Lemma steps_on_server {A} (m : handler A) : steps (server_step (fun _ => True)) m -> steps control_step (on_server m).
Proof.
  intros Hm w. unfold on_server, final. specialize (Hm (w_server w)). unfold final in Hm.
  destruct (m (w_server w)) as [[a s] os]. cbn [fst snd] in Hm.
  pose proof (steps_for_each control_step os deliver steps_deliver (set_server w s)) as Hd. unfold final in Hd.
  destruct (for_each os deliver (set_server w s)) as [[u w'] os']. cbn [fst snd] in *. etrans; [|exact Hd].
  pose proof (server_run w _ _ Hm) as Hl.
  by destruct w.
Qed.

Lemma steps_persist now : steps control_step (persistState now).
Proof.
  unfold persistState. apply steps_bind; [auto with effects|]. intros s. destruct (serviceAdmissions s); [|auto with effects].
  apply steps_bind.
  { apply steps_atomically. intros w. destruct (activeDenyRules _ _) as [rules sa] eqn:Ea. apply cstep_server. unfold with_service.
    apply step_sides; [reflexivity..|]. by eapply activeDenyRules_same. }
  intros rules. apply steps_bind; [auto with effects|]. intros entries. apply steps_bind; [auto with effects|]. intros outcome.
  apply steps_atomically. intros w. destruct (writePrivateControlPersistentState _ _ _) as [ok file] eqn:E.
  pose proof (cstep_file w outcome (persistent_state rules entries)) as Hc. by rewrite E in Hc.
Qed.
Hint Resolve steps_persist : effects.

Lemma steps_complete serviceID messageID bodyHash ack now :
  steps control_step (completeRevocation serviceID messageID bodyHash ack now).
Proof. unfold completeRevocation. fold (abandon serviceID messageID bodyHash). effects. Qed.
Hint Resolve steps_complete : effects.

Lemma steps_revoke_on_server target until now :
  steps control_step (on_server (revokeManagedServiceAdmission target until now)).
Proof. apply steps_on_server. by apply steps_revoke. Qed.
Hint Resolve steps_revoke_on_server : effects.

Lemma steps_execute serviceID messageID command target bodyHash :
  steps control_step (execute_revocation serviceID messageID command target bodyHash).
Proof. unfold execute_revocation. effects. Qed.
Hint Resolve steps_execute : effects.

Lemma steps_handleRevocation serviceID raw messageID : steps control_step (handleRevocation serviceID raw messageID).
Proof. unfold handleRevocation. effects. Qed.
Lemma steps_relay_diagnostics sid raw messageID : steps control_step (handleRelayDiagnostics sid raw messageID).
Proof. unfold handleRelayDiagnostics. effects. Qed.
Lemma steps_chunks sid inReplyTo snapshotID count chunks : forall index,
  steps control_step (enqueue_chunks sid inReplyTo snapshotID count index chunks).
Proof. induction chunks as [|c chunks IH]; intros index; cbn [enqueue_chunks]; effects. Qed.
Lemma steps_enqueue_error sid messageID code : steps control_step (enqueue_error sid messageID code).
Proof. unfold enqueue_error. effects. Qed.
Hint Resolve steps_handleRevocation steps_relay_diagnostics steps_chunks steps_enqueue_error : effects.

Context `{SliceSort}.

Lemma steps_snapshot sid raw messageID : steps control_step (handleRelayStateSnapshot sid raw messageID).
Proof. unfold handleRelayStateSnapshot. effects. Qed.
Hint Resolve steps_snapshot : effects.

Lemma steps_failure source : source <> EmptyString -> steps control_step (record_failure source).
Proof.
  intros Hs. unfold record_failure. apply steps_bind; [auto with effects|]. intros now. apply steps_on_link. intros l.
  eexists. by apply does_failure.
Qed.
Hint Resolve steps_failure : effects.
Lemma steps_send_reply sid source r : source <> EmptyString -> steps control_step (send_reply sid source r).
Proof. intros. unfold send_reply. effects. Qed.
Hint Resolve steps_send_reply : effects.
Lemma steps_handle_message sid serviceID source raw :
  source <> EmptyString -> steps control_step (handle_message sid serviceID source raw).
Proof. intros. unfold handle_message. effects. Qed.
Lemma steps_drain n sid : steps control_step (drain n sid).
Proof. induction n; cbn [drain]; effects. Qed.
Hint Resolve steps_handle_message steps_drain : effects.
Lemma steps_serve fuel sid serviceID source : source <> EmptyString -> forall stream,
  steps control_step (serve fuel sid serviceID source stream).
Proof. intros Hs. induction fuel as [|k IH]; intros stream; cbn [serve]; effects. Qed.
Hint Resolve steps_serve : effects.
Lemma steps_session serviceID source hello stream :
  source <> EmptyString -> steps control_step (handle_session serviceID source hello stream).
Proof.
  intros. unfold handle_session. case_match; [|effects]. case_match; [|effects]. case_match; [|effects].
  cbv zeta. apply steps_bind; [by apply steps_add|]. effects.
Qed.
Hint Resolve steps_session : effects.
Lemma steps_handleConnection source serviceID stream :
  source <> EmptyString -> steps control_step (handleConnection source serviceID stream).
Proof. intros. unfold handleConnection. effects. Qed.
Hint Resolve steps_handleConnection : effects.
Lemma steps_accept source serviceID stream :
  source <> EmptyString -> steps control_step (acceptConnection source serviceID stream).
Proof. intros. unfold acceptConnection. effects. Qed.
End steps.

(** ** Bounds *)

(** The tables of a link are within their limits; a service has at most one open
    session, the one the link delivers to, and its queue is within its depth. *)
Record link_ok (l : privateControlLink) : Prop := {
  lk_idempotency : Z.of_nat (size (pl_idempotency l)) <= privateControlMaxIdempotency;
  lk_failures : Z.of_nat (size (pl_failures l)) <= privateControlMaxFailureSources;
  lk_sources : pl_failures l !! EmptyString = None;
  lk_commands : commandSlots l <= privateControlMaxCommands;
  lk_connections : connections l <= privateControlMaxConnections;
  lk_queues : map_Forall (fun _ se => len (se_send se) <= privateControlSessionQueueDepth) (pl_objects l);
  lk_next : map_Forall (fun sid _ => (sid < pl_next l)%nat) (pl_objects l);
  lk_registered : forall serviceID sid, pl_sessions l !! serviceID = Some sid ->
    exists se, pl_objects l !! sid = Some se /\ se_serviceID se = serviceID /\ se_done se = false;
  lk_open : forall sid se, pl_objects l !! sid = Some se -> se_done se = false -> pl_sessions l !! se_serviceID se = Some sid
}.

Section bounds.
Context `{RangeOrder}.

Lemma link_ok_control l fails idem :
  link_ok l -> Z.of_nat (size idem) <= privateControlMaxIdempotency -> Z.of_nat (size fails) <= privateControlMaxFailureSources ->
  fails !! EmptyString = None -> link_ok (with_control l fails idem).
Proof. intros []. by constructor. Qed.

Lemma size_filter_le {K} `{Countable K} {A} (P : K * A -> Prop) `{forall x, Decision (P x)} (m : gmap K A) :
  (size (filter P m) <= size m)%nat.
Proof. apply map_subseteq_size, map_filter_subseteq. Qed.

Lemma size_insert_le {K} `{Countable K} {A} (m : gmap K A) k v : (size (<[k := v]> m) <= S (size m))%nat.
Proof.
  destruct (m !! k) eqn:E; [rewrite map_size_insert_Some by (by eexists)|rewrite map_size_insert_None by done]; lia.
Qed.

Lemma link_ok_cleanup now l : link_ok l -> link_ok (cleanupIdempotencyLocked now l).
Proof.
  intros Hl. unfold cleanupIdempotencyLocked. apply link_ok_control; [done| | |].
  - etransitivity; [apply inj_le, size_filter_le|]. apply Hl.
  - etransitivity; [apply inj_le, size_filter_le|]. apply Hl.
  - apply map_lookup_filter_None. left. apply Hl.
Qed.

(** An update of the entry of a key that is there. *)
Lemma link_ok_update l key entry :
  link_ok l -> is_Some (pl_idempotency l !! key) -> link_ok (with_control l (pl_failures l) (<[key := entry]> (pl_idempotency l))).
Proof.
  intros Hl Hk. apply link_ok_control; [done| |apply Hl|apply Hl]. rewrite map_size_insert_Some by done. apply Hl.
Qed.

Lemma link_ok_begin serviceID messageID bodyHash now l : link_ok l -> link_ok (beginRevocation serviceID messageID bodyHash now l).2.
Proof.
  intros Hl. unfold beginRevocation. apply (link_ok_cleanup now) in Hl. revert Hl. generalize (cleanupIdempotencyLocked now l). clear l.
  intros l Hl. cbv zeta. repeat case_match; try done. gobool. apply link_ok_control; [done| |apply Hl|apply Hl].
  rewrite map_size_insert_None by done. unfold privateControlMaxIdempotency in *. lia.
Qed.

Lemma link_ok_store serviceID messageID bodyHash ack now l : link_ok l -> link_ok (store_ack serviceID messageID bodyHash ack now l).2.
Proof. intros Hl. unfold store_ack. repeat case_match; try done. apply link_ok_update; [done|by eexists]. Qed.

Lemma link_ok_finish serviceID messageID bodyHash l : link_ok l -> link_ok (finish_ack serviceID messageID bodyHash l).2.
Proof. intros Hl. unfold finish_ack. repeat case_match; try done. apply link_ok_update; [done|by eexists]. Qed.

Lemma link_ok_abandon serviceID messageID bodyHash l : link_ok l -> link_ok (abandonRevocation serviceID messageID bodyHash l).
Proof.
  intros Hl. unfold abandonRevocation. repeat case_match; try done. apply link_ok_control; [done| |apply Hl|apply Hl].
  etransitivity; [|apply Hl]. apply inj_le, map_subseteq_size, delete_subseteq.
Qed.

Lemma link_ok_attempt source now l : link_ok l -> link_ok (allowConnectionAttempt source now l).2.
Proof. intros Hl. unfold allowConnectionAttempt. repeat case_match; by apply link_ok_cleanup. Qed.

(** The source that is evicted is one of the table. *)
Lemma oldest_source_in (failures : gmap string privateControlFailureState) :
  failures <> ∅ -> is_Some (failures !! (oldest_source failures).1).
Proof.
  intros Hne. unfold oldest_source.
  assert (forall kvs acc, Forall (fun kv => is_Some (failures !! kv.1)) kvs ->
    (is_Some (failures !! acc.1) \/ (acc.2 = zero_time /\ kvs <> [])) ->
    is_Some (failures !! (foldl (fun acc (kv : string * privateControlFailureState) =>
      if IsZero acc.2 || Before (fs_lastSeen kv.2) acc.2 then (kv.1, fs_lastSeen kv.2) else acc) acc kvs).1)) as Hgen.
  { induction kvs as [|kv kvs IH]; intros acc Hall Hacc; [cbn; naive_solver|].
    apply Forall_cons in Hall as [Hkv Hall]. cbn [foldl]. apply IH; [done|].
    destruct (IsZero acc.2) eqn:Ez; cbn [orb]; [by left|]. destruct Hacc as [Hacc|[Hz _]]; [|by rewrite Hz in Ez].
    left. by destruct (Before _ _). }
  apply Hgen.
  - apply Forall_forall. intros kv Hkv. rewrite (range_perm failures) in Hkv. destruct kv. apply elem_of_map_to_list in Hkv. by eexists.
  - right. split; [done|]. intros E. apply Hne. apply map_to_list_empty_iff. pose proof (range_perm failures) as Hp. rewrite E in Hp. by apply Permutation_nil.
Qed.

Lemma link_ok_failure source now l : source <> EmptyString -> link_ok l -> link_ok (recordConnectionFailure source now l).
Proof.
  intros Hs Hl. unfold recordConnectionFailure. apply (link_ok_cleanup now) in Hl. revert Hl.
  generalize (cleanupIdempotencyLocked now l). clear l. intros l Hl. cbv zeta.
  set (state := default _ (pl_failures l !! source)).
  assert (forall fs, Z.of_nat (size (<[source := fs]> (pl_failures l))) <= privateControlMaxFailureSources ->
    link_ok (with_control l (<[source := fs]> (pl_failures l)) (pl_idempotency l))) as Hput.
  { intros fs Hsize. apply link_ok_control; [done|apply Hl|done|]. rewrite lookup_insert_ne by done. apply Hl. }
  pose proof (lk_failures l Hl) as Hf. unfold privateControlMaxFailureSources in *.
  destruct (IsZero (fs_windowStarted state) || _) eqn:Enew.
  2:{ apply Hput. destruct (pl_failures l !! source) eqn:E; [by rewrite map_size_insert_Some|]. by subst state. }
  destruct (1024 <=? Z.of_nat (size (pl_failures l))) eqn:Efull; gobool; cbn [andb].
  2:{ apply Hput. etransitivity; [apply inj_le; apply (size_insert_le _ source)|]. lia. }
  assert (pl_failures l <> ∅) as Hne by (intros E; rewrite E, map_size_empty in Efull; lia).
  pose proof (oldest_source_in _ Hne) as Hin. set (oldest := (oldest_source (pl_failures l)).1) in *.
  assert (oldest <> EmptyString) as Ho by (intros E; rewrite E, (lk_sources l Hl) in Hin; by destruct Hin).
  rewrite (proj2 (String.eqb_neq oldest "")) by done. cbn [negb].
  apply link_ok_control; [done|apply Hl| |].
  - etransitivity; [apply inj_le; apply (size_insert_le _ source)|]. rewrite map_size_delete_Some by done.
    unfold privateControlMaxFailureSources. lia.
  - rewrite lookup_insert_ne by done. apply lookup_delete_None. right. apply Hl.
Qed.

Lemma link_ok_slots f l : slot_operation f -> link_ok l -> link_ok (f l).2.
Proof.
  intros [] []; unfold acquireCommand, releaseCommand, acquireConnection, releaseConnection; repeat case_match; gobool;
    constructor; cbn; try done; lia.
Qed.

(** A method of an open or closed session that keeps its service and whether it is
    open. *)
Lemma link_ok_object {A} sid (dflt : A) f l :
  (forall se, let se' := (f se).2 in se_serviceID se' = se_serviceID se /\ se_done se' = se_done se /\
     (len (se_send se) <= privateControlSessionQueueDepth -> len (se_send se') <= privateControlSessionQueueDepth)) ->
  link_ok l -> link_ok (on_session sid dflt f l).2.
Proof.
  intros Hf Hl. unfold on_session. destruct (pl_objects l !! sid) as [se|] eqn:E; [|done].
  specialize (Hf se). destruct (f se) as [a se']. cbn [snd] in *. destruct Hf as (H1 & H2 & H3). destruct Hl. constructor; cbn; try done.
  - apply map_Forall_insert_2; [|done]. apply H3. by apply (lk_queues0 sid).
  - apply map_Forall_insert_2; [|done]. by apply (lk_next0 sid se).
  - intros svc sid' Hs. destruct (lk_registered0 _ _ Hs) as (se1 & Ho & Hsv & Hd). destruct (decide (sid = sid')) as [<-|Hne].
    + rewrite lookup_insert_eq. exists se'. split; [done|]. rewrite E in Ho. injection Ho as <-. by rewrite H1, H2.
    + rewrite lookup_insert_ne by done. by exists se1.
  - intros sid' se1 Ho Hd. destruct (decide (sid = sid')) as [<-|Hne].
    + rewrite lookup_insert_eq in Ho. injection Ho as <-. rewrite H1. apply lk_open0; [done|congruence].
    + rewrite lookup_insert_ne in Ho by done. by apply lk_open0.
Qed.

Lemma session_enqueue_keeps message se : let se' := (session_enqueue message se).2 in
  se_serviceID se' = se_serviceID se /\ se_done se' = se_done se /\
  (len (se_send se) <= privateControlSessionQueueDepth -> len (se_send se') <= privateControlSessionQueueDepth).
Proof.
  unfold session_enqueue. destruct (se_done se) eqn:Ed; [done|]. destruct (_ <? _) eqn:El; gobool; cbn; [|done].
  split; [done|]. split; [done|]. intros _. rewrite len_app. unfold len at 2. cbn. lia.
Qed.

Lemma link_ok_enqueue sid message l : link_ok l -> link_ok (pc_enqueue sid message l).2.
Proof. apply link_ok_object. apply session_enqueue_keeps. Qed.

Lemma link_ok_add se l :
  len (se_send se) <= privateControlSessionQueueDepth -> se_done se = false -> link_ok l -> link_ok (addSession se l).2.
Proof.
  intros Hq Hd Hl. destruct Hl. unfold addSession. cbn [snd].
  assert (pl_objects l !! pl_next l = None) as Hfresh.
  { destruct (pl_objects l !! pl_next l) eqn:E; [|done]. apply lk_next0 in E. lia. }
  assert (forall sid, pl_sessions l !! se_serviceID se = Some sid -> sid <> pl_next l) as Hprev.
  { intros sid Hs ->. destruct (lk_registered0 _ _ Hs) as (? & Ho & _). congruence. }
  destruct (pl_sessions l !! se_serviceID se) as [p|] eqn:Ep.
  - destruct (lk_registered0 _ _ Ep) as (old & Ho & Hsv & Hod). specialize (Hprev p eq_refl).
    unfold close_session, on_session. cbn [with_sessions pl_objects]. rewrite lookup_insert_ne, Ho by done. cbn [snd]. constructor; cbn; try done.
    + apply map_Forall_insert_2; [exact (lk_queues0 p old Ho)|]. by apply map_Forall_insert_2.
    + apply map_Forall_insert_2; [apply lk_next0 in Ho; lia|]. apply map_Forall_insert_2; [lia|].
      eapply map_Forall_impl; [exact lk_next0|]. cbn. lia.
    + intros svc sid. destruct (decide (se_serviceID se = svc)) as [<-|Hne].
      * rewrite lookup_insert_eq. intros [= <-]. exists se. rewrite lookup_insert_ne, lookup_insert_eq by done. done.
      * rewrite lookup_insert_ne by done. intros Hs. destruct (lk_registered0 _ _ Hs) as (se1 & Ho1 & Hsv1 & Hd1). exists se1.
        assert (sid <> p) by (intros ->; congruence). assert (sid <> pl_next l) by (intros ->; congruence).
        by rewrite !lookup_insert_ne by done.
    + intros sid se1. destruct (decide (p = sid)) as [<-|Hne]; [rewrite lookup_insert_eq; by intros [= <-]|].
      rewrite lookup_insert_ne by done. destruct (decide (pl_next l = sid)) as [<-|Hne'].
      * rewrite lookup_insert_eq. intros [= <-] _. apply lookup_insert_eq.
      * rewrite lookup_insert_ne by done. intros Ho1 Hd1. pose proof (lk_open0 _ _ Ho1 Hd1) as Hs1.
        destruct (decide (se_serviceID se1 = se_serviceID se)) as [Heq|]; [rewrite Heq in Hs1; congruence|]. by rewrite lookup_insert_ne.
  - constructor; cbn; try done.
    + by apply map_Forall_insert_2.
    + apply map_Forall_insert_2; [lia|]. eapply map_Forall_impl; [exact lk_next0|]. cbn. lia.
    + intros svc sid. destruct (decide (se_serviceID se = svc)) as [<-|Hne].
      * rewrite lookup_insert_eq. intros [= <-]. exists se. by rewrite lookup_insert_eq.
      * rewrite lookup_insert_ne by done. intros Hs. destruct (lk_registered0 _ _ Hs) as (se1 & Ho1 & Hsv1 & Hd1). exists se1.
        assert (sid <> pl_next l) by (intros ->; congruence). by rewrite lookup_insert_ne.
    + intros sid se1. destruct (decide (pl_next l = sid)) as [<-|Hne'].
      * rewrite lookup_insert_eq. intros [= <-] _. apply lookup_insert_eq.
      * rewrite lookup_insert_ne by done. intros Ho1 Hd1. pose proof (lk_open0 _ _ Ho1 Hd1) as Hs1.
        destruct (decide (se_serviceID se1 = se_serviceID se)) as [Heq|]; [rewrite Heq in Hs1; congruence|]. by rewrite lookup_insert_ne.
Qed.

Lemma link_ok_remove sid l : link_ok l -> link_ok (removeSession sid l).
Proof.
  intros Hl. unfold removeSession. destruct (pl_objects l !! sid) as [se|] eqn:E; [|done].
  unfold close_session, on_session. cbn [with_sessions pl_objects]. rewrite E. cbn [snd].
  case_bool_decide as Hreg; destruct Hl; constructor; cbn; try done.
  1,5: apply map_Forall_insert_2; [exact (lk_queues0 sid se E)|done].
  1,4: apply map_Forall_insert_2; [exact (lk_next0 sid se E)|done].
  - intros svc sid' Hs. apply lookup_delete_Some in Hs as [Hne Hs]. destruct (lk_registered0 _ _ Hs) as (se1 & Ho & Hsv & Hd).
    exists se1. rewrite lookup_insert_ne; [done|]. intros ->. congruence.
  - intros sid' se1. destruct (decide (sid = sid')) as [<-|Hne]; [rewrite lookup_insert_eq; by intros [= <-]|].
    rewrite lookup_insert_ne by done. intros Ho Hd. pose proof (lk_open0 _ _ Ho Hd) as Hs.
    apply lookup_delete_Some. split; [|done]. intros Heq. rewrite <- Heq in Hs. congruence.
  - intros svc sid' Hs. destruct (lk_registered0 _ _ Hs) as (se1 & Ho & Hsv & Hd). exists se1.
    rewrite lookup_insert_ne; [done|]. intros ->. rewrite E in Ho. injection Ho as <-. by subst svc.
  - intros sid' se1. destruct (decide (sid = sid')) as [<-|Hne]; [rewrite lookup_insert_eq; by intros [= <-]|].
    rewrite lookup_insert_ne by done. apply lk_open0.
Qed.

Lemma link_ok_dropped l n : link_ok l -> link_ok (with_sessions l (pl_sessions l) (pl_objects l) (pl_next l) n).
Proof. by intros []. Qed.

Lemma link_ok_sessions f l : session_operation f -> link_ok l -> link_ok (f l).
Proof.
  intros [sid message|se Hs Hd|sid|sid|sid now|wants message] Hl.
  - by apply link_ok_enqueue.
  - apply link_ok_add; [by rewrite Hs|done|done].
  - by apply link_ok_remove.
  - apply link_ok_object; [|done]. intros se. cbv zeta. destruct (se_done se) eqn:Ed; [cbn; by rewrite Ed|]. destruct (se_send se) eqn:Es; cbn; [by rewrite Ed, Es|].
    split; [done|]. split; [done|]. unfold len. cbn [length]. lia.
  - by apply link_ok_object.
  - unfold enqueue_wanted. generalize (range (pl_sessions l)) as kvs. intros kvs. revert l Hl.
    induction kvs as [|kv kvs IH]; intros l Hl; [done|]. cbn [foldl]. apply IH.
    destruct (pl_objects l !! kv.2) as [se|] eqn:E; [|done]. destruct (wants se); [|done].
    pose proof (link_ok_enqueue kv.2 message l Hl) as He. destruct (pc_enqueue _ _ _) as [queued l1]. cbn [snd] in He.
    destruct queued; [done|]. by apply link_ok_dropped.
Qed.

Lemma link_ok_does l ev l' : link_does l ev l' -> link_ok l -> link_ok l'.
Proof.
  intros [] Hl.
  - by apply link_ok_begin.
  - by apply link_ok_store.
  - by apply link_ok_finish.
  - by apply link_ok_abandon.
  - by apply link_ok_cleanup.
  - by apply link_ok_attempt.
  - by apply link_ok_failure.
  - by apply link_ok_slots.
  - by apply link_ok_sessions.
Qed.

Lemma link_ok_new relayID policy l : newPrivateControlLink relayID policy = Some l -> link_ok l.
Proof.
  unfold newPrivateControlLink. destruct (_ || _); [done|]. intros [= <-].
  constructor; cbn; try done; try apply map_Forall_empty; intros *; by rewrite lookup_empty.
Qed.
End bounds.

Section reachable.
Context `{RangeOrder} `{Entropy} `{PrivateControlJSON} `{PrivateStateJSON} `{PrivateEnvironment} `{SliceSort}.

(** C14. In every state reachable under any interleaving of connections, events, the
    server's goroutines and file writes, the tables of the link are within their
    limits and a service has at most one open session, the registered one. *)
Theorem link_bounded relayID policy w0 w :
  newPrivateControlLink relayID policy = Some (w_link w0) -> rtc control_step w0 w -> link_ok (w_link w).
Proof.
  intros Hnew Hrun. apply link_ok_new in Hnew. revert Hnew. induction Hrun as [|w0 w1 w Hstep _ IH]; [done|]. intros Hl. apply IH.
  destruct Hstep as [s Hs|ev l Hl'|outcome st|n]; try done. by eapply link_ok_does.
Qed.

(** A connection from its acceptance to its end changes the server, the link and
    the state file only by the transitions of the system, so the invariants of the
    server and of the link hold whenever another goroutine runs. *)
Theorem control_handlers_refine source serviceID stream (Hsource : source <> EmptyString) :
  steps control_step (acceptConnection source serviceID stream).
Proof. by apply steps_accept. Qed.
End reachable.

(** ** A revocation is executed once *)

Section once.
Context `{RangeOrder}.

(** The steps of other goroutines, and of the one that executes the revocation while
    it does not abandon it: the clock is within twenty minutes of the begin, and an
    acknowledgement stored for the message satisfies [A]. *)
Definition undisturbed (serviceID : string) (messageID bodyHash : list Z) (A : privateControlAck -> Prop) (from : time)
    (ev : link_event) : Prop :=
  let until := from + 2 * privateControlIdempotencyTTL in
  match ev with
  | EvBegin _ _ _ now | EvSnapshot now | EvAttempt _ now | EvFailure _ now => now < until
  | EvStore sid mid hash ack now => (sid, mid) = (serviceID, messageID) -> A ack /\ from <= now
  | EvAbandon sid mid hash => (sid, mid) = (serviceID, messageID) -> hash <> bodyHash
  | EvFinish _ _ _ | EvSlots _ | EvSessions _ => True
  end.

Definition held (serviceID : string) (messageID bodyHash : list Z) (A : privateControlAck -> Prop) (until : time)
    (l : privateControlLink) : Prop :=
  exists entry, pl_idempotency l !! (serviceID, messageID) = Some entry /\ ie_bodyHash entry = bodyHash /\
    (ie_completed entry = true -> is_Some (ie_ack entry)) /\
    forall ack, ie_ack entry = Some ack -> A ack /\ until <= ie_expiresAt entry.

Lemma held_cleanup serviceID messageID bodyHash A until now l :
  now < until -> held serviceID messageID bodyHash A until l ->
  held serviceID messageID bodyHash A until (cleanupIdempotencyLocked now l).
Proof.
  intros Hn (entry & Hl & Hh & Hc & Ha). exists entry. split; [|done]. cbn. apply map_lookup_filter_Some. split; [done|]. cbn.
  unfold entry_kept. destruct (ie_completed entry); [|done]. destruct (Hc eq_refl) as [ack E]. rewrite E, bool_decide_eq_true_2 by by eexists.
  destruct (Ha _ E) as [_ ?]. unfold After. by rewrite (proj2 (Z.ltb_lt _ _)) by lia.
Qed.

Lemma held_idem serviceID messageID bodyHash A until l l' :
  pl_idempotency l' !! (serviceID, messageID) = pl_idempotency l !! (serviceID, messageID) ->
  held serviceID messageID bodyHash A until l -> held serviceID messageID bodyHash A until l'.
Proof. intros E (entry & Hl & Hrest). exists entry. by rewrite E. Qed.

Lemma sessions_idem f l : session_operation f -> pl_idempotency (f l) = pl_idempotency l.
Proof.
  assert (forall {A} sid (d : A) g l, pl_idempotency (on_session sid d g l).2 = pl_idempotency l) as Hon.
  { intros. unfold on_session. destruct (_ !! _); [|done]. by destruct (g _). }
  intros [sid message|se Hs Hd|sid|sid|sid now|wants message].
  - apply Hon.
  - unfold addSession. cbn [snd]. destruct (_ !! _); [|done]. unfold close_session. by rewrite Hon.
  - unfold removeSession. destruct (_ !! _); [|done]. unfold close_session. by rewrite Hon.
  - apply Hon.
  - apply Hon.
  - unfold enqueue_wanted. generalize (range (pl_sessions l)) as kvs. intros kvs. revert l.
    induction kvs as [|kv kvs IH]; intros l; [done|]. cbn [foldl]. rewrite IH. destruct (_ !! _) as [se|]; [|done].
    destruct (wants se); [|done]. pose proof (Hon _ kv.2 false (session_enqueue message) l) as He. fold (pc_enqueue kv.2 message) in He.
    destruct (pc_enqueue _ _ _) as [queued l1]. by destruct queued.
Qed.

Lemma store_expiry ack now from :
  from <= now -> from + 2 * privateControlIdempotencyTTL <= privateControlIdempotencyExpiry ack (Add now privateControlIdempotencyTTL).
Proof.
  intros. unfold privateControlIdempotencyExpiry, Add, After. repeat case_match; gobool; lia.
Qed.

Lemma held_does serviceID messageID bodyHash A from l ev l' :
  link_does l ev l' -> undisturbed serviceID messageID bodyHash A from ev ->
  held serviceID messageID bodyHash A (from + 2 * privateControlIdempotencyTTL) l ->
  held serviceID messageID bodyHash A (from + 2 * privateControlIdempotencyTTL) l'.
Proof.
  intros Hdo Hq Hheld. destruct Hdo as [sid mid hash now|sid mid hash ack now|sid mid hash|sid mid hash|now|source now|source now|f Hf|f Hf];
    cbn [undisturbed] in Hq; try (apply (held_cleanup _ _ _ _ _ now) in Hheld; [|exact Hq]).
  - unfold beginRevocation. revert Hheld. generalize (cleanupIdempotencyLocked now l). clear l. intros l Hheld. cbv zeta.
    destruct (pl_idempotency l !! (sid, mid)) eqn:E; [by repeat case_match|]. case_match; [done|]. cbn [snd].
    apply (held_idem _ _ _ _ _ l); [|done]. cbn. rewrite lookup_insert_ne; [done|]. intros Heq.
    destruct Hheld as (entry & Hl & _). congruence.
  - unfold store_ack. destruct (pl_idempotency l !! (sid, mid)) as [e|] eqn:E; [|done]. destruct (_ || _) eqn:Ec; [done|]. cbn [snd].
    gobool. destruct (decide ((sid, mid) = (serviceID, messageID))) as [Heq|Hne].
    2:{ apply (held_idem _ _ _ _ _ l); [|done]. cbn. by rewrite lookup_insert_ne. }
    destruct (Hq Heq) as [HA Hn]. destruct Hheld as (entry & Hl & Hh & Hc & Ha). rewrite <- Heq in Hl. rewrite E in Hl. injection Hl as <-.
    eexists. cbn [with_control pl_idempotency]. rewrite <- Heq, lookup_insert_eq. split; [reflexivity|]. cbn. split; [done|].
    split; [intros; by eexists|]. intros a [= <-]. split; [done|]. by apply store_expiry.
  - unfold finish_ack. destruct (pl_idempotency l !! (sid, mid)) as [e|] eqn:E; [|done]. destruct (_ || _) eqn:Ec; [done|]. cbn [snd].
    gobool. destruct (decide ((sid, mid) = (serviceID, messageID))) as [Heq|Hne].
    2:{ apply (held_idem _ _ _ _ _ l); [|done]. cbn. by rewrite lookup_insert_ne. }
    destruct Hheld as (entry & Hl & Hh & Hc & Ha). rewrite <- Heq in Hl. rewrite E in Hl. injection Hl as <-.
    eexists. cbn [with_control pl_idempotency]. rewrite <- Heq, lookup_insert_eq. split; [reflexivity|]. cbn. split; [done|].
    split; [|done]. intros _. done.
  - unfold abandonRevocation. destruct (pl_idempotency l !! (sid, mid)) as [e|] eqn:E; [|done]. destruct (_ || _) eqn:Ec; [done|].
    gobool. apply (held_idem _ _ _ _ _ l); [|done]. cbn. rewrite lookup_delete_ne; [done|]. intros Heq.
    destruct Hheld as (entry & Hl & Hh & _). rewrite Heq in E. rewrite E in Hl. injection Hl as <-. apply (Hq Heq).
    unfold bytes_eqb in *. gobool. congruence.
  - exact Hheld.
  - unfold allowConnectionAttempt. by repeat case_match.
  - apply (held_idem _ _ _ _ _ (cleanupIdempotencyLocked now l)); [|done]. unfold recordConnectionFailure. by repeat case_match.
  - apply (held_idem _ _ _ _ _ l); [|done]. destruct Hf; unfold acquireCommand, acquireConnection; by repeat case_match.
  - apply (held_idem _ _ _ _ _ l); [|done]. by rewrite sessions_idem.
Qed.

(** C13. Once a revocation was begun for execution, its message is never executed again
    for twenty minutes while it is not abandoned, whatever other sections run: a
    repetition waits for it or gets an acknowledgement stored for it, and another
    body under the same message ID is refused. *)
Theorem revocation_executes_once serviceID messageID bodyHash A now l l1 l2 :
  beginRevocation serviceID messageID bodyHash now l = (Execute, l1) ->
  rtc (fun l l' => exists ev, undisturbed serviceID messageID bodyHash A now ev /\ link_does l ev l') l1 l2 ->
  forall bodyHash' now', now' < now + 2 * privateControlIdempotencyTTL ->
  match (beginRevocation serviceID messageID bodyHash' now' l2).1 with
  | Conflict => bodyHash' <> bodyHash
  | Pending => bodyHash' = bodyHash
  | Cached ack => bodyHash' = bodyHash /\ A ack
  | Execute | Overloaded => False
  end.
Proof.
  intros Hb Hrun bodyHash' now' Hn.
  assert (held serviceID messageID bodyHash A (now + 2 * privateControlIdempotencyTTL) l1) as Hheld.
  { unfold beginRevocation in Hb. destruct (pl_idempotency _ !! _) eqn:E; [by repeat case_match|]. case_match; [done|].
    injection Hb as <-. eexists. cbn [with_control pl_idempotency]. rewrite lookup_insert_eq. by split. }
  assert (held serviceID messageID bodyHash A (now + 2 * privateControlIdempotencyTTL) l2) as Hheld2.
  { clear Hb. induction Hrun as [|la lb lc (ev & Hq & Hd) _ IH]; [done|]. apply IH. by eapply held_does. }
  apply (held_cleanup _ _ _ _ _ now') in Hheld2; [|done]. unfold beginRevocation. revert Hheld2.
  generalize (cleanupIdempotencyLocked now' l2). intros l3 (entry & El & Hh & Hc & Ha). cbv zeta. rewrite El.
  unfold bytes_eqb. case_bool_decide as Eh; cbn [negb]; [|cbn; congruence]. rewrite Hh in Eh.
  destruct (ie_ack entry) as [ack|] eqn:Eack; [|done]. destruct (ie_completed entry); [|done]. cbn. split; [done|]. by apply Ha.
Qed.
End once.

(** ** Concrete inputs *)

Section witnesses.
#[local] Existing Instances listing_order counting_entropy plain_control_json number_json counting_link_environment merge_sort_order.

Definition toy_policy : privateControlPolicy := {| byCertificate := ∅; byUID := {[ 1000 := "mgmt"%string ]} |}.
Definition toy_link : privateControlLink :=
  {| pl_relayID := [114; 49]; pl_policy := toy_policy; pl_sessions := ∅; pl_objects := ∅; pl_next := 0; pl_dropped := 0;
     pl_failures := ∅; pl_idempotency := ∅; commandSlots := 0; connections := 0 |}.
Definition toy_world : pc_world :=
  {| w_server := with_service (newServer true 0 false 4 toy_now {| counterEpoch := "e"; floorInterruptCounters := zero_counters |}) (Some toy_service);
     w_link := toy_link; w_file := None; w_tick := 0 |}.
Definition toy_message : list Z := RawURL_Encode (replicate 16 7).

Lemma link_bounded_witness :
  link_ok (w_link (final (acceptConnection "unix" (Some "mgmt"%string) [0; 0; 0; 2; 49; 50]) toy_world)).
Proof.
  apply (link_bounded [114; 49] toy_policy toy_world); [by vm_compute|].
  by apply steps_accept.
Defined.

Lemma control_handlers_refine_witness :
  rtc control_step toy_world (final (acceptConnection "unix" (Some "mgmt"%string) [0; 0; 0; 2; 49; 50]) toy_world).
Proof. by apply (control_handlers_refine "unix" (Some "mgmt"%string) [0; 0; 0; 2; 49; 50]). Defined.

Lemma revocation_executes_once_witness :
  match (beginRevocation "mgmt" toy_message (sha256 [1]) (toy_now + Second)
           (beginRevocation "mgmt" toy_message (sha256 [1]) toy_now toy_link).2).1 with
  | Pending => True
  | _ => False
  end.
Proof.
  destruct (beginRevocation "mgmt" toy_message (sha256 [1]) toy_now toy_link) as [b l1] eqn:E.
  assert (b = Execute) as -> by (change b with (b, l1).1; rewrite <- E; by vm_compute).
  pose proof (revocation_executes_once "mgmt" toy_message (sha256 [1]) (fun _ => False) toy_now toy_link l1 l1 E
    ltac:(constructor) (sha256 [1]) (toy_now + Second) ltac:(unfold privateControlIdempotencyTTL, Minute, Second; lia)) as Ho.
  cbn [snd]. destruct (beginRevocation "mgmt" toy_message (sha256 [1]) (toy_now + Second) l1) as [[] l3];
    cbn [fst] in Ho |- *; [by destruct Ho|exact I|by apply Ho|by apply Ho|by apply Ho].
Defined.
End witnesses.
