(* ===== verification/PrivateAnswers.v ===== *)
(** * What the private control link promises

    The connection loop ends, repeated failures are refused, an acknowledged
    revocation is installed and on disk, what survives a restart, and two ways in which
    the durability fails. *)

From S2P Require Import Prelude GoTime Sha256 Base64 ControlAuth Identity Service Diagnostics Server Membership Send Floor Relay Steps Directory PrivateControl PrivateState StateFile PrivateSnapshot PrivateLink PrivateSpec.

(** ** The connection loop *)

Lemma frame_consumes `{PrivateControlJSON} stream payload rest :
  readPrivateControlFrame stream = Frame payload rest -> (length rest < length stream)%nat.
Proof.
  unfold readPrivateControlFrame. destruct stream as [|b s]; [done|]. set (st := b :: s). clearbody st.
  destruct (len st <? 4) eqn:E4; [done|]. cbv zeta. repeat case_match; try done. intros [= _ <-]. gobool.
  rewrite !length_drop. unfold len in E4. lia.
Qed.

Section terminates.
Context `{Entropy} `{RangeOrder} `{PrivateControlJSON} `{PrivateStateJSON} `{PrivateEnvironment} `{SliceSort}.

Lemma serve_result fuel sid serviceID source : forall stream w,
  (length stream < fuel)%nat -> result (serve fuel sid serviceID source stream) w = true.
Proof.
  induction fuel as [|k IH]; intros stream w Hl; [lia|]. cbn [serve].
  destruct (readPrivateControlFrame stream) as [raw rest| |] eqn:E; [| |by rewrite result_bind]; [|done].
  rewrite result_bind. destruct (negb _); [done|]. rewrite !result_bind. apply frame_consumes in E. apply IH. lia.
Qed.

(** C34. The loop over the frames of a connection ends, with as many turns as the peer
    sent bytes at most, on every input and in every state. *)
Theorem connection_terminates source serviceID stream w :
  result (acceptConnection source serviceID stream) w = true.
Proof.
  unfold acceptConnection. rewrite result_bind. destruct (negb _); [done|]. rewrite !result_bind. cbn [result fst ret].
  unfold handleConnection. rewrite !result_bind. destruct (negb _); [done|].
  destruct serviceID as [serviceID|]; [|by rewrite result_bind]. destruct (readPrivateControlFrame _); [|done|by rewrite result_bind].
  destruct (decodePrivateControlJSON _ _) as [hello|]; [|by rewrite result_bind].
  destruct (negb _); [by rewrite result_bind|]. destruct (negb _); [by rewrite result_bind|].
  unfold handle_session. repeat (case_match; [|done]). cbv zeta. rewrite !result_bind. cbn [result fst ret].
  repeat first [rewrite !result_bind | case_match]; try done; apply serve_result; lia.
Qed.
End terminates.

(** ** Failures *)

Section failures.
Context `{RangeOrder}.

Definition in_window (from t : time) : Prop := from <= t < from + privateControlFailureWindow.

Lemma Sub_window from t u : in_window from t -> in_window from u -> Sub t u < privateControlFailureWindow.
Proof. unfold in_window, Sub, privateControlFailureWindow, Minute, Second. lia. Qed.

(** What the table holds for a source with [n] failures since [from]. *)
Definition failed_since (source : string) (from : time) (n : Z) (l : privateControlLink) : Prop :=
  exists seen, pl_failures l !! source = Some {| fs_windowStarted := from; fs_count := n; fs_lastSeen := seen |} /\ in_window from seen.

Lemma failed_since_cleanup source from n now l :
  in_window from now -> failed_since source from n l -> failed_since source from n (cleanupIdempotencyLocked now l).
Proof.
  intros Hn (seen & Hl & Hs). exists seen. split; [|done]. cbn. apply map_lookup_filter_Some. split; [done|]. cbn.
  pose proof (Sub_window _ _ _ Hn Hs). lia.
Qed.

Lemma first_failure source now l :
  pl_failures (cleanupIdempotencyLocked now l) !! source = None -> failed_since source now 1 (recordConnectionFailure source now l).
Proof.
  intros Hn. unfold recordConnectionFailure. cbv zeta. rewrite Hn. cbn [default fs_windowStarted IsZero].
  change (IsZero zero_time || _) with true. cbv iota. exists now. split; [|unfold in_window, privateControlFailureWindow, Minute, Second; lia].
  cbn [with_control pl_failures]. by rewrite lookup_insert_eq.
Qed.

Lemma next_failure source from n now l :
  from <> zero_time -> in_window from now -> 0 <= n < 255 -> failed_since source from n l ->
  failed_since source from (n + 1) (recordConnectionFailure source now l).
Proof.
  intros H0 Hn Hc Hf. apply (failed_since_cleanup _ _ _ now) in Hf as (seen & Hl & Hs); [|done].
  unfold recordConnectionFailure. cbv zeta. rewrite Hl. change (default ?d (Some ?x)) with x. cbn [fs_windowStarted fs_count].
  assert (in_window from from) as Hff by (unfold in_window, privateControlFailureWindow, Minute, Second; lia).
  assert ((IsZero from || (privateControlFailureWindow <=? Sub now from)) = false) as ->.
  { apply orb_false_iff. split; [by apply IsZero_false|]. by apply Z.leb_gt, (Sub_window from). } cbv beta iota. cbn [fs_count fs_windowStarted]. rewrite (proj2 (Z.ltb_lt n 255)) by lia. exists now. split; [|done]. cbn [with_control pl_failures]. by rewrite lookup_insert_eq.
Qed.

(** The failures of a source, at the given times. *)
Definition record_failures (source : string) (times : list time) (l : privateControlLink) : privateControlLink :=
  foldl (fun l t => recordConnectionFailure source t l) l times.

Lemma next_failures source from times : forall n l,
  from <> zero_time -> Forall (in_window from) times -> 0 <= n -> n + len times <= 255 -> failed_since source from n l ->
  failed_since source from (n + len times) (record_failures source times l).
Proof.
  induction times as [|t times IH]; intros n l H0 Ht Hn Hl Hf; [cbn; by rewrite Z.add_0_r|].
  apply Forall_cons in Ht as [Ht Hts]. assert (len (t :: times) = len times + 1) as E by (unfold len; cbn; lia). rewrite E in *.
  pose proof (len_nonneg times). replace (n + (len times + 1)) with (n + 1 + len times) by lia. apply IH; try done; try lia.
  apply next_failure; try done. lia.
Qed.

(** A source that fails within a minute of its first failure may connect again
    exactly while it has fewer than eight failures, and after the minute again. *)
Theorem connection_failures_limited source from times now l :
  from <> zero_time -> pl_failures (cleanupIdempotencyLocked from l) !! source = None ->
  Forall (in_window from) times -> len times < 255 -> from <= now ->
  (allowConnectionAttempt source now (record_failures source (from :: times) l)).1 =
    (len (from :: times) <? privateControlMaxFailures) || (privateControlFailureWindow <=? now - from).
Proof.
  intros H0 Hnew Ht Hlen Hnow.
  change (record_failures source (from :: times) l) with (record_failures source times (recordConnectionFailure source from l)).
  pose proof (next_failures source from times 1 _ H0 Ht ltac:(lia) ltac:(lia) (first_failure _ _ _ Hnew)) as (seen & Hl & Hs).
  set (l1 := record_failures _ _ _) in *. clearbody l1. assert (len (from :: times) = 1 + len times) as -> by (unfold len; cbn; lia).
  destruct (privateControlFailureWindow <=? now - from) eqn:Ew; gobool; unfold allowConnectionAttempt; cbv zeta; cbn [fst].
  - rewrite orb_true_r. destruct (pl_failures (cleanupIdempotencyLocked now l1) !! source) as [st|] eqn:E; [|done].
    cbn in E. apply map_lookup_filter_Some in E as [E _]. rewrite Hl in E. injection E as <-. cbn [fs_windowStarted fs_count].
    assert (privateControlFailureWindow <= Sub now from) as Hw by (unfold Sub, privateControlFailureWindow, Minute, Second in *; lia).
    by rewrite (proj2 (Z.leb_le _ _) Hw).
  - rewrite orb_false_r. assert (in_window from now) as Hn by (unfold in_window; lia).
    destruct (failed_since_cleanup source from (1 + len times) now l1 Hn) as (seen' & Hl' & _); [by exists seen|].
    rewrite Hl'. cbn [fs_windowStarted fs_count].
    assert (in_window from from) as Hff by (unfold in_window, privateControlFailureWindow, Minute, Second; lia).
    by rewrite (proj2 (Z.leb_gt _ _) (Sub_window from now from Hn Hff)).
Qed.
End failures.

(** ** An acknowledged revocation is installed and on disk *)

Section durable.
Context `{Entropy} `{RangeOrder} `{PrivateControlJSON} `{PrivateStateJSON} `{PrivateEnvironment}.

(** Sections that leave the service admission of the server alone. *)
Definition service_kept (s s' : server) : Prop := serviceAdmissions s' = serviceAdmissions s.

Lemma rtc_equal {S B} (f : S -> B) s s' : rtc (fun s s' => f s' = f s) s s' -> f s' = f s.
Proof. induction 1; congruence. Qed.

Lemma revoke_section_service target s : serviceAdmissions (revoke_section target s).2 = serviceAdmissions s.
Proof. unfold revoke_section, store_channel. repeat case_match; by simplify_eq/=. Qed.

Lemma announce_service rp : steps service_kept (announceRevoked rp).
Proof.
  assert (steps service_kept take_nonce) as Hn.
  { apply steps_atomically. intros s. unfold service_kept. destruct (controlAuth s); [|done]. by destruct (nextRelayNonce _). }
  assert (steps service_kept take_sequence) as Hs by by apply steps_atomically.
  unfold announceRevoked, publishManagementEvent, broadcastRelayControl, send_built, relayControlForPeer, WriteToUDP. effects.
Qed.

Lemma revoke_installs target until now s r :
  result (revokeManagedServiceAdmission target until now) s = Some r ->
  now < until /\ exists sa sa' e, serviceAdmissions s = Some sa /\
    serviceAdmissions (final (revokeManagedServiceAdmission target until now) s) = Some sa' /\
    sv_denied sa' !! denyRule target = Some e /\ until <= e.
Proof.
  unfold revokeManagedServiceAdmission. rewrite result_bind, final_bind.
  set (sec := section _). assert (result sec s = (installRevocation (serviceAdmissions s) target until now).1 /\
    final sec s = with_service s (installRevocation (serviceAdmissions s) target until now).2) as [-> ->].
  { unfold sec, section, result, final, atomically. by destruct (installRevocation _ _ _ _). }
  destruct (serviceAdmissions s) as [sa|]; [|done].
  destruct (installRevocation (Some sa) target until now) as [ok oa] eqn:Ei. cbn [fst snd].
  destruct ok; [|done]. cbn [negb]. intros _.
  assert (now < until /\ exists sa' e, oa = Some sa' /\ sv_denied sa' !! denyRule target = Some e /\ until <= e) as (Hn & sa' & e & -> & Hd & He).
  { pose proof Ei as Ei2. apply install_denies in Ei2 as (sa' & -> & e & Hd & He). split; [|by exists sa', e].
    unfold installRevocation in Ei. destruct (_ || _) eqn:Eg; [done|]. apply orb_false_iff in Eg as [Eg _].
    unfold After in Eg. by gobool. }
  split; [done|]. exists sa, sa', e. split; [done|]. split; [|done].
  change (Some sa') with (serviceAdmissions (with_service s (Some sa'))) at 2.
  apply (rtc_equal serviceAdmissions). generalize (with_service s (Some sa')).
  change (steps service_kept (let! revoked := section (revoke_section target) in (for_each revoked announceRevoked ;;;
    ret (Some {| affectedMemberships := u32 (len revoked); talkReleases := len (filter (fun rp => rp_active rp = true) revoked) |})))).
  apply steps_bind; [apply steps_atomically, revoke_section_service|]. intros revoked.
  apply steps_bind; [apply steps_for_each, announce_service|]. intros _. apply steps_reads_only, reads_only_ret.
Qed.

(** Sections that leave the stores alone: the server, the file and the entries. *)
Definition stores (w : pc_world) := (w_server w, w_file w, pl_idempotency (w_link w)).
Definition same_stores (w w' : pc_world) : Prop := stores w' = stores w.

Lemma next_stores {A} (f : nat -> A) : steps same_stores (next f).
Proof. by apply steps_atomically. Qed.
Hint Resolve next_stores : effects.

Lemma id_stores : steps same_stores newPrivateControlID.
Proof. unfold newPrivateControlID. effects. Qed.
Hint Resolve id_stores : effects.

Lemma wanted_stores wants message : steps same_stores (on_link (fun l => (tt, enqueue_wanted wants message l))).
Proof.
  apply steps_atomically. intros w. unfold same_stores, stores. cbn [snd set_link w_server w_file w_link].
  by rewrite (sessions_idem _ _ (op_events wants message)).
Qed.
Hint Resolve wanted_stores : effects.

Lemma deliver_stores o : steps same_stores (deliver o).
Proof.
  unfold deliver, publishLifecycleEvent, pc_publishFloorInterruptAudit, newPrivateControlLifecycleEvent,
    enqueueLifecycleEvent, enqueueAuditInput. effects.
Qed.

Lemma on_server_stores {A} (m : handler A) w :
  result (on_server m) w = result m (w_server w) /\ stores (final (on_server m) w) = (final m (w_server w), w_file w, pl_idempotency (w_link w)).
Proof.
  unfold on_server, result, final. destruct (m (w_server w)) as [[a s] os]. cbn [fst snd].
  pose proof (steps_for_each same_stores os deliver deliver_stores (set_server w s)) as Hd. unfold final in Hd.
  destruct (for_each os deliver (set_server w s)) as [[u w'] os']. cbn [fst snd] in *. split; [done|].
  by apply (rtc_equal stores) in Hd.
Qed.

(** The file after a write that succeeded. *)
Lemma persist_run now w :
  result (persistState now) w = true ->
  exists sa raw, serviceAdmissions (w_server w) = Some sa /\
    marshal_state (persistentStateSnapshot now sa (w_link w)) = Some raw /\
    w_file (final (persistState now) w) = Some raw /\
    pl_idempotency (w_link (final (persistState now) w)) = pl_idempotency (cleanupIdempotencyLocked now (w_link w)) /\
    serviceAdmissions (w_server (final (persistState now) w)) = Some (service_cleanupLocked now sa).
Proof.
  destruct w as [s l file tick]. unfold persistState, result, final, bind, gets, next, on_link, atomically. cbn [w_server].
  destruct (serviceAdmissions s) as [sa|] eqn:Esa; [|done]. unfold persistentStateSnapshot, writePrivateControlPersistentState.
  unfold activeDenyRules, set_server, set_link, set_file, snapshot_idempotency. cbn [fst snd w_server w_link w_file w_tick].
  rewrite Esa. cbn [fst snd w_server w_link w_file w_tick].
  destruct (marshal_state _) as [raw|] eqn:Em; [|done]. destruct (pc_write tick); [|done|done]. cbn. intros _. by exists sa, raw.
Qed.

(** A revocation that completes is on disk, and its acknowledgement is the answer to
    a repetition. *)
Lemma complete_run serviceID messageID bodyHash ack now w :
  result (completeRevocation serviceID messageID bodyHash ack now) w = true ->
  let w' := final (completeRevocation serviceID messageID bodyHash ack now) w in
  exists sa l raw entry, serviceAdmissions (w_server w) = Some sa /\
    marshal_state (persistentStateSnapshot now sa l) = Some raw /\ w_file w' = Some raw /\
    serviceAdmissions (w_server w') = Some (service_cleanupLocked now sa) /\
    pl_idempotency l !! (serviceID, messageID) = Some entry /\ ie_ack entry = Some ack /\ ie_bodyHash entry = bodyHash /\
    now < ie_expiresAt entry /\
    cachedCompletedRevocation serviceID messageID bodyHash (w_link w') = Some ack.
Proof.
  unfold completeRevocation. cbv zeta. rewrite result_bind, final_bind.
  assert (forall {A} (f : privateControlLink -> A * privateControlLink) w, result (on_link f) w = (f (w_link w)).1) as Hr.
  { intros A f w0. unfold result, on_link, atomically. by destruct (f _). }
  assert (forall {A} (f : privateControlLink -> A * privateControlLink) w, final (on_link f) w = set_link w (f (w_link w)).2) as Hf.
  { intros A f w0. unfold final, on_link, atomically. by destruct (f _). }
  rewrite Hr, Hf. destruct (store_ack serviceID messageID bodyHash ack now (w_link w)) as [stored l1] eqn:Es. cbn [fst snd].
  destruct stored; [|done]. cbn [negb]. set (w1 := set_link w l1). rewrite result_bind, final_bind.
  destruct (result (persistState now) w1) eqn:Ep; cbn [negb].
  2:{ rewrite result_bind. done. }
  apply persist_run in Ep as (sa & raw & Hsa & Hm & Hfile & Hidem & Hsa'). rewrite Hr, Hf. intros Hfin.
  unfold store_ack in Es. destruct (pl_idempotency (w_link w) !! (serviceID, messageID)) as [e|] eqn:Ee; [|done].
  destruct (_ || _) eqn:Ec; [done|]. injection Es as <-. gobool.
  set (entry := {| ie_bodyHash := ie_bodyHash e; ie_ack := Some ack; ie_expiresAt := _; ie_completed := ie_completed e |}) in *.
  assert (pl_idempotency (w_link w1) !! (serviceID, messageID) = Some entry) as He by apply lookup_insert_eq.
  assert (now < ie_expiresAt entry) as Hlate.
  { cbn. pose proof (store_expiry ack now now). unfold privateControlIdempotencyTTL, Minute, Second in *. lia. }
  exists sa, (w_link w1), raw, entry. split; [exact Hsa|]. split; [done|]. split; [exact Hfile|]. split; [exact Hsa'|]. split; [done|].
  split; [done|]. unfold bytes_eqb in *. gobool. split; [done|]. split; [done|].
  assert (pl_idempotency (w_link (final (persistState now) w1)) !! (serviceID, messageID) = Some entry) as He'.
  { rewrite Hidem. cbn [cleanupIdempotencyLocked with_control pl_idempotency]. apply map_lookup_filter_Some. split; [done|]. cbn.
    unfold entry_kept. cbn. by destruct (ie_completed e). }
  unfold finish_ack in *. rewrite He' in *. destruct (_ || _) eqn:Ec2; [done|]. cbn [snd set_link w_link].
  unfold cachedCompletedRevocation. cbn [with_control pl_idempotency]. rewrite lookup_insert_eq. cbn [mbind option_bind ie_completed ie_ack].
  gobool. unfold bytes_eqb. rewrite bool_decide_eq_true_2 by done. done.
Qed.

Lemma error_reply_no_ack messageID code w ack : result (error_reply messageID code) w <> (Some (MAck ack), false).
Proof. unfold error_reply, newPrivateControlError. rewrite !result_bind. by destruct (result newPrivateControlID w). Qed.

(** The acknowledgement of a revocation is durable when it is given: [ack] answers
    [selectorID] and is in the file, which [st] is, and in the table. *)
Definition durable (serviceID : string) (selectorID bodyHash : list Z) (ack : privateControlAck)
    (st : privateControlPersistentState) (w : pc_world) : Prop :=
  (exists raw, marshal_state st = Some raw /\ w_file w = Some raw) /\
  (exists p, p ∈ ps_Idempotency st /\ pi_ManagementServiceID p = serviceID /\ pi_MessageID p = selectorID /\
     pi_Ack p = ack /\ pi_BodySHA256 p = RawURL_Encode bodyHash) /\
  cachedCompletedRevocation serviceID selectorID bodyHash (w_link w) = Some ack.

Lemma snapshot_has now sa l serviceID messageID entry ack :
  pl_idempotency l !! (serviceID, messageID) = Some entry -> ie_ack entry = Some ack -> now < ie_expiresAt entry ->
  exists p, p ∈ ps_Idempotency (persistentStateSnapshot now sa l) /\ pi_ManagementServiceID p = serviceID /\
    pi_MessageID p = messageID /\ pi_Ack p = ack /\ pi_BodySHA256 p = RawURL_Encode (ie_bodyHash entry).
Proof.
  intros Hl Ha He. unfold persistentStateSnapshot, persistent_state, snapshot_idempotency. cbn [ps_Idempotency fst].
  eexists. split.
  - apply list_elem_of_omap. exists ((serviceID, messageID), entry). split.
    + apply range_in. cbn [fst snd]. apply kept_survives_cleanup; [|done]. unfold kept_entry. rewrite Ha, bool_decide_eq_true_2 by by eexists.
      cbn. by apply Z.ltb_lt.
    + unfold persistent_entry. cbn [fst snd]. rewrite Ha. unfold After. by rewrite (proj2 (Z.ltb_lt _ _)) by done.
  - done.
Qed.

Lemma snapshot_rule now sa l rule e :
  sv_denied sa !! rule = Some e -> now < e ->
  privateControlPersistentRuleFromEntry {| de_rule := rule; de_expiresAt := e |} ∈ ps_Rules (persistentStateSnapshot now sa l).
Proof.
  intros Hr He. unfold persistentStateSnapshot, persistent_state. cbn [ps_Rules activeDenyRules fst].
  apply list_elem_of_fmap. eexists. split; [reflexivity|]. apply list_elem_of_fmap. exists (rule, e). split; [done|].
  apply range_in. cbn. by apply lookup_purge_live.
Qed.

Lemma finish_durable serviceID selectorID bodyHash a now w ack :
  result (let! completed := completeRevocation serviceID selectorID bodyHash a now in
          if completed : bool then ret (Some (MAck a), false) else error_reply selectorID "overloaded") w = (Some (MAck ack), false) ->
  let w' := final (let! completed := completeRevocation serviceID selectorID bodyHash a now in
          if completed : bool then ret (Some (MAck a), false) else error_reply selectorID "overloaded") w in
  ack = a /\ exists sa l, serviceAdmissions (w_server w) = Some sa /\
    serviceAdmissions (w_server w') = Some (service_cleanupLocked now sa) /\
    durable serviceID selectorID bodyHash ack (persistentStateSnapshot now sa l) w'.
Proof.
  cbv zeta. rewrite result_bind, final_bind. destruct (result (completeRevocation _ _ _ _ _) w) eqn:E.
  2:{ intros Herr. by apply error_reply_no_ack in Herr. }
  apply complete_run in E as (sa & l & raw & entry & Hsa & Hm & Hfile & Hsa' & Hl & Ha & Hh & Hlate & Hc). intros [= <-]. split; [done|].
  exists sa, l. split; [done|]. split; [exact Hsa'|]. split; [by exists raw|]. split; [|exact Hc]. rewrite <- Hh. by apply snapshot_has.
Qed.

(** C11. A revocation whose execution no other goroutine interrupts is durable when it is
    acknowledged: the file holds its acknowledgement, the table answers a repetition with
    it, and when it was applied its deny rule is installed and in the file until its
    deadline.  (With the write of another revocation in between it need not be:
    [concurrent_write_loses_revocation].) *)
Theorem revocation_durable serviceID selectorID command target bodyHash w ack :
  result (execute_revocation serviceID selectorID command target bodyHash) w = (Some (MAck ack), false) ->
  let w' := final (execute_revocation serviceID selectorID command target bodyHash) w in
  exists st, durable serviceID selectorID bodyHash ack st w' /\
    ak_InReplyTo ack = selectorID /\ ak_DenyUntil ack = rv_DenyUntil command /\
    (ak_Outcome ack = "already_expired"%string \/
     ak_Outcome ack = "applied"%string /\ exists sa e, serviceAdmissions (w_server w') = Some sa /\
       sv_denied sa !! denyRule target = Some e /\ Unix (rv_DenyUntil command) <= e /\
       privateControlPersistentRuleFromEntry {| de_rule := denyRule target; de_expiresAt := e |} ∈ ps_Rules st).
Proof.
  cbv zeta. unfold execute_revocation.
  assert (forall (m : control unit) code w0, result (m ;;; error_reply selectorID code) w0 <> (Some (MAck ack), false)) as Herr.
  { intros m code w0. rewrite result_bind. apply error_reply_no_ack. }
  rewrite result_bind, final_bind. change (result (gets w_server) w) with (w_server w). change (final (gets w_server) w) with w.
  destruct (revocation_off _); [intros E; by apply Herr in E|]. rewrite result_bind, final_bind.
  set (now := result (next pc_now) w). set (w1 := final (next pc_now) w). cbv zeta.
  destruct (After _ (Add now _)); [intros E; by apply Herr in E|]. rewrite result_bind, final_bind.
  set (w2 := final newPrivateControlID w1). destruct (result newPrivateControlID w1) as [ackID|]; [|by rewrite result_bind].
  destruct (negb (After (Unix (rv_DenyUntil command)) now)) eqn:Elate.
  - intros E. apply finish_durable in E as (-> & sa & l & _ & _ & Hd). eexists. split; [exact Hd|]. split; [done|]. split; [done|]. by left.
  - rewrite result_bind, final_bind.
    destruct (on_server_stores (revokeManagedServiceAdmission target (Unix (rv_DenyUntil command)) now) w2) as [Hres Hst].
    rewrite Hres. set (w3 := final (on_server _) w2) in *.
    destruct (result (revokeManagedServiceAdmission _ _ _) (w_server w2)) as [r|] eqn:Er; [|intros E; by apply Herr in E].
    apply revoke_installs in Er as (Hnow & _ & sa' & e & _ & Hsa' & Hde & He). intros E.
    apply finish_durable in E as (-> & sa & l & Hsa & Hsaf & Hd). pose proof (f_equal (fun x => x.1.1) Hst) as Hserver. cbn [fst stores] in Hserver.
    rewrite Hserver in Hsa. rewrite Hsa' in Hsa. injection Hsa as <-. eexists. split; [exact Hd|]. split; [done|]. split; [done|]. right. split; [done|].
    exists (service_cleanupLocked now sa'), e. split; [exact Hsaf|]. split; [|split; [done|apply snapshot_rule; [done|lia]]].
    apply lookup_purge_live; [done|lia].
Qed.
End durable.

(** ** Restarts *)

Section restarts.
Context `{RangeOrder} `{PrivateStateJSON}.

(** What a restart at [now'] has of the deny rules and acknowledgements of [a] and [l] when
    their snapshot at [now] is read: what was active then and is now, to its second. *)
Definition restarted (now now' : time) (a : serviceAdmissionState) (l : privateControlLink) (a' : serviceAdmissionState) (l' : privateControlLink) : Prop :=
  (forall rule, sv_denied a' !! rule = (e ← sv_denied a !! rule; if (now <? e) && (now' <? e) then Some e else None)) /\
  (forall key, pl_idempotency l' !! key =
     (entry ← pl_idempotency l !! key; if kept_entry now entry then Some (restored entry) else None)).

(** C29. Revocations survive a crash.  A Relay that writes its state file and restarts has
    again every deny rule that was active then and is now, and every acknowledgement, each
    until its second: whenever the write reported no error, whether the Relay was stopped
    or the machine crashed; and after a crash at any point of any write, it has either
    that or what it would have had before the write.  The state must be text and no
    acknowledgement in it over. *)
Theorem restart_keeps_revocations `{DiskEnvironment} now now' a l a0 l0 d n path before :
  (forall raw, marshal_state (persistentStateSnapshot now a l) = Some raw -> decode_state raw = Some (persistentStateSnapshot now a l)) ->
  is_Some (marshal_state (persistentStateSnapshot now a l)) ->
  map_Forall rule_storable (sv_denied a) -> Z.of_nat (size (sv_denied a)) <= maxServiceAdmissionDenyRules ->
  map_Forall (fun key entry => kept_entry now entry = true -> entry_storable key entry /\ toUnix now' < toUnix (ie_expiresAt entry))
    (pl_idempotency l) ->
  sv_denied a0 = ∅ -> pl_idempotency l0 = ∅ ->
  disk_ok d -> (forall k, path <> temp_name k) -> blank path = false -> survives d path (fun c => c = before) ->
  let m := write_persistent_state path (persistentStateSnapshot now a l) in
  let d' := fst (final m (d, n)) in
  let restart dc := restorePersistentState (file_content dc path) now' (Some a0) l0 in
  (result m (d, n) = true -> forall dc, dc = d' \/ crashes d' dc ->
     exists a' l', restart dc = Some (Some a', l') /\ restarted now now' a l a' l') /\
  (forall dv dc, dv ∈ d' :: outs m (d, n) -> crashes dv dc ->
     restart dc = restorePersistentState before now' (Some a0) l0 \/
     exists a' l', restart dc = Some (Some a', l') /\ restarted now now' a l a' l').
Proof.
  intros Hjson [raw Hraw] Hrules Hsize Hentries Ha0 Hl0 Hok Hpath Hb Hbefore. cbv zeta.
  destruct (write_crashes d n path _ raw _ Hok Hpath Hb Hbefore Hraw) as (_ & Hall & Hdone).
  destruct (restore_snapshot now now' a l a0 l0 raw) as (a' & l' & Er & Hr); try done; [by apply Hjson| |].
  { intros rule e He. apply Hrules. by apply lookup_purge in He as []. }
  assert (forall dc, file_content dc path = Some raw -> exists a' l',
    restorePersistentState (file_content dc path) now' (Some a0) l0 = Some (Some a', l') /\ restarted now now' a l a' l') as Hnew.
  { intros dc ->. by exists a', l'. }
  split.
  - intros Hm dc Hdc. apply Hnew. destruct (Hdone Hm) as [Hc Hs]. destruct Hdc as [->|Hdc]; [exact Hc|by apply Hs].
  - intros dv dc Hin Hdc. rewrite Forall_forall in Hall. destruct (Hall dv Hin dc Hdc) as [->|E]; [by left|right; by apply Hnew].
Qed.

Lemma restore_entries_expired now' entries p : p ∈ entries -> pi_ExpiresAt p <= toUnix now' ->
  forall idem, restore_entries now' entries idem = None.
Proof.
  intros Hin Hp. induction Hin as [p entries|p q entries _ IH]; intros idem; cbn [restore_entries].
  - rewrite (proj2 (Z.leb_le _ _) Hp), orb_true_r. done.
  - destruct (_ || _); [done|]. destruct (decodePersistentBodyHash _); [|done]. cbn [mbind option_bind]. cbv zeta.
    case_bool_decide; [done|]. by apply IH.
Qed.

(** C30. A Relay cannot restart from its own file any more once one acknowledgement in it
    has expired: the expired entry is an error of [restorePersistentState], where an
    expired rule is skipped. *)
Theorem restart_fails_once_expired now now' a l file oa l0 key entry :
  (forall raw, marshal_state (persistentStateSnapshot now a l) = Some raw -> decode_state raw = Some (persistentStateSnapshot now a l)) ->
  is_Some (marshal_state (persistentStateSnapshot now a l)) ->
  pl_idempotency l !! key = Some entry -> kept_entry now entry = true -> toUnix (ie_expiresAt entry) <= toUnix now' ->
  restorePersistentState (writePrivateControlPersistentState WriteDone (persistentStateSnapshot now a l) file).2 now' oa l0 = None.
Proof.
  intros Hjson [raw Hraw] Hl Hk He. unfold writePrivateControlPersistentState. rewrite Hraw. cbn [snd].
  unfold restorePersistentState. cbn [loadPrivateControlPersistentState]. rewrite (Hjson _ Hraw). cbn [mbind option_bind].
  change (ps_SchemaVersion (persistentStateSnapshot now a l)) with privateControlStateSchemaVersion. rewrite String.eqb_refl.
  cbn [negb mbind option_bind]. destruct (_ && _); [done|]. destruct (restore_rules _ _ _) as [sa|]; [|done]. cbn [mbind option_bind].
  unfold persistentStateSnapshot at 1, persistent_state, snapshot_idempotency. cbn [ps_Idempotency fst].
  set (p := {| pi_ManagementServiceID := key.1; pi_MessageID := key.2; pi_BodySHA256 := RawURL_Encode (ie_bodyHash entry);
               pi_Ack := default {| ak_SchemaVersion := ""; ak_Type := ""; ak_MessageID := []; ak_InReplyTo := []; ak_Outcome := "";
                                    ak_DenyUntil := 0; ak_AffectedMembershipCount := 0; ak_TalkReleaseCount := 0 |} (ie_ack entry);
               pi_ExpiresAt := toUnix (ie_expiresAt entry) |}).
  rewrite (restore_entries_expired now' _ p); [done| |done].
  apply list_elem_of_omap. exists (key, entry). split.
  - apply range_in. cbn [fst snd]. by apply kept_survives_cleanup.
  - unfold kept_entry in Hk. apply andb_true_iff in Hk as [Ha Hn]. apply bool_decide_eq_true in Ha as [ack Ha].
    unfold persistent_entry, p. cbn [fst snd]. rewrite Ha. unfold After. by rewrite Hn.
Qed.

(** ** Concurrent persistence *)

(** C31. The sections of two commands A and B in this order: A takes its snapshot of the
    state, B stores its acknowledgement and completes, A writes and completes.  Both
    are acknowledged, but the file is A's snapshot, which does not hold B. *)
Theorem concurrent_write_loses_revocation (kA kB : string * list Z) (hA hB : list Z) (ackA ackB : privateControlAck)
    now rulesA rulesB l file entryA entryB :
  kA <> kB ->
  pl_idempotency l !! kA = Some entryA -> ie_bodyHash entryA = hA -> ie_completed entryA = false -> ie_ack entryA = Some ackA ->
  pl_idempotency l !! kB = Some entryB -> ie_bodyHash entryB = hB -> ie_completed entryB = false -> ie_ack entryB = None ->
  let '(entriesA, l1) := snapshot_idempotency now l in
  let stA := persistent_state rulesA entriesA in
  let '(storedB, l2) := store_ack kB.1 kB.2 hB ackB now l1 in
  let '(entriesB, l3) := snapshot_idempotency now l2 in
  let stB := persistent_state rulesB entriesB in
  let '(okB, file1) := writePrivateControlPersistentState WriteDone stB file in
  let '(doneB, l4) := finish_ack kB.1 kB.2 hB l3 in
  let '(okA, file2) := writePrivateControlPersistentState WriteDone stA file1 in
  let '(doneA, l5) := finish_ack kA.1 kA.2 hA l4 in
  is_Some (marshal_state stA) -> is_Some (marshal_state stB) ->
  storedB = true /\ okB = true /\ doneB = true /\ okA = true /\ doneA = true /\
  cachedCompletedRevocation kB.1 kB.2 hB l5 = Some ackB /\ file2 = marshal_state stA /\
  Forall (fun p => (pi_ManagementServiceID p, pi_MessageID p) <> kB) (ps_Idempotency stA).
Proof.
  intros Hne HlA HhA HcA HaA HlB HhB HcB HaB. unfold snapshot_idempotency.
  set (l1 := cleanupIdempotencyLocked now l).
  assert (pl_idempotency l1 !! kA = Some entryA) as H1A by (cbn; apply map_lookup_filter_Some; unfold entry_kept; cbn; by rewrite HcA).
  assert (pl_idempotency l1 !! kB = Some entryB) as H1B by (cbn; apply map_lookup_filter_Some; unfold entry_kept; cbn; by rewrite HcB).
  assert (Forall (fun p => (pi_ManagementServiceID p, pi_MessageID p) <> kB) (omap (persistent_entry now) (range (pl_idempotency l1)))) as Hno.
  { apply Forall_forall. intros p Hp. apply list_elem_of_omap in Hp as ([k e] & Hin & Hp). apply range_in in Hin. cbn [fst snd] in Hin.
    unfold persistent_entry in Hp. cbn [fst snd] in Hp. destruct (ie_ack e) eqn:Ee; [|done]. destruct (negb _); [done|]. injection Hp as <-.
    cbn. intros Hk. destruct k. cbn in Hk. rewrite Hk, H1B in Hin. injection Hin as <-. congruence. }
  clearbody l1. unfold store_ack at 1. destruct kA as [sA mA], kB as [sB mB]. cbn [fst snd] in *. rewrite H1B, HhB, HcB.
  unfold bytes_eqb at 1. rewrite bool_decide_eq_true_2 by done. cbn [negb orb].
  set (eB := {| ie_bodyHash := hB; ie_ack := Some ackB; ie_expiresAt := _; ie_completed := false |}).
  set (l2 := with_control l1 _ _).
  assert (pl_idempotency l2 !! (sB, mB) = Some eB) as H2B by apply lookup_insert_eq.
  assert (pl_idempotency l2 !! (sA, mA) = Some entryA) as H2A by (cbn; by rewrite lookup_insert_ne).
  clearbody l2. set (l3 := cleanupIdempotencyLocked now l2).
  assert (pl_idempotency l3 !! (sB, mB) = Some eB) as H3B by (cbn; by apply map_lookup_filter_Some).
  assert (pl_idempotency l3 !! (sA, mA) = Some entryA) as H3A by (cbn; apply map_lookup_filter_Some; unfold entry_kept; cbn; by rewrite HcA).
  clearbody l3. unfold writePrivateControlPersistentState. cbv zeta.
  destruct (marshal_state (persistent_state rulesB _)) as [rawB|] eqn:EB; [|unfold finish_ack; repeat case_match; by intros _ []].
  unfold finish_ack at 1. rewrite H3B. cbn [ie_bodyHash ie_completed ie_ack eB]. unfold bytes_eqb at 1. rewrite bool_decide_eq_true_2 by done.
  rewrite (bool_decide_eq_true_2 (is_Some (Some ackB))) by by eexists. cbn [negb orb].
  destruct (marshal_state (persistent_state rulesA _)) as [rawA|] eqn:EA; [|unfold finish_ack; repeat case_match; by intros []].
  unfold finish_ack. cbn [with_control pl_idempotency]. rewrite lookup_insert_ne, H3A, HhA, HcA, HaA by done.
  unfold bytes_eqb at 1. rewrite bool_decide_eq_true_2 by done. rewrite (bool_decide_eq_true_2 (is_Some (Some ackA))) by by eexists.
  cbn [negb orb]. intros _ _. do 5 (split; [done|]). split; [|by split].
  unfold cachedCompletedRevocation. cbn [with_control pl_idempotency]. rewrite lookup_insert_ne, lookup_insert_eq by done.
  cbn [mbind option_bind ie_bodyHash ie_completed ie_ack]. unfold bytes_eqb. by rewrite bool_decide_eq_true_2.
Qed.
End restarts.

(** ** Concrete inputs *)

Section witnesses.
#[local] Existing Instances listing_order counting_entropy plain_control_json number_json counting_link_environment merge_sort_order.

Lemma connection_failures_limited_witness :
  (allowConnectionAttempt "unix" (toy_now + Second) (record_failures "unix" (repeat toy_now 8) toy_link)).1 = false.
Proof.
  change (repeat toy_now 8) with (toy_now :: repeat toy_now 7).
  rewrite (connection_failures_limited "unix" toy_now (repeat toy_now 7) (toy_now + Second) toy_link); [by vm_compute|done|done| |done|].
  - repeat constructor; unfold in_window, privateControlFailureWindow, Minute, Second; lia.
  - unfold Second. lia.
Defined.

Definition toy_command : privateControlRevokeServiceAdmission :=
  {| rv_SchemaVersion := privateControlSchemaVersion; rv_Type := "revoke_service_admission"; rv_MessageID := toy_message;
     rv_ChannelID := 100; rv_ServiceID := "recorder-1"; rv_GrantIDHash := []; rv_Reason := "acl_removed";
     rv_DenyUntil := toUnix toy_now + 600 |}.

(** The world in which the command is begun, and after it was executed. *)
Definition begun_world : pc_world := set_link toy_world (beginRevocation "mgmt" toy_message (sha256 [1]) toy_now toy_link).2.
Definition revoked_world : pc_world :=
  final (execute_revocation "mgmt" toy_message toy_command toy_target (sha256 [1])) begun_world.

Lemma revocation_durable_witness :
  exists st, exists sa e, serviceAdmissions (w_server revoked_world) = Some sa /\ sv_denied sa !! denyRule toy_target = Some e /\
    privateControlPersistentRuleFromEntry {| de_rule := denyRule toy_target; de_expiresAt := e |} ∈ ps_Rules st.
Proof.
  destruct (result (execute_revocation "mgmt" toy_message toy_command toy_target (sha256 [1])) begun_world) as [[[ack|?|?|?|?|?|?|?]|] c] eqn:E;
    try (apply (f_equal (fun x => match x with (Some (MAck _), _) => true | _ => false end)) in E; vm_compute in E; discriminate E).
  assert (c = false /\ ak_Outcome ack = "applied"%string) as [-> Ho].
  { apply (f_equal (fun x => match x with (Some (MAck a), c) => (c, ak_Outcome a) | _ => (true, EmptyString) end)) in E.
    vm_compute in E. by injection E. }
  destruct (revocation_durable "mgmt" toy_message toy_command toy_target (sha256 [1]) begun_world ack E)
    as (st & _ & _ & _ & [Hx|(_ & sa & e & H1 & H2 & _ & H3)]); [congruence|].
  exists st, sa, e. split; [exact H1|]. split; [exact H2|exact H3].
Defined.

Definition toy_ack : privateControlAck :=
  {| ak_SchemaVersion := privateControlSchemaVersion; ak_Type := "ack"; ak_MessageID := RawURL_Encode (replicate 16 9);
     ak_InReplyTo := toy_message; ak_Outcome := "applied"; ak_DenyUntil := 1700000700; ak_AffectedMembershipCount := 0;
     ak_TalkReleaseCount := 0 |}.

(** A service admission and a link with one revocation completed. *)
Definition denied_service : serviceAdmissionState := set_service toy_service ∅ ∅ ∅ {[ denyRule toy_target := Unix 1700000700 ]}.
Definition toy_entry (ack : option privateControlAck) (completed : bool) : privateControlIdempotencyEntry :=
  {| ie_bodyHash := replicate 32 1; ie_ack := ack; ie_expiresAt := toy_now + 20 * Minute; ie_completed := completed |}.
Definition stored_link : privateControlLink :=
  with_control toy_link ∅ {[ ("mgmt"%string, toy_message) := toy_entry (Some toy_ack) true ]}.

(** A crash right after the write, which succeeded. *)
Lemma restart_keeps_revocations_witness :
  let m := @write_persistent_state (failing_at 100) number_json "state.json" (persistentStateSnapshot toy_now denied_service stored_link) in
  result m (one_file "state.json" [1], 0%nat) = true /\
  forall dc, crashes (fst (final m (one_file "state.json" [1], 0%nat))) dc ->
  exists a' l', restorePersistentState (file_content dc "state.json") (toy_now + 60 * Second) (Some toy_service) toy_link = Some (Some a', l') /\
    sv_denied a' !! denyRule toy_target = Some (Unix 1700000700).
Proof.
  intros m. split; [by vm_compute|]. intros dc Hdc. destruct (@restart_keeps_revocations _ _ (failing_at 100) toy_now (toy_now + 60 * Second) denied_service stored_link toy_service toy_link
    (one_file "state.json" [1]) 0%nat "state.json" (Some [1])) as [Hdone _];
    [intros raw; apply number_json_roundtrip|exact (ex_intro _ _ eq_refl)| |by vm_compute| |reflexivity|reflexivity
    |apply one_file_ok|done|reflexivity|apply one_file_survives|].
  - apply map_Forall_singleton. split; [by right|]. split; [by split|]. exists 1700000700. by vm_compute.
  - apply map_Forall_singleton. intros _. split; [|by vm_compute]. split; [by vm_compute|]. split; [by vm_compute|].
    split; [repeat constructor; unfold is_u8; lia|]. split; [done|]. intros ack [= <-]. by vm_compute.
  - destruct (Hdone ltac:(by vm_compute) dc (or_intror Hdc)) as (a' & l' & E & Hd & _). exists a', l'. split; [exact E|]. rewrite Hd. by vm_compute.
Defined.

Lemma restart_fails_once_expired_witness :
  restorePersistentState
    (writePrivateControlPersistentState WriteDone (persistentStateSnapshot toy_now denied_service stored_link) None).2
    (toy_now + 20 * Minute) (Some toy_service) toy_link = None.
Proof.
  apply (restart_fails_once_expired toy_now (toy_now + 20 * Minute) denied_service stored_link None (Some toy_service) toy_link
    ("mgmt"%string, toy_message) (toy_entry (Some toy_ack) true)); [| |by vm_compute..].
  - intros raw. apply number_json_roundtrip.
  - exact (ex_intro _ _ eq_refl).
Defined.

(** Command A has stored its acknowledgement, command B is begun. *)
Definition racing_link : privateControlLink :=
  with_control toy_link ∅ (<[("mgmt"%string, toy_message) := toy_entry (Some toy_ack) false]>
    {[ ("mgmt"%string, RawURL_Encode (replicate 16 8)) := toy_entry None false ]}).

Lemma concurrent_write_loses_revocation_witness :
  let kB := ("mgmt"%string, RawURL_Encode (replicate 16 8)) in
  let '(entriesA, l1) := snapshot_idempotency toy_now racing_link in
  let '(_, l2) := store_ack kB.1 kB.2 (replicate 32 1) toy_ack toy_now l1 in
  Forall (fun p => (pi_ManagementServiceID p, pi_MessageID p) <> kB) entriesA.
Proof.
  pose proof (concurrent_write_loses_revocation ("mgmt"%string, toy_message) ("mgmt"%string, RawURL_Encode (replicate 16 8))
    (replicate 32 1) (replicate 32 1) toy_ack toy_ack toy_now [] [] racing_link None
    (toy_entry (Some toy_ack) false) (toy_entry None false) ltac:(intros E; apply (f_equal (fun k => nth 0 k.2 0)) in E; vm_compute in E; discriminate E)
    ltac:(by vm_compute) eq_refl eq_refl eq_refl ltac:(by vm_compute) eq_refl eq_refl eq_refl) as Hl.
  cbv zeta in Hl |- *. destruct (snapshot_idempotency toy_now racing_link) as [entriesA l1].
  destruct (store_ack _ _ _ _ _ l1) as [storedB l2]. destruct (snapshot_idempotency toy_now l2) as [entriesB l3].
  destruct (writePrivateControlPersistentState _ (persistent_state [] entriesB) None) as [okB file1].
  destruct (finish_ack _ _ _ l3) as [doneB l4].
  destruct (writePrivateControlPersistentState _ (persistent_state [] entriesA) file1) as [okA file2].
  destruct (finish_ack _ _ _ l4) as [doneA l5]. destruct Hl as (_ & _ & _ & _ & _ & _ & _ & Hl); [exact (ex_intro _ _ eq_refl)|exact (ex_intro _ _ eq_refl)|exact Hl].
Defined.
End witnesses.
