(* ===== verification/SecretFiles.v ===== *)
(** * Permissions of secret files

    [secret_file_permissions.go]: the policy for files with secrets and the check of one
    file.  What the operating system says of a path is the interface [FileSystem]. *)

From S2P Require Import Prelude Text Identity.

Inductive secretFilePermissionPolicy := secretFilePermissionsRequired | secretFilePermissionsWarn | secretFilePermissionsOff.

#[export] Instance secretFilePermissionPolicy_eq_dec : EqDecision secretFilePermissionPolicy.
Proof. solve_decision. Defined.

(** [info.Mode().IsRegular()] and [info.Mode().Perm()]. *)
Record file_info := { IsRegular : bool; Perm : Z }.

(** The host: whether it is Windows, [os.Stat] and [os.ReadFile] ([None] their
    errors). *)
Class FileSystem := {
  windows : bool;
  Stat : string -> option file_info;
  ReadFile : string -> option (list Z)
}.

(** [tls.LoadX509KeyPair] of two files and [AppendCertsFromPEM] of a content: whether
    they succeed. *)
Class TLSFiles := {
  LoadX509KeyPair : string -> string -> bool;
  AppendCertsFromPEM : list Z -> bool
}.

Section checks.
Context `{FileSystem}.

Definition defaultSecretFilePermissionPolicy : secretFilePermissionPolicy :=
  if windows then secretFilePermissionsWarn else secretFilePermissionsRequired.

(** [None] is an error. *)
Definition parseSecretFilePermissionPolicy (value : list Z) : option secretFilePermissionPolicy :=
  let value := ToLower (TrimSpace value) in
  if bytes_eqb value [] then Some defaultSecretFilePermissionPolicy
  else if bytes_eqb value (str_bytes "required") then Some secretFilePermissionsRequired
  else if bytes_eqb value (str_bytes "warn") then Some secretFilePermissionsWarn
  else if bytes_eqb value (str_bytes "off") then Some secretFilePermissionsOff
  else None.

(** The error of the file itself: [true] when there is one ([0x100] is [0o400], [0x3f] is
    [0o077]). *)
Definition permissions_invalid (path : string) : bool :=
  if windows then true
  else match Stat path with
  | None => true
  | Some info => negb (IsRegular info) || (Z.land (Perm info) 0x100 =? 0) || negb (Z.land (Perm info) 0x3f =? 0)
  end.

(** [true] is a nil error; the empty policy is [None]. *)
Definition validateSecretFilePermissions (path : string) (policy : option secretFilePermissionPolicy) : bool :=
  if blank path || bool_decide (policy = Some secretFilePermissionsOff) then true
  else
    let policy := default defaultSecretFilePermissionPolicy policy in
    negb (permissions_invalid path) || bool_decide (policy = secretFilePermissionsWarn).

(** Under the default policy of a Unix host a secret file is used only when it is a
    regular file that its owner can read, with none of the six permission bits of the
    group and of others set. *)
Theorem secret_file_private path policy : blank path = false -> windows = false ->
  policy = None \/ policy = Some secretFilePermissionsRequired ->
  validateSecretFilePermissions path policy = true <->
  exists info, Stat path = Some info /\ IsRegular info = true /\ Z.testbit (Perm info) 8 = true /\
    forall i, 0 <= i < 6 -> Z.testbit (Perm info) i = false.
Proof.
  intros Hb Hw Hp. unfold validateSecretFilePermissions, permissions_invalid, defaultSecretFilePermissionPolicy. rewrite Hb, Hw.
  rewrite bool_decide_eq_false_2 by (destruct Hp as [-> | ->]; congruence). cbn [orb].
  rewrite (bool_decide_eq_false_2 (default _ policy = _)) by (destruct Hp as [-> | ->]; cbn; congruence). rewrite orb_false_r, negb_true_iff.
  destruct (Stat path) as [info|]; [|split; [done|by intros (? & ? & _)]]. rewrite !orb_false_iff, !negb_false_iff, Z.eqb_eq, Z.eqb_neq.
  split.
  - intros [[Hr Ho] Hg]. exists info. split_and!; try done.
    + destruct (Z.testbit (Perm info) 8) eqn:E; [done|]. destruct Ho. apply Z.bits_inj'. intros n Hn. rewrite Z.land_spec, Z.bits_0.
      change 0x100 with (2 ^ 8). rewrite Z.pow2_bits_eqb by lia. destruct (Z.eqb_spec 8 n) as [<-|]; [by rewrite E|by rewrite andb_false_r].
    + intros i Hi. apply (f_equal (fun x => Z.testbit x i)) in Hg. rewrite Z.land_spec, Z.bits_0 in Hg.
      change 0x3f with (Z.ones 6) in Hg. rewrite Z.ones_spec_low in Hg by lia. by rewrite andb_true_r in Hg.
  - intros (info' & [= <-] & Hr & Ho & Hg). split_and!; [done| |].
    + intros E. apply (f_equal (fun x => Z.testbit x 8)) in E. rewrite Z.land_spec, Ho in E. discriminate E.
    + apply Z.bits_inj'. intros n Hn. rewrite Z.land_spec, Z.bits_0. change 0x3f with (Z.ones 6).
      destruct (decide (n < 6)); [rewrite Hg by lia; done|]. rewrite Z.ones_spec_high by lia. apply andb_false_r.
Qed.
End checks.

(** A host with a key file of mode 0600. *)
Definition private_host : FileSystem :=
  {| windows := false; Stat := fun _ => Some {| IsRegular := true; Perm := 0x180 |}; ReadFile := fun _ => None |}.

Lemma secret_file_private_witness :
  @validateSecretFilePermissions private_host "key.csv" None = true /\ Z.testbit 0x180 8 = true /\ forall i, 0 <= i < 6 -> Z.testbit 0x180 i = false.
Proof.
  assert (@validateSecretFilePermissions private_host "key.csv" None = true) as E by reflexivity. split; [exact E|].
  apply (@secret_file_private private_host "key.csv" None eq_refl eq_refl (or_introl eq_refl)) in E as (info & Hi & _ & Ho & Hg).
  injection Hi as <-. split; [exact Ho|exact Hg].
Defined.
