(* ===== verification/PolicyFiles.v ===== *)
(** * The policy files of the management interfaces

    The strict CSV files of [management.go] and [private_control.go]: the services,
    channel permissions and global permissions of the management API with its
    signing key, and the services of the private control link.  Reading a file and CSV
    are the interfaces [FileSystem] and [CSV]. *)

From S2P Require Import Prelude GoTime Text Base64 Identity Service PrivateControl SecretFiles.

(** [^[0-9a-f]{64}$] and [^[a-z][a-z0-9_]{0,63}$]. *)
Definition managementHexPattern (value : list Z) : bool :=
  (len value =? 64) && forallb (fun c => between 48 57 c || between 97 102 c) value.
Definition managementActionPattern (value : list Z) : bool :=
  match value with
  | [] => false
  | c :: rest => between 97 122 c && (len rest <=? 63)
                 && forallb (fun c => between 97 122 c || between 48 57 c || (c =? 95)) rest
  end.

(** A comparison with each of some literals. *)
Definition is_one_of_strings (s : string) (l : list string) : bool := existsb (String.eqb s) l.

(** The rows after the header, each with as many non-empty fields as the header. *)
Definition strictCSVRows `{CSV} `{FileSystem} (path : string) (header : list string) : option (list (list (list Z))) :=
  data ← ReadFile path;
  rows ← csv_ReadAll_strict data;
  match rows with
  | [] => None
  | first :: rest =>
      if negb (bool_decide (first = str_bytes <$> header)) then None
      else if forallb (fun row => (len row =? len header) && forallb (fun value => negb (bytes_eqb value [])) row) rest
           then Some rest else None
  end.

Definition parseManagementBool (value : list Z) : option bool :=
  if bytes_eqb value (str_bytes "true") then Some true
  else if bytes_eqb value (str_bytes "false") then Some false else None.

Definition parseManagementU32 (value : list Z) (nonzero : bool) : option Z :=
  if bytes_eqb value [] || HasPrefix value [43] || HasPrefix value [45] || bool_decide (120 ∈ value) || bool_decide (88 ∈ value)
  then None
  else
    parsed ← ParseUint value 32;
    if negb (bytes_eqb (FormatUint parsed) value) || (nonzero && (parsed =? 0)) then None else Some parsed.

(** ** The management policy *)

Record managementService := { ms_serviceID : string; apiRole : string; ms_enabled : bool; global : gmap string bool }.

Record managementChannelACL := {
  acl_serviceID : string; acl_channelID : Z; acl_senderID : Z; admissionRole : string; allowListen : bool;
  allowTalk : bool; allowInterrupt : bool; interruptPriority : Z; acl_enabled : bool
}.

(** A service is one object of both maps: [mp_byCertificate] names it. *)
Record managementPolicy := {
  mp_byCertificate : gmap (list Z) string;
  mp_byService : gmap string managementService;
  acls : gmap string (gmap Z (gmap Z managementChannelACL))
}.

Definition empty_policy : managementPolicy := {| mp_byCertificate := ∅; mp_byService := ∅; acls := ∅ |}.

(** The ACL of a service, channel and sender; no entry is a nil map. *)
Definition acl_at (policy : managementPolicy) (serviceID : string) (channelID senderID : Z) : option managementChannelACL :=
  default ∅ (default ∅ (acls policy !! serviceID) !! channelID) !! senderID.

Definition add_service (policy : managementPolicy) (row : list (list Z)) : option managementPolicy :=
  match row with
  | [id; certificate; role; on] =>
      let serviceID := string_of_bytes id in
      if negb (managedServiceIDPattern serviceID) || negb (managementHexPattern certificate) then None
      else
        let role := string_of_bytes role in
        if negb (is_one_of_strings role ["viewer"; "recorder"; "operator"; "auditor"; "admin"]) then None
        else
          enabled ← parseManagementBool on;
          if bool_decide (is_Some (mp_byService policy !! serviceID)) || bool_decide (is_Some (mp_byCertificate policy !! certificate))
          then None
          else Some {| mp_byCertificate := <[certificate := serviceID]> (mp_byCertificate policy);
                       mp_byService := <[serviceID := {| ms_serviceID := serviceID; apiRole := role; ms_enabled := enabled; global := ∅ |}]>
                                         (mp_byService policy);
                       acls := acls policy |}
  | _ => None
  end.

Definition add_acl (policy : managementPolicy) (row : list (list Z)) : option managementPolicy :=
  match row with
  | [id; channel; sender; role; listens; talks; interrupts; priority; on] =>
      let serviceID := string_of_bytes id in
      service ← mp_byService policy !! serviceID;
      if negb (ms_enabled service) then None
      else
        channelID ← parseManagementU32 channel false;
        senderID ← parseManagementU32 sender true;
        let role := string_of_bytes role in
        if negb (is_one_of_strings role ["recorder"; "observer"; "automation"]) then None
        else
          listen ← parseManagementBool listens;
          talk ← parseManagementBool talks;
          interrupt ← parseManagementBool interrupts;
          priority64 ← ParseUint priority 8;
          if negb (bytes_eqb (FormatUint priority64) priority) then None
          else
            enabled ← parseManagementBool on;
            if negb listen || (interrupt && (negb talk || (priority64 =? 0))) || (negb interrupt && negb (priority64 =? 0))
               || ((String.eqb role "recorder" || String.eqb role "observer") && (talk || interrupt || negb (priority64 =? 0)))
               || bool_decide (is_Some (acl_at policy serviceID channelID senderID)) then None
            else
              let acl := {| acl_serviceID := serviceID; acl_channelID := channelID; acl_senderID := senderID;
                            admissionRole := role; allowListen := listen; allowTalk := talk; allowInterrupt := interrupt;
                            interruptPriority := priority64; acl_enabled := enabled |} in
              let byChannel := default ∅ (acls policy !! serviceID) in
              let bySender := default ∅ (byChannel !! channelID) in
              Some {| mp_byCertificate := mp_byCertificate policy; mp_byService := mp_byService policy;
                      acls := <[serviceID := <[channelID := <[senderID := acl]> bySender]> byChannel]> (acls policy) |}
  | _ => None
  end.

Definition add_global (policy : managementPolicy) (row : list (list Z)) : option managementPolicy :=
  match row with
  | [id; permission; on] =>
      let serviceID := string_of_bytes id in
      let permission := string_of_bytes permission in
      service ← mp_byService policy !! serviceID;
      if negb (ms_enabled service) || negb (is_one_of_strings permission ["health.read"; "service_admission.revoke"]) then None
      else
        enabled ← parseManagementBool on;
        if bool_decide (is_Some (global service !! permission)) then None
        else
          let service := {| ms_serviceID := ms_serviceID service; apiRole := apiRole service; ms_enabled := ms_enabled service;
                            global := <[permission := enabled]> (global service) |} in
          Some {| mp_byCertificate := mp_byCertificate policy; mp_byService := <[serviceID := service]> (mp_byService policy);
                  acls := acls policy |}
  | _ => None
  end.

(** The loop over the rows of a file; [None] is the error of a row. *)
Fixpoint load_rows {S} (add : S -> list (list Z) -> option S) (rows : list (list (list Z))) (s : S) : option S :=
  match rows with
  | [] => Some s
  | row :: rest => s ← add s row; load_rows add rest s
  end.

(** What every accepted row keeps holds at the end. *)
Lemma load_rows_ok {S} (add : S -> list (list Z) -> option S) (P : S -> Prop) rows :
  (forall s row s', add s row = Some s' -> P s -> P s') -> forall s s', load_rows add rows s = Some s' -> P s -> P s'.
Proof.
  intros Hadd. induction rows as [|row rows IH]; intros s s' E Hs; [by injection E as <-|].
  cbn [load_rows] in E. apply bind_Some in E as (s1 & E1 & E). eapply IH; eauto.
Qed.

Definition services_header : list string := ["service_id"; "certificate_sha256"; "api_role"; "enabled"]%string.
Definition acl_header : list string :=
  ["service_id"; "channel_id"; "sender_id"; "admission_role"; "allow_listen"; "allow_talk"; "allow_interrupt";
   "interrupt_priority"; "enabled"]%string.
Definition permissions_header : list string := ["service_id"; "permission"; "enabled"]%string.

(** [None] is an error; the path of the global permissions may be blank. *)
Definition loadManagementPolicy `{CSV} `{FileSystem} (servicesPath aclPath globalPermissionsPath : string) : option managementPolicy :=
  if blank servicesPath || blank aclPath then None
  else
    rows ← strictCSVRows servicesPath services_header;
    policy ← load_rows add_service rows empty_policy;
    rows ← strictCSVRows aclPath acl_header;
    policy ← load_rows add_acl rows policy;
    if negb (blank globalPermissionsPath) then
      rows ← strictCSVRows globalPermissionsPath permissions_header;
      load_rows add_global rows policy
    else Some policy.

(** ** The signing key of grants *)

(** [base64.StdEncoding.DecodeString]: line breaks are ignored, the padding fills the
    last group. *)
Definition url_char (c : Z) : option Z :=
  if (c =? 45) || (c =? 95) then None else if c =? 43 then Some 45 else if c =? 47 then Some 95 else Some c.
Definition strip_padding (l : list Z) : list Z :=
  match reverse l with
  | 61 :: 61 :: rest => reverse rest
  | 61 :: rest => reverse rest
  | _ => l
  end.
Definition StdEncoding_Decode (value : list Z) : option (list Z) :=
  let value := filter (fun c => c <> 13 /\ c <> 10) value in
  if negb (len value mod 4 =? 0) then None
  else
    chars ← mapM url_char (strip_padding value);
    RawURL_Decode chars.

(** [crypto/ed25519]: a private key is its seed and its public key.  [NewKeyFromSeed] makes
    it from the seed; any other 64 bytes can be used as a key too. *)
Class Ed25519Keys := {
  NewKeyFromSeed : list Z -> list Z;
  Sign : list Z -> list Z -> list Z;
  NewKeyFromSeed_seed : forall seed, length seed = 32%nat ->
    take 32 (NewKeyFromSeed seed) = seed /\ length (NewKeyFromSeed seed) = 64%nat;
  Sign_signature : forall key message, bytes_ok (Sign key message) /\ length (Sign key message) = 64%nat
}.

Definition SeedSize : Z := 32.
Definition PrivateKeySize : Z := 64.
(** [key.Public()]. *)
Definition Public (key : list Z) : list Z := drop 32 key.

(** The public half of a key is the one of its seed. *)
Definition halves_match `{Ed25519Keys} (key : list Z) : Prop := NewKeyFromSeed (take 32 key) = key.

(** Ed25519 signatures verify: those of a key whose halves match. *)
Class Ed25519Correct `{Ed25519} `{Ed25519Keys} : Prop :=
  Verify_Sign : forall seed message, length seed = 32%nat ->
    Verify (Public (NewKeyFromSeed seed)) message (Sign (NewKeyFromSeed seed) message) = true.

Record managementGrantSigner := { gs_keyID : string; gs_key : list Z }.

Definition loadManagementGrantSigner `{CSV} `{FileSystem} `{Ed25519Keys} (path : string)
    (secretPermissions : option secretFilePermissionPolicy) : option managementGrantSigner :=
  if negb (validateSecretFilePermissions path secretPermissions) then None
  else
    rows ← strictCSVRows path ["kid"; "ed25519_private_key_base64"]%string;
    match rows with
    | [[kid; text]] =>
        if bytes_eqb kid [] || (128 <? len kid) then None
        else
          decoded ← StdEncoding_Decode text;
          if len decoded =? SeedSize then Some {| gs_keyID := string_of_bytes kid; gs_key := NewKeyFromSeed decoded |}
          else if len decoded =? PrivateKeySize then Some {| gs_keyID := string_of_bytes kid; gs_key := decoded |}
          else None
    | _ => None
    end.

(** The bytes of the key in the signing key file. *)
Definition signing_key `{CSV} `{FileSystem} (path : string) : option (list Z) :=
  rows ← strictCSVRows path ["kid"; "ed25519_private_key_base64"]%string;
  match rows with [[_; text]] => StdEncoding_Decode text | _ => None end.

(** A seed makes a key whose halves match; 64 bytes are taken as they are. *)
Lemma loaded_signer `{CSV} `{FileSystem} `{Ed25519Keys} path permissions signer :
  loadManagementGrantSigner path permissions = Some signer -> validateSecretFilePermissions path permissions = true /\
  exists raw, signing_key path = Some raw /\
    (len raw = SeedSize /\ halves_match (gs_key signer) \/ len raw = PrivateKeySize /\ gs_key signer = raw).
Proof.
  unfold loadManagementGrantSigner, signing_key. destruct (validateSecretFilePermissions path permissions); [|done]. cbn [negb].
  intros (rows & -> & E)%bind_Some. split; [done|]. cbn [mbind option_bind]. destruct rows as [|[|kid [|text [|]]] [|]]; try done.
  destruct (_ || _); [done|]. apply bind_Some in E as (raw & -> & E). exists raw. split; [done|].
  destruct (len raw =? SeedSize) eqn:E1; [left|destruct (len raw =? PrivateKeySize) eqn:E2; [right|done]]; injection E as <-; gobool; [|done].
  split; [done|]. unfold halves_match. cbn. destruct (NewKeyFromSeed_seed raw) as [-> _]; [|done]. unfold len, SeedSize in *. lia.
Qed.

(** ** The services of the private control link *)

(** The policy with the services and keys seen so far. *)
Definition loading (K : Type) `{Countable K} : Type := gmap K string * gset string * gset K.

(** A row of either file, its key parsed by [parse]. *)
Definition add_control_service {K} `{Countable K} (parse : list Z -> option K) (st : loading K) (row : list (list Z))
    : option (loading K) :=
  let '(policy, byService, byKey) := st in
  match row with
  | [id; text; on] =>
      let serviceID := string_of_bytes id in
      if negb (managedServiceIDPattern serviceID) then None
      else
        key ← parse text;
        enabled ← parseManagementBool on;
        if bool_decide (serviceID ∈ byService) || bool_decide (key ∈ byKey) then None
        else Some (if enabled : bool then <[key := serviceID]> policy else policy, {[ serviceID ]} ∪ byService, {[ key ]} ∪ byKey)
  | _ => None
  end.

Definition parse_certificate (text : list Z) : option (list Z) := if managementHexPattern text then Some text else None.
Definition parse_uid (text : list Z) : option Z :=
  uid ← ParseUint text 32;
  if uid =? 0 then None else Some uid.

Definition loadPrivateControlPolicy `{CSV} `{FileSystem} (path : string) : option privateControlPolicy :=
  if blank path then None
  else
    rows ← strictCSVRows path ["management_service_id"; "certificate_sha256"; "enabled"]%string;
    '(policy, _, _) ← load_rows (add_control_service parse_certificate) rows (∅, ∅, ∅);
    if bool_decide (policy = ∅) then None else Some {| byCertificate := policy; byUID := ∅ |}.

Definition loadPrivateControlUDSPolicy `{CSV} `{FileSystem} (path : string) : option privateControlPolicy :=
  if blank path then None
  else
    rows ← strictCSVRows path ["management_service_id"; "uid"; "enabled"]%string;
    '(policy, _, _) ← load_rows (add_control_service parse_uid) rows (∅, ∅, ∅);
    if bool_decide (policy = ∅) then None else Some {| byCertificate := ∅; byUID := policy |}.
