(* ===== verification/Management.v ===== *)
(** * The management API

    [managementPlane] of [management.go]: the services it knows, the events and audit
    records it keeps, the grants it issues, and its HTTP handlers.  A request is its
    method, client certificate, clean path, query and body; the writing of a response is
    output. *)

From S2P Require Import Prelude GoTime Text Sha256 Base64 Identity Service Server Diagnostics DirectoryWire Directory PrivateControl SecretFiles PolicyFiles.

Definition managementAuditRetention : Z := 10000.
Definition managementGrantLifetime : duration := 5 * Minute.

(** ** State *)

Inductive managementEventDelivery := managementEventDeliveryDisabled | managementEventDeliveryLive.

(** [None] is an error. *)
Definition parseManagementEventDelivery (value : list Z) : option managementEventDelivery :=
  let parsed := ToLower (TrimSpace value) in
  if bytes_eqb parsed (str_bytes "disabled") then Some managementEventDeliveryDisabled
  else if bytes_eqb parsed (str_bytes "live") then Some managementEventDeliveryLive
  else None.

Record managementEvent := {
  mv_EventID : list Z; mv_OccurredAt : time; mv_Type : string; mv_ChannelID : option Z; mv_SenderID : option Z;
  mv_ServiceID : option string; mv_RecordingJobID : option string; mv_State : option string; mv_Reason : option string
}.

Record managementFloorInterruptAudit := { mf_RequesterPriority : Z; mf_ReplacedSenderID : option Z; mf_ReplacedPriority : option Z }.

(** Timestamps, actions and results are the bytes of their strings. *)
Record managementAuditRecord := {
  ar_RecordID : list Z; ar_Timestamp : list Z; ar_ActorType : string; ar_ActorID : string; ar_ChannelID : option Z;
  ar_Action : list Z; ar_Result : list Z; ar_FloorInterrupt : option managementFloorInterruptAudit; ar_sequence : Z
}.

(** [sb_ch] is the buffer of the channel of events. *)
Record managementSubscriber := { sb_service : managementService; sb_ch : list managementEvent }.

Record managementPlane := {
  mg_policy : managementPolicy; mg_signer : managementGrantSigner; mg_issuer : string; mg_audience : string;
  eventDelivery : managementEventDelivery; auditRetrieval : bool; eventNext : Z;
  subscribers : gmap Z managementSubscriber; subscriberN : Z;
  audit : list managementAuditRecord; auditNext : Z; cursorKey : list Z
}.

Definition with_events (p : managementPlane) next subs n : managementPlane :=
  {| mg_policy := mg_policy p; mg_signer := mg_signer p; mg_issuer := mg_issuer p; mg_audience := mg_audience p;
     eventDelivery := eventDelivery p; auditRetrieval := auditRetrieval p; eventNext := next; subscribers := subs;
     subscriberN := n; audit := audit p; auditNext := auditNext p; cursorKey := cursorKey p |}.

Definition with_audit (p : managementPlane) records next : managementPlane :=
  {| mg_policy := mg_policy p; mg_signer := mg_signer p; mg_issuer := mg_issuer p; mg_audience := mg_audience p;
     eventDelivery := eventDelivery p; auditRetrieval := auditRetrieval p; eventNext := eventNext p; subscribers := subscribers p;
     subscriberN := subscriberN p; audit := records; auditNext := next; cursorKey := cursorKey p |}.

Definition newManagementPlane (policy : managementPolicy) (signer : managementGrantSigner) (issuer audience : string)
    (delivery : managementEventDelivery) : option managementPlane :=
  if negb (len (gs_key signer) =? PrivateKeySize) || blank issuer || blank audience then None
  else Some {| mg_policy := policy; mg_signer := signer; mg_issuer := issuer; mg_audience := audience; eventDelivery := delivery;
               auditRetrieval := false; eventNext := 0; subscribers := ∅; subscriberN := 0; audit := []; auditNext := 0;
               cursorKey := zeros 32 |}.

(** A plane with audit retrieval switched on or off. *)
Definition with_retrieval (p : managementPlane) (on : bool) : managementPlane :=
  {| mg_policy := mg_policy p; mg_signer := mg_signer p; mg_issuer := mg_issuer p; mg_audience := mg_audience p;
     eventDelivery := eventDelivery p; auditRetrieval := on; eventNext := eventNext p; subscribers := subscribers p;
     subscriberN := subscriberN p; audit := audit p; auditNext := auditNext p; cursorKey := cursorKey p |}.

(** ** Permissions *)

Definition hasChannelACL (p : managementPlane) (serviceID : string) (channelID : Z) : bool :=
  existsb (fun kv => acl_enabled kv.2 && allowListen kv.2)
    (map_to_list (default ∅ (default ∅ (acls (mg_policy p) !! serviceID) !! channelID))).

Definition hasAnyChannelACL (p : managementPlane) (serviceID : string) : bool :=
  existsb (fun kv => hasChannelACL p serviceID kv.1) (map_to_list (default ∅ (acls (mg_policy p) !! serviceID))).

Definition canView (service : managementService) : bool := is_one_of_strings (apiRole service) ["viewer"; "recorder"; "operator"]%string.
Definition canViewChannel (p : managementPlane) (service : managementService) (channelID : Z) : bool :=
  canView service && hasChannelACL p (ms_serviceID service) channelID.
Definition canAuditChannel (p : managementPlane) (service : managementService) (channelID : Z) : bool :=
  String.eqb (apiRole service) "auditor" && hasChannelACL p (ms_serviceID service) channelID.
Definition canGlobal (service : managementService) (permission : string) : bool := default false (global service !! permission).

Definition eventAllowed (p : managementPlane) (service : managementService) (event : managementEvent) : bool :=
  match mv_ChannelID event with
  | None => String.eqb (mv_Type event) "relay_health_changed" && canGlobal service "health.read"
  | Some channelID => canViewChannel p service channelID || canAuditChannel p service channelID
  end.

(** ** Events *)

Section events.
Context `{RangeOrder}.

(** The section of [publishEvent] and the sends after it. *)
Definition next_event (eventType : string) (channelID senderID : option Z) (serviceID jobID state reason : option string) (now : time)
    (p : managementPlane) : (managementEvent * list Z) * managementPlane :=
  let next := u64 (eventNext p + 1) in
  let event := {| mv_EventID := FormatUint next; mv_OccurredAt := now; mv_Type := eventType; mv_ChannelID := channelID;
                  mv_SenderID := senderID; mv_ServiceID := serviceID; mv_RecordingJobID := jobID; mv_State := state;
                  mv_Reason := reason |} in
  ((event, (range (subscribers p)).*1), with_events p next (subscribers p) (subscriberN p)).

Definition subscriberDepth : Z := 64.

Definition send_event (event : managementEvent) (p : managementPlane) (id : Z) : managementPlane :=
  match subscribers p !! id with
  | None => p
  | Some sb =>
      if eventAllowed p (sb_service sb) event && (len (sb_ch sb) <? subscriberDepth) then
        with_events p (eventNext p) (<[id := {| sb_service := sb_service sb; sb_ch := sb_ch sb ++ [event] |}]> (subscribers p)) (subscriberN p)
      else p
  end.

Definition publishEvent (eventType : string) (channelID senderID : option Z) (serviceID jobID state reason : option string) (now : time)
    (p : managementPlane) : managementPlane :=
  match eventDelivery p with
  | managementEventDeliveryDisabled => p
  | managementEventDeliveryLive =>
      let '((event, ids), p) := next_event eventType channelID senderID serviceID jobID state reason now p in
      foldl (send_event event) p ids
  end.
End events.

(** ** Audit records *)

(** An instant of the years 1970 to 9999. *)
Definition printable_time (t : time) : Prop := Unix 0 <= t < Unix 253402300800.

(** [time.RFC3339] of a UTC instant, in ASCII, and its parser; a formatted instant
    parses to its second. *)
Class RFC3339 := {
  rfc_format : time -> list Z;
  rfc_parse : list Z -> option time;
  rfc_format_ascii : forall t, Forall (fun c => 0 <= c < 128) (rfc_format t);
  rfc_parse_format : forall t, printable_time t -> rfc_parse (rfc_format t) = Some (Unix (toUnix t))
}.

(** [fmt.Sprintf("audit-%012d", n)]. *)
Definition audit_id (n : Z) : list Z :=
  let digits := FormatUint n in
  str_bytes "audit-" ++ repeat 48 (12 - length digits) ++ digits.

Definition appendAudit `{RFC3339} (record : managementAuditRecord) (now : time) (p : managementPlane) : managementPlane :=
  if negb (auditRetrieval p) then p
  else
    let next := u64 (auditNext p + 1) in
    let record := {| ar_RecordID := audit_id next;
                     ar_Timestamp := if bytes_eqb (ar_Timestamp record) [] then rfc_format now else ar_Timestamp record;
                     ar_ActorType := ar_ActorType record; ar_ActorID := ar_ActorID record; ar_ChannelID := ar_ChannelID record;
                     ar_Action := ar_Action record; ar_Result := ar_Result record; ar_FloorInterrupt := ar_FloorInterrupt record;
                     ar_sequence := next |} in
    let records := audit p ++ [record] in
    with_audit p (if managementAuditRetention <? len records then drop (Z.to_nat (len records - managementAuditRetention)) records
                  else records) next.

Record managementAuditFilter := {
  af_channelID : option Z; af_since : option time; af_until : option time; af_action : list Z; af_result : list Z
}.

(** A request.  [rq_query] is the query in order, [rq_path] is clean. *)
Record http_request := {
  rq_method : string; rq_certificate : option (list Z); rq_path : list Z; rq_query : list (string * list Z); rq_body : list Z
}.

(** [r.URL.Query().Get(name)]. *)
Definition query_get (r : http_request) (name : string) : list Z :=
  match list_find (fun kv => kv.1 = name) (rq_query r) with Some (_, kv) => kv.2 | None => [] end.

(** A query value that is absent, or parsed by [parse] ([None] when it fails). *)
Definition query_option {A} (raw : list Z) (parse : list Z -> option A) : option (option A) :=
  if bytes_eqb raw [] then Some None else Some <$> parse raw.

(** [None] is [http.StatusBadRequest]. *)
Definition parseManagementAuditFilter `{RFC3339} (r : http_request) : option managementAuditFilter :=
  let action := query_get r "action" in
  let outcome := query_get r "result" in
  channelID ← query_option (query_get r "channel_id") (fun raw => parseManagementU32 raw false);
  since ← query_option (query_get r "since") rfc_parse;
  until ← query_option (query_get r "until") rfc_parse;
  if match since, until with Some since, Some until => negb (Before since until) | _, _ => false end then None
  else if negb (bytes_eqb action []) && negb (managementActionPattern action) then None
  else if negb (bytes_eqb outcome []) && negb (bytes_eqb outcome (str_bytes "success"))
          && negb (bytes_eqb outcome (str_bytes "denied")) && negb (bytes_eqb outcome (str_bytes "failed")) then None
  else Some {| af_channelID := channelID; af_since := since; af_until := until; af_action := action; af_result := outcome |}.

(** [filter.key()]. *)
Definition filter_key `{RFC3339} (filter : managementAuditFilter) : list Z :=
  join_byte 0 [default [] (FormatUint <$> af_channelID filter); default [] (rfc_format <$> af_since filter);
               default [] (rfc_format <$> af_until filter); af_action filter; af_result filter].

Record managementAuditCursor := { cu_ServiceID : string; cu_Filter : list Z; cu_Snapshot : Z; cu_Offset : Z }.

(** [json.Marshal] and [json.Unmarshal] of a cursor. *)
Class CursorJSON := {
  marshal_cursor : managementAuditCursor -> option (list Z);
  unmarshal_cursor : list Z -> option managementAuditCursor
}.

Definition encodeAuditCursor `{CursorJSON} (p : managementPlane) (cursor : managementAuditCursor) : option (list Z) :=
  payload ← marshal_cursor cursor;
  Some (RawURL_Encode payload ++ [46] ++ RawURL_Encode (hmac_sha256 (cursorKey p) payload)).

Definition decodeAuditCursor `{CursorJSON} (p : managementPlane) (value : list Z) : option managementAuditCursor :=
  match split_dots value with
  | [first; second] =>
      payload ← strictBase64URL first;
      tag ← strictBase64URL second;
      if negb (len tag =? 32) || negb (bytes_eqb tag (hmac_sha256 (cursorKey p) payload)) then None
      else
        cursor ← unmarshal_cursor payload;
        if String.eqb (cu_ServiceID cursor) "" || bytes_eqb (cu_Filter cursor) [] || (cu_Snapshot cursor =? 0) || (cu_Offset cursor <? 0)
        then None else Some cursor
  | _ => None
  end.

Definition canAuditRecordLocked (p : managementPlane) (service : managementService) (record : managementAuditRecord) : bool :=
  if negb (String.eqb (apiRole service) "auditor") then false
  else match ar_ChannelID record with
       | None => canGlobal service "audit.read"
       | Some channelID => hasChannelACL p (ms_serviceID service) channelID
       end.

Definition recordMatchesAuditFilter `{RFC3339} (record : managementAuditRecord) (filter : managementAuditFilter) : bool :=
  if match af_channelID filter with
     | Some channelID => negb (bool_decide (ar_ChannelID record = Some channelID))
     | None => false
     end then false
  else if (negb (bytes_eqb (af_action filter) []) && negb (bytes_eqb (ar_Action record) (af_action filter)))
          || (negb (bytes_eqb (af_result filter) []) && negb (bytes_eqb (ar_Result record) (af_result filter))) then false
  else match rfc_parse (ar_Timestamp record) with
       | None => false
       | Some timestamp =>
           negb (match af_since filter with Some since => Before timestamp since | None => false end)
           && negb (match af_until filter with Some until => negb (Before timestamp until) | None => false end)
       end.

(** ** Responses *)

Inductive http_response :=
| HttpError (status : Z)
| Health (delivery : managementEventDelivery) (retrieval : bool)
| Channels (channels : list (Z * Z))
| Participants (channelID : Z) (participants : list (Z * bool))
| EventStream (subscriberID : Z)
| AuditPage (records : list managementAuditRecord) (nextCursor : option (list Z))
| GrantIssued (grant : list Z) (expiresAt : time).

Definition StatusBadRequest : Z := 400.
Definition StatusForbidden : Z := 403.
Definition StatusNotFound : Z := 404.
Definition StatusMethodNotAllowed : Z := 405.
Definition StatusGone : Z := 410.
Definition StatusInternalServerError : Z := 500.

(** [strconv.Atoi]. *)
Definition Atoi (value : list Z) : option Z :=
  match value with
  | 43 :: digits => ParseUint digits 63
  | 45 :: digits => Z.opp <$> ParseUint digits 63
  | _ => ParseUint value 63
  end.

(** ** Handlers *)

Definition handleHealth (p : managementPlane) (service : managementService) (r : http_request) : http_response :=
  if negb (String.eqb (rq_method r) "GET") || negb (canGlobal service "health.read") then HttpError StatusForbidden
  else Health (eventDelivery p) (auditRetrieval p).

Section reads.
Context `{RangeOrder} `{SliceSort}.

Definition handleChannels (p : managementPlane) (s : server) (service : managementService) (r : http_request) : http_response :=
  if negb (String.eqb (rq_method r) "GET") then HttpError StatusMethodNotAllowed
  else if negb (canView service) || negb (hasAnyChannelACL p (ms_serviceID service)) then HttpError StatusForbidden
  else
    let channels := omap (fun kv => if hasChannelACL p (ms_serviceID service) kv.1
                                    then Some (kv.1, u32 (Z.of_nat (size (peers kv.2)))) else None) (range (channels s)) in
    Channels (sort_Slice fst channels).

Definition handleParticipants (p : managementPlane) (s : server) (service : managementService) (r : http_request) : http_response :=
  let suffix := str_bytes "/participants" in
  if negb (String.eqb (rq_method r) "GET") || negb (HasPrefix (reverse (rq_path r)) (reverse suffix)) then HttpError StatusMethodNotAllowed
  else
    match split_byte 47 (default (rq_path r) (strip_prefix (str_bytes "/v1/channels/") (rq_path r))) with
    | [id; last] =>
        if bytes_eqb id [] || negb (bytes_eqb last (str_bytes "participants")) then HttpError StatusNotFound
        else
          match parseManagementU32 id false with
          | None => HttpError StatusForbidden
          | Some channelID =>
              if negb (canViewChannel p service channelID) then HttpError StatusForbidden
              else
                let participants :=
                  match channels s !! channelID with
                  | None => []
                  | Some ch => (fun kv => (p_senderId kv.2, bool_decide (is_Some (activeTalkers ch !! p_senderId kv.2)))) <$> range (peers ch)
                  end in
                Participants channelID (sort_Slice fst participants)
          end
    | _ => HttpError StatusNotFound
    end.
End reads.

(** The answer of [handleEvents] and its subscription. *)
Definition handleEvents (service : managementService) (r : http_request) (p : managementPlane) : http_response * managementPlane :=
  if negb (String.eqb (rq_method r) "GET") then (HttpError StatusMethodNotAllowed, p)
  else match eventDelivery p with
  | managementEventDeliveryDisabled => (HttpError StatusNotFound, p)
  | managementEventDeliveryLive =>
      if existsb (fun kv => String.eqb kv.1 "since") (rq_query r) then (HttpError StatusBadRequest, p)
      else if negb (canGlobal service "health.read"
                    || ((canView service || String.eqb (apiRole service) "auditor") && hasAnyChannelACL p (ms_serviceID service)))
      then (HttpError StatusForbidden, p)
      else
        let id := u64 (subscriberN p + 1) in
        (EventStream id, with_events p (eventNext p) (<[id := {| sb_service := service; sb_ch := [] |}]> (subscribers p)) id)
  end.

(** The end of an event stream, and one turn of its loop. *)
Definition unsubscribe (id : Z) (p : managementPlane) : managementPlane :=
  with_events p (eventNext p) (delete id (subscribers p)) (subscriberN p).
Definition stream_event (id : Z) (p : managementPlane) : option managementEvent * managementPlane :=
  match subscribers p !! id with
  | Some sb =>
      match sb_ch sb with
      | event :: rest => (Some event, with_events p (eventNext p) (<[id := {| sb_service := sb_service sb; sb_ch := rest |}]> (subscribers p)) (subscriberN p))
      | [] => (None, p)
      end
  | None => (None, p)
  end.

(** What a turn writes, for the JSON of the event. *)
Definition writeManagementSSE (event : managementEvent) (data : list Z) : list Z :=
  str_bytes "id: " ++ mv_EventID event ++ [10] ++ str_bytes "event: " ++ str_bytes (mv_Type event) ++ [10] ++
  str_bytes "data: " ++ data ++ [10; 10].

Section audits.
Context `{RFC3339} `{CursorJSON}.

(** The records a service may see, newest first. *)
Definition visible_records (p : managementPlane) (service : managementService) (filter : managementAuditFilter) (snapshot : Z)
    : list managementAuditRecord :=
  List.filter (fun record => (ar_sequence record <=? snapshot) && canAuditRecordLocked p service record
                             && recordMatchesAuditFilter record filter) (reverse (audit p)).

(** The snapshot and offset of a request, or the status of its cursor. *)
Definition resume_at (p : managementPlane) (service : managementService) (filterKey raw : list Z) : Z + Z * Z :=
  if bytes_eqb raw [] then inr (auditNext p, 0)
  else match decodeAuditCursor p raw with
  | None => inl StatusBadRequest
  | Some cursor =>
      if negb (String.eqb (cu_ServiceID cursor) (ms_serviceID service)) || negb (bytes_eqb (cu_Filter cursor) filterKey)
      then inl StatusBadRequest
      else if match audit p with first :: _ => cu_Snapshot cursor <? ar_sequence first | [] => false end then inl StatusGone
      else inr (cu_Snapshot cursor, cu_Offset cursor)
  end.

(** The limit of a page: 100, or from 1 to 1000. *)
Definition audit_limit (r : http_request) : option Z :=
  if bytes_eqb (query_get r "limit") [] then Some 100
  else match Atoi (query_get r "limit") with
       | Some parsed => if (parsed <? 1) || (1000 <? parsed) then None else Some parsed
       | None => None
       end.

Definition handleAuditRecords (p : managementPlane) (service : managementService) (r : http_request) : http_response :=
  if negb (auditRetrieval p) then HttpError StatusNotFound
  else if negb (String.eqb (rq_method r) "GET") || negb (String.eqb (apiRole service) "auditor") then HttpError StatusForbidden
  else match parseManagementAuditFilter r with
  | None => HttpError StatusBadRequest
  | Some filter =>
      if match af_channelID filter with Some channelID => negb (canAuditChannel p service channelID) | None => false end
      then HttpError StatusForbidden
      else
        match audit_limit r with
        | None => HttpError StatusBadRequest
        | Some limit =>
            match resume_at p service (filter_key filter) (query_get r "cursor") with
            | inl status => HttpError status
            | inr (snapshot, offset) =>
                let records := visible_records p service filter snapshot in
                if len records <? offset then HttpError StatusBadRequest
                else
                  let stop := if len records <? offset + limit then len records else offset + limit in
                  let page := take (Z.to_nat (stop - offset)) (drop (Z.to_nat offset) records) in
                  if stop <? len records then
                    match encodeAuditCursor p {| cu_ServiceID := ms_serviceID service; cu_Filter := filter_key filter;
                                                 cu_Snapshot := snapshot; cu_Offset := stop |} with
                    | None => HttpError StatusInternalServerError
                    | Some encoded => AuditPage page (Some encoded)
                    end
                  else AuditPage page None
            end
        end
  end.
End audits.

(** ** Grants *)

Record serviceGrantRequest := {
  gr_ChannelID : Z; gr_SenderID : Z; gr_Role : string; gr_RequestTalk : bool; gr_RequestInterrupt : bool; gr_ServicePublicKey : list Z
}.

(** [json.Marshal] of a grant's header and claims, and the strict decoder of a request
    body, of which at most 16 KiB are read. *)
Class GrantMarshal := {
  marshal_grant_header : serviceGrantHeader -> option (list Z);
  marshal_grant_claims : serviceGrantClaims -> option (list Z);
  decode_grant_request : list Z -> option serviceGrantRequest
}.

Section grants.
Context `{Ed25519Keys} `{GrantMarshal}.

Definition grant_permissions (request : serviceGrantRequest) : Z :=
  Z.lor (Z.lor identityPermissionListen (if gr_RequestTalk request then identityPermissionTalk else 0))
    (if gr_RequestInterrupt request then identityPermissionInterrupt else 0).

(** The header and claims of a grant. *)
Definition issued_header (p : managementPlane) : serviceGrantHeader :=
  {| gh_Algorithm := "EdDSA"; gh_KeyID := gs_keyID (mg_signer p); gh_Type := "incomudon-service-admission+jwt" |}.

Definition issued_claims (p : managementPlane) (service : managementService) (request : serviceGrantRequest)
    (jti digest : list Z) (now expiresAt : time) (permissions priority : Z) : serviceGrantClaims :=
  {| gc_Issuer := mg_issuer p; gc_Audience := mg_audience p; gc_ServiceID := ms_serviceID service;
     gc_GrantID := string_of_bytes (RawURL_Encode jti); gc_IssuedAt := toUnix now; gc_ExpiresAt := toUnix expiresAt;
     gc_ChannelID := gr_ChannelID request; gc_SenderID := gr_SenderID request; gc_Role := gr_Role request;
     gc_Permissions := permissions; gc_Priority := if permissions =? 7 then Some priority else None;
     gc_GraceSeconds := None; gc_JWKThumbprint := string_of_bytes (RawURL_Encode digest) |}.

(** [issueGrant]; [jti] are the random bytes, [None] is an error. *)
Definition issueGrant (p : managementPlane) (service : managementService) (request : serviceGrantRequest)
    (jti : option (list Z)) (now : time) : option (list Z * time * Z * Z) :=
  if (gr_SenderID request =? 0) || negb (is_one_of_strings (gr_Role request) ["recorder"; "observer"; "automation"]%string) then None
  else
    publicKeyRaw ← strictBase64URL (gr_ServicePublicKey request);
    if negb (len publicKeyRaw =? PublicKeySize) then None
    else
      acl ← acl_at (mg_policy p) (ms_serviceID service) (gr_ChannelID request) (gr_SenderID request);
      if negb (acl_enabled acl) || negb (String.eqb (admissionRole acl) (gr_Role request))
         || negb (is_one_of_strings (apiRole service) ["recorder"; "operator"]%string)
         || (String.eqb (apiRole service) "recorder" && negb (String.eqb (gr_Role request) "recorder")) then None
      else if (gr_RequestTalk request && negb (allowTalk acl))
              || (gr_RequestInterrupt request && (negb (gr_RequestTalk request) || negb (allowInterrupt acl))) then None
      else
        let permissions := grant_permissions request in
        let priority := if gr_RequestInterrupt request then interruptPriority acl else 0 in
        if (String.eqb (gr_Role request) "recorder" || String.eqb (gr_Role request) "observer")
           && negb (permissions =? identityPermissionListen) then None
        else
          jti ← jti;
          let expiresAt := Add now managementGrantLifetime in
          let digest := sha256 publicKeyRaw in
          header ← marshal_grant_header (issued_header p);
          payload ← marshal_grant_claims (issued_claims p service request jti digest now expiresAt permissions priority);
          let signingInput := RawURL_Encode header ++ [46] ++ RawURL_Encode payload in
          let grant := signingInput ++ [46] ++ RawURL_Encode (Sign (gs_key (mg_signer p)) signingInput) in
          if serviceGrantMaxBytes <? len grant then None
          else Some (grant, expiresAt, permissions, priority).

Context `{RFC3339} `{RangeOrder}.

Definition handleServiceGrants (service : managementService) (r : http_request) (jti : option (list Z)) (now : time)
    (p : managementPlane) : http_response * managementPlane :=
  if negb (String.eqb (rq_method r) "POST") then (HttpError StatusMethodNotAllowed, p)
  else match decode_grant_request (take 16384 (rq_body r)) with
  | None => (HttpError StatusBadRequest, p)
  | Some request =>
      match issueGrant p service request jti now with
      | None => (HttpError StatusForbidden, p)
      | Some (grant, expiresAt, _, _) =>
          let p := appendAudit {| ar_RecordID := []; ar_Timestamp := []; ar_ActorType := "service"; ar_ActorID := ms_serviceID service;
                                  ar_ChannelID := Some (gr_ChannelID request); ar_Action := str_bytes "service_admission_issued";
                                  ar_Result := str_bytes "success"; ar_FloorInterrupt := None; ar_sequence := 0 |} now p in
          let p := publishEvent "service_admission_issued" (Some (gr_ChannelID request)) (Some (gr_SenderID request))
                     (Some (ms_serviceID service)) None None None now p in
          (GrantIssued grant expiresAt, p)
      end
  end.
End grants.

(** ** Start *)

Record managementPlaneConfig := {
  mc_listenAddress : string; mc_certificateFile : string; mc_privateKeyFile : string; mc_clientCAFile : string;
  mc_servicesCSV : string; mc_channelACLCSV : string; mc_globalPermissionsCSV : string; mc_signingKeyFile : string;
  mc_issuer : string; mc_audience : string; mc_eventDelivery : managementEventDelivery;
  mc_secretPermissions : option secretFilePermissionPolicy
}.

(** [startManagementPlane] on the service admission of the server, up to the HTTPS
    listener; [None] is an error. *)
Definition startManagementPlane `{CSV} `{FileSystem} `{Ed25519Keys} `{TLSFiles} `{RangeOrder} (config : managementPlaneConfig)
    (serviceAdmission : option serviceAdmissionState) (now : time) : option managementPlane :=
  if blank (mc_listenAddress config) || blank (mc_certificateFile config) || blank (mc_privateKeyFile config)
     || blank (mc_clientCAFile config) || blank (mc_signingKeyFile config) then None
  else
    policy ← loadManagementPolicy (mc_servicesCSV config) (mc_channelACLCSV config) (mc_globalPermissionsCSV config);
    signer ← loadManagementGrantSigner (mc_signingKeyFile config) (mc_secretPermissions config);
    serviceAdmission ← serviceAdmission;
    let verificationKey := default [] (sv_keys serviceAdmission !! gs_keyID signer) in
    if negb (len verificationKey =? PublicKeySize) || negb (bytes_eqb verificationKey (Public (gs_key signer))) then None
    else if negb (validateSecretFilePermissions (mc_privateKeyFile config) (mc_secretPermissions config)) then None
    else if negb (LoadX509KeyPair (mc_certificateFile config) (mc_privateKeyFile config)) then None
    else
      caData ← ReadFile (mc_clientCAFile config);
      if negb (AppendCertsFromPEM caData) then None
      else
        plane ← newManagementPlane policy signer (mc_issuer config) (mc_audience config) (mc_eventDelivery config);
        Some (publishEvent "relay_health_changed" None None None None (Some "healthy"%string) None now plane).

(** ** Requests *)

(** [serviceForRequest]: the enabled service of the client certificate. *)
Definition serviceForRequest (p : managementPlane) (r : http_request) : option managementService :=
  raw ← rq_certificate r;
  serviceID ← mp_byCertificate (mg_policy p) !! hex_EncodeToString (sha256 raw);
  service ← mp_byService (mg_policy p) !! serviceID;
  if ms_enabled service then Some service else None.

Section requests.
Context `{RangeOrder} `{SliceSort} `{RFC3339} `{CursorJSON} `{Ed25519Keys} `{GrantMarshal}.

(** [handler()] with [withService]: the answer to a request. *)
Definition handle_request (s : server) (r : http_request) (jti : option (list Z)) (now : time) (p : managementPlane)
    : http_response * managementPlane :=
  let route next := match serviceForRequest p r with None => (HttpError StatusForbidden, p) | Some service => next service end in
  if bytes_eqb (rq_path r) (str_bytes "/v1/health") then route (fun service => (handleHealth p service r, p))
  else if bytes_eqb (rq_path r) (str_bytes "/v1/channels") then route (fun service => (handleChannels p s service r, p))
  else if HasPrefix (rq_path r) (str_bytes "/v1/channels/") then route (fun service => (handleParticipants p s service r, p))
  else if bytes_eqb (rq_path r) (str_bytes "/v1/events") then route (fun service => handleEvents service r p)
  else if bytes_eqb (rq_path r) (str_bytes "/v1/audit-records") then route (fun service => (handleAuditRecords p service r, p))
  else if bytes_eqb (rq_path r) (str_bytes "/v1/service-admission-grants") then route (fun service => handleServiceGrants service r jti now p)
  else (HttpError StatusNotFound, p).
End requests.
