(* ===== verification/ManagementSpec.v ===== *)
(** * What the management API promises

    The policy that is loaded is well-formed, a request is answered only within the
    permissions of its service, an event is queued only for a subscriber that may see it,
    and a grant that is issued is one the service admission of the Relay accepts, with the
    permissions of the channel ACL. *)

From S2P Require Import Prelude GoTime Text Sha256 Base64 Identity Service Server DirectoryWire Directory PrivateControl SecretFiles PolicyFiles Management.

(** ** The policy *)

Definition service_ok (id : string) (service : managementService) : Prop :=
  ms_serviceID service = id /\ managedServiceIDPattern id = true /\
  is_one_of_strings (apiRole service) ["viewer"; "recorder"; "operator"; "auditor"; "admin"]%string = true /\
  (forall permission, is_Some (global service !! permission) ->
     is_one_of_strings permission ["health.read"; "service_admission.revoke"]%string = true).

(** The permissions of an ACL: listening always, interrupting only with talking and a
    priority from 1 to 255, and receive-only roles only listen. *)
Definition acl_ok (serviceID : string) (channelID senderID : Z) (acl : managementChannelACL) : Prop :=
  acl_serviceID acl = serviceID /\ acl_channelID acl = channelID /\ acl_senderID acl = senderID /\
  is_u32 channelID /\ is_u32 senderID /\ senderID <> 0 /\
  is_one_of_strings (admissionRole acl) ["recorder"; "observer"; "automation"]%string = true /\
  allowListen acl = true /\ is_u8 (interruptPriority acl) /\
  (allowInterrupt acl = true -> allowTalk acl = true /\ interruptPriority acl <> 0) /\
  (allowInterrupt acl = false -> interruptPriority acl = 0) /\
  (admissionRole acl = "recorder"%string \/ admissionRole acl = "observer"%string -> allowTalk acl = false /\ allowInterrupt acl = false).

Record policy_ok (policy : managementPolicy) : Prop := {
  po_services : map_Forall service_ok (mp_byService policy);
  po_certificates : forall certificate id, mp_byCertificate policy !! certificate = Some id ->
    managementHexPattern certificate = true /\ is_Some (mp_byService policy !! id);
  po_certificate_unique : forall c c' id, mp_byCertificate policy !! c = Some id -> mp_byCertificate policy !! c' = Some id -> c = c';
  po_acls : forall serviceID channelID senderID acl, acl_at policy serviceID channelID senderID = Some acl ->
    acl_ok serviceID channelID senderID acl /\ exists service, mp_byService policy !! serviceID = Some service /\ ms_enabled service = true
}.

Lemma parseManagementU32_bound value nonzero v :
  parseManagementU32 value nonzero = Some v -> is_u32 v /\ (nonzero = true -> v <> 0).
Proof.
  unfold parseManagementU32. destruct (_ || _); [done|]. intros E. apply bind_Some in E as (parsed & Ep & E).
  destruct (_ || _) eqn:Ec; [done|]. injection E as <-. apply ParseUint_bound in Ep. split; [done|]. intros ->. gobool.
  match goal with H : true && _ = false |- _ => cbn in H; gobool; done end.
Qed.

Lemma add_service_ok policy row policy' : add_service policy row = Some policy' -> policy_ok policy -> policy_ok policy'.
Proof.
  unfold add_service. intros E [H1 H2 H3 H4].
  destruct row as [|id [|certificate [|role [|on [|]]]]]; try done. cbv zeta in E.
  destruct (_ || _) eqn:Ep; [done|]. destruct (negb (is_one_of_strings _ _)) eqn:Er; [done|]. apply bind_Some in E as (enabled & _ & E).
  cbv beta in E. destruct (bool_decide _ || _) eqn:En; [done|]. injection E as <-. gobool. set (serviceID := string_of_bytes id) in *.
  assert (mp_byService policy !! serviceID = None) as Hs by by apply eq_None_not_Some.
  assert (mp_byCertificate policy !! certificate = None) as Hc by by apply eq_None_not_Some.
  constructor; cbn [mp_byService mp_byCertificate].
  - apply map_Forall_insert_2; [|done]. split; [done|]. split; [done|]. split; [done|]. by intros permission [].
  - intros c i. rewrite lookup_insert_Some. intros [[<- <-]|[Hne Hci]]; [split; [done|rewrite lookup_insert_eq; by eexists]|].
    destruct (H2 _ _ Hci) as [? [sv Hsv]]. split; [done|]. rewrite lookup_insert_is_Some'. right. by eexists.
  - intros c c' i. rewrite !lookup_insert_Some. intros [[<- <-]|[Hne Hci]] [[<- Hi]|[Hne' Hci']]; try done.
    + apply H2 in Hci' as [_ [sv Hsv]]. congruence.
    + subst i. apply H2 in Hci as [_ [sv Hsv]]. congruence.
    + by eapply H3.
  - intros sid ch sd acl Ha. destruct (H4 _ _ _ _ Ha) as (Hok & sv & Hsv & He). split; [done|]. exists sv. split; [|done].
    rewrite lookup_insert_ne; [done|]. intros ->. congruence.
Qed.

Lemma acl_at_insert policy serviceID channelID senderID acl sid ch sd :
  acl_at {| mp_byCertificate := mp_byCertificate policy; mp_byService := mp_byService policy;
            acls := <[serviceID := <[channelID := <[senderID := acl]> (default ∅ (default ∅ (acls policy !! serviceID) !! channelID))]>
                      (default ∅ (acls policy !! serviceID))]> (acls policy) |} sid ch sd =
  if decide ((sid, ch, sd) = (serviceID, channelID, senderID)) then Some acl else acl_at policy sid ch sd.
Proof.
  unfold acl_at. cbn [acls]. destruct (decide (serviceID = sid)) as [<-|Hne].
  2:{ rewrite lookup_insert_ne by done. rewrite decide_False; [done|]. congruence. }
  rewrite lookup_insert_eq. cbn [from_option id]. destruct (decide (channelID = ch)) as [<-|Hne].
  2:{ rewrite lookup_insert_ne by done. rewrite decide_False; [done|]. congruence. }
  rewrite lookup_insert_eq. cbn [from_option id]. destruct (decide (senderID = sd)) as [<-|Hne].
  - rewrite lookup_insert_eq. by rewrite decide_True.
  - rewrite lookup_insert_ne by done. rewrite decide_False; [done|]. congruence.
Qed.

Lemma add_acl_ok policy row policy' : add_acl policy row = Some policy' -> policy_ok policy -> policy_ok policy'.
Proof.
  unfold add_acl. intros E Hok. pose proof Hok as [H1 H2 H3 H4].
  destruct row as [|id [|channel [|sender [|role [|listens [|talks [|interrupts [|priority [|on [|]]]]]]]]]]; try done. cbv zeta in E.
  apply bind_Some in E as (service & Hs & E). destruct (negb (ms_enabled service)) eqn:Hen; [done|].
  apply bind_Some in E as (channelID & Hch & E). apply bind_Some in E as (senderID & Hsd & E).
  destruct (negb (is_one_of_strings _ _)) eqn:Er; [done|].
  apply bind_Some in E as (listen & _ & E). apply bind_Some in E as (talk & _ & E). apply bind_Some in E as (interrupt & _ & E).
  apply bind_Some in E as (prio & Hp & E). destruct (negb (bytes_eqb _ _)); [done|]. apply bind_Some in E as (enabled & _ & E).
  destruct (_ || bool_decide _) eqn:Ec; [done|]. injection E as <-.
  apply parseManagementU32_bound in Hch as [Hch _]. apply parseManagementU32_bound in Hsd as [Hsd Hsd0]. apply ParseUint_bound in Hp.
  constructor; cbn [mp_byCertificate mp_byService]; try done.
  intros sid ch sd acl. rewrite acl_at_insert. case_decide as Hd; [|apply H4]. injection Hd as -> -> ->. intros [= <-].
  split; [|exists service; by gobool]. repeat (apply orb_false_iff in Ec as [Ec ?]). unfold acl_ok. cbn. gobool.
  split_and!; try done; try by apply Hsd0.
  - destruct interrupt; cbn in *; [|done]. intros _. gobool. by destruct talk.
  - destruct interrupt; [done|]. cbn in *. intros _. gobool. done.
  - intros Hrole. match goal with H : (String.eqb _ _ || String.eqb _ _) && _ = false |- _ => revert H end.
    assert ((String.eqb (string_of_bytes role) "recorder" || String.eqb (string_of_bytes role) "observer") = true) as ->
      by (destruct Hrole as [-> | ->]; done).
    by destruct talk, interrupt.
Qed.

Lemma add_global_ok policy row policy' : add_global policy row = Some policy' -> policy_ok policy -> policy_ok policy'.
Proof.
  unfold add_global. intros E [H1 H2 H3 H4]. destruct row as [|id [|permission [|on [|]]]]; try done. cbv zeta in E.
  apply bind_Some in E as (service & Hs & E). destruct (_ || _) eqn:Eg; [done|]. apply bind_Some in E as (enabled & _ & E).
  case_bool_decide as Hnew; [done|]. injection E as <-. gobool. destruct (H1 _ _ Hs) as (Hid & Hpat & Hrole & Hglobal).
  constructor; cbn [mp_byService mp_byCertificate].
  - apply map_Forall_insert_2; [|done]. split; [done|]. split; [done|]. split; [done|]. cbn. intros perm.
    rewrite lookup_insert_is_Some'. intros [<-|Hp]; [done|by apply Hglobal].
  - intros c i Hc. destruct (H2 _ _ Hc) as [? ?]. split; [done|]. rewrite lookup_insert_is_Some'. by right.
  - exact H3.
  - intros sid ch sd acl Ha. destruct (H4 _ _ _ _ Ha) as (Hok & sv & Hsv & He). split; [done|].
    destruct (decide (string_of_bytes id = sid)) as [Heq|Hne]; [|exists sv; by rewrite lookup_insert_ne].
    rewrite <- Heq in *. eexists. rewrite lookup_insert_eq. by split.
Qed.

Lemma empty_policy_ok : policy_ok empty_policy.
Proof. by constructor. Qed.

(** A management policy that loads is well-formed: every service has a valid
    identifier, a role and its own certificate, every ACL belongs to an enabled service
    and has permissions a grant can carry, and only two global permissions exist. *)
Lemma loaded_policy_ok `{CSV} `{FileSystem} servicesPath aclPath globalPermissionsPath policy :
  loadManagementPolicy servicesPath aclPath globalPermissionsPath = Some policy -> policy_ok policy.
Proof.
  unfold loadManagementPolicy. intros E. destruct (_ || _); [done|]. apply bind_Some in E as (rows1 & _ & E). apply bind_Some in E as (p1 & E1 & E).
  apply bind_Some in E as (rows2 & _ & E). apply bind_Some in E as (p2 & E2 & E).
  apply (load_rows_ok _ policy_ok _ add_service_ok) in E1; [|exact empty_policy_ok].
  apply (load_rows_ok _ policy_ok _ add_acl_ok) in E2; [|done].
  destruct (negb _); [|by injection E as <-]. apply bind_Some in E as (rows3 & _ & E).
  by apply (load_rows_ok _ policy_ok _ add_global_ok) in E.
Qed.

(** ** A concrete policy *)

(** A client certificate, and the files of a recorder, an operator and an auditor. *)
Definition example_certificate : list Z := str_bytes "certificate".
Definition example_fingerprint : list Z := Eval vm_compute in hex_EncodeToString (sha256 example_certificate).
Definition csv_file (rows : list (list (list Z))) : list Z := join_byte 10 (join_byte 44 <$> rows).
Definition services_file : list Z :=
  csv_file [str_bytes <$> services_header;
            [str_bytes "recorder-1"; reverse example_fingerprint; str_bytes "recorder"; str_bytes "true"];
            [str_bytes "operator-1"; example_fingerprint; str_bytes "operator"; str_bytes "true"];
            [str_bytes "auditor-1"; repeat 97 64; str_bytes "auditor"; str_bytes "true"]].
Definition acl_file : list Z :=
  csv_file [str_bytes <$> acl_header;
            str_bytes <$> ["recorder-1"; "100"; "1002"; "recorder"; "true"; "false"; "false"; "0"; "true"]%string;
            str_bytes <$> ["operator-1"; "100"; "1003"; "automation"; "true"; "true"; "true"; "9"; "true"]%string;
            str_bytes <$> ["auditor-1"; "100"; "1004"; "observer"; "true"; "false"; "false"; "0"; "true"]%string].
Definition permissions_file : list Z :=
  csv_file [str_bytes <$> permissions_header; str_bytes <$> ["operator-1"; "health.read"; "true"]%string].

(** A signing key of the bytes 0 to 63. *)
Definition signing_file : list Z :=
  csv_file [str_bytes <$> ["kid"; "ed25519_private_key_base64"]%string;
            str_bytes <$> ["k1"; "AAECAwQFBgcICQoLDA0ODxAREhMUFRYXGBkaGxwdHh8gISIjJCUmJygpKissLS4vMDEyMzQ1Njc4OTo7PD0+Pw=="]%string].

(** A Unix host on which these files are private to their owner. *)
Definition example_files : FileSystem :=
  {| windows := false; Stat := fun _ => Some {| IsRegular := true; Perm := 0x180 |};
     ReadFile := fun path =>
       if String.eqb path "services" then Some services_file else if String.eqb path "acl" then Some acl_file
       else if String.eqb path "permissions" then Some permissions_file else if String.eqb path "key" then Some signing_file
       else if String.eqb path "ca" then Some [] else None |}.

Definition example_policy : managementPolicy :=
  Eval vm_compute in default empty_policy (@loadManagementPolicy plain_csv example_files "services" "acl" "permissions").

Lemma example_policy_loads : @loadManagementPolicy plain_csv example_files "services" "acl" "permissions" = Some example_policy.
Proof. vm_cast_no_check (@eq_refl _ (Some example_policy)). Qed.

Lemma example_policy_ok : policy_ok example_policy.
Proof. exact (@loaded_policy_ok plain_csv example_files _ _ _ _ example_policy_loads). Qed.
