(* ===== verification/ManagementGrants.v ===== *)
(** * The grants the management API issues

    [issueGrant] of [management.go] against [validateGrant] of
    [service_admission.go]: what the Relay issues, the Relay accepts, with the rights of
    the channel ACL and no more. *)

From S2P Require Import Prelude GoTime Text Sha256 Base64 Identity Service PrivateControl SecretFiles PolicyFiles Management ManagementSpec.

(** ** Strings and segments *)

(** A string that [json.Marshal] writes unchanged. *)
Definition utf8 (s : string) : Prop := is_Some (rune_count (str_bytes s)).

(** [encoding/json] on the two objects of a grant: what is written is read back. *)
Class GrantCodec `{GrantMarshal} `{GrantJSON} := {
  grant_header_codec : forall h raw, marshal_grant_header h = Some raw ->
    utf8 (gh_Algorithm h) -> utf8 (gh_KeyID h) -> utf8 (gh_Type h) ->
    raw <> [] /\ bytes_ok raw /\ decode_grant_header raw = Some h;
  grant_claims_codec : forall c raw, marshal_grant_claims c = Some raw -> grant_fits c ->
    Forall utf8 [gc_Issuer c; gc_Audience c; gc_ServiceID c; gc_GrantID c; gc_Role c; gc_JWKThumbprint c] ->
    raw <> [] /\ bytes_ok raw /\ decode_grant_claims raw = Some c
}.

Lemma split_dots_one s : 46 ∉ s -> split_dots s = [s].
Proof.
  induction s as [|c s IH]; [done|]. rewrite not_elem_of_cons. intros [Hc Hs]. cbn [split_dots].
  rewrite (proj2 (Z.eqb_neq c 46)) by done. by rewrite IH.
Qed.

Lemma split_dots_cons s t : 46 ∉ s -> split_dots (s ++ 46 :: t) = s :: split_dots t.
Proof.
  induction s as [|c s IH]; [done|]. rewrite not_elem_of_cons. intros [Hc Hs]. cbn [app split_dots].
  rewrite (proj2 (Z.eqb_neq c 46)) by done. by rewrite IH.
Qed.

(** The characters of a segment. *)
Definition segment_char (c : Z) : Prop := c <> 46 /\ 32 <= c < 127 /\
  (let a := Ascii.ascii_of_N (Z.to_N c) in is_alnum a || is_one_of "_-" a = true).

Lemma enc_char_segment i : 0 <= i < 64 -> segment_char (enc_char i).
Proof.
  intros Hi. assert (forallb (fun i => let c := enc_char i in let a := Ascii.ascii_of_N (Z.to_N c) in
    negb (c =? 46) && (32 <=? c) && (c <? 127) && (is_alnum a || is_one_of "_-" a)) (seqZ 0 64) = true) as HF by by vm_compute.
  rewrite forallb_forall in HF. specialize (HF i ltac:(apply list_elem_of_In, elem_of_seqZ; lia)).
  cbv zeta in HF. gobool. done.
Qed.

Lemma segment_chars raw : bytes_ok raw -> Forall segment_char (RawURL_Encode raw).
Proof. apply RawURL_Encode_all, enc_char_segment. Qed.

Lemma segment_dotless raw : bytes_ok raw -> 46 ∉ RawURL_Encode raw.
Proof. intros Hr%segment_chars Hin. rewrite Forall_forall in Hr. by destruct (Hr _ Hin). Qed.

Lemma segment_string raw : bytes_ok raw -> str_bytes (string_of_bytes (RawURL_Encode raw)) = RawURL_Encode raw.
Proof.
  intros Hr%segment_chars. apply str_string_of_bytes. eapply Forall_impl; [exact Hr|].
  intros c (_ & Hc & _). unfold is_u8. lia.
Qed.

Lemma rune_count_ascii l : Forall (fun c => 0 <= c < 128) l -> is_Some (rune_count l).
Proof.
  induction 1 as [|c l Hc _ [n Hn]]; [by eexists|]. cbn [rune_count]. rewrite (proj2 (Z.ltb_lt c 128)), Hn by lia. by eexists.
Qed.

Definition ascii_ok (l : list Z) : Prop := Forall (fun c => 0 <= c < 128) l.

Lemma FormatUint_ascii v : 0 <= v < 2 ^ 64 -> ascii_ok (FormatUint v).
Proof.
  intros Hv. destruct (format_go_spec 20 v []) as (ds & E & _ & Hd & _); [change (10 ^ Z.of_nat 20) with 100000000000000000000; lia|].
  unfold FormatUint. rewrite E, app_nil_r. apply Forall_forall. intros c Hc%list_elem_of_In. rewrite forallb_forall in Hd.
  apply Hd in Hc. unfold is_digit in Hc. gobool. lia.
Qed.

Lemma segment_utf8 raw : bytes_ok raw -> utf8 (string_of_bytes (RawURL_Encode raw)).
Proof.
  intros Hr. unfold utf8. rewrite segment_string by done. apply rune_count_ascii.
  eapply Forall_impl; [by apply segment_chars|]. intros c (_ & Hc & _). lia.
Qed.

(** The random identifier of a grant is one that validates. *)
Lemma grant_id_pattern jti : bytes_ok jti -> length jti = 16%nat ->
  serviceGrantIDPattern (string_of_bytes (RawURL_Encode jti)) = true.
Proof.
  intros Hj Hl. pose proof (segment_chars _ Hj) as Hc. unfold serviceGrantIDPattern, string_of_bytes. cbv zeta.
  rewrite String.list_ascii_of_string_of_list_ascii, length_fmap.
  assert (length (RawURL_Encode jti) = 22%nat) as ->. { do 16 (destruct jti as [|? jti]; [done|]). by destruct jti. }
  cbn [Nat.leb andb]. apply forallb_forall. intros a Ha. apply list_elem_of_In, list_elem_of_fmap in Ha as (c & -> & Hin).
  rewrite Forall_forall in Hc. by apply Hc.
Qed.

Lemma pattern_utf8 id : managedServiceIDPattern id = true -> utf8 id.
Proof.
  unfold managedServiceIDPattern, utf8, str_bytes. destruct (String.list_ascii_of_string id) as [|c l]; [done|]. intros Hp.
  gobool. apply rune_count_ascii. apply Forall_fmap.
  assert (forall a, is_alnum a || is_one_of "._-" a = true -> 0 <= Z.of_N (Ascii.N_of_ascii a) < 128) as Ha.
  { intros [[] [] [] [] [] [] [] []]; vm_compute; done. }
  constructor; [apply Ha; by apply orb_true_iff; left|]. apply Forall_forall. intros a Hin.
  match goal with H : forallb _ l = true |- _ => rewrite forallb_forall in H; apply Ha, H end. by apply list_elem_of_In.
Qed.

Lemma one_of_strings s l : is_one_of_strings s l = true -> s ∈ l.
Proof. unfold is_one_of_strings. rewrite existsb_exists. intros (x & Hin & ->%String.eqb_eq). by apply list_elem_of_In. Qed.

(** ** What is issued *)

Section issued.
Context `{Ed25519Keys} `{GrantMarshal}.
Implicit Types (p : managementPlane) (service : managementService) (request : serviceGrantRequest).

(** The grant of a header and claims. *)
Definition signed_grant p (header payload : list Z) : list Z :=
  let signingInput := RawURL_Encode header ++ [46] ++ RawURL_Encode payload in
  signingInput ++ [46] ++ RawURL_Encode (Sign (gs_key (mg_signer p)) signingInput).

(** What the ACL allows of a request. *)
Definition acl_grants (acl : managementChannelACL) request : Prop :=
  acl_enabled acl = true /\ admissionRole acl = gr_Role request /\
  (gr_RequestTalk request = true -> allowTalk acl = true) /\
  (gr_RequestInterrupt request = true -> gr_RequestTalk request = true /\ allowInterrupt acl = true).

Lemma issueGrant_inv p service request jti now grant expiresAt permissions priority :
  issueGrant p service request jti now = Some (grant, expiresAt, permissions, priority) ->
  exists publicKey acl j header payload,
    (strictBase64URL (gr_ServicePublicKey request) = Some publicKey /\ len publicKey = PublicKeySize) /\
    (acl_at (mg_policy p) (ms_serviceID service) (gr_ChannelID request) (gr_SenderID request) = Some acl /\ acl_grants acl request) /\
    gr_SenderID request <> 0 /\ is_one_of_strings (gr_Role request) ["recorder"; "observer"; "automation"]%string = true /\
    ((String.eqb (gr_Role request) "recorder" || String.eqb (gr_Role request) "observer") && negb (permissions =? 1) = false) /\
    jti = Some j /\ marshal_grant_header (issued_header p) = Some header /\
    marshal_grant_claims (issued_claims p service request j (sha256 publicKey) now expiresAt permissions priority) = Some payload /\
    grant = signed_grant p header payload /\ len grant <= serviceGrantMaxBytes /\
    expiresAt = Add now managementGrantLifetime /\ permissions = grant_permissions request /\
    priority = if gr_RequestInterrupt request then interruptPriority acl else 0.
Proof.
  unfold issueGrant. intros E. destruct (_ || _) eqn:E1; [done|]. apply bind_Some in E as (publicKey & Hk & E).
  destruct (negb (len publicKey =? _)) eqn:E2; [done|]. apply bind_Some in E as (acl & Ha & E).
  destruct (_ || _ || _ || _) eqn:E3; [done|]. destruct (_ && _ || _ && _) eqn:E4; [done|]. cbv zeta in E.
  destruct (_ && negb (grant_permissions _ =? _)) eqn:E5; [done|].
  apply bind_Some in E as (j & Hj & E). apply bind_Some in E as (header & Hh & E). apply bind_Some in E as (payload & Hp & E).
  destruct (serviceGrantMaxBytes <? _) eqn:E6; [done|]. apply Some_inj in E. simplify_eq.
  exists publicKey, acl, j, header, payload. apply Z.ltb_ge in E6.
  repeat (apply orb_false_iff in E3 as [E3 ?]). apply orb_false_iff in E4 as [E4 E4']. gobool.
  match goal with Hr : String.eqb _ _ = true |- _ => apply String.eqb_eq in Hr end.
  unfold acl_grants. split_and!; try done.
  - intros Ht. rewrite Ht in E4. by apply negb_false_iff in E4.
  - intros Hi. rewrite Hi in E4'. cbn [andb] in E4'. by gobool.
Qed.

(** The permissions of a grant: listening, talking or interrupting. *)
Lemma grant_permissions_cases acl request : acl_grants acl request ->
  grant_permissions request = 1 /\ gr_RequestTalk request = false /\ gr_RequestInterrupt request = false \/
  grant_permissions request = 3 /\ gr_RequestTalk request = true /\ gr_RequestInterrupt request = false \/
  grant_permissions request = 7 /\ gr_RequestTalk request = true /\ gr_RequestInterrupt request = true.
Proof.
  intros (_ & _ & _ & Hi). unfold grant_permissions.
  destruct (gr_RequestTalk request), (gr_RequestInterrupt request); auto. by destruct (Hi eq_refl).
Qed.

(** A plane whose names can be written, over a well-formed policy, and the service it
    knows a client as. *)
Record plane_names_ok p service : Prop := {
  pn_policy : policy_ok (mg_policy p);
  pn_service : mp_byService (mg_policy p) !! ms_serviceID service = Some service;
  pn_text : Forall utf8 [gs_keyID (mg_signer p); mg_issuer p; mg_audience p]
}.

Lemma issued_claims_ok p service request acl jti publicKey now : plane_names_ok p service ->
  acl_at (mg_policy p) (ms_serviceID service) (gr_ChannelID request) (gr_SenderID request) = Some acl -> acl_grants acl request ->
  is_one_of_strings (gr_Role request) ["recorder"; "observer"; "automation"]%string = true -> bytes_ok jti ->
  let priority := if gr_RequestInterrupt request then interruptPriority acl else 0 in
  let c := issued_claims p service request jti (sha256 publicKey) now (Add now managementGrantLifetime) (grant_permissions request) priority in
  grant_fits c /\ Forall utf8 [gc_Issuer c; gc_Audience c; gc_ServiceID c; gc_GrantID c; gc_Role c; gc_JWKThumbprint c] /\
  managedServiceIDPattern (gc_ServiceID c) = true /\ (grant_permissions request = 7 -> priority <> 0).
Proof.
  intros [Hpol Hsv Htext] Ha Hg Hrole Hj. cbv zeta. pose proof (po_acls _ Hpol _ _ _ _ Ha) as [Hacl _].
  pose proof (po_services _ Hpol _ _ Hsv) as (_ & Hid & _). unfold acl_ok in Hacl.
  destruct Hacl as (_ & _ & _ & Hch & Hsd & _ & _ & _ & Hprio & Hint & _). inversion_clear Htext as [|?? ? Ht]. inversion_clear Ht as [|?? ? Ht']. inversion_clear Ht'.
  split_and!.
  - unfold grant_fits, issued_claims. cbn. split_and!; try apply toUnix_bound; try done.
    + destruct (grant_permissions_cases _ _ Hg) as [(-> & _)|[(-> & _)|(-> & _)]]; unfold is_u8; lia.
    + destruct (_ =? 7); [|done]. destruct (gr_RequestInterrupt request); [done|unfold is_u8; lia].
  - unfold issued_claims. cbn. repeat constructor; try done.
    + by apply pattern_utf8.
    + by apply segment_utf8.
    + apply one_of_strings in Hrole. rewrite !elem_of_cons, elem_of_nil in Hrole.
      destruct Hrole as [->|[->|[->|[]]]]; by eexists.
    + apply segment_utf8, bytes_ok_sha256.
  - done.
  - intros E7. destruct (grant_permissions_cases _ _ Hg) as [(E & _)|[(E & _)|(_ & _ & Hi)]]; [congruence..|]. rewrite Hi. by apply Hint, Hg.
Qed.
End issued.

Section validates.
Context `{Ed25519} `{Ed25519Keys} `{GM : GrantMarshal} `{GJ : GrantJSON} `{!GrantCodec}.
Implicit Types (p : managementPlane) (service : managementService) (request : serviceGrantRequest).

(** A Relay that trusts the public half of the signing key of the plane, under its names. *)
Record trusts (a : serviceAdmissionState) p : Prop := {
  tr_issuer : sv_issuer a = mg_issuer p;
  tr_audience : sv_audience a = mg_audience p;
  tr_key : sv_keys a !! gs_keyID (mg_signer p) = Some (Public (gs_key (mg_signer p)));
  tr_length : len (gs_key (mg_signer p)) = PrivateKeySize
}.

Lemma signed_verifies `{!Ed25519Correct} key message : len key = PrivateKeySize -> halves_match key -> Verify (Public key) message (Sign key message) = true.
Proof.
  intros Hl Hh. rewrite <- Hh. apply Verify_Sign. unfold len, PrivateKeySize in Hl. rewrite length_take. lia.
Qed.

Lemma segment_strict raw : raw <> [] -> bytes_ok raw -> strictBase64URL (RawURL_Encode raw) = Some raw.
Proof.
  intros Hne Hok. apply strictBase64URL_canonical. split_and!; try done. by destruct raw as [|? [|? [|? ?]]].
Qed.

Lemma signed_grant_ascii p header payload : bytes_ok header -> bytes_ok payload ->
  existsb (fun value => 127 <? value) (signed_grant p header payload) = false.
Proof.
  intros Hh Hp. apply not_true_iff_false. rewrite existsb_exists. intros (c & Hin%list_elem_of_In & Hc%Z.ltb_lt).
  assert (Forall (fun c => c < 127) (signed_grant p header payload)) as HF; [|rewrite Forall_forall in HF; apply HF in Hin; lia].
  unfold signed_grant. destruct (Sign_signature (gs_key (mg_signer p)) (RawURL_Encode header ++ [46] ++ RawURL_Encode payload)) as [Hs _].
  assert (forall raw, bytes_ok raw -> Forall (fun c => c < 127) (RawURL_Encode raw)) as Hseg.
  { intros raw Hr. eapply Forall_impl; [by apply segment_chars|]. intros c' (_ & ? & _). lia. }
  rewrite !Forall_app, !Forall_singleton. split_and!; first [by apply Hseg|lia].
Qed.

(** The lifetime of a grant, to the second. *)
Lemma grant_expiry now : sane_time now -> toUnix now + 300 < 2 ^ 62 ->
  toUnix (Add now managementGrantLifetime) = toUnix now + 300 /\ 0 <= toUnix now.
Proof.
  intros Hs. assert (0 <= toUnix now) as H0.
  { rewrite toUnix_sane by done. unfold sane_time, Second in *. enough (unix_to_internal <= now / 1000000000) by lia.
    apply Z.div_le_lower_bound; lia. }
  intros Hb. split; [|done]. rewrite (toUnix_sane now) in H0, Hb |- * by done. unfold toUnix, Add.
  change managementGrantLifetime with (300 * Second). rewrite Z.div_add by (unfold Second; lia).
  rewrite i64_small; lia.
Qed.

Lemma split_signed_grant p header payload : bytes_ok header -> bytes_ok payload ->
  let signingInput := RawURL_Encode header ++ [46] ++ RawURL_Encode payload in
  split_dots (signed_grant p header payload) =
  [RawURL_Encode header; RawURL_Encode payload; RawURL_Encode (Sign (gs_key (mg_signer p)) signingInput)].
Proof.
  intros Hh Hp. unfold signed_grant. cbv zeta.
  destruct (Sign_signature (gs_key (mg_signer p)) (RawURL_Encode header ++ [46] ++ RawURL_Encode payload)) as [Hs _].
  rewrite <- !app_assoc. cbn [app]. rewrite !split_dots_cons by by apply segment_dotless. by rewrite split_dots_one by by apply segment_dotless.
Qed.

Lemma signed_grant_length p header payload (publicKey : list Z) : len (signed_grant p header payload) <= serviceGrantMaxBytes -> len publicKey = PublicKeySize ->
  (len (signed_grant p header payload) =? 0) || (serviceGrantMaxBytes <? len (signed_grant p header payload))
  || negb (len publicKey =? PublicKeySize) = false.
Proof.
  intros Hm ->. rewrite Z.eqb_refl. cbn [negb]. rewrite orb_false_r, (proj2 (Z.ltb_ge _ _)) by done. rewrite orb_false_r.
  apply Z.eqb_neq. unfold len, signed_grant. cbv zeta. rewrite !length_app. cbn. lia.
Qed.

(** The lifetime of an issued grant passes at every instant of the window. *)
Lemma grant_times issued now now' : 0 <= issued -> issued + 300 < 2 ^ 62 -> Unix issued <= now ->
  now - 30 * Second <= now' < Unix (issued + 300) ->
  (issued <? 0) || (issued + 300 <=? issued) || (i64 (issued + 300 - issued) <? minimumServiceGrantLifetime)
  || (maximumServiceGrantLifetime <? i64 (issued + 300 - issued)) || negb (After (Unix (issued + 300)) now')
  || After (Unix issued) (Add now' (30 * Second)) = false.
Proof.
  intros H0 Hb Hn [Hlo Hhi]. replace (issued + 300 - issued) with 300 by lia. change (i64 300) with 300.
  unfold minimumServiceGrantLifetime, maximumServiceGrantLifetime, After, Add. cbn [Z.ltb Z.compare Pos.compare Pos.compare_cont].
  rewrite !orb_false_iff. split_and!; try done; first [apply Z.ltb_ge|apply Z.leb_gt|apply negb_false_iff, Z.ltb_lt]; lia.
Qed.

(** The admission of claims that are in order. *)
Definition granted (c : serviceGrantClaims) (grant : list Z) : serviceAdmission :=
  {| sa_serviceID := gc_ServiceID c; sa_role := gc_Role c; sa_permissions := gc_Permissions c;
     sa_priority := default 0 (gc_Priority c); sa_grantExpires := Unix (gc_ExpiresAt c); sa_grace := 0;
     sa_grantHash := sha256 grant; sa_grantIDHash := sha256 (str_bytes (gc_GrantID c)) |}.

(** The checks of the claims after the signature and the times. *)
Lemma issued_scope a p service request jti digest now expiresAt permissions priority : trusts a p ->
  let c := issued_claims p service request jti digest now expiresAt permissions priority in
  gr_SenderID request <> 0 ->
  negb (String.eqb (gc_Issuer c) (sv_issuer a)) || negb (String.eqb (gc_Audience c) (sv_audience a))
  || negb (gc_ChannelID c =? gr_ChannelID request) || negb (gc_SenderID c =? gr_SenderID request) || (gc_SenderID c =? 0) = false.
Proof.
  intros [-> -> _ _]. cbn. intros Hsd. rewrite !String.eqb_refl, !Z.eqb_refl. by apply Z.eqb_neq.
Qed.

(** Each of the three permission sets passes the checks of its priority and role. *)
Lemma issued_rights (request : serviceGrantRequest) permissions priority :
  is_one_of_strings (gr_Role request) ["recorder"; "observer"; "automation"]%string = true ->
  (String.eqb (gr_Role request) "recorder" || String.eqb (gr_Role request) "observer") && negb (permissions =? 1) = false ->
  permissions = 1 \/ permissions = 3 \/ permissions = 7 /\ priority <> 0 ->
  let pri := if permissions =? 7 then Some priority else None in
  negb (permissions =? 1) && negb (permissions =? 3) && negb (permissions =? 7) || (Z.land permissions identityPermissionListen =? 0) = false /\
  (permissions =? 7) && match pri with None => true | Some p => p =? 0 end = false /\
  negb (permissions =? 7) && match pri with None => false | Some _ => true end = false /\
  negb (String.eqb (gr_Role request) "recorder") && negb (String.eqb (gr_Role request) "observer")
  && negb (String.eqb (gr_Role request) "automation") = false.
Proof.
  intros Hrole Hro Hp. cbv zeta. split_and!.
  - by destruct Hp as [->|[->|[-> _]]].
  - destruct Hp as [->|[->|[-> Hq]]]; try done. cbn. by apply Z.eqb_neq.
  - by destruct Hp as [->|[->|[-> _]]].
  - apply one_of_strings in Hrole. rewrite !elem_of_cons, elem_of_nil in Hrole. by destruct Hrole as [->|[->|[->|[]]]].
Qed.

Lemma signed_grant_validates `{!Ed25519Correct} a p service request acl jti header payload (publicKey : list Z) now now' :
  let c := issued_claims p service request jti (sha256 publicKey) now (Add now managementGrantLifetime) (grant_permissions request)
             (if gr_RequestInterrupt request then interruptPriority acl else 0) in
  trusts a p -> halves_match (gs_key (mg_signer p)) -> plane_names_ok p service ->
  acl_at (mg_policy p) (ms_serviceID service) (gr_ChannelID request) (gr_SenderID request) = Some acl -> acl_grants acl request ->
  is_one_of_strings (gr_Role request) ["recorder"; "observer"; "automation"]%string = true ->
  (String.eqb (gr_Role request) "recorder" || String.eqb (gr_Role request) "observer") && negb (grant_permissions request =? 1) = false ->
  gr_SenderID request <> 0 -> bytes_ok jti -> length jti = 16%nat -> len publicKey = PublicKeySize ->
  marshal_grant_header (issued_header p) = Some header -> marshal_grant_claims c = Some payload ->
  len (signed_grant p header payload) <= serviceGrantMaxBytes ->
  sane_time now -> toUnix now + 300 < 2 ^ 62 -> now - 30 * Second <= now' < Unix (toUnix now + 300) ->
  validateGrant a (signed_grant p header payload) publicKey (gr_ChannelID request) (gr_SenderID request) now' =
  inr (granted c (signed_grant p header payload)).
Proof.
  intros c Ht Hhv Hn Ha Hg Hrole Hro Hsd Hj Hj16 Hk32 Hh Hp Hmax Hs Hb Hnow.
  destruct (issued_claims_ok _ _ _ _ jti publicKey now Hn Ha Hg Hrole Hj) as (Hfit & Hutf & Hid & Hprio).
  fold c in Hfit, Hutf, Hid. destruct (grant_expiry _ Hs Hb) as [He H0]. destruct (Unix_toUnix_le _ Hs) as [Hle _].
  pose proof (pn_text _ _ Hn) as Htext. rewrite Forall_cons in Htext. destruct Htext as [Hkid _].
  apply grant_header_codec in Hh as (Hh0 & Hh & Hhd); [|by eexists|done|by eexists]. apply grant_claims_codec in Hp as (Hp0 & Hp & Hpd); [|done|done].
  destruct (Sign_signature (gs_key (mg_signer p)) (RawURL_Encode header ++ [46] ++ RawURL_Encode payload)) as [Hsig Hlen].
  unfold validateGrant. rewrite signed_grant_length, signed_grant_ascii, split_signed_grant by done.
  rewrite (segment_strict header), (segment_strict payload), segment_strict; [|by destruct (Sign _ _)|done..].
  unfold len at 1. rewrite Hlen, Hhd, Hpd. cbn [negb SignatureSize Z.eqb Pos.eqb Z.of_nat Pos.of_succ_nat Pos.succ].
  cbn [issued_header gh_Algorithm gh_Type gh_KeyID]. rewrite (tr_key _ _ Ht). cbn [from_option id]. rewrite (signed_verifies _ _ (tr_length _ _ Ht) Hhv).
  assert (len (Public (gs_key (mg_signer p))) = PublicKeySize) as ->.
  { unfold Public, len. rewrite length_drop. pose proof (tr_length _ _ Ht) as Hl. unfold len, PrivateKeySize, PublicKeySize in *. lia. }
  cbn [negb Z.eqb Z.of_nat Pos.of_succ_nat Pos.succ Pos.eqb SignatureSize]. rewrite !String.eqb_refl, Z.eqb_refl. cbn [negb orb].
  change (gc_ExpiresAt c) with (toUnix (Add now managementGrantLifetime)). change (gc_IssuedAt c) with (toUnix now). rewrite He.
  rewrite (grant_times _ now now') by done. unfold c at 1 2 3 4 5. rewrite issued_scope by done. fold c. rewrite Hid.
  change (gc_GrantID c) with (string_of_bytes (RawURL_Encode jti)). rewrite grant_id_pattern by done. cbn [negb orb].
  assert (grant_permissions request = 1 \/ grant_permissions request = 3 \/
    grant_permissions request = 7 /\ (if gr_RequestInterrupt request then interruptPriority acl else 0) <> 0) as Hcases.
  { destruct (grant_permissions_cases _ _ Hg) as [(-> & _)|[(-> & _)|(E & _)]]; auto. }
  destruct (issued_rights request _ _ Hrole Hro Hcases) as (R1 & R2 & R3 & R4).
  unfold c at 1 2 3 4 5 6 7 8 9 10 11 12 13 14. cbn [issued_claims gc_Permissions gc_Priority gc_Role gc_GraceSeconds].
  rewrite R1, R2, R3, Hro, R4.
  change (default 0 (gc_GraceSeconds c)) with 0. rewrite andb_false_r, Z.eqb_refl. cbn [negb orb Z.ltb Z.compare maximumServiceAdmissionGraceSecs].
  change (gc_JWKThumbprint c) with (string_of_bytes (RawURL_Encode (sha256 publicKey))).
  pose proof (segment_string (sha256 publicKey) (bytes_ok_sha256 _)) as Hthumb.
  rewrite Hthumb. unfold bytes_eqb. rewrite bool_decide_eq_true_2 by done. cbn [negb]. rewrite orb_false_r.
  destruct (String.eqb_spec (string_of_bytes (RawURL_Encode (sha256 publicKey))) ""%string) as [E|_]; [|].
  { rewrite E in Hthumb. pose proof (length_sha256 publicKey) as Hl. by destruct (sha256 publicKey) as [|? [|? [|? ?]]]. }
  unfold granted. change (gc_ExpiresAt c) with (toUnix (Add now managementGrantLifetime)). by rewrite He.
Qed.

(** A grant the management API issues is one the service admission of the Relay
    accepts, from half a minute before it was issued until it expires five minutes
    later, for the channel, sender, service and role of the request: with exactly the
    permissions requested, which the channel ACL of the service allows, and the priority
    of that ACL for an interrupting service. *)
Lemma issued_grant_validates `{!Ed25519Correct} p service request jti now grant expiresAt permissions priority a now' :
  issueGrant p service request (Some jti) now = Some (grant, expiresAt, permissions, priority) ->
  plane_names_ok p service -> trusts a p -> halves_match (gs_key (mg_signer p)) -> bytes_ok jti -> length jti = 16%nat ->
  sane_time now -> toUnix now + 300 < 2 ^ 62 -> now - 30 * Second <= now' < Unix (toUnix expiresAt) ->
  exists publicKey acl ad,
    strictBase64URL (gr_ServicePublicKey request) = Some publicKey /\
    validateGrant a grant publicKey (gr_ChannelID request) (gr_SenderID request) now' = inr ad /\
    acl_at (mg_policy p) (ms_serviceID service) (gr_ChannelID request) (gr_SenderID request) = Some acl /\ acl_grants acl request /\
    sa_serviceID ad = ms_serviceID service /\ sa_role ad = gr_Role request /\
    sa_permissions ad = permissions /\ permissions = grant_permissions request /\
    sa_priority ad = (if gr_RequestInterrupt request then interruptPriority acl else 0) /\
    sa_grantExpires ad = Unix (toUnix now + 300) /\ sa_grace ad = 0.
Proof.
  intros Hi Hn Ht Hhv Hj Hj16 Hs Hb Hnow.
  apply issueGrant_inv in Hi as (publicKey & acl & j & header & payload & [Hk Hk32] & [Ha Hg] & Hsd & Hrole & Hro & [= <-] & Hh & Hp & -> & Hmax & -> & -> & ->).
  destruct (grant_expiry _ Hs Hb) as [He H0]. rewrite He in Hnow. exists publicKey, acl. eexists. split; [done|]. split.
  { by eapply signed_grant_validates. }
  unfold granted. cbn [sa_serviceID sa_role sa_permissions sa_priority sa_grantExpires sa_grace]. split_and!; try done.
  - cbn. destruct (grant_permissions_cases _ _ Hg) as [(-> & _ & ->)|[(-> & _ & ->)|(-> & _ & ->)]]; done.
  - cbn [gc_ExpiresAt issued_claims]. by rewrite He.
Qed.
End validates.

(** ** A concrete grant *)

(** A signature scheme in which a signature can be made of the public key. *)
Definition digest_signature (key message : list Z) : list Z := sha256 (key ++ message) ++ sha256 message.

Definition example_public (seed : list Z) : list Z := (fun b => u8 (b + 32)) <$> seed.

#[refine] Definition example_keys : Ed25519Keys :=
  {| NewKeyFromSeed := fun seed => seed ++ example_public seed;
     Sign := fun key message => digest_signature (example_public (take 32 key)) message |}.
Proof.
  { intros seed Hl. unfold example_public. by rewrite take_app_le, take_ge, length_app, length_fmap, Hl by lia. }
  intros key message. unfold digest_signature. split; [apply Forall_app; split; apply bytes_ok_sha256|].
  by rewrite length_app, !length_sha256.
Defined.
Definition example_verify : Ed25519 :=
  {| Verify := fun key message signature => bytes_eqb signature (digest_signature key message) |}.
Lemma example_correct : @Ed25519Correct example_verify example_keys.
Proof.
  intros seed message Hl. apply bool_decide_eq_true_2. cbn. unfold Public.
  rewrite take_app_le, drop_app_ge, take_ge, Hl by lia. done.
Qed.

Definition example_signer : managementGrantSigner := {| gs_keyID := "k1"; gs_key := seqZ 0 64 |}.
Definition example_plane : managementPlane :=
  {| mg_policy := example_policy; mg_signer := example_signer; mg_issuer := "issuer"; mg_audience := "relay";
     eventDelivery := managementEventDeliveryLive; auditRetrieval := true; eventNext := 0; subscribers := ∅; subscriberN := 0;
     audit := []; auditNext := 0; cursorKey := zeros 32 |}.
Definition example_operator : managementService :=
  {| ms_serviceID := "operator-1"; apiRole := "operator"; ms_enabled := true; global := {[ "health.read"%string := true ]} |}.
Definition example_request : serviceGrantRequest :=
  {| gr_ChannelID := 100; gr_SenderID := 1003; gr_Role := "automation"; gr_RequestTalk := true; gr_RequestInterrupt := true;
     gr_ServicePublicKey := RawURL_Encode (seqZ 7 32) |}.
Definition example_now : time := Unix 1700000000 + 5.
Definition example_claims : serviceGrantClaims :=
  issued_claims example_plane example_operator example_request (seqZ 0 16) (sha256 (seqZ 7 32)) example_now
    (Add example_now managementGrantLifetime) 7 9.

#[local] Instance claims_eq_dec : EqDecision serviceGrantClaims.
Proof. solve_decision. Defined.
#[local] Instance header_eq_dec : EqDecision serviceGrantHeader.
Proof. solve_decision. Defined.

(** An encoding of the header and claims of this grant only. *)
Definition example_marshal : GrantMarshal :=
  {| marshal_grant_header := fun h => if decide (h = issued_header example_plane) then Some [1] else None;
     marshal_grant_claims := fun c => if decide (c = example_claims) then Some [2] else None;
     decode_grant_request := fun _ => None |}.
#[refine] Definition example_json : GrantJSON :=
  {| decode_grant_header := fun raw => if bytes_eqb raw [1] then Some (issued_header example_plane) else None;
     decode_grant_claims := fun raw => if bytes_eqb raw [2] then Some example_claims else None |}.
Proof.
  intros raw c E. destruct (bytes_eqb raw [2]); [|done]. injection E as <-. unfold grant_fits, is_u32, is_u16, is_u8. vm_compute. by repeat split.
Defined.
#[refine] Definition example_codec : @GrantCodec example_marshal example_json := {| grant_header_codec := _; grant_claims_codec := _ |}.
Proof.
  - intros h raw E _ _ _. cbn in E. case_decide as Hd; [|done]. injection E as <-. rewrite Hd. by repeat constructor.
  - intros c raw E _ _. cbn in E. case_decide as Hd; [|done]. injection E as <-. rewrite Hd. by repeat constructor.
Defined.

Definition example_grant : list Z :=
  Eval vm_compute in
    default [] ((fun g => g.1.1.1) <$> @issueGrant example_keys example_marshal example_plane example_operator example_request (Some (seqZ 0 16)) example_now).
Lemma example_grant_issued :
  @issueGrant example_keys example_marshal example_plane example_operator example_request (Some (seqZ 0 16)) example_now =
  Some (example_grant, Add example_now managementGrantLifetime, 7, 9).
Proof. vm_compute. reflexivity. Qed.

Definition example_admission : serviceAdmissionState :=
  {| sv_issuer := "issuer"; sv_audience := "relay"; sv_keys := {[ "k1"%string := seqZ 32 32 ]};
     sv_pending := ∅; sv_verified := ∅; sv_failed := ∅; sv_denied := ∅ |}.

Lemma issued_grant_validates_witness : exists publicKey ad,
  @validateGrant example_verify example_json example_admission example_grant publicKey 100 1003 example_now = inr ad /\
  sa_permissions ad = 7 /\ sa_priority ad = 9.
Proof.
  destruct (@issued_grant_validates example_verify example_keys example_marshal example_json example_codec example_correct
    example_plane example_operator example_request (seqZ 0 16) example_now example_grant (Add example_now managementGrantLifetime) 7 9
    example_admission example_now example_grant_issued) as (publicKey & acl & ad & _ & Hv & Ha & _ & _ & _ & Hp & _ & Hq & _).
  - constructor; [exact example_policy_ok|vm_compute; reflexivity|repeat constructor; by eexists].
  - constructor; vm_compute; reflexivity.
  - vm_compute. reflexivity.
  - unfold bytes_ok. apply Forall_forall. intros x Hx%elem_of_seqZ. unfold is_u8. lia.
  - reflexivity.
  - split; [vm_compute; congruence|vm_compute; reflexivity].
  - vm_compute. reflexivity.
  - split; [vm_compute; congruence|vm_compute; reflexivity].
  - exists publicKey, ad. split; [exact Hv|]. split; [exact Hp|]. rewrite Hq. vm_compute in Ha. injection Ha as <-. reflexivity.
Defined.
