(* ===== verification/ManagementAnswers.v ===== *)
(** * The answers of the management API

    Who gets an answer and what it shows ([management_access]), the queues of events and
    the audit records over any sequence of operations, and the pages of the audit. *)

From S2P Require Import Prelude GoTime Text Sha256 Base64 Identity Service Server Diagnostics DirectoryWire Directory PrivateControl SecretFiles PolicyFiles Management ManagementSpec ManagementGrants.

(** ** Permissions *)

(** An enabled ACL lets the service listen to a sender of the channel. *)
Lemma hasChannelACL_true p serviceID channelID :
  hasChannelACL p serviceID channelID = true <->
  exists senderID acl, acl_at (mg_policy p) serviceID channelID senderID = Some acl /\ acl_enabled acl = true /\ allowListen acl = true.
Proof.
  unfold hasChannelACL, acl_at. rewrite existsb_exists. split.
  - intros ([senderID acl] & Hin%list_elem_of_In%elem_of_map_to_list & [? ?]%andb_true_iff). by exists senderID, acl.
  - intros (senderID & acl & Ha & He & Hl). exists (senderID, acl). split; [by apply list_elem_of_In, elem_of_map_to_list|].
    cbn. by rewrite He, Hl.
Qed.

Section access.
Context `{RangeOrder} `{SliceSort} `{RFC3339} `{CursorJSON} `{Ed25519Keys} `{GrantMarshal}.

(** The service a client certificate stands for. *)
Definition client_service (p : managementPlane) (r : http_request) (service : managementService) : Prop :=
  exists raw serviceID, rq_certificate r = Some raw /\
    mp_byCertificate (mg_policy p) !! hex_EncodeToString (sha256 raw) = Some serviceID /\
    mp_byService (mg_policy p) !! serviceID = Some service /\ ms_enabled service = true.

Lemma serviceForRequest_service p r service : serviceForRequest p r = Some service <-> client_service p r service.
Proof.
  unfold serviceForRequest, client_service. rewrite bind_Some. split.
  - intros (raw & Hr & E). apply bind_Some in E as (id & Hc & E). apply bind_Some in E as (sv & Hs & E).
    destruct (ms_enabled sv) eqn:Hen; [|done]. injection E as <-. by exists raw, id.
  - intros (raw & id & Hr & Hc & Hs & Hen). exists raw. split; [done|]. rewrite Hc. cbn. rewrite Hs. cbn. by rewrite Hen.
Qed.

(** The listing of the audit a service may see under a filter: the records up to
    [snapshot] that are its to see and match, newest first, none left out. *)
Definition audit_listing (p : managementPlane) (service : managementService) (filter : managementAuditFilter) (snapshot : Z)
    (l : list managementAuditRecord) : Prop :=
  sublist l (reverse (audit p)) /\
  forall record, record ∈ l <-> record ∈ audit p /\ ar_sequence record <= snapshot /\
    canAuditRecordLocked p service record = true /\ recordMatchesAuditFilter record filter = true.

(** What an answer other than an error shows, and to whom; [p'] is the plane after it. *)
Definition answer_allowed (p p' : managementPlane) (s : server) (r : http_request) (jti : option (list Z)) (now : time)
    (service : managementService) (response : http_response) : Prop :=
  match response with
  | HttpError _ => True
  | Health delivery retrieval => canGlobal service "health.read" = true /\ delivery = eventDelivery p /\ retrieval = auditRetrieval p
  | Channels l => canView service = true /\ NoDup l.*1 /\
      forall channelID n, (channelID, n) ∈ l <->
        hasChannelACL p (ms_serviceID service) channelID = true /\
        exists ch, channels s !! channelID = Some ch /\ n = u32 (Z.of_nat (size (peers ch)))
  | Participants channelID l => canView service = true /\ hasChannelACL p (ms_serviceID service) channelID = true /\
      (exists id, rq_path r = str_bytes "/v1/channels/" ++ id ++ str_bytes "/participants" /\ parseManagementU32 id false = Some channelID) /\
      forall senderID talking, (senderID, talking) ∈ l <->
        exists ch k peer, channels s !! channelID = Some ch /\ peers ch !! k = Some peer /\ p_senderId peer = senderID /\
          (talking = true <-> is_Some (activeTalkers ch !! senderID))
  | EventStream id => eventDelivery p = managementEventDeliveryLive /\
      (canGlobal service "health.read" = true \/
       (canView service = true \/ apiRole service = "auditor"%string) /\ hasAnyChannelACL p (ms_serviceID service) = true) /\
      subscribers p' !! id = Some {| sb_service := service; sb_ch := [] |} /\
      forall event, (stream_event id (send_event event p' id)).1 = if eventAllowed p service event then Some event else None
  | AuditPage records next => auditRetrieval p = true /\ apiRole service = "auditor"%string /\
      exists filter limit snapshot offset l,
        parseManagementAuditFilter r = Some filter /\ audit_limit r = Some limit /\
        resume_at p service (filter_key filter) (query_get r "cursor") = inr (snapshot, offset) /\ 0 <= offset <= len l /\
        audit_listing p service filter snapshot l /\ records = take (Z.to_nat limit) (drop (Z.to_nat offset) l) /\
        match next with
        | None => len l <= offset + limit
        | Some cursor => offset + limit < len l /\
            encodeAuditCursor p {| cu_ServiceID := ms_serviceID service; cu_Filter := filter_key filter;
                                   cu_Snapshot := snapshot; cu_Offset := offset + limit |} = Some cursor
        end
  | GrantIssued grant expiresAt => exists request publicKey acl j header payload,
      rq_method r = "POST"%string /\ decode_grant_request (take 16384 (rq_body r)) = Some request /\ jti = Some j /\
      acl_at (mg_policy p) (ms_serviceID service) (gr_ChannelID request) (gr_SenderID request) = Some acl /\ acl_grants acl request /\
      strictBase64URL (gr_ServicePublicKey request) = Some publicKey /\
      marshal_grant_header (issued_header p) = Some header /\
      marshal_grant_claims (issued_claims p service request j (sha256 publicKey) now expiresAt (grant_permissions request)
        (if gr_RequestInterrupt request then interruptPriority acl else 0)) = Some payload /\
      grant = signed_grant p header payload /\ expiresAt = Add now managementGrantLifetime
  end.

Lemma handleChannels_allowed p p' s r jti now service : answer_allowed p p' s r jti now service (handleChannels p s service r).
Proof.
  unfold handleChannels. destruct (negb _); [done|]. destruct (_ || _) eqn:Ev; [done|]. apply orb_false_iff in Ev as [Ev _].
  cbv zeta. cbn [answer_allowed]. apply negb_false_iff in Ev. split; [done|].
  set (row := fun kv : Z * channel => if hasChannelACL p (ms_serviceID service) kv.1 then Some (kv.1, u32 (Z.of_nat (size (peers kv.2)))) else None).
  rewrite (fmap_Permutation fst _ _ (sort_Slice_perm _ _)), (fmap_Permutation fst _ _ (omap_Permutation row _ _ (range_perm (channels s)))). split.
  - eapply sublist_NoDup; [apply (NoDup_fst_map_to_list (channels s))|]. induction (map_to_list (channels s)) as [|kv l IH]; [constructor|].
    cbn. unfold row at 1. destruct (hasChannelACL _ _ _); cbn; by constructor.
  - intros channelID n. rewrite (elem_of_Permutation_proper _ _ _ (sort_Slice_perm _ _)), (elem_of_Permutation_proper _ _ _ (omap_Permutation row _ _ (range_perm (channels s)))).
    rewrite list_elem_of_omap. setoid_rewrite elem_of_map_to_list'. split.
    + intros ([k ch] & Hin & E). unfold row in E. cbn in *. destruct (hasChannelACL _ _ k) eqn:Ea; [|done]. injection E as <- <-.
      split; [done|]. by exists ch.
    + intros [Ha (ch & Hc & ->)]. exists (channelID, ch). split; [done|]. unfold row. cbn. by rewrite Ha.
Qed.

Lemma split_byte_cons sep l : exists field fields, split_byte sep l = field :: fields.
Proof.
  induction l as [|c l (f & fs & E)]; cbn [split_byte]; [by eexists _, _|]. rewrite E. destruct (c =? sep); by eexists _, _.
Qed.

Lemma split_byte_one sep l x : split_byte sep l = [x] -> l = x.
Proof.
  revert x. induction l as [|c l IH]; intros x; cbn [split_byte]; [by intros [= <-]|].
  destruct (split_byte_cons sep l) as (f & fs & E). rewrite E in *. destruct (c =? sep); [done|].
  intros [= <- ->]. f_equal. by apply IH.
Qed.

Lemma split_byte_two sep l a b : split_byte sep l = [a; b] -> l = a ++ sep :: b.
Proof.
  revert a. induction l as [|c l IH]; intros a; cbn [split_byte]; [done|]. destruct (Z.eqb_spec c sep) as [->|Hne].
  - intros [= <- E]. cbn. f_equal. by apply (split_byte_one sep).
  - destruct (split_byte_cons sep l) as (f & fs & E). rewrite E in *. intros [= <- ->]. cbn. f_equal. by apply IH.
Qed.

Lemma strip_prefix_app p l rest : strip_prefix p l = Some rest -> l = p ++ rest.
Proof.
  revert l. induction p as [|a p IH]; intros l; cbn; [by intros [= <-]|]. destruct l as [|b l]; [done|].
  destruct (Z.eqb_spec a b) as [->|]; [|done]. intros E. f_equal. by apply IH.
Qed.

Lemma handleParticipants_allowed p p' s r jti now service : HasPrefix (rq_path r) (str_bytes "/v1/channels/") = true ->
  answer_allowed p p' s r jti now service (handleParticipants p s service r).
Proof.
  intros Hpath. unfold handleParticipants. destruct (_ || _); [done|].
  unfold HasPrefix in Hpath. apply bool_decide_eq_true in Hpath as [rest Hrest]. rewrite Hrest.
  change (default (rq_path r) (Some rest)) with rest.
  destruct (split_byte 47 rest) as [|id [|last [|]]] eqn:Esplit; try exact I. apply split_byte_two in Esplit.
  destruct (_ || negb (bytes_eqb last _)) eqn:El; [done|].
  apply orb_false_iff in El as [_ El%negb_false_iff]. unfold bytes_eqb in El. apply bool_decide_eq_true in El.
  destruct (parseManagementU32 id false) as [channelID|] eqn:Eid; [|done].
  destruct (canViewChannel p service channelID) eqn:Ev; [|done]. cbv zeta. cbn [negb answer_allowed].
  apply andb_true_iff in Ev as [Ev Ea]. split; [done|]. split; [done|].
  split. { exists id. split; [|done]. apply strip_prefix_app in Hrest. by rewrite Hrest, Esplit, El. }
  intros senderID talking.
  rewrite (elem_of_Permutation_proper _ _ _ (sort_Slice_perm _ _)). destruct (channels s !! channelID) as [ch|].
  2:{ rewrite elem_of_nil. split; [done|]. by intros (ch & _ & _ & ? & _). }
  rewrite list_elem_of_fmap. split.
  - intros ([k peer] & [= -> ->] & Hin). rewrite (elem_of_Permutation_proper _ _ _ (range_perm (peers ch))) in Hin.
    apply elem_of_map_to_list in Hin. exists ch, k, peer. split_and!; try done. apply bool_decide_eq_true.
  - intros (ch' & k & peer & [= <-] & Hk & <- & Ht). exists (k, peer). split.
    + cbn. f_equal. apply eq_true_iff_eq. by rewrite Ht, bool_decide_eq_true.
    + rewrite (elem_of_Permutation_proper _ _ _ (range_perm (peers ch))). by apply elem_of_map_to_list.
Qed.

Lemma handleEvents_allowed p s r jti now service response p' :
  handleEvents service r p = (response, p') -> answer_allowed p p' s r jti now service response.
Proof.
  unfold handleEvents. destruct (negb _); [by intros [= <- <-]|]. destruct (eventDelivery p) eqn:Ed; [by intros [= <- <-]|].
  destruct (existsb _ _); [by intros [= <- <-]|]. destruct (canGlobal service "health.read" || _) eqn:Ea; intros [= <- <-]; [|done].
  cbn [answer_allowed]. split; [done|]. split.
  { apply orb_true_iff in Ea as [?|[Hv Hc]%andb_true_iff]; [by left|]. right. split; [|done].
    apply orb_true_iff in Hv as [?|Hv]; [by left|]. right. by apply String.eqb_eq in Hv. }
  set (id := u64 (subscriberN p + 1)). cbn [subscribers with_events]. split; [apply lookup_insert_eq|]. intros event.
  unfold send_event. cbn [subscribers with_events]. rewrite lookup_insert_eq. cbn [sb_service sb_ch].
  match goal with |- context [eventAllowed ?q service event] => change (eventAllowed q service event) with (eventAllowed p service event) end.
  change (len (@nil managementEvent) <? subscriberDepth) with true. rewrite andb_true_r.
  unfold stream_event. destruct (eventAllowed p service event); cbn [subscribers with_events]; rewrite lookup_insert_eq; done.
Qed.

Lemma visible_records_listing p service filter snapshot :
  audit_listing p service filter snapshot (visible_records p service filter snapshot).
Proof.
  unfold audit_listing, visible_records. split.
  - generalize (reverse (audit p)). intros l. induction l as [|record l IH]; cbn; [constructor|]. case_match; by constructor.
  - intros record. rewrite list_elem_of_In, filter_In, <- list_elem_of_In, elem_of_reverse, !andb_true_iff, Z.leb_le. tauto.
Qed.

Lemma resume_offset p service key raw snapshot offset : resume_at p service key raw = inr (snapshot, offset) -> 0 <= offset.
Proof.
  unfold resume_at. destruct (bytes_eqb raw []); [intros [= _ <-]; lia|].
  destruct (decodeAuditCursor p raw) as [cursor|] eqn:E; [|done]. destruct (_ || _); [done|].
  destruct (match audit p with [] => _ | _ => _ end); [done|]. intros [= _ <-].
  unfold decodeAuditCursor in E. destruct (split_dots raw) as [|first [|second [|]]]; try done.
  apply bind_Some in E as (payload & _ & E). apply bind_Some in E as (tag & _ & E). destruct (_ || _); [done|].
  apply bind_Some in E as (c & _ & E). destruct (_ || _ || _ || _) eqn:Eb; [done|]. injection E as <-.
  apply orb_false_iff in Eb as [_ Eb]. by apply Z.ltb_ge in Eb.
Qed.

Lemma handleAuditRecords_allowed p p' s r jti now service : answer_allowed p p' s r jti now service (handleAuditRecords p service r).
Proof.
  unfold handleAuditRecords. destruct (auditRetrieval p) eqn:Ear; [|done]. cbn [negb]. destruct (_ || _) eqn:Er; [done|].
  apply orb_false_iff in Er as [_ Er%negb_false_iff%String.eqb_eq]. destruct (parseManagementAuditFilter r) as [filter|] eqn:Ef; [|done].
  destruct (match af_channelID filter with Some _ => _ | None => _ end); [done|].
  destruct (audit_limit r) as [limit|] eqn:El; [|done].
  destruct (resume_at _ _ _ _) as [status|[snapshot offset]] eqn:Eres; [done|]. cbv zeta.
  pose proof (visible_records_listing p service filter snapshot) as Hl. set (l := visible_records p service filter snapshot) in *.
  pose proof (resume_offset _ _ _ _ _ _ Eres) as H0. destruct (Z.ltb_spec (len l) offset) as [|Hoff]; [done|].
  assert (forall records next, records = take (Z.to_nat limit) (drop (Z.to_nat offset) l) ->
    match next with
    | None => len l <= offset + limit
    | Some cursor => offset + limit < len l /\
        encodeAuditCursor p {| cu_ServiceID := ms_serviceID service; cu_Filter := filter_key filter;
                               cu_Snapshot := snapshot; cu_Offset := offset + limit |} = Some cursor
    end -> answer_allowed p p' s r jti now service (AuditPage records next)) as Hpage.
  { intros records next Hr Hn. cbn [answer_allowed]. split; [done|]. split; [done|]. exists filter, limit, snapshot, offset, l. by split_and!. }
  destruct (Z.ltb_spec (len l) (offset + limit)) as [Hlt|Hge].
  - rewrite Z.ltb_irrefl. apply Hpage; [|lia]. unfold len in *. rewrite !take_ge; [done|rewrite length_drop; lia..].
  - rewrite Z.add_simpl_l. destruct (Z.ltb_spec (offset + limit) (len l)) as [Hlt|Hle].
    + destruct (encodeAuditCursor _ _) as [encoded|] eqn:Ee; [|done]. by apply Hpage.
    + by apply Hpage.
Qed.

Lemma handleServiceGrants_allowed p s service r jti now response p' :
  handleServiceGrants service r jti now p = (response, p') -> answer_allowed p p' s r jti now service response.
Proof.
  unfold handleServiceGrants. destruct (negb _) eqn:Em; [by intros [= <- <-]|]. apply negb_false_iff, String.eqb_eq in Em.
  destruct (decode_grant_request _) as [request|] eqn:Ed; [|by intros [= <- <-]].
  destruct (issueGrant p service request jti now) as [[[[grant expiresAt] permissions] priority]|] eqn:E; intros [= <- _]; [|done].
  apply issueGrant_inv in E as (publicKey & acl & j & header & payload & [Hk _] & [Ha Hg] & _ & _ & _ & Hj & Hh & Hp & Hgr & _ & He & -> & ->).
  exists request, publicKey, acl, j, header, payload. by split_and!.
Qed.

(** C20. A request of the management API gets an answer other than an error only when
    its client certificate belongs to an enabled service of the policy, and the answer
    is what that service may see and asked for: the channels with an ACL of the service
    and exactly those; the participants, exactly, of the channel of the path, which it
    may view; for an auditor, the page the query names (position, limit, filter, and a
    cursor exactly when more is left) of the listing, newest first and none left out, of
    the records it may audit; the configuration of the plane for the holder of the
    health permission; an event stream of that service, empty at first, that delivers an
    event exactly when the service may see it; and a grant of the very request of the
    body, whose channel, sender, role and rights an ACL of the service allows, made for
    that service with the key, identifier and time of the request. *)
Theorem management_access s r jti now p response p' :
  handle_request s r jti now p = (response, p') -> (forall status, response <> HttpError status) ->
  exists service, client_service p r service /\ answer_allowed p p' s r jti now service response.
Proof.
  intros E Hne. unfold handle_request in E. cbv zeta in E.
  destruct (serviceForRequest p r) as [service|] eqn:Es.
  2:{ exfalso. apply (Hne (match response with HttpError status => status | _ => 0 end)).
      repeat match type of E with (if ?b then _ else _) = _ => destruct b end; by injection E as <- <-. }
  exists service. split; [by apply serviceForRequest_service|].
  repeat match type of E with (if ?b then _ else _) = _ => destruct b eqn:? end;
    first [by eapply handleEvents_allowed|by eapply handleServiceGrants_allowed|injection E as <- <-].
  - unfold handleHealth. destruct (negb _ || _) eqn:Eh; [done|]. by apply orb_false_iff in Eh as [_ Eh%negb_false_iff].
  - apply handleChannels_allowed.
  - by apply handleParticipants_allowed.
  - apply handleAuditRecords_allowed.
  - done.
Qed.
End access.

(** ** Events *)

Section events.
Context `{RangeOrder}.

(** What a publication does to a subscriber. *)
Definition offered (p : managementPlane) (event : managementEvent) (sb : managementSubscriber) : managementSubscriber :=
  if eventAllowed p (sb_service sb) event && (len (sb_ch sb) <? subscriberDepth)
  then {| sb_service := sb_service sb; sb_ch := sb_ch sb ++ [event] |} else sb.

(** The event that is published. *)
Definition published (eventType : string) (channelID senderID : option Z) (serviceID jobID state reason : option string) (now : time)
    (p : managementPlane) : managementEvent :=
  (next_event eventType channelID senderID serviceID jobID state reason now p).1.1.

Lemma send_events event ids : NoDup ids -> forall p,
  foldl (send_event event) p ids =
  with_events p (eventNext p)
    (map_imap (fun id sb => Some (if bool_decide (id ∈ ids) then offered p event sb else sb)) (subscribers p)) (subscriberN p).
Proof.
  induction 1 as [|id ids Hid Hnd IH]; intros p; cbn [foldl].
  - destruct p. unfold with_events. cbn. f_equal. apply map_eq. intros i. rewrite map_lookup_imap. by destruct (_ !! i).
  - rewrite IH. assert (eventNext (send_event event p id) = eventNext p /\ subscriberN (send_event event p id) = subscriberN p /\
      (forall next subs n, with_events (send_event event p id) next subs n = with_events p next subs n) /\
      (forall sb, offered (send_event event p id) event sb = offered p event sb)) as (-> & -> & Hw & Ho).
    { unfold send_event. destruct (subscribers p !! id) as [sb|]; [|done]. by destruct (_ && _). }
    rewrite Hw. f_equal. apply map_eq. intros i. rewrite !map_lookup_imap. destruct (decide (i = id)) as [->|Hne].
    + rewrite (bool_decide_eq_true_2 (id ∈ id :: ids)) by (constructor). rewrite bool_decide_eq_false_2 by done.
      unfold send_event. destruct (subscribers p !! id) as [sb|] eqn:Es; [|by rewrite Es]. unfold offered.
      destruct (_ && _) eqn:Ea; cbn [with_events subscribers]; [rewrite lookup_insert_eq|rewrite Es]; cbn; by rewrite Ea.
    + rewrite (bool_decide_ext (i ∈ id :: ids) (i ∈ ids)) by (rewrite elem_of_cons; split; [by intros [->|]|by right]).
      assert (subscribers (send_event event p id) !! i = subscribers p !! i) as ->.
      { unfold send_event. destruct (subscribers p !! id) as [sb|]; [|done]. destruct (_ && _); [|done]. cbn. by rewrite lookup_insert_ne. }
      destruct (subscribers p !! i); [|done]. cbn. by rewrite Ho.
Qed.

Lemma publishEvent_live eventType channelID senderID serviceID jobID state reason now p :
  eventDelivery p = managementEventDeliveryLive ->
  publishEvent eventType channelID senderID serviceID jobID state reason now p =
  with_events p (u64 (eventNext p + 1))
    (offered p (published eventType channelID senderID serviceID jobID state reason now p) <$> subscribers p) (subscriberN p).
Proof.
  intros Hl. unfold publishEvent, published. rewrite Hl. cbn [next_event fst]. rewrite send_events.
  2:{ rewrite (fmap_Permutation fst _ _ (range_perm _)). apply NoDup_fst_map_to_list. }
  unfold with_events. cbn. f_equal. apply map_eq. intros i. rewrite map_lookup_imap, lookup_fmap.
  destruct (subscribers p !! i) as [sb|] eqn:Es; [|done]. cbn. rewrite bool_decide_eq_true_2; [done|].
  rewrite (fmap_Permutation fst _ _ (range_perm _)). apply list_elem_of_fmap. exists (i, sb). split; [done|by apply elem_of_map_to_list].
Qed.
End events.

(** A plane that starts has a well-formed policy and signs with a key the service
    admission of the Relay verifies with. *)
Lemma startManagementPlane_sound `{CSV} `{FileSystem} `{Ed25519Keys} `{TLSFiles} `{RangeOrder} config serviceAdmission now p :
  startManagementPlane config serviceAdmission now = Some p ->
  policy_ok (mg_policy p) /\ mg_issuer p = mc_issuer config /\ mg_audience p = mc_audience config /\
  loadManagementGrantSigner (mc_signingKeyFile config) (mc_secretPermissions config) = Some (mg_signer p) /\
  validateSecretFilePermissions (mc_privateKeyFile config) (mc_secretPermissions config) = true /\
  len (gs_key (mg_signer p)) = PrivateKeySize /\
  exists a, serviceAdmission = Some a /\ sv_keys a !! gs_keyID (mg_signer p) = Some (Public (gs_key (mg_signer p))).
Proof.
  unfold startManagementPlane. destruct (_ || _); [done|]. intros E. apply bind_Some in E as (policy & Hp & E).
  apply bind_Some in E as (signer & Hs & E). apply bind_Some in E as (a & -> & E). cbv zeta in E.
  destruct (_ || negb (bytes_eqb _ _)) eqn:Ek; [done|]. destruct (negb (validateSecretFilePermissions _ _)) eqn:Ev; [done|]. destruct (negb (LoadX509KeyPair _ _)); [done|].
  apply bind_Some in E as (ca & _ & E). destruct (negb (AppendCertsFromPEM _)); [done|]. apply bind_Some in E as (plane & Hn & E).
  unfold newManagementPlane in Hn. destruct (_ || _ || _) eqn:Ec; [done|]. injection Hn as <-.
  match type of E with Some (publishEvent _ _ _ _ _ _ _ _ ?x) = _ => set (p0 := x) in E end. injection E as <-.
  set (p1 := publishEvent _ _ _ _ _ _ _ _ _).
  assert (mg_policy p1 = mg_policy p0 /\ mg_signer p1 = mg_signer p0 /\ mg_issuer p1 = mg_issuer p0 /\ mg_audience p1 = mg_audience p0) as (-> & -> & -> & ->).
  { unfold p1. destruct (eventDelivery p0) eqn:Ed; [by unfold publishEvent; rewrite Ed|by rewrite publishEvent_live]. }
  gobool. split_and!; try done; [by eapply loaded_policy_ok|..].
  - exists a. split; [done|]. cbn. destruct (sv_keys a !! gs_keyID signer); [|done]. cbn in *. f_equal. unfold bytes_eqb in *. by gobool.
Qed.

(** *** The stream of a subscriber *)

(** An event whose lines are lines: the JSON of Go has no newline, and types are names. *)
Definition one_line (ed : managementEvent * list Z) : Prop := 10 ∉ mv_EventID ed.1 /\ 10 ∉ str_bytes (mv_Type ed.1) /\ 10 ∉ ed.2.

Definition sse_stream (eds : list (managementEvent * list Z)) : list Z := mjoin ((fun ed => writeManagementSSE ed.1 ed.2) <$> eds).

Lemma line_inj (a b r r' : list Z) : 10 ∉ a -> 10 ∉ b -> a ++ 10 :: r = b ++ 10 :: r' -> a = b /\ r = r'.
Proof.
  revert b. induction a as [|x a IH]; intros [|y b] Ha Hb E; cbn in E.
  - by injection E.
  - injection E as <- _. by destruct Hb; left.
  - injection E as -> _. by destruct Ha; left.
  - injection E as <- E. apply not_elem_of_cons in Ha as [_ Ha], Hb as [_ Hb]. by destruct (IH b Ha Hb E) as [-> ->].
Qed.

(** A client reads a stream of events in one way only. *)
Lemma sse_stream_inj eds eds' : Forall one_line eds -> Forall one_line eds' -> sse_stream eds = sse_stream eds' ->
  (fun ed => (mv_EventID ed.1, str_bytes (mv_Type ed.1), ed.2)) <$> eds = (fun ed => (mv_EventID ed.1, str_bytes (mv_Type ed.1), ed.2)) <$> eds'.
Proof.
  intros H1'. revert eds'. induction H1' as [|[e d] eds (Hi & Ht & Hd) _ IH]; intros eds' H2' E.
  - destruct eds' as [|[e' d'] eds']; [done|]. unfold sse_stream, writeManagementSSE in E. done.
  - destruct eds' as [|[e' d'] eds']; [unfold sse_stream, writeManagementSSE in E; done|]. apply Forall_cons in H2' as [(Hi' & Ht' & Hd') H2'].
    cbn [fst snd] in *. change (writeManagementSSE e d ++ sse_stream eds = writeManagementSSE e' d' ++ sse_stream eds') in E.
    unfold writeManagementSSE in E. rewrite <- !app_assoc in E. apply app_inv_head in E. cbn [app] in E.
    apply line_inj in E as [Ei E]; [|done..]. apply app_inv_head in E. apply line_inj in E as [Et E]; [|done..].
    apply app_inv_head in E. apply line_inj in E as [Ed E]; [|done..]. injection E as E. cbn [fmap list_fmap fst snd].
    by rewrite Ei, Et, Ed, (IH eds' H2' E).
Qed.

(** ** A plane over time *)

(** A plane and the publications that were numbered and are being sent: the event, and
    the subscribers it has still to be offered to. *)
Record plane_world := { pw_plane : managementPlane; pw_sending : list (managementEvent * list Z) }.

Definition on_plane (f : managementPlane -> managementPlane) (w : plane_world) : plane_world :=
  {| pw_plane := f (pw_plane w); pw_sending := pw_sending w |}.

(** An event with a number that was given out. *)
Definition numbered (p : managementPlane) (event : managementEvent) : Prop :=
  exists k, mv_EventID event = FormatUint k /\ 0 < k <= eventNext p.

(** A queue: within its bound, only of events its subscriber may see, none of them twice. *)
Definition queue_ok (p : managementPlane) (sb : managementSubscriber) : Prop :=
  len (sb_ch sb) <= subscriberDepth /\ Forall (fun event => eventAllowed p (sb_service sb) event = true) (sb_ch sb) /\
  NoDup (mv_EventID <$> sb_ch sb) /\ Forall (numbered p) (sb_ch sb).

(** The records: the newest ones, at most 10000, numbered without a gap. *)
Definition audit_ok (p : managementPlane) : Prop :=
  ar_sequence <$> audit p = seqZ (auditNext p - len (audit p) + 1) (len (audit p)) /\
  Forall (fun record => ar_RecordID record = audit_id (ar_sequence record)) (audit p) /\
  len (audit p) <= managementAuditRetention /\ len (audit p) <= auditNext p.

(** None is dropped that need not be: they are all that were appended, or 10000. *)
Definition audit_newest (p : managementPlane) : Prop :=
  audit_ok p /\ len (audit p) = Z.min (auditNext p) managementAuditRetention.

(** A publication under way. *)
Definition sending_ok (p : managementPlane) (sending : managementEvent * list Z) : Prop :=
  numbered p sending.1 /\ NoDup sending.2 /\
  forall id sb, id ∈ sending.2 -> subscribers p !! id = Some sb -> mv_EventID sending.1 ∉ mv_EventID <$> sb_ch sb.

Record world_ok (n : Z) (w : plane_world) : Prop := {
  wo_events : 0 <= eventNext (pw_plane w) <= n;
  wo_audits : 0 <= auditNext (pw_plane w) <= n;
  wo_subscribers : 0 <= subscriberN (pw_plane w) <= n;
  wo_queue : forall id sb, subscribers (pw_plane w) !! id = Some sb -> 0 < id <= subscriberN (pw_plane w) /\ queue_ok (pw_plane w) sb;
  wo_sending : NoDup ((fun sending => mv_EventID sending.1) <$> pw_sending w) /\ Forall (sending_ok (pw_plane w)) (pw_sending w);
  wo_audit : audit_newest (pw_plane w)
}.

Lemma world_ok_mono n w : world_ok n w -> world_ok (n + 1) w.
Proof. intros [? ? ? ? ? ?]. by constructor; try lia. Qed.

Lemma FormatUint_inj x y : 0 <= x < 2 ^ 64 -> 0 <= y < 2 ^ 64 -> FormatUint x = FormatUint y -> x = y.
Proof.
  intros Hx Hy E. pose proof (ParseUint_Format x 64 Hx ltac:(lia)) as Ex. rewrite E, ParseUint_Format in Ex by (done || lia). by injection Ex.
Qed.

(** The next number is new. *)
Lemma numbered_fresh p event : eventNext p + 1 < 2 ^ 64 -> numbered p event -> mv_EventID event <> FormatUint (eventNext p + 1).
Proof. intros Hb (k & -> & Hk) E. apply FormatUint_inj in E; lia. Qed.

Lemma NoDup_fmap_eq {A B} (f : A -> B) l x y : NoDup (f <$> l) -> x ∈ l -> y ∈ l -> f x = f y -> x = y.
Proof.
  intros Hnd [i Hi]%list_elem_of_lookup [j Hj]%list_elem_of_lookup E.
  assert (i = j) as <- by (eapply NoDup_lookup; [exact Hnd|by rewrite list_lookup_fmap, Hi|by rewrite list_lookup_fmap, Hj, E]). congruence.
Qed.

Section runs.
Context `{RangeOrder} `{SliceSort} `{RFC3339} `{CursorJSON} `{Ed25519Keys} `{GrantMarshal}.

(** What may happen between two sections of the plane's lock, by any goroutine. *)
Inductive plane_step : plane_world -> plane_world -> Prop :=
| step_number eventType channelID senderID serviceID jobID state reason now event ids p w :
    eventDelivery (pw_plane w) = managementEventDeliveryLive ->
    next_event eventType channelID senderID serviceID jobID state reason now (pw_plane w) = ((event, ids), p) ->
    plane_step w {| pw_plane := p; pw_sending := (event, ids) :: pw_sending w |}
| step_send event id ids before after p :
    plane_step {| pw_plane := p; pw_sending := before ++ (event, id :: ids) :: after |}
      {| pw_plane := send_event event p id; pw_sending := before ++ (event, ids) :: after |}
| step_sent event before after p :
    plane_step {| pw_plane := p; pw_sending := before ++ (event, []) :: after |} {| pw_plane := p; pw_sending := before ++ after |}
| step_audit record now w : plane_step w (on_plane (appendAudit record now) w)
| step_subscribe service r w : plane_step w (on_plane (fun p => (handleEvents service r p).2) w)
| step_stream id w : plane_step w (on_plane (fun p => (stream_event id p).2) w)
| step_unsubscribe id w : plane_step w (on_plane (unsubscribe id) w).

(** Appending keeps the numbering, with the oldest records dropped past the limit. *)
Lemma seqZ_snoc m k : 0 <= k -> seqZ m (k + 1) = seqZ m k ++ [m + k].
Proof. intros Hk. by rewrite seqZ_app by lia. Qed.

Lemma appendAudit_ok record now p : 0 <= auditNext p -> auditNext p + 1 < 2 ^ 64 -> audit_newest p -> audit_newest (appendAudit record now p).
Proof.
  intros H0 Hn Hp. unfold appendAudit. destruct (negb _); [done|]. cbv zeta.
  destruct Hp as [(Hseq & Hids & Hle1 & Hle2) Hlen]. unfold u64. rewrite Z.mod_small by lia. set (next := auditNext p + 1).
  match goal with |- context [audit p ++ [?x]] => set (r := x) end.
  assert (ar_sequence <$> audit p ++ [r] = seqZ (next - len (audit p ++ [r]) + 1) (len (audit p ++ [r]))) as Hseq'.
  { rewrite fmap_app, Hseq. unfold len. rewrite length_app. cbn [length fmap list_fmap]. rewrite Nat2Z.inj_add. change (Z.of_nat 1) with 1.
    rewrite seqZ_snoc by lia. unfold next. f_equal; [f_equal; lia|]. cbn. f_equal. lia. }
  assert (Forall (fun record => ar_RecordID record = audit_id (ar_sequence record)) (audit p ++ [r])) as Hids' by (apply Forall_app; by repeat constructor).
  unfold audit_newest, audit_ok. cbn [audit auditNext with_audit]. unfold managementAuditRetention in *. fold next.
  assert (len (audit p ++ [r]) = len (audit p) + 1) as El by (unfold len; rewrite length_app; cbn; lia).
  destruct (10000 <? len (audit p ++ [r])) eqn:Em; [|apply Z.ltb_ge in Em; split_and!; try done; lia]. apply Z.ltb_lt in Em.
  assert (len (audit p ++ [r]) - 10000 = 1) as -> by lia. change (Z.to_nat 1) with 1%nat.
  assert (len (drop 1 (audit p ++ [r])) = len (audit p)) as Ed by (unfold len in *; rewrite length_drop; lia).
  rewrite Ed. assert (0 <= len (audit p)) by (unfold len; lia). split_and!; [|by apply Forall_drop|lia..].
  rewrite fmap_drop, Hseq', El. rewrite (seqZ_cons _ (len (audit p) + 1)) by lia. cbn [drop]. rewrite drop_0. f_equal; lia.
Qed.

(** Numbering an event. *)
Lemma number_ok n eventType channelID senderID serviceID jobID state reason now event ids p w : n + 1 < 2 ^ 64 -> world_ok n w ->
  next_event eventType channelID senderID serviceID jobID state reason now (pw_plane w) = ((event, ids), p) ->
  world_ok (n + 1) {| pw_plane := p; pw_sending := (event, ids) :: pw_sending w |}.
Proof.
  intros Hn [He Ha Hs Hq [Hnd Hf] Hu] E. unfold next_event, u64 in E. rewrite Z.mod_small in E by lia. injection E as <- <- <-.
  assert (forall e, numbered (pw_plane w) e -> numbered (with_events (pw_plane w) (eventNext (pw_plane w) + 1) (subscribers (pw_plane w)) (subscriberN (pw_plane w))) e) as Hnum.
  { intros e (k & Ek & Hk). exists k. split; [done|]. cbn. lia. }
  constructor; cbn [pw_plane pw_sending eventNext auditNext subscriberN subscribers with_events]; [lia|lia|lia| | |done].
  - intros id sb Hsb. apply Hq in Hsb as [Hid (Hl & Hal & Hn' & Hnu)]. split; [done|]. split_and!; try done. by eapply Forall_impl.
  - split.
    + cbn. constructor; [|done]. rewrite list_elem_of_fmap. intros (sending & E & Hin). rewrite Forall_forall in Hf. apply Hf in Hin as [Hin _].
      by apply (numbered_fresh (pw_plane w)) in Hin; [|lia].
    + constructor.
      * split; [exists (eventNext (pw_plane w) + 1); split; [done|cbn; lia]|]. cbn [fst snd]. split.
        { rewrite (fmap_Permutation fst _ _ (range_perm _)). apply NoDup_fst_map_to_list. }
        intros id sb _ Hsb. rewrite list_elem_of_fmap. intros (e & E & Hin). apply Hq in Hsb as [_ (_ & _ & _ & Hnu)].
        rewrite Forall_forall in Hnu. apply Hnu in Hin. by apply (numbered_fresh (pw_plane w)) in Hin; [|lia].
      * eapply Forall_impl; [exact Hf|]. intros [e js] [Hne His]. split; [by apply Hnum|exact His].
Qed.

(** Offering an event to a subscriber. *)
Lemma send_ok n event id ids before after p :
  world_ok n {| pw_plane := p; pw_sending := before ++ (event, id :: ids) :: after |} ->
  world_ok n {| pw_plane := send_event event p id; pw_sending := before ++ (event, ids) :: after |}.
Proof.
  intros [He Ha Hs Hq [Hnd Hf] Hu]. cbn [pw_plane pw_sending] in *.
  rewrite fmap_app, fmap_cons in Hnd. assert (sending_ok p (event, id :: ids)) as [Hnum [Hids Hfree]].
  { rewrite Forall_forall in Hf. apply Hf, elem_of_app. right. constructor. }
  cbn [fst snd] in *. apply NoDup_cons in Hids as [Hid Hids].
  assert (Forall (sending_ok p) (before ++ (event, ids) :: after)) as Hf'.
  { rewrite Forall_app, Forall_cons in Hf |- *. destruct Hf as (Hb & _ & Haf). split_and!; try done. split_and!; try done.
    intros i sb Hi Hsb. cbn [fst snd] in *. apply (Hfree i); [by right|done]. }
  unfold send_event. destruct (subscribers p !! id) as [sb|] eqn:Esb.
  2:{ constructor; cbn [pw_plane pw_sending]; try done. by rewrite fmap_app, fmap_cons. }
  destruct (eventAllowed p (sb_service sb) event && _) eqn:Eal.
  2:{ constructor; cbn [pw_plane pw_sending]; try done. by rewrite fmap_app, fmap_cons. }
  apply andb_true_iff in Eal as [Eal Ed%Z.ltb_lt]. destruct (Hq _ _ Esb) as [Hidb (Hl & Hal & Hn' & Hnu)].
  constructor; cbn [pw_plane pw_sending eventNext auditNext subscriberN subscribers with_events]; try done.
  - intros i sb'. rewrite lookup_insert_Some. intros [[<- <-]|[_ Hi]]; [|by apply Hq]. split; [done|]. unfold queue_ok. cbn [sb_ch sb_service].
    split_and!; [unfold len in *; rewrite length_app; cbn; lia| | |].
    + apply Forall_app; split; [exact Hal|by repeat constructor].
    + rewrite fmap_app. apply NoDup_app. split; [done|]. split; [|apply NoDup_singleton]. intros x Hx Hx'. apply list_elem_of_singleton in Hx' as ->.
      by apply (Hfree id sb); [left|..].
    + apply Forall_app; split; [exact Hnu|by repeat constructor].
  - split; [by rewrite fmap_app, fmap_cons|].
    apply Forall_forall. intros [e js] Hin. assert (sending_ok p (e, js)) as [Hne [Hnd' Hfr]] by (rewrite Forall_forall in Hf'; by apply Hf').
    split; [done|]. split; [done|]. cbn [fst snd] in *. intros i sb' Hi. cbn [subscribers with_events]. rewrite lookup_insert_Some.
    intros [[<- <-]|[_ Hsb']]; [|by apply (Hfr i)]. cbn [sb_ch]. rewrite fmap_app, elem_of_app. intros [Hold|Hnew]; [by apply (Hfr id sb)|].
    apply list_elem_of_singleton in Hnew.
    assert ((e, js) = (event, ids)) as [= -> ->]; [|done].
    assert (NoDup ((fun sending => mv_EventID sending.1) <$> (before ++ (event, ids) :: after))) as Hnd2 by (by rewrite fmap_app, fmap_cons).
    eapply (NoDup_fmap_eq _ _ _ _ Hnd2); [done|apply elem_of_app; right; constructor|done].
Qed.

Lemma sent_ok n event before after p :
  world_ok n {| pw_plane := p; pw_sending := before ++ (event, []) :: after |} -> world_ok n {| pw_plane := p; pw_sending := before ++ after |}.
Proof.
  intros [He Ha Hs Hq [Hnd Hf] Hu]. constructor; try done. cbn [pw_plane pw_sending] in *. split.
  - rewrite fmap_app, fmap_cons in Hnd. rewrite fmap_app. eapply sublist_NoDup; [exact Hnd|]. apply sublist_app; [done|by constructor].
  - rewrite Forall_app, Forall_cons in Hf. rewrite Forall_app. tauto.
Qed.

(** The other sections leave the events in flight as they are: the queues only shrink,
    and only new subscribers come. *)
Lemma shrink_ok n m w f : world_ok n w -> n <= m ->
  eventNext (f (pw_plane w)) = eventNext (pw_plane w) -> auditNext (pw_plane w) <= auditNext (f (pw_plane w)) <= m ->
  subscriberN (pw_plane w) <= subscriberN (f (pw_plane w)) <= m -> mg_policy (f (pw_plane w)) = mg_policy (pw_plane w) ->
  (forall id sb, subscribers (f (pw_plane w)) !! id = Some sb -> 0 < id <= subscriberN (f (pw_plane w)) /\
     (sb_ch sb = [] \/ exists sb', subscribers (pw_plane w) !! id = Some sb' /\ sb_service sb' = sb_service sb /\ sb_ch sb `suffix_of` sb_ch sb')) ->
  audit_newest (f (pw_plane w)) -> world_ok m (on_plane f w).
Proof.
  intros [He Ha Hs Hq [Hnd Hf] Hu] Hm E1 E2 E3 Ep Hsub Hau. constructor; cbn [on_plane pw_plane pw_sending]; try done; try lia.
  - intros id sb Hsb. apply Hsub in Hsb as [Hid [E|(sb' & Hsb' & Es & k & Ek)]]; (split; [done|]).
    + unfold queue_ok. rewrite E. split_and!; [done|constructor..].
    + apply Hq in Hsb' as [_ (Hl & Hal & Hn & Hnu)]. unfold queue_ok. rewrite Ek in Hl, Hal, Hn, Hnu. rewrite Es in Hal.
      rewrite fmap_app in Hn. rewrite Forall_app in Hal, Hnu. unfold len in *. rewrite length_app in Hl. split_and!; [lia| |by apply NoDup_app in Hn as (_ & _ & ?)|].
      * eapply Forall_impl; [apply Hal|]. intros e. unfold eventAllowed, canViewChannel, canAuditChannel, hasChannelACL. by rewrite Ep.
      * eapply Forall_impl; [apply Hnu|]. intros e. unfold numbered. by rewrite E1.
  - split; [done|]. eapply Forall_impl; [exact Hf|]. intros [e js] [Hn [Hj Hfr]]. split; [unfold numbered in *; by rewrite E1|]. split; [done|].
    intros id sb Hi Hsb. apply Hsub in Hsb as [_ [E|(sb' & Hsb' & _ & k & Ek)]]; [rewrite E; apply not_elem_of_nil|].
    intros Hin. apply (Hfr id sb' Hi Hsb'). rewrite Ek, fmap_app, elem_of_app. by right.
Qed.

Lemma audit_step_ok n record now w : n + 1 < 2 ^ 64 -> world_ok n w -> world_ok (n + 1) (on_plane (appendAudit record now) w).
Proof.
  intros Hn Hw. pose proof Hw as [He Ha Hs Hq _ Hu]. apply (shrink_ok n); try done; try lia.
  - unfold appendAudit. by destruct (negb _).
  - unfold appendAudit. destruct (negb _); [lia|]. cbv zeta. unfold u64. rewrite Z.mod_small by lia. cbn. lia.
  - unfold appendAudit. destruct (negb _); cbn; lia.
  - unfold appendAudit. by destruct (negb _).
  - intros id sb Hsb. assert (subscribers (pw_plane w) !! id = Some sb /\ subscriberN (appendAudit record now (pw_plane w)) = subscriberN (pw_plane w)) as [Hsb' ->].
    { revert Hsb. unfold appendAudit. by destruct (negb _). }
    split; [by apply (Hq _ _ Hsb')|]. right. by exists sb.
  - apply appendAudit_ok; [lia|lia|done].
Qed.

Lemma subscribe_ok n service r w : n + 1 < 2 ^ 64 -> world_ok n w -> world_ok (n + 1) (on_plane (fun p => (handleEvents service r p).2) w).
Proof.
  intros Hn Hw. pose proof Hw as [He Ha Hs Hq _ Hu].
  assert ((handleEvents service r (pw_plane w)).2 = pw_plane w \/ (handleEvents service r (pw_plane w)).2 =
    with_events (pw_plane w) (eventNext (pw_plane w)) (<[u64 (subscriberN (pw_plane w) + 1) := {| sb_service := service; sb_ch := [] |}]> (subscribers (pw_plane w)))
      (u64 (subscriberN (pw_plane w) + 1))) as Ep.
  { unfold handleEvents. repeat (case_match; [by left|]). by right. }
  unfold u64 in Ep. rewrite Z.mod_small in Ep by lia.
  apply (shrink_ok n); [done|lia|destruct Ep as [-> | ->]..]; cbn [eventNext auditNext subscriberN mg_policy with_events subscribers]; try done; try lia.
  - intros id sb Hsb. split; [by apply (Hq _ _ Hsb)|]. right. by exists sb.
  - intros id sb. rewrite lookup_insert_Some. intros [[<- <-]|[_ Hsb]]; [split; [lia|by left]|].
    split; [apply Hq in Hsb as [? _]; lia|]. right. by exists sb.
Qed.

Lemma stream_ok n id w : world_ok n w -> world_ok (n + 1) (on_plane (fun p => (stream_event id p).2) w).
Proof.
  intros Hw. pose proof Hw as [He Ha Hs Hq _ Hu].
  assert (forall i sb, subscribers (stream_event id (pw_plane w)).2 !! i = Some sb -> exists sb', subscribers (pw_plane w) !! i = Some sb' /\
    sb_service sb' = sb_service sb /\ sb_ch sb `suffix_of` sb_ch sb') as Hsub.
  { unfold stream_event. intros i sb. destruct (subscribers (pw_plane w) !! id) as [sb0|] eqn:E0; [|intros Hi; by exists sb].
    destruct (sb_ch sb0) as [|event rest] eqn:Ec; [intros Hi; by exists sb|]. cbn. rewrite lookup_insert_Some. intros [[<- <-]|[_ Hi]]; [|by exists sb].
    exists sb0. split; [done|]. split; [done|]. rewrite Ec. cbn. by exists [event]. }
  assert (exists subs, (stream_event id (pw_plane w)).2 = with_events (pw_plane w) (eventNext (pw_plane w)) subs (subscriberN (pw_plane w))) as [subs Ep].
  { exists (subscribers (stream_event id (pw_plane w)).2). unfold stream_event. clear. destruct (pw_plane w) as [? ? ? ? ? ? ? subs ? ? ? ?]. cbn.
    destruct (subs !! id) as [[? [|? ?]]|]; reflexivity. }
  rewrite Ep in Hsub. apply (shrink_ok n); rewrite ?Ep; cbn [eventNext auditNext subscriberN mg_policy with_events subscribers] in *; try done; try lia.
  intros i sb Hi. destruct (Hsub _ _ Hi) as (sb' & Hsb' & ? & ?). split; [by apply (Hq _ _ Hsb')|]. right. by exists sb'.
Qed.

Lemma unsubscribe_ok n id w : world_ok n w -> world_ok (n + 1) (on_plane (unsubscribe id) w).
Proof.
  intros Hw. pose proof Hw as [He Ha Hs Hq _ Hu]. apply (shrink_ok n); cbn [unsubscribe eventNext auditNext subscriberN mg_policy with_events subscribers]; try done; try lia.
  intros i sb. rewrite lookup_delete_Some. intros [_ Hi]. split; [by apply (Hq _ _ Hi)|]. right. by exists sb.
Qed.

Lemma plane_step_ok n w w' : n + 1 < 2 ^ 64 -> world_ok n w -> plane_step w w' -> world_ok (n + 1) w'.
Proof.
  intros Hn Hw Hs. destruct Hs as [eventType ch sd sv job st rs now event ids p w _ E|event id ids before after p|event before after p|record now w|service r w|id w|id w].
  - by eapply number_ok.
  - by apply world_ok_mono, send_ok.
  - by eapply world_ok_mono, sent_ok.
  - by apply audit_step_ok.
  - by apply subscribe_ok.
  - by apply stream_ok.
  - by apply unsubscribe_ok.
Qed.

(** ** The operations are sequences of these steps *)

Lemma sends_steps event ids p rest :
  rtc plane_step {| pw_plane := p; pw_sending := (event, ids) :: rest |} {| pw_plane := foldl (send_event event) p ids; pw_sending := rest |}.
Proof.
  revert p. induction ids as [|id ids IH]; intros p; cbn [foldl].
  - apply rtc_once. apply (step_sent event [] rest).
  - eapply rtc_l; [apply (step_send event id ids [] rest)|]. apply IH.
Qed.

Definition quiet (p : managementPlane) : plane_world := {| pw_plane := p; pw_sending := [] |}.

Lemma on_plane_id w : on_plane (fun p => p) w = w.
Proof. by destruct w. Qed.

Lemma publishEvent_steps eventType channelID senderID serviceID jobID state reason now w :
  rtc plane_step w (on_plane (publishEvent eventType channelID senderID serviceID jobID state reason now) w).
Proof.
  unfold on_plane, publishEvent. destruct (eventDelivery (pw_plane w)) eqn:Ed; [by destruct w|].
  destruct (next_event eventType channelID senderID serviceID jobID state reason now (pw_plane w)) as [[event ids] p'] eqn:E.
  eapply rtc_l; [by eapply (step_number _ _ _ _ _ _ _ _ _ _ _ w)|]. apply sends_steps.
Qed.

Lemma handle_request_steps s r jti now w : rtc plane_step w (on_plane (fun p => (handle_request s r jti now p).2) w).
Proof.
  unfold handle_request. cbv zeta. unfold on_plane. destruct (serviceForRequest (pw_plane w) r) as [service|];
    repeat match goal with |- context [if ?b then _ else _] => destruct b end; try by destruct w.
  - apply rtc_once. apply (step_subscribe service r w).
  - unfold handleServiceGrants. destruct (negb _); [by destruct w|]. destruct (decode_grant_request _) as [request|]; [|by destruct w].
    destruct (issueGrant _ _ _ _ _) as [[[[grant expiresAt] permissions] priority]|]; [|by destruct w]. cbv zeta. cbn [snd].
    match goal with |- context [appendAudit ?record now _] => eapply rtc_l; [apply (step_audit record now w)|];
      apply (publishEvent_steps _ _ _ _ _ _ _ _ (on_plane (appendAudit record now) w)) end.
Qed.

(** What no section changes. *)
Definition same_plane (p p' : managementPlane) : Prop :=
  mg_policy p' = mg_policy p /\ mg_signer p' = mg_signer p /\ mg_issuer p' = mg_issuer p /\ mg_audience p' = mg_audience p.

Lemma plane_step_same w w' : plane_step w w' -> same_plane (pw_plane w) (pw_plane w').
Proof.
  intros Hs. destruct Hs as [eventType ch sd sv job st rs now event ids p w _ E|event id ids before after p|event before after p|record now w|service r w|id w|id w];
    cbn [on_plane pw_plane].
  - unfold next_event in E. by injection E as _ _ <-.
  - unfold send_event. destruct (subscribers p !! id); [|done]. by destruct (_ && _).
  - done.
  - unfold appendAudit. by destruct (negb _).
  - unfold handleEvents. by repeat case_match.
  - unfold stream_event. by repeat case_match.
  - unfold unsubscribe. by repeat case_match.
Qed.

(** A plane that has just started has published one event, or none. *)
Lemma started_plane_ok `{CSV} `{FileSystem} `{TLSFiles} config serviceAdmission now p :
  startManagementPlane config serviceAdmission now = Some p -> world_ok 1 (quiet p).
Proof.
  unfold startManagementPlane. destruct (_ || _); [done|]. intros E. apply bind_Some in E as (policy & _ & E).
  apply bind_Some in E as (signer & _ & E). apply bind_Some in E as (a & _ & E). cbv zeta in E.
  destruct (_ || negb (bytes_eqb _ _)); [done|]. destruct (negb (validateSecretFilePermissions _ _)); [done|]. destruct (negb (LoadX509KeyPair _ _)); [done|].
  apply bind_Some in E as (ca & _ & E). destruct (negb (AppendCertsFromPEM _)); [done|]. apply bind_Some in E as (plane & Hn & E).
  injection E as <-. unfold newManagementPlane in Hn. destruct (_ || _ || _); [done|]. injection Hn as <-.
  match goal with |- world_ok 1 (quiet (publishEvent _ _ _ _ _ _ _ _ ?x)) => set (p0 := x) end.
  assert (world_ok 0 (quiet p0)) as Hw by (constructor; cbn; try done; by split; constructor).
  unfold publishEvent. destruct (eventDelivery p0); [by apply (world_ok_mono 0)|].
  destruct (next_event _ _ _ _ _ _ _ _ p0) as [[event ids] p1] eqn:E. pose proof (number_ok 0 _ _ _ _ _ _ _ _ _ _ _ (quiet p0) ltac:(lia) Hw E) as Hw1.
  unfold next_event in E. assert (ids = []) as ->.
  { injection E as _ <- _. change (subscribers p0) with (∅ : gmap Z managementSubscriber). pose proof (range_perm (∅ : gmap Z managementSubscriber)) as Hp.
    rewrite map_to_list_empty in Hp. apply Permutation_nil_r in Hp. by rewrite Hp. }
  by apply (sent_ok 1 event [] []).
Qed.

(** C21. Every operation of the plane is a sequence of these sections, and after any
    number of them, of any goroutines in any order, a subscriber's queue keeps at most 64
    events, only of channels its service may see and none of them twice; and the audit is
    exactly the newest 10000 records of those appended, or all of them while they are
    fewer, numbered without a gap (for fewer than 2^64 sections). *)
Theorem plane_invariant policy signer issuer audience delivery p retrieval n w :
  newManagementPlane policy signer issuer audience delivery = Some p -> Z.of_nat n < 2 ^ 64 ->
  nsteps plane_step n (quiet (with_retrieval p retrieval)) w ->
  (forall id sb, subscribers (pw_plane w) !! id = Some sb -> queue_ok (pw_plane w) sb) /\ audit_newest (pw_plane w) /\
  (forall s r jti now, rtc plane_step (quiet (pw_plane w)) (quiet (handle_request s r jti now (pw_plane w)).2)) /\
  (forall eventType channelID senderID serviceID jobID state reason now,
     rtc plane_step (quiet (pw_plane w)) (quiet (publishEvent eventType channelID senderID serviceID jobID state reason now (pw_plane w)))).
Proof.
  intros Hnew Hn Hsteps. assert (world_ok 0 (quiet (with_retrieval p retrieval))) as Hp.
  { unfold newManagementPlane in Hnew. destruct (_ || _); [done|]. injection Hnew as <-. constructor; cbn; try done. by split; constructor. }
  enough (world_ok (0 + Z.of_nat n) w) as [_ _ _ Hq _ Hu].
  { split_and!; [|done|intros; apply (handle_request_steps _ _ _ _ (quiet _))|intros; apply (publishEvent_steps _ _ _ _ _ _ _ _ (quiet _))]. intros id sb Hs. by apply Hq in Hs as [_ ?]. }
  assert (0 + Z.of_nat n < 2 ^ 64) as Hb by lia. clear Hnew Hn. revert Hb Hp. generalize 0 as k. induction Hsteps as [w|n w1 w2 w3 Hs Hr IH]; intros k Hb Hk.
  - by rewrite Z.add_0_r.
  - rewrite Nat2Z.inj_succ in *. replace (k + Z.succ (Z.of_nat n)) with (k + 1 + Z.of_nat n) by lia. apply IH; [lia|]. eapply plane_step_ok; [lia|done|done].
Qed.
End runs.

(** ** Concrete inputs *)

(** Instants as their seconds in decimal. *)
#[refine] Definition decimal_times : RFC3339 :=
  {| rfc_format := fun t => FormatUint (u64 (toUnix t)); rfc_parse := fun value => Unix <$> ParseUint value 64 |}.
Proof.
  - intros t. apply FormatUint_ascii. unfold u64. apply Z.mod_pos_bound. lia.
  - intros t [Hlo Hhi]. rewrite Unix_small in Hlo, Hhi by lia.
    assert (sane_time t) as Hs by (unfold sane_time, unix_to_internal, Second in *; lia).
    assert (0 <= toUnix t < 2 ^ 62) as Hb.
    { rewrite toUnix_sane by done. unfold Second in *. pose proof (Z.div_le_lower_bound t 1000000000 unix_to_internal ltac:(lia) ltac:(lia)).
      pose proof (Z.div_lt_upper_bound t 1000000000 (253402300800 + unix_to_internal) ltac:(lia) ltac:(lia)). lia. }
    unfold u64. rewrite Z.mod_small, ParseUint_Format by lia. done.
Defined.

(** A cursor of the second position only. *)
Definition example_cursor : managementAuditCursor :=
  {| cu_ServiceID := "auditor-1"; cu_Filter := repeat 0 4; cu_Snapshot := 2; cu_Offset := 1 |}.
#[local] Instance cursor_eq_dec : EqDecision managementAuditCursor.
Proof. solve_decision. Defined.
Definition example_cursor_json : CursorJSON :=
  {| marshal_cursor := fun c => if decide (c = example_cursor) then Some [3] else None;
     unmarshal_cursor := fun raw => if bytes_eqb raw [3] then Some example_cursor else None |}.

#[local] Existing Instances listing_order merge_sort_order decimal_times example_cursor_json example_keys example_marshal.

Definition idle_server : server :=
  newServer true 0 false 4 example_now {| counterEpoch := "e"; floorInterruptCounters := zero_counters |}.

(** A client with the certificate of the operator. *)
Definition example_get (path : string) (query : list (string * list Z)) : http_request :=
  {| rq_method := "GET"; rq_certificate := Some example_certificate; rq_path := str_bytes path; rq_query := query; rq_body := [] |}.

Lemma management_access_witness : exists service, client_service example_plane (example_get "/v1/health" []) service /\ canGlobal service "health.read" = true.
Proof.
  destruct (handle_request idle_server (example_get "/v1/health" []) None example_now example_plane) as [response p] eqn:E.
  assert (response = Health managementEventDeliveryLive true) as Hr.
  { apply (f_equal fst) in E. cbn [fst] in E. rewrite <- E. vm_compute. reflexivity. }
  destruct (management_access idle_server (example_get "/v1/health" []) None example_now example_plane response p E) as (service & Hc & Ha).
  - rewrite Hr. discriminate.
  - exists service. split; [exact Hc|]. rewrite Hr in Ha. exact (proj1 Ha).
Defined.

Definition example_record (sender : Z) : managementAuditRecord :=
  {| ar_RecordID := []; ar_Timestamp := []; ar_ActorType := "service"; ar_ActorID := "operator-1"; ar_ChannelID := Some 100;
     ar_Action := str_bytes "service_admission_issued"; ar_Result := str_bytes "success"; ar_FloorInterrupt := None; ar_sequence := 0 |}.

(** The operator subscribes, a talk on its channel is numbered and offered to it. *)
Definition started_plane : managementPlane :=
  with_retrieval {| mg_policy := example_policy; mg_signer := example_signer; mg_issuer := "issuer"; mg_audience := "relay";
    eventDelivery := managementEventDeliveryLive; auditRetrieval := false; eventNext := 0; subscribers := ∅; subscriberN := 0;
    audit := []; auditNext := 0; cursorKey := zeros 32 |} true.
Definition subscribed_plane : managementPlane := (handleEvents example_operator (example_get "/v1/events" []) started_plane).2.
Definition talk_published : (managementEvent * list Z) * managementPlane :=
  next_event "talk_started" (Some 100) (Some 1003) None None None None example_now subscribed_plane.

Lemma talk_offered : talk_published.1.2 = [1].
Proof. vm_compute. reflexivity. Qed.

Lemma example_steps :
  exists w, nsteps plane_step 3 (quiet started_plane) w /\ pw_plane w = send_event talk_published.1.1 talk_published.2 1.
Proof.
  eexists. split.
  - eapply nsteps_l; [apply (step_subscribe example_operator (example_get "/v1/events" []) (quiet started_plane))|].
    eapply nsteps_l.
    { apply (step_number "talk_started" (Some 100) (Some 1003) None None None None example_now talk_published.1.1 [1] talk_published.2); [reflexivity|].
      change (talk_published = (talk_published.1.1, [1], talk_published.2)). rewrite <- talk_offered. by destruct talk_published as [[]]. }
    eapply nsteps_l; [apply (step_send talk_published.1.1 1 [] [] [])|]. apply nsteps_O.
  - reflexivity.
Qed.

Lemma plane_invariant_witness : exists sb,
  subscribers (send_event talk_published.1.1 talk_published.2 1) !! 1 = Some sb /\ len (sb_ch sb) = 1 /\
  queue_ok (send_event talk_published.1.1 talk_published.2 1) sb.
Proof.
  destruct example_steps as (w & Hs & Ew).
  destruct (plane_invariant example_policy example_signer "issuer" "relay" managementEventDeliveryLive _ true 3 w eq_refl eq_refl Hs) as [Hq _].
  rewrite Ew in Hq. eexists. split; [vm_compute; reflexivity|]. split; [reflexivity|]. apply (Hq 1). vm_compute. reflexivity.
Defined.
