(* ===== verification/ManagementAudit.v ===== *)
(** * Reading the audit page by page

    The pages of [handleAuditRecords]: a cursor is bound to the service, the query, the
    snapshot and the position it was issued for, and a client that follows the cursors
    reads a stable listing while new records are appended and old ones dropped. *)

From S2P Require Import Prelude GoTime Text Sha256 Base64 Identity Service Server Diagnostics DirectoryWire Directory PrivateControl SecretFiles PolicyFiles Management ManagementSpec ManagementGrants ManagementAnswers.

(** [encoding/json] on a cursor: what is written is read back. *)
Class CursorCodec `{CursorJSON} := {
  cursor_codec : forall c raw, marshal_cursor c = Some raw -> utf8 (cu_ServiceID c) -> is_Some (rune_count (cu_Filter c)) ->
    is_u64 (cu_Snapshot c) -> - 2 ^ 63 <= cu_Offset c < 2 ^ 63 ->
    raw <> [] /\ bytes_ok raw /\ unmarshal_cursor raw = Some c
}.

Lemma join_ascii l : Forall ascii_ok l -> ascii_ok (join_byte 0 l).
Proof.
  induction 1 as [|x l Hx Hl IH]; [constructor|]. cbn [join_byte]. destruct l as [|y l]; [done|]. apply Forall_app; split; [done|].
  constructor; [lia|exact IH].
Qed.

Section cursors.
Context `{RFC3339} `{CursorJSON} `{!CursorCodec}.
Implicit Types (p : managementPlane) (service : managementService).

(** A filter of a request is text. *)
Lemma filter_key_ascii r filter : parseManagementAuditFilter r = Some filter -> ascii_ok (filter_key filter) /\ filter_key filter <> [].
Proof.
  unfold parseManagementAuditFilter. cbv zeta. intros E. apply bind_Some in E as (channelID & Hc & E).
  apply bind_Some in E as (since & _ & E). apply bind_Some in E as (until & _ & E). destruct (match since with Some _ => _ | None => _ end); [done|].
  destruct (_ && negb (managementActionPattern _)) eqn:Ea; [done|]. destruct (_ && _ && _ && _) eqn:Er; [done|]. injection E as <-.
  unfold filter_key. cbn [af_channelID af_since af_until af_action af_result]. split; [|cbn [join_byte]; intros E%app_nil; by destruct E].
  apply join_ascii. repeat apply Forall_cons_2; [..|apply Forall_nil_2].
  - unfold query_option in Hc. destruct (bytes_eqb _ _); [injection Hc as <-; constructor|]. apply fmap_Some in Hc as (v & Hv & ->).
    apply parseManagementU32_bound in Hv as [Hv _]. unfold is_u32 in Hv. apply FormatUint_ascii. lia.
  - destruct since; [apply rfc_format_ascii|constructor].
  - destruct until; [apply rfc_format_ascii|constructor].
  - destruct (bytes_eqb (query_get r "action") []) eqn:E0; [unfold bytes_eqb in E0; gobool; rewrite E0; constructor|].
    cbn [negb andb] in Ea. apply negb_false_iff in Ea. unfold managementActionPattern in Ea.
    destruct (query_get r "action") as [|c l]; [constructor|]. gobool. unfold between in *. constructor; [gobool; lia|].
    apply Forall_forall. intros x Hx%list_elem_of_In. match goal with Hf : forallb _ l = true |- _ => rewrite forallb_forall in Hf; apply Hf in Hx end.
    rewrite !orb_true_iff in Hx. destruct Hx as [[Hx|Hx]|Hx]; gobool; lia.
  - unfold bytes_eqb in Er. repeat (apply andb_false_iff in Er as [Er|Er]); apply negb_false_iff, bool_decide_eq_true in Er; rewrite Er; repeat constructor; lia.
Qed.

(** A cursor is read back by any plane with the same key. *)
Lemma decode_encode_cursor p p' c encoded : encodeAuditCursor p c = Some encoded -> cursorKey p' = cursorKey p ->
  utf8 (cu_ServiceID c) -> cu_ServiceID c <> ""%string -> ascii_ok (cu_Filter c) -> cu_Filter c <> [] ->
  0 < cu_Snapshot c < 2 ^ 64 -> 0 <= cu_Offset c < 2 ^ 63 -> decodeAuditCursor p' encoded = Some c /\ encoded <> [].
Proof.
  intros E Hk Hsv Hsv0 Hf Hf0 Hs Ho. unfold encodeAuditCursor in E. apply bind_Some in E as (raw & Hm & E). injection E as <-.
  apply cursor_codec in Hm as (Hr0 & Hr & Hd); [|done|by apply rune_count_ascii|unfold is_u64; lia|lia]. split.
  2:{ intros E%app_nil. by destruct E. }
  unfold decodeAuditCursor. cbn [app]. rewrite split_dots_cons by by apply segment_dotless. rewrite split_dots_one by apply segment_dotless, bytes_ok_hmac.
  rewrite (segment_strict raw) by done. cbn [mbind option_bind]. rewrite segment_strict; [|by intros E%(f_equal length); rewrite length_hmac in E|apply bytes_ok_hmac].
  cbn [mbind option_bind]. unfold len. rewrite length_hmac, Hk. unfold bytes_eqb. rewrite bool_decide_eq_true_2 by done. cbn [negb orb Z.eqb Z.of_nat Pos.of_succ_nat Pos.succ Pos.eqb].
  rewrite Hd. cbn [mbind option_bind]. rewrite (proj2 (String.eqb_neq _ _)) by done. rewrite bool_decide_eq_false_2 by done.
  rewrite (proj2 (Z.eqb_neq (cu_Snapshot c) 0)), (proj2 (Z.ltb_ge (cu_Offset c) 0)) by lia. done.
Qed.
End cursors.

(** ** Planes as time passes *)

(** [p'] after some operations on [p]: records were appended at the end and dropped at
    the front, under the same rules. *)
Record later (p p' : managementPlane) : Prop := {
  lt_policy : mg_policy p' = mg_policy p;
  lt_key : cursorKey p' = cursorKey p;
  lt_next : auditNext p <= auditNext p';
  lt_audit : exists k new, audit p' = drop k (audit p ++ new) /\ Forall (fun record => auditNext p < ar_sequence record) new
}.

Lemma later_refl p : later p p.
Proof. constructor; try done. exists 0%nat, []. by rewrite app_nil_r. Qed.

Lemma later_trans p1 p2 p3 : later p1 p2 -> later p2 p3 -> later p1 p3.
Proof.
  intros [P1 K1 N1 (k1 & new1 & A1 & F1)] [P2 K2 N2 (k2 & new2 & A2 & F2)]. constructor; try congruence; [lia|].
  assert (Forall (fun record => auditNext p1 < ar_sequence record) new2) as F2' by (eapply Forall_impl; [exact F2|]; cbn; lia).
  set (x := audit p1 ++ new1) in *. exists ((length x `min` k1) + k2)%nat, (new1 ++ new2). split; [|by apply Forall_app].
  rewrite A2, A1, app_assoc, <- drop_drop. fold x. f_equal. rewrite drop_app_le by lia. f_equal.
  destruct (Nat.min_dec (length x) k1) as [Em|Em]; rewrite Em; [|done]. rewrite !drop_ge by lia. done.
Qed.

Section ops.
Context `{RangeOrder} `{SliceSort} `{RFC3339} `{CursorJSON} `{Ed25519Keys} `{GrantMarshal}.

Lemma later_with_events p next subs n : later p (with_events p next subs n).
Proof. constructor; try done. exists 0%nat, []. by rewrite app_nil_r. Qed.

Lemma appendAudit_later record now p : 0 <= auditNext p -> auditNext p + 1 < 2 ^ 64 -> later p (appendAudit record now p).
Proof.
  intros H0 Hb. unfold appendAudit. destruct (negb _); [apply later_refl|]. cbv zeta. unfold u64. rewrite Z.mod_small by lia.
  match goal with |- context [audit p ++ [?x]] => set (r := x) end.
  constructor; cbn [mg_policy cursorKey auditNext audit with_audit]; [done|done|lia|].
  exists (if managementAuditRetention <? len (audit p ++ [r]) then Z.to_nat (len (audit p ++ [r]) - managementAuditRetention) else 0%nat), [r].
  split; [by destruct (_ <? _)|]. repeat constructor. cbn. lia.
Qed.

(** Every section of the plane makes it later. *)
Lemma plane_step_later n w w' : n + 1 < 2 ^ 64 -> world_ok n w -> plane_step w w' -> later (pw_plane w) (pw_plane w').
Proof.
  intros Hn [_ Ha _ _ _ _] Hs.
  destruct Hs as [eventType ch sd sv job st rs now event ids p w _ E|event id ids before after p|event before after p|record now w|service r w|id w|id w];
    cbn [on_plane pw_plane] in *; try apply later_refl.
  - unfold next_event in E. injection E as _ _ <-. apply later_with_events.
  - unfold send_event. destruct (subscribers p !! id); [destruct (_ && _)|]; try apply later_refl. apply later_with_events.
  - apply appendAudit_later; lia.
  - unfold handleEvents. repeat case_match; try apply later_refl. apply later_with_events.
  - unfold stream_event. repeat case_match; try apply later_refl. apply later_with_events.
  - apply later_with_events.
Qed.

Lemma plane_steps_later k n w w' : Z.of_nat n + k < 2 ^ 64 -> world_ok k w -> nsteps plane_step n w w' -> later (pw_plane w) (pw_plane w').
Proof.
  intros Hb Hw Hs. revert k Hb Hw. induction Hs as [w|n w1 w2 w3 Hs Hr IH]; intros k Hb Hw; [apply later_refl|].
  rewrite Nat2Z.inj_succ in Hb. eapply later_trans; [eapply (plane_step_later k); [lia|done|done]|]. apply (IH (k + 1)); [lia|].
  eapply plane_step_ok; [lia|done|done].
Qed.
End ops.

(** ** Listings *)

Section pages.
Context `{RFC3339} `{CursorJSON} `{!CursorCodec}.
Implicit Types (p : managementPlane) (service : managementService).

(** A record a service may see does not depend on the events or the audit. *)
Lemma canAuditRecordLocked_policy p p' service record : mg_policy p' = mg_policy p ->
  canAuditRecordLocked p' service record = canAuditRecordLocked p service record.
Proof. unfold canAuditRecordLocked, hasChannelACL. by intros ->. Qed.

(** New records are not in a snapshot, and the ones that were dropped are its oldest:
    the listing of a snapshot only loses records at its end. *)
Lemma visible_later p p' service filter snapshot : later p p' -> snapshot <= auditNext p ->
  visible_records p' service filter snapshot `prefix_of` visible_records p service filter snapshot.
Proof.
  intros [Hp _ _ (k & new & Ha & Hnew)] Hs. unfold visible_records. rewrite Ha, drop_app, reverse_app, List.filter_app.
  set (f := fun record => _). set (g := fun record => (ar_sequence record <=? snapshot) && canAuditRecordLocked p service record && _).
  assert (forall l, List.filter f l = List.filter g l) as Hfg.
  { intros l. apply List.filter_ext. intros record. unfold f, g. by rewrite (canAuditRecordLocked_policy p p'). }
  rewrite !Hfg. assert (List.filter g (reverse (drop (k - length (audit p)) new)) = []) as ->.
  { assert (Forall (fun record => g record = false) (reverse (drop (k - length (audit p)) new))) as HF.
    - apply Forall_reverse, Forall_drop. eapply Forall_impl; [exact Hnew|]. intros record Hr. unfold g. by rewrite (proj2 (Z.leb_gt _ _)) by (cbn in Hr; lia).
    - induction HF as [|r l Hr _ IH]; [done|]. cbn. by rewrite Hr. }
  rewrite <- (take_drop k (audit p)) at 2. rewrite reverse_app, List.filter_app. by eexists.
Qed.

Lemma audit_limit_bound r limit : audit_limit r = Some limit -> 1 <= limit <= 1000.
Proof.
  unfold audit_limit. destruct (bytes_eqb _ _); [intros [= <-]; lia|]. destruct (Atoi _) as [parsed|]; [|done].
  destruct (_ || _) eqn:E; [done|]. intros [= <-]. gobool. lia.
Qed.

(** What a page is: the records of the listing from the offset on, with a cursor when
    there are more. *)
Lemma handleAuditRecords_page p service r page next : handleAuditRecords p service r = AuditPage page next ->
  exists filter snapshot offset limit, parseManagementAuditFilter r = Some filter /\
    resume_at p service (filter_key filter) (query_get r "cursor") = inr (snapshot, offset) /\ 1 <= limit <= 1000 /\
    let all := visible_records p service filter snapshot in
    offset <= len all /\ (0 <= offset -> page = take (Z.to_nat limit) (drop (Z.to_nat offset) all)) /\
    match next with
    | None => len all <= offset + limit
    | Some cursor => offset + limit < len all /\
        encodeAuditCursor p {| cu_ServiceID := ms_serviceID service; cu_Filter := filter_key filter; cu_Snapshot := snapshot;
                               cu_Offset := offset + limit |} = Some cursor
    end.
Proof.
  unfold handleAuditRecords. destruct (negb _); [done|]. destruct (_ || _); [done|]. destruct (parseManagementAuditFilter r) as [filter|]; [|done].
  destruct (match af_channelID filter with Some _ => _ | None => _ end); [done|].
  destruct (audit_limit r) as [limit|] eqn:El; [|done]. apply audit_limit_bound in El.
  destruct (resume_at _ _ _ _) as [status|[snapshot offset]] eqn:Er; [done|]. cbv zeta. set (all := visible_records p service filter snapshot).
  destruct (len all <? offset) eqn:Eo; [done|]. apply Z.ltb_ge in Eo. intros E. exists filter, snapshot, offset, limit.
  cbv zeta. change (visible_records p service filter snapshot) with all. clearbody all. split_and!; try done; try lia.
  - intros H0. destruct (len all <? offset + limit) eqn:Ee; gobool.
    + assert (page = take (Z.to_nat (len all - offset)) (drop (Z.to_nat offset) all)) as ->.
      { revert E. rewrite Z.ltb_irrefl. by intros [= <- <-]. }
      unfold len in *. rewrite !take_ge by (rewrite length_drop; lia). done.
    + replace (offset + limit - offset) with limit in E by lia. destruct (_ <? len all); [|by injection E].
      destruct (encodeAuditCursor _ _); [|done]. by injection E.
  - destruct (len all <? offset + limit) eqn:Ee; gobool; [rewrite Z.ltb_irrefl in E; injection E as _ <-; lia|].
    destruct (offset + limit <? len all) eqn:Es; gobool; [|injection E as _ <-; lia].
    destruct (encodeAuditCursor _ _) as [encoded|] eqn:Ec; [|done]. by injection E as _ <-.
Qed.

(** A client that reads the pages of one query, each from a later plane. *)
Inductive paging service filter p : managementPlane -> list managementAuditRecord -> option (list Z) -> Prop :=
| paging_first r page next :
    parseManagementAuditFilter r = Some filter -> query_get r "cursor" = [] -> handleAuditRecords p service r = AuditPage page next ->
    paging service filter p p page next
| paging_next p1 p2 r seen cursor page next :
    paging service filter p p1 seen (Some cursor) -> later p1 p2 -> parseManagementAuditFilter r = Some filter ->
    query_get r "cursor" = cursor -> handleAuditRecords p2 service r = AuditPage page next ->
    paging service filter p p2 (seen ++ page) next.

Lemma page_extends {A} (all0 all seen : list A) limit : 0 <= limit -> seen `prefix_of` all0 -> all `prefix_of` all0 -> len seen <= len all ->
  let page := take (Z.to_nat limit) (drop (Z.to_nat (len seen)) all) in
  seen ++ page `prefix_of` all0 /\ (len all <= len seen + limit -> seen ++ page = all) /\
  (len seen + limit < len all -> len (seen ++ page) = len seen + limit).
Proof.
  intros Hl [rest Hs] Ha Hlen. cbv zeta. assert (take (Z.to_nat (len seen)) all = seen) as E.
  { destruct Ha as [k Ha]. unfold len in *. rewrite Nat2Z.id. rewrite <- (take_app_le _ k) by lia. rewrite <- Ha, Hs. apply take_app_length. }
  assert (seen ++ take (Z.to_nat limit) (drop (Z.to_nat (len seen)) all) = take (Z.to_nat (len seen) + Z.to_nat limit) all) as Et.
  { rewrite <- E at 1. by rewrite take_take_drop. }
  rewrite Et. split_and!.
  - etrans; [|exact Ha]. exists (drop (Z.to_nat (len seen) + Z.to_nat limit) all). by rewrite take_drop.
  - intros Hall. unfold len in *. by rewrite take_ge by lia.
  - intros Hall. unfold len in *. rewrite length_take. lia.
Qed.

Lemma visible_length p service filter snapshot : audit_ok p -> len (visible_records p service filter snapshot) <= managementAuditRetention.
Proof.
  intros (_ & _ & Hl & _). etrans; [|exact Hl]. unfold visible_records, len. rewrite <- (length_reverse (audit p)). apply inj_le, List.filter_length_le.
Qed.

(** Where a reader of pages stands: a prefix of the listing at the start, and a cursor
    for the rest. *)
Definition reading service filter p p1 (seen : list managementAuditRecord) (next : option (list Z)) : Prop :=
  later p p1 /\ seen `prefix_of` visible_records p service filter (auditNext p) /\
  match next with
  | None => visible_records p1 service filter (auditNext p) `prefix_of` seen
  | Some cursor => exists p0, cursorKey p0 = cursorKey p /\ 0 < len seen < len (visible_records p service filter (auditNext p)) /\
      encodeAuditCursor p0 {| cu_ServiceID := ms_serviceID service; cu_Filter := filter_key filter; cu_Snapshot := auditNext p;
                              cu_Offset := len seen |} = Some cursor
  end.

(** A page read at the end of what was seen. *)
Lemma reading_page service filter p p1 r seen page next limit : later p p1 -> 1 <= limit ->
  seen `prefix_of` visible_records p service filter (auditNext p) ->
  len seen <= len (visible_records p1 service filter (auditNext p)) ->
  page = take (Z.to_nat limit) (drop (Z.to_nat (len seen)) (visible_records p1 service filter (auditNext p))) ->
  match next with
  | None => len (visible_records p1 service filter (auditNext p)) <= len seen + limit
  | Some cursor => len seen + limit < len (visible_records p1 service filter (auditNext p)) /\
      encodeAuditCursor p1 {| cu_ServiceID := ms_serviceID service; cu_Filter := filter_key filter; cu_Snapshot := auditNext p;
                              cu_Offset := len seen + limit |} = Some cursor
  end -> parseManagementAuditFilter r = Some filter ->
  reading service filter p p1 (seen ++ page) next.
Proof.
  intros Hl Hlim Hs Hlen -> Hn _. pose proof (visible_later p p1 service filter (auditNext p) Hl ltac:(lia)) as Hv.
  destruct (page_extends _ _ seen limit ltac:(lia) Hs Hv Hlen) as (Hp & Hall & Hmore). split; [done|]. split; [done|].
  destruct next as [cursor|]; [|by rewrite Hall]. destruct Hn as [Hn He]. exists p1. split; [apply Hl|].
  rewrite Hmore by done. split; [|done]. apply prefix_length in Hv. unfold len in *. lia.
Qed.

Lemma paging_reading service filter p p1 seen next : audit_ok p -> auditNext p < 2 ^ 64 ->
  managedServiceIDPattern (ms_serviceID service) = true ->
  paging service filter p p1 seen next -> reading service filter p p1 seen next.
Proof.
  intros Hok Hb Hid. induction 1 as [r page next Hf Hc Hh|p1 p2 r seen cursor page next Hp IH Hl Hf Hc Hh];
    apply handleAuditRecords_page in Hh as (filter' & snapshot & offset & limit & Hf' & Hr & Hlim & Ho & Hpage & Hnext);
    rewrite Hf in Hf'; injection Hf' as <-;
    cbv zeta in *; unfold resume_at in Hr; rewrite Hc in Hr.
  - cbn in Hr. injection Hr as <- <-. change page with ([] ++ page). eapply (reading_page _ _ _ _ r [] page next limit);
      [apply later_refl|lia|by eexists|unfold len in *; cbn; lia|by apply Hpage|exact Hnext|done].
  - destruct IH as (Hl1 & Hs & p0 & Hk & Hn & He). pose proof (later_trans _ _ _ Hl1 Hl) as Hl2.
    pose proof (visible_length p service filter (auditNext p) Hok) as Hvl. unfold managementAuditRetention in Hvl.
    destruct (filter_key_ascii _ _ Hf) as [Hfa Hf0].
    assert (0 < auditNext p) as Hpos.
    { destruct Hok as (_ & _ & _ & Hle). pose proof (List.filter_length_le (fun record => (ar_sequence record <=? auditNext p)
        && canAuditRecordLocked p service record && recordMatchesAuditFilter record filter) (reverse (audit p))) as Hfl.
      rewrite length_reverse in Hfl. unfold visible_records, len in *. lia. }
    apply (decode_encode_cursor p0 p2) in He as [He Hc0]; cbn [cu_ServiceID cu_Filter cu_Snapshot cu_Offset] in *; try done; try lia;
      [|by rewrite Hk, (lt_key _ _ Hl2)|by apply pattern_utf8|by intros E; rewrite E in Hid].
    unfold bytes_eqb in Hr at 1. rewrite bool_decide_eq_false_2, He in Hr by done. cbn [cu_ServiceID cu_Filter cu_Snapshot cu_Offset] in Hr.
    rewrite String.eqb_refl in Hr. unfold bytes_eqb in Hr. rewrite bool_decide_eq_true_2 in Hr by done. cbn [negb orb] in Hr.
    destruct (match audit p2 with first :: _ => _ | [] => _ end); [done|]. injection Hr as <- <-.
    eapply (reading_page _ _ _ _ r seen page next limit); try done; [lia|]. apply Hpage. unfold len. lia.
Qed.

(** C22. A client that reads the audit with one query and follows the cursors, page by
    page and while the plane keeps running, reads a listing without repetition or gap:
    what it has seen is always the newest records, in order, that the service could see
    when it asked for the first page; and when no cursor is left, it has seen all of
    them that are still kept. *)
Theorem audit_pages service filter p p' seen next :
  paging service filter p p' seen next -> audit_ok p -> auditNext p < 2 ^ 64 -> managedServiceIDPattern (ms_serviceID service) = true ->
  seen `prefix_of` visible_records p service filter (auditNext p) /\
  (next = None -> visible_records p' service filter (auditNext p) `prefix_of` seen).
Proof.
  intros Hp Hok Hb Hid. apply paging_reading in Hp as (_ & Hs & Hn); [|done..]. split; [done|]. by intros ->.
Qed.
End pages.

(** ** Concrete pages *)

#[refine] Definition example_cursor_codec : @CursorCodec example_cursor_json := {| cursor_codec := _ |}.
Proof.
  intros c raw E _ _ _ _. cbn in E. case_decide as Hd; [|done]. injection E as <-. rewrite Hd. by repeat constructor.
Defined.

#[local] Existing Instances decimal_times example_cursor_json example_cursor_codec.

(** A plane with two records, their auditor, and its two pages. *)
Definition audit_plane : managementPlane :=
  Eval vm_compute in appendAudit (example_record 1003) (Unix 1700000030) (appendAudit (example_record 1003) (Unix 1700000010) example_plane).
Definition example_auditor : managementService :=
  {| ms_serviceID := "auditor-1"; apiRole := "auditor"; ms_enabled := true; global := ∅ |}.
Definition example_filter : managementAuditFilter :=
  {| af_channelID := None; af_since := None; af_until := None; af_action := []; af_result := [] |}.
Definition page_query (cursor : list Z) : http_request :=
  example_get "/v1/audit-records" [("limit"%string, [49]); ("cursor"%string, cursor)].
Definition page_cursor : list Z := Eval vm_compute in default [] (encodeAuditCursor audit_plane example_cursor).

Lemma audit_plane_ok : audit_ok audit_plane.
Proof.
  split; [reflexivity|]. split; [repeat constructor|]. split; [|]; vm_compute; congruence.
Qed.

Lemma first_page : handleAuditRecords audit_plane example_auditor (page_query []) = AuditPage (drop 1 (audit audit_plane)) (Some page_cursor).
Proof. vm_compute. reflexivity. Qed.
Lemma second_page : handleAuditRecords audit_plane example_auditor (page_query page_cursor) = AuditPage (take 1 (audit audit_plane)) None.
Proof. vm_compute. reflexivity. Qed.

Lemma audit_pages_witness : visible_records audit_plane example_auditor example_filter 2 `prefix_of` reverse (audit audit_plane).
Proof.
  apply (fun H => proj2 (audit_pages example_auditor example_filter audit_plane audit_plane _ None H audit_plane_ok ltac:(reflexivity) eq_refl) eq_refl).
  eapply (paging_next _ _ _ _ _ (page_query page_cursor) [_] page_cursor [_] None (paging_first _ _ _ (page_query []) _ _ eq_refl eq_refl first_page)
    (later_refl _) eq_refl eq_refl second_page).
Defined.
