(* ===== verification/KeyFiles.v ===== *)
(** * The key files of the Relay

    The policies and key files of [control_auth.go], [identity_admission.go] and
    [service_admission.go], loaded at the start. *)

From S2P Require Import Prelude GoTime Text Base64 ControlAuth Identity Service PrivateControl SecretFiles PolicyFiles.

(** ** Policies *)

(** [strings.ToLower(strings.TrimSpace(value))]. *)
Definition normalized (value : list Z) : list Z := ToLower (TrimSpace value).

(** [None] is an error. *)
Definition parseControlAuthPolicy (value : list Z) : option controlAuthPolicy :=
  let value := normalized value in
  if bytes_eqb value [] || bytes_eqb value (str_bytes "off") then Some controlAuthOff
  else if bytes_eqb value (str_bytes "optional") then Some controlAuthOptional
  else if bytes_eqb value (str_bytes "required") then Some controlAuthRequired
  else None.

Definition parseIdentityAdmissionMode (value : list Z) : option identityAdmissionMode :=
  let value := normalized value in
  if bytes_eqb value [] || bytes_eqb value (str_bytes "off") then Some identityAdmissionOff
  else if bytes_eqb value (str_bytes "optional") then Some identityAdmissionOptional
  else if bytes_eqb value (str_bytes "required") then Some identityAdmissionRequired
  else None.

Definition parseServiceAdmissionMode (value : list Z) : option serviceAdmissionMode :=
  let value := normalized value in
  if bytes_eqb value [] || bytes_eqb value (str_bytes "off") then Some serviceAdmissionOff
  else if bytes_eqb value (str_bytes "enabled") then Some serviceAdmissionEnabled
  else None.

(** ** Rows *)

Definition parseUint32 (value : list Z) : option Z := ParseUint (TrimSpace value) 32.

(** The loop over the records of a key file: blank records are skipped, the others have
    [width] fields, and the first may be a header. *)
Fixpoint key_records {S} (width : Z) (header : string) (add : S -> list (list Z) -> option S) (index : Z)
    (records : list (list (list Z))) (keys : S) : option S :=
  match records with
  | [] => Some keys
  | record :: rest =>
      let first := TrimSpace (default [] (head record)) in
      if (len record =? 0) || ((len record =? 1) && bytes_eqb first []) then key_records width header add (index + 1) rest keys
      else if negb (len record =? width) then None
      else if (index =? 0) && EqualFold first (str_bytes header) then key_records width header add (index + 1) rest keys
      else keys ← add keys record; key_records width header add (index + 1) rest keys
  end.

(** [base64.StdEncoding.DecodeString(strings.TrimSpace(text))] of 32 bytes. *)
Definition decode_key (text : list Z) : option (list Z) :=
  key ← StdEncoding_Decode (TrimSpace text);
  if negb (len key =? 32) then None else Some key.

Definition add_control_key (keys : controlKeyStore) (record : list (list Z)) : option controlKeyStore :=
  match record with
  | [channel; keyid; text] =>
      channelID ← parseUint32 channel;
      keyID ← parseUint32 keyid;
      if keyID =? 0 then None
      else
        key ← decode_key text;
        let channelKeys := default ∅ (keys !! channelID) in
        if bool_decide (is_Some (channelKeys !! keyID)) then None
        else Some (<[channelID := <[keyID := key]> channelKeys]> keys)
  | _ => None
  end.

(** A row of the signing keys of tickets or grants. *)
Definition add_signing_key (keys : gmap string (list Z)) (record : list (list Z)) : option (gmap string (list Z)) :=
  match record with
  | [kid; text] =>
      let keyID := TrimSpace kid in
      if bytes_eqb keyID [] || (128 <? len keyID) then None
      else
        decoded ← decode_key text;
        if bool_decide (is_Some (keys !! string_of_bytes keyID)) then None
        else Some (<[string_of_bytes keyID := decoded]> keys)
  | _ => None
  end.

(** ** Files *)

Section files.
Context `{CSV} `{FileSystem}.

Definition loadControlKeyStore (path : string) (secretPermissions : option secretFilePermissionPolicy) : option controlKeyStore :=
  if blank path then Some ∅
  else if negb (validateSecretFilePermissions path secretPermissions) then None
  else
    data ← ReadFile path;
    records ← csv_ReadAll_strict data;
    key_records 3 "channel_id" add_control_key 0 records ∅.

Definition loadCookieSecret (path : string) (secretPermissions : option secretFilePermissionPolicy) : option (list Z) :=
  if blank path then Some []
  else if negb (validateSecretFilePermissions path secretPermissions) then None
  else
    data ← ReadFile path;
    let raw := if len data <? 32 then None else Some data in
    match StdEncoding_Decode (TrimSpace data) with
    | Some decoded => if 32 <=? len decoded then Some decoded else raw
    | None => raw
    end.

Definition loadIdentitySigningKeys (path : string) : option identitySigningKeyStore :=
  if blank path then Some ∅
  else
    data ← ReadFile path;
    records ← csv_ReadAll_strict data;
    key_records 2 "kid" add_signing_key 0 records ∅.

Definition loadServiceSigningKeys (path : string) : option (gmap string (list Z)) :=
  if blank path then Some ∅
  else
    data ← ReadFile path;
    records ← csv_ReadAll_strict data;
    key_records 2 "kid" add_signing_key 0 records ∅.
End files.

(** ** What is loaded *)

Definition control_keys_ok (keys : controlKeyStore) : Prop :=
  forall channelID keyID key, keys !! channelID ≫= (fun ks => ks !! keyID) = Some key ->
    is_u32 channelID /\ is_u32 keyID /\ keyID <> 0 /\ bytes_ok key /\ len key = 32.

Definition signing_keys_ok (keys : gmap string (list Z)) : Prop := map_Forall (fun kid key => kid <> ""%string /\ bytes_ok key /\ len key = 32) keys.

Lemma key_records_ok {S} width header (add : S -> list (list Z) -> option S) (P : S -> Prop) records :
  (forall s record s', add s record = Some s' -> P s -> P s') ->
  forall index s s', key_records width header add index records s = Some s' -> P s -> P s'.
Proof.
  intros Hadd. induction records as [|record records IH]; intros index s s' E Hs; [by injection E as <-|].
  cbn [key_records] in E. destruct (_ || _) in E; [by eapply IH|]. destruct (negb _) in E; [done|]. destruct (_ && _) in E; [by eapply IH|].
  apply bind_Some in E as (s1 & E1 & E). eapply IH; eauto.
Qed.

Lemma decode_key_ok text key : decode_key text = Some key -> bytes_ok key /\ len key = 32.
Proof.
  unfold decode_key. intros (decoded & Hd & E)%bind_Some. destruct (negb _) eqn:El; [done|]. injection E as <-. gobool. split; [|done].
  unfold StdEncoding_Decode in Hd. destruct (negb _); [done|]. apply bind_Some in Hd as (chars & _ & Hd). by eapply decode_quanta_bytes.
Qed.

Lemma parseUint32_bound value v : parseUint32 value = Some v -> is_u32 v.
Proof. unfold parseUint32. intros Hv%ParseUint_bound. exact Hv. Qed.

Lemma add_control_key_ok keys record keys' : add_control_key keys record = Some keys' -> control_keys_ok keys -> control_keys_ok keys'.
Proof.
  unfold add_control_key. intros E Hk. destruct record as [|channel [|keyid [|text [|]]]]; try done.
  apply bind_Some in E as (channelID & Hc & E). apply bind_Some in E as (keyID & Hi & E). destruct (keyID =? 0) eqn:E0; [done|]. gobool.
  apply bind_Some in E as (key & Hkey & E). cbv zeta in E. case_bool_decide; [done|]. injection E as <-.
  apply parseUint32_bound in Hc, Hi. apply decode_key_ok in Hkey as [Hb Hl]. intros c i k. rewrite bind_Some. intros (ks & Hks & Hi').
  apply lookup_insert_Some in Hks as [[<- <-]|[_ Hks]]; [|apply (Hk c i k); by rewrite Hks].
  apply lookup_insert_Some in Hi' as [[<- <-]|[_ Hi']]; [done|]. destruct (keys !! channelID) as [ks'|] eqn:Ek; [|done].
  apply (Hk channelID i k). by rewrite Ek.
Qed.

Lemma add_signing_key_ok keys record keys' : add_signing_key keys record = Some keys' -> signing_keys_ok keys -> signing_keys_ok keys'.
Proof.
  unfold add_signing_key. intros E Hk. destruct record as [|kid [|text [|]]]; try done. cbv zeta in E.
  destruct (_ || _) eqn:Ek; [done|]. apply bind_Some in E as (key & Hkey & E). case_bool_decide; [done|]. injection E as <-.
  apply decode_key_ok in Hkey as [Hb Hl]. apply map_Forall_insert_2; [|done]. split; [|done]. intros E0.
  apply orb_false_iff in Ek as [Ek _]. unfold bytes_eqb in Ek. gobool. apply Ek. destruct (TrimSpace kid); [done|]. discriminate E0.
Qed.

Lemma loaded_control_keys `{CSV} `{FileSystem} path policy keys : loadControlKeyStore path policy = Some keys -> control_keys_ok keys.
Proof.
  unfold loadControlKeyStore. destruct (blank path); [by intros [= <-] c i k|]. destruct (negb _); [done|].
  intros (data & _ & E)%bind_Some. apply bind_Some in E as (records & _ & E).
  eapply (key_records_ok _ _ _ control_keys_ok); [exact add_control_key_ok|exact E|done].
Qed.

Lemma loaded_signing_keys `{CSV} `{FileSystem} path keys : loadIdentitySigningKeys path = Some keys \/ loadServiceSigningKeys path = Some keys -> signing_keys_ok keys.
Proof.
  intros E. assert (loadServiceSigningKeys path = Some keys) as E1 by (by destruct E). clear E; rename E1 into E. unfold loadServiceSigningKeys in E.
  destruct (blank path); [injection E as <-; apply map_Forall_empty|]. apply bind_Some in E as (data & _ & E). apply bind_Some in E as (records & _ & E).
  eapply (key_records_ok _ _ _ signing_keys_ok); [exact add_signing_key_ok|exact E|apply map_Forall_empty].
Qed.

Lemma loaded_cookie_secret `{CSV} `{FileSystem} path policy secret : loadCookieSecret path policy = Some secret -> secret = [] \/ 32 <= len secret.
Proof.
  unfold loadCookieSecret. destruct (blank path); [intros [= <-]; by left|]. destruct (negb _); [done|]. intros (data & _ & E)%bind_Some.
  cbv zeta in E. right. revert E. destruct (StdEncoding_Decode _) as [decoded|]; [destruct (32 <=? len decoded) eqn:Ed|]; gobool; [by intros [= <-]| |];
    (destruct (len data <? 32) eqn:El; [done|]; gobool; by intros [= <-]).
Qed.
