(* ===== verification/LinkStart.v ===== *)
(** * The start of the private control link

    The checks of the paths of the link ([private_control_state_path*.go]), its
    listeners and the authentication of its peers ([private_control.go],
    [private_control_uds_linux.go]), and [startPrivateControlLink].  The operating
    system is the interface [HostPaths], whose state [host] the calls change. *)

From S2P Require Import Prelude GoTime Text Sha256 Base64 Identity Service Server Diagnostics DirectoryWire Directory PrivateControl PrivateState SecretFiles PolicyFiles.

(** ** The operating system *)

Inductive file_kind := RegularFile | DirectoryFile | SymbolicLink | SocketFile | OtherFile.
#[export] Instance file_kind_eq_dec : EqDecision file_kind.
Proof. solve_decision. Defined.

Record lstat_info := { li_kind : file_kind; li_perm : Z; li_uid : Z }.
Inductive lstat_result := Found (info : lstat_info) | NotExist | LstatError.

(** The calls return whether they succeed.  A mode that is set is the mode the path has,
    the owner stays when the group or the mode changes, and a socket is created by the
    user of the process. *)
Class HostPaths (host : Type) := {
  linux : bool;
  Geteuid : Z;
  Clean : string -> string;
  Dir : string -> string;
  Lstat : string -> host -> lstat_result;
  MkdirAll : string -> Z -> host -> bool * host;
  Remove : string -> host -> bool * host;
  ListenUnix : string -> host -> bool * host;
  ListenTCP : string -> host -> bool * host;
  CloseListener : string -> host -> host;
  Chown : string -> Z -> host -> bool * host;
  Chmod : string -> Z -> host -> bool * host;
  ListenUnix_found : forall path h h', ListenUnix path h = (true, h') ->
    exists info, Lstat path h' = Found info /\ li_kind info = SocketFile /\ li_uid info = Geteuid;
  Chown_found : forall path gid h h' info, Chown path gid h = (true, h') -> Lstat path h = Found info -> Lstat path h' = Found info;
  Chmod_found : forall path mode h h' info, Chmod path mode h = (true, h') -> Lstat path h = Found info ->
    Lstat path h' = Found {| li_kind := li_kind info; li_perm := mode; li_uid := li_uid info |}
}.

Record privateControlConfig := {
  pf_transport : string; pf_listenAddress : string; pf_certificateFile : string; pf_privateKeyFile : string;
  pf_clientCAFile : string; pf_servicesCSV : string; pf_udsSocketPath : string; pf_udsSocketGroup : string;
  pf_udsServicesCSV : string; pf_relayID : string; pf_stateFile : string;
  pf_secretPermissions : option secretFilePermissionPolicy
}.

Definition privateControlTransportMTLSTCP : string := "mtls-tcp".
Definition privateControlTransportUDS : string := "uds".

Section host.
Context {host : Type} `{HostPaths host} `{FileSystem} `{TLSFiles} `{CSV}.

(** ** The path of the state file

    [true] is a nil error. *)

Definition requirePrivateControlStateOwner (info : lstat_info) : bool := li_uid info =? Geteuid.

Definition validatePrivateControlStateDirectory (directory : string) (h : host) : bool :=
  match Lstat directory h with
  | Found info =>
      bool_decide (li_kind info = DirectoryFile) && requirePrivateControlStateOwner info
      && (Z.land (li_perm info) 0x1c0 =? 0x1c0) && (Z.land (li_perm info) 0x3f =? 0)
  | _ => false
  end.

(** The permissions [0o700], [0o600] and [0o077] are [0x1c0], [0x180] and [0x3f]. *)
Definition preparePrivateControlStatePath (path : string) (h : host) : bool * host :=
  if windows then (false, h)
  else
    let directory := Dir path in
    let '(ok, h) := MkdirAll directory 0x1c0 h in
    if negb ok then (false, h)
    else if negb (validatePrivateControlStateDirectory directory h) then (false, h)
    else
      (match Lstat path h with
       | NotExist => true
       | LstatError => false
       | Found info =>
           bool_decide (li_kind info = RegularFile) && requirePrivateControlStateOwner info
           && (Z.land (li_perm info) 0x180 =? 0x180) && (Z.land (li_perm info) 0x3f =? 0)
       end, h).

Definition validatePrivateControlStatePath (path : string) (policy : option secretFilePermissionPolicy) (h : host) : bool * host :=
  if blank path || bool_decide (policy = Some secretFilePermissionsOff) then (true, h)
  else
    let policy := default defaultSecretFilePermissionPolicy policy in
    let '(ok, h) := preparePrivateControlStatePath path h in
    (ok || bool_decide (policy = secretFilePermissionsWarn), h).

Definition validatePrivateControlStateDurability : bool := negb windows.

(** ** The Unix socket *)

Definition IsAbs (path : string) : bool := HasPrefix (str_bytes path) [47].

(** What is at the path of the socket before it is created: an own socket is removed. *)
Definition clear_socket (socketPath : string) (h : host) : bool * host :=
  match Lstat socketPath h with
  | Found existing =>
      if negb (bool_decide (li_kind existing = SocketFile)) then (false, h)
      else if negb (li_uid existing =? Geteuid) then (false, h)
      else Remove socketPath h
  | NotExist => (true, h)
  | LstatError => (false, h)
  end.

Definition startPrivateControlUDSListener (config : privateControlConfig) (h : host) : bool * host :=
  if negb linux then (false, h)
  else
    let socketPath := Clean (pf_udsSocketPath config) in
    if negb (IsAbs socketPath) then (false, h)
    else match ParseUint (str_bytes (pf_udsSocketGroup config)) 32 with
    | None => (false, h)
    | Some groupID =>
        if groupID =? 0 then (false, h)
        else match Lstat (Dir socketPath) h with
        | Found parentInfo =>
            if negb (bool_decide (li_kind parentInfo = DirectoryFile)) then (false, h)
            else if negb (Z.land (li_perm parentInfo) 0x12 =? 0) then (false, h)
            else if negb (li_uid parentInfo =? Geteuid) then (false, h)
            else
              let '(ok, h) := clear_socket socketPath h in
              if negb ok then (false, h)
              else
                let '(ok, h) := ListenUnix socketPath h in
                if negb ok then (false, h)
                else
                  let '(ok, h) := Chown socketPath groupID h in
                  if negb ok then (false, CloseListener socketPath h)
                  else
                    let '(ok, h) := Chmod socketPath 0x1b0 h in
                    if negb ok then (false, CloseListener socketPath h) else (true, h)
        | _ => (false, h)
        end
    end.

(** ** The listeners and their peers *)

Definition startPrivateControlMTLSListener (config : privateControlConfig) (h : host) : bool * host :=
  if negb (validateSecretFilePermissions (pf_privateKeyFile config) (pf_secretPermissions config)) then (false, h)
  else if negb (LoadX509KeyPair (pf_certificateFile config) (pf_privateKeyFile config)) then (false, h)
  else match ReadFile (pf_clientCAFile config) with
  | None => (false, h)
  | Some caData => if negb (AppendCertsFromPEM caData) then (false, h) else ListenTCP (pf_listenAddress config) h
  end.

Definition startListener (config : privateControlConfig) (h : host) : bool * host :=
  if String.eqb (pf_transport config) privateControlTransportMTLSTCP then startPrivateControlMTLSListener config h
  else if String.eqb (pf_transport config) privateControlTransportUDS then startPrivateControlUDSListener config h
  else (false, h).

(** The peer of a connection after the TLS handshake: its client certificate; or of a
    Unix socket: its credentials. *)
Definition authenticatePrivateControlMTLSConnection (certificate : option (list Z)) (policy : privateControlPolicy) : option string :=
  raw ← certificate;
  byCertificate policy !! hex_EncodeToString (sha256 raw).
Definition authenticatePrivateControlUDSConnection (uid : option Z) (policy : privateControlPolicy) : option string :=
  uid ← uid;
  byUID policy !! uid.

(** ** The start *)

Definition configurePrivateControl (s : server) : server :=
  {| channels := channels s; noCrypto := noCrypto s; sizes := sizes s; talkMax := talkMax s;
     multiTalk := multiTalk s; maxActiveTalkers := maxActiveTalkers s; controlAuth := controlAuth s;
     identityAdmissions := identityAdmissions s; serviceAdmissions := serviceAdmissions s;
     mediaDirectory := mediaDirectory s; has_management := has_management s; has_privateControl := true;
     diagnostics := diagnostics s; floorInterrupt := floorInterrupt s; membershipLease := membershipLease s;
     keepaliveInterval := keepaliveInterval s; outboundSeq := outboundSeq s |}.

(** The policy of the configured transport. *)
Definition transport_policy (config : privateControlConfig) : option privateControlPolicy :=
  if String.eqb (pf_transport config) privateControlTransportMTLSTCP then
    if blank (pf_listenAddress config) || blank (pf_certificateFile config) || blank (pf_privateKeyFile config)
       || blank (pf_clientCAFile config) || blank (pf_servicesCSV config) then None
    else loadPrivateControlPolicy (pf_servicesCSV config)
  else if String.eqb (pf_transport config) privateControlTransportUDS then
    if blank (pf_udsSocketPath config) || blank (pf_udsSocketGroup config) || blank (pf_udsServicesCSV config) then None
    else loadPrivateControlUDSPolicy (pf_udsServicesCSV config)
  else None.

(** [file] is the content of the state file in a state of the system, [None] when it does
    not exist. *)
Definition startPrivateControlLink `{PrivateStateJSON} (config : privateControlConfig) (file : host -> option (list Z)) (now : time)
    (s : server) (h : host) : option (server * privateControlLink) * host :=
  if blank (pf_relayID config) then (None, h)
  else
    let revocationEnabled := bool_decide (is_Some (serviceAdmissions s)) in
    if revocationEnabled && blank (pf_stateFile config) then (None, h)
    else if revocationEnabled && negb validatePrivateControlStateDurability then (None, h)
    else match transport_policy config with
    | None => (None, h)
    | Some policy =>
        let '(ok, h) := if negb (blank (pf_stateFile config)) then validatePrivateControlStatePath (pf_stateFile config) (pf_secretPermissions config) h
                        else (true, h) in
        if negb ok then (None, h)
        else match newPrivateControlLink (str_bytes (pf_relayID config)) policy with
        | None => (None, h)
        | Some link =>
            match (if negb (blank (pf_stateFile config)) then restorePersistentState (file h) now (serviceAdmissions s) link
                   else Some (serviceAdmissions s, link)) with
            | None => (None, h)
            | Some (sa, link) =>
                let '(ok, h) := startListener config h in
                if negb ok then (None, h) else (Some (configurePrivateControl (with_service s sa), link), h)
            end
        end
    end.
End host.

(** ** What a start ensures *)

Section ensured.
Context {host : Type} `{HostPaths host} `{FileSystem} `{TLSFiles} `{CSV} `{PrivateStateJSON}.

(** All bits of a mask are set, or none. *)
Lemma mask_none perm k : 0 <= k -> Z.land perm (Z.ones k) = 0 -> forall i, 0 <= i < k -> Z.testbit perm i = false.
Proof.
  intros Hk E i Hi. apply (f_equal (fun x => Z.testbit x i)) in E. rewrite Z.land_spec, Z.bits_0, Z.ones_spec_low in E by lia.
  by rewrite andb_true_r in E.
Qed.

Lemma mask_bit perm mask i : Z.land perm mask = mask -> Z.testbit mask i = true -> Z.testbit perm i = true.
Proof. intros E Hm. rewrite <- E, Z.land_spec in Hm. by apply andb_true_iff in Hm as [? _]. Qed.

(** A path of the Relay user that nobody else can use. *)
Definition private_path (info : lstat_info) : Prop :=
  li_uid info = Geteuid /\ Z.testbit (li_perm info) 8 = true /\ Z.testbit (li_perm info) 7 = true /\
  forall i, 0 <= i < 6 -> Z.testbit (li_perm info) i = false.

Lemma private_intro info mask : requirePrivateControlStateOwner info = true -> (Z.land (li_perm info) mask =? mask) = true ->
  Z.testbit mask 8 = true -> Z.testbit mask 7 = true -> (Z.land (li_perm info) 0x3f =? 0) = true -> private_path info.
Proof.
  intros Ho%Z.eqb_eq Hm%Z.eqb_eq H8 H7 Hg%Z.eqb_eq. split; [done|]. split; [by eapply mask_bit|]. split; [by eapply mask_bit|].
  by apply (mask_none _ 6).
Qed.

(** The state file and its directory are private to the Relay user. *)
Definition state_path_private (path : string) (h : host) : Prop :=
  (exists info, Lstat (Dir path) h = Found info /\ li_kind info = DirectoryFile /\ private_path info) /\
  (Lstat path h = NotExist \/ exists info, Lstat path h = Found info /\ li_kind info = RegularFile /\ private_path info).

Lemma validated_state_path path policy h h' : blank path = false -> windows = false ->
  policy = None \/ policy = Some secretFilePermissionsRequired ->
  validatePrivateControlStatePath path policy h = (true, h') -> state_path_private path h'.
Proof.
  intros Hb Hw Hp. unfold validatePrivateControlStatePath, preparePrivateControlStatePath, defaultSecretFilePermissionPolicy. rewrite Hb, Hw.
  rewrite bool_decide_eq_false_2 by (destruct Hp as [-> | ->]; congruence). cbn [orb]. destruct (MkdirAll _ _ h) as [ok h1].
  rewrite (bool_decide_eq_false_2 (default _ policy = _)) by (destruct Hp as [-> | ->]; cbn; congruence).
  destruct ok; cbn [negb]; [|done]. destruct (validatePrivateControlStateDirectory (Dir path) h1) eqn:Ed; cbn [negb]; [|done].
  intros E. rewrite orb_false_r in E. injection E as E <-. split.
  - unfold validatePrivateControlStateDirectory in Ed. destruct (Lstat (Dir path) h1) as [info| |]; [|done..]. gobool.
    exists info. split; [done|]. split; [done|]. apply (private_intro _ 0x1c0); try done; by apply Z.eqb_eq.
  - destruct (Lstat path h1) as [info| |]; [|by left|done]. right. gobool. exists info. split; [done|]. split; [done|].
    apply (private_intro _ 0x180); try done; by apply Z.eqb_eq.
Qed.

(** The directory of the socket is the Relay user's and only that user writes to it;
    what was at the path was nothing or a socket of that user. *)
Definition socket_place (socketPath : string) (h : host) : Prop :=
  (exists parent, Lstat (Dir socketPath) h = Found parent /\ li_kind parent = DirectoryFile /\ li_uid parent = Geteuid /\
     Z.testbit (li_perm parent) 1 = false /\ Z.testbit (li_perm parent) 4 = false) /\
  (Lstat socketPath h = NotExist \/ exists old, Lstat socketPath h = Found old /\ li_kind old = SocketFile /\ li_uid old = Geteuid).

Lemma uds_listener config h h' : startPrivateControlUDSListener config h = (true, h') ->
  let socketPath := Clean (pf_udsSocketPath config) in
  socket_place socketPath h /\ Lstat socketPath h' = Found {| li_kind := SocketFile; li_perm := 0x1b0; li_uid := Geteuid |}.
Proof.
  unfold startPrivateControlUDSListener. cbv zeta. destruct (negb linux); [done|]. set (path := Clean (pf_udsSocketPath config)).
  destruct (negb (IsAbs path)); [done|]. destruct (ParseUint _ 32) as [gid|]; [|done]. destruct (gid =? 0); [done|].
  destruct (Lstat (Dir path) h) as [parent| |] eqn:Ep; [|done..]. destruct (negb (bool_decide _)) eqn:E1; [done|].
  destruct (negb (Z.land _ _ =? 0)) eqn:E2; [done|]. destruct (negb (_ =? Geteuid)) eqn:E3; [done|]. gobool.
  destruct (clear_socket path h) as [ok h1] eqn:Ec. destruct ok; cbn [negb]; [|done].
  destruct (ListenUnix path h1) as [ok h2] eqn:El. destruct ok; cbn [negb]; [|done].
  destruct (Chown path gid h2) as [ok h3] eqn:Eo. destruct ok; cbn [negb]; [|done].
  destruct (Chmod path 0x1b0 h3) as [ok h4] eqn:Em. destruct ok; cbn [negb]; [|done]. intros E. injection E as <-. split.
  - split.
    + exists parent. split_and!; try done.
      * apply (f_equal (fun x => Z.testbit x 1)) in E2. by rewrite Z.land_spec, (andb_true_r : forall b, b && Z.testbit 0x12 1 = b) in E2.
      * apply (f_equal (fun x => Z.testbit x 4)) in E2. by rewrite Z.land_spec, (andb_true_r : forall b, b && Z.testbit 0x12 4 = b) in E2.
    + unfold clear_socket in Ec. destruct (Lstat path h) as [old| |] eqn:Eold; [|by left|done]. right. exists old. split; [done|].
      destruct (negb (bool_decide _)) eqn:E4; [done|]. destruct (negb (_ =? Geteuid)) eqn:E5; [done|]. by gobool.
  - apply ListenUnix_found in El as (info & Hi & Hk & Hu). eapply Chown_found in Eo; [|exact Hi]. eapply Chmod_found in Em; [|exact Eo].
    by rewrite Em, Hk, Hu.
Qed.

(** The services of a policy: valid identifiers, each under one key. *)
Definition link_policy_ok (policy : privateControlPolicy) : Prop :=
  map_Forall (fun _ id => managedServiceIDPattern id = true) (byCertificate policy) /\
  map_Forall (fun _ id => managedServiceIDPattern id = true) (byUID policy) /\
  (forall c c' id, byCertificate policy !! c = Some id -> byCertificate policy !! c' = Some id -> c = c') /\
  (forall u u' id, byUID policy !! u = Some id -> byUID policy !! u' = Some id -> u = u') /\ byUID policy !! 0 = None /\
  (byCertificate policy <> ∅ \/ byUID policy <> ∅).

(** What the loop over the rows keeps. *)
Definition loading_ok {K} `{Countable K} (good : K -> Prop) (st : loading K) : Prop :=
  map_Forall (fun k id => managedServiceIDPattern id = true /\ good k /\ id ∈ st.1.2) st.1.1 /\
  (forall k k' id, st.1.1 !! k = Some id -> st.1.1 !! k' = Some id -> k = k').

Lemma add_control_service_ok {K} `{Countable K} (good : K -> Prop) parse st row st' :
  (forall text k, parse text = Some k -> good k) -> add_control_service parse st row = Some st' -> loading_ok good st -> loading_ok good st'.
Proof.
  intros Hgood. unfold add_control_service. destruct st as [[policy seen] keys]. intros E [Hv Hu]. cbn [fst snd] in *.
  destruct row as [|id [|text [|on [|]]]]; try done. cbv zeta in E. destruct (negb _) eqn:Ep; [done|].
  apply bind_Some in E as (key & Hk & E). apply bind_Some in E as (enabled & _ & E). destruct (_ || _) eqn:En; [done|].
  injection E as <-. gobool. set (serviceID := string_of_bytes id) in *.
  assert (map_Forall (fun k i => managedServiceIDPattern i = true /\ good k /\ i ∈ {[serviceID]} ∪ seen) policy) as Hv'.
  { intros k i Hi. destruct (Hv k i Hi) as (? & ? & ?). set_solver. }
  destruct enabled; split; cbn [fst snd]; try done.
  - apply map_Forall_insert_2; [|done]. split; [done|]. split; [by eapply Hgood|set_solver].
  - intros k k' i. rewrite !lookup_insert_Some. intros [[<- <-]|[_ H1']] [[<- Hi]|[_ H2']]; [done| | |by eapply Hu].
    + by destruct (Hv _ _ H2') as (_ & _ & ?).
    + subst i. by destruct (Hv _ _ H1') as (_ & _ & ?).
Qed.

Lemma transport_policy_ok config policy : transport_policy config = Some policy -> link_policy_ok policy.
Proof.
  unfold transport_policy. destruct (String.eqb _ _); [|destruct (String.eqb _ _); [|done]]; (destruct (_ || _); [done|]);
    unfold loadPrivateControlPolicy, loadPrivateControlUDSPolicy; (destruct (blank _); [done|]);
    intros (rows & _ & E)%bind_Some; apply bind_Some in E as ([[loaded seen] keys] & El & E); case_bool_decide as Hne; try done; injection E as <-.
  - apply (load_rows_ok _ (loading_ok (fun _ => True))) in El as [Hv Hu].
    + split_and!; cbn; try done; [by intros k i (? & _)%Hv|by left].
    + intros s row s' Ea. by eapply add_control_service_ok.
    + split; [apply map_Forall_empty|done].
  - apply (load_rows_ok _ (loading_ok (fun u => u <> 0))) in El as [Hv Hu].
    + split_and!; cbn; try done; [by intros k i (? & _)%Hv| |by right].
      destruct (loaded !! 0) as [i|] eqn:E0; [|done]. by destruct (Hv 0 i E0) as (_ & ? & _).
    + intros s row s' Ea. eapply add_control_service_ok; [|exact Ea]. intros text k Ek. unfold parse_uid in Ek.
      apply bind_Some in Ek as (uid & _ & Ek). destruct (uid =? 0) eqn:E0; [done|]. injection Ek as <-. by gobool.
    + split; [apply map_Forall_empty|done].
Qed.

(** A start that succeeds went through all its steps. *)
Lemma start_link_inv config file now s h s' link h' :
  startPrivateControlLink config file now s h = (Some (s', link), h') -> exists h1 link0,
  (is_Some (serviceAdmissions s) -> blank (pf_stateFile config) = false /\ validatePrivateControlStateDurability = true) /\
  transport_policy config = Some (pl_policy link) /\
  (if negb (blank (pf_stateFile config)) then validatePrivateControlStatePath (pf_stateFile config) (pf_secretPermissions config) h else (true, h)) = (true, h1) /\
  newPrivateControlLink (str_bytes (pf_relayID config)) (pl_policy link) = Some link0 /\
  (if negb (blank (pf_stateFile config)) then restorePersistentState (file h1) now (serviceAdmissions s) link0 else Some (serviceAdmissions s, link0))
    = Some (serviceAdmissions s', link) /\
  startListener config h1 = (true, h') /\ s' = configurePrivateControl (with_service s (serviceAdmissions s')).
Proof.
  unfold startPrivateControlLink. destruct (blank (pf_relayID config)); [done|]. cbv zeta.
  destruct (_ && blank (pf_stateFile config)) eqn:E1; [done|]. destruct (_ && negb validatePrivateControlStateDurability) eqn:E2; [done|].
  destruct (transport_policy config) as [policy|] eqn:Ep; [|done].
  destruct (if negb (blank _) then validatePrivateControlStatePath _ _ h else _) as [ok h1] eqn:Ev. destruct ok; cbn [negb]; [|done].
  destruct (newPrivateControlLink _ policy) as [link0|] eqn:En; [|done].
  destruct (if negb (blank _) then restorePersistentState _ _ _ _ else _) as [[sa link1]|] eqn:Er; [|done].
  destruct (startListener config h1) as [ok h2] eqn:El. destruct ok; cbn [negb]; [|done]. intros E. injection E as <- <- <-.
  assert (pl_policy link0 = policy) as Hp by (unfold newPrivateControlLink in En; destruct (_ || _); [done|]; by injection En as <-).
  assert (pl_policy link1 = policy) as ->.
  { destruct (negb _) in Er; [|by injection Er as _ <-]. unfold restorePersistentState in Er. apply bind_Some in Er as (state & _ & Er).
    destruct (_ && _) in Er; [done|]. apply bind_Some in Er as (sa1 & _ & Er). apply bind_Some in Er as (idem & _ & Er). by injection Er as _ <-. }
  exists h1, link0. split_and!; try done. intros Hsa. rewrite bool_decide_eq_true_2 in E1, E2 by done. split; [done|].
  by destruct validatePrivateControlStateDurability.
Qed.

(** The system after the check of the state path: the file is read in this state, and the
    listener opened from it. *)
Definition checked (config : privateControlConfig) (h : host) : host :=
  if blank (pf_stateFile config) then h else (validatePrivateControlStatePath (pf_stateFile config) (pf_secretPermissions config) h).2.

(** C16. A private control link that starts knows only services with a valid identifier
    and a key of their own.  On a Unix socket, when the listener was opened the socket's
    directory was the Relay user's and only that user wrote to it, and at its path was
    nothing or a socket of that user; after the start the socket is the user's with mode
    0660.  With service admission there is a state file, and the system is not Windows.
    With a state file, the rules and acknowledgements are those of the file read after the
    check of its path; under the default or the required permission policy, on a system
    other than Windows, the file and its directory were private to the Relay user then,
    while the policies off and warn start the link on any path. *)
Theorem private_link_start config file now s h s' link h' :
  startPrivateControlLink config file now s h = (Some (s', link), h') ->
  link_policy_ok (pl_policy link) /\ has_privateControl s' = true /\
  (pf_transport config = privateControlTransportUDS ->
     let socketPath := Clean (pf_udsSocketPath config) in
     socket_place socketPath (checked config h) /\ Lstat socketPath h' = Found {| li_kind := SocketFile; li_perm := 0x1b0; li_uid := Geteuid |}) /\
  (is_Some (serviceAdmissions s) -> blank (pf_stateFile config) = false /\ windows = false) /\
  (blank (pf_stateFile config) = false ->
     (windows = false -> pf_secretPermissions config = None \/ pf_secretPermissions config = Some secretFilePermissionsRequired ->
        state_path_private (pf_stateFile config) (checked config h)) /\
     exists link0, newPrivateControlLink (str_bytes (pf_relayID config)) (pl_policy link) = Some link0 /\
       restorePersistentState (file (checked config h)) now (serviceAdmissions s) link0 = Some (serviceAdmissions s', link)).
Proof.
  intros (h1 & link0 & Hd & Hp & Ev & En & Er & El & ->)%start_link_inv.
  assert (checked config h = h1) as Eh by (unfold checked; destruct (blank _); cbn [negb] in Ev; [by injection Ev|by rewrite Ev]).
  rewrite Eh. split_and!; [by eapply transport_policy_ok|done| | |].
  - intros Ht. unfold startListener in El. rewrite Ht in El. cbn in El. apply uds_listener in El as [Hpl Hs]. cbv zeta in *. by split.
  - intros [Hb Hw]%Hd. split; [done|]. unfold validatePrivateControlStateDurability in Hw. by destruct windows.
  - intros Hb. rewrite Hb in Ev, Er. cbn [negb] in Ev, Er. split.
    + intros Hw Hpol. by eapply validated_state_path.
    + exists link0. by split.
Qed.
End ensured.

(** ** A concrete host *)

(** The permissions of the socket, when it exists; the other paths are directories of
    the user 1000. *)
#[refine] Definition example_host : HostPaths (option Z) :=
  {| linux := true; Geteuid := 1000; Clean := fun path => path;
     Dir := fun path => "/run/incomudon"%string;
     Lstat := fun path h =>
       if String.eqb path "/run/incomudon/pcl.sock" then
         match h with Some perm => Found {| li_kind := SocketFile; li_perm := perm; li_uid := 1000 |} | None => NotExist end
       else if String.eqb path "/run/incomudon" then Found {| li_kind := DirectoryFile; li_perm := 0x1c0; li_uid := 1000 |}
       else NotExist;
     MkdirAll := fun _ _ h => (true, h); Remove := fun _ _ => (true, None);
     ListenUnix := fun path h => if String.eqb path "/run/incomudon/pcl.sock" then (true, Some 0x1ff) else (false, h);
     ListenTCP := fun _ h => (true, h); CloseListener := fun _ _ => None;
     Chown := fun _ _ h => (true, h);
     Chmod := fun path mode h => if String.eqb path "/run/incomudon/pcl.sock" then (true, Some mode) else (false, h) |}.
Proof.
  - intros path h h' E. destruct (String.eqb path "/run/incomudon/pcl.sock"); [|done]. injection E as <-. by eexists.
  - intros path gid h h' info E Hl. by injection E as <-.
  - intros path mode h h' info E Hl. destruct (String.eqb path "/run/incomudon/pcl.sock"); [|done]. injection E as <-.
    destruct h; [|done]. by injection Hl as <-.
Defined.

Definition link_services_file : list Z :=
  join_byte 10 [str_bytes "management_service_id,uid,enabled"; str_bytes "controller,1001,true"].
Definition link_files : FileSystem :=
  {| windows := false; Stat := fun _ => None;
     ReadFile := fun path => if String.eqb path "services" then Some link_services_file else None |}.
Definition no_tls : TLSFiles := {| LoadX509KeyPair := fun _ _ => false; AppendCertsFromPEM := fun _ => false |}.

Definition link_config : privateControlConfig :=
  {| pf_transport := "uds"; pf_listenAddress := ""; pf_certificateFile := ""; pf_privateKeyFile := ""; pf_clientCAFile := "";
     pf_servicesCSV := ""; pf_udsSocketPath := "/run/incomudon/pcl.sock"; pf_udsSocketGroup := "1000";
     pf_udsServicesCSV := "services"; pf_relayID := "relay-1"; pf_stateFile := "/run/incomudon/state.json"; pf_secretPermissions := None |}.

#[local] Existing Instances example_host link_files no_tls plain_csv number_json.

Lemma private_link_start_witness :
  (startPrivateControlLink link_config (fun _ => None) toy_now (with_service (newServer true 0 false 4 toy_now {| counterEpoch := "e"; floorInterruptCounters := zero_counters |}) (Some toy_service)) None).2 = Some 0x1b0 /\
  @state_path_private _ example_host "/run/incomudon/state.json" None.
Proof.
  set (s := with_service (newServer true 0 false 4 toy_now {| counterEpoch := "e"; floorInterruptCounters := zero_counters |}) (Some toy_service)).
  split; [vm_compute; reflexivity|].
  destruct (startPrivateControlLink link_config (fun _ => None) toy_now s None) as [[[s' link]|] h'] eqn:E.
  - destruct (private_link_start link_config (fun _ => None) toy_now s None s' link h' E) as (_ & _ & _ & _ & Hst).
    exact (proj1 (Hst eq_refl) eq_refl (or_introl eq_refl)).
  - exfalso. apply (f_equal (fun x => bool_decide (is_Some x.1))) in E. vm_compute in E. discriminate E.
Defined.
