(* ===== verification/Start.v ===== *)
(** * The start of the Relay

    [main] of [main.go]: the defaults of the flags, the checks of the configuration and
    the wiring of the server, the Directory, the management API and the private control
    link.  What [flag.Parse] makes of the defaults is an argument, a call of [log.Fatal]
    is [None], and the goroutines that start here are the transitions of the other
    files. *)

From S2P Require Import Prelude GoTime GoNet Text Sha256 Base64 Packet ControlAuth Identity Service Diagnostics Server Send Steps RelaySpec DirectoryWire Directory DirectoryConfig PrivateControl PrivateState SecretFiles PolicyFiles Management ManagementSpec ManagementGrants ManagementAnswers KeyFiles LinkStart.

(** ** Flags *)

Record management_flags := {
  fm_listen : string; fm_certificateFile : string; fm_privateKeyFile : string; fm_clientCAFile : string; fm_servicesCSV : string;
  fm_channelACLCSV : string; fm_globalPermissionsCSV : string; fm_signingKeyFile : string; fm_eventDelivery : string
}.

Record link_flags := {
  fc_transport : string; fc_listen : string; fc_certificateFile : string; fc_privateKeyFile : string; fc_clientCAFile : string;
  fc_servicesCSV : string; fc_udsSocketPath : string; fc_udsSocketGroup : string; fc_udsServicesCSV : string;
  fc_relayID : string; fc_stateFile : string
}.

Record relay_flags := {
  fl_port : Z; fl_membershipLeaseSec : Z; fl_keepaliveIntervalSec : Z; fl_talkMaxSec : Z; fl_multiTalk : bool;
  fl_maxActiveTalkers : Z; fl_directoryEnabled : bool; fl_directoryTransport : string; fl_directoryKeyFile : string;
  fl_directoryChannelsCSV : string; fl_directorySpeakersCSV : string; fl_directoryDedicatedListen : string;
  fl_directoryPublishInterval : duration; fl_directoryFreshnessTTL : duration; fl_controlAuthPolicy : string;
  fl_controlKeyFile : string; fl_controlCookieSecretFile : string; fl_secretFilePermissions : string;
  fl_identityAdmissionMode : string; fl_identityIssuer : string; fl_identityAudience : string;
  fl_identitySigningKeyFile : string; fl_serviceAdmissionMode : string; fl_serviceAdmissionIssuer : string;
  fl_serviceAdmissionAudience : string; fl_serviceAdmissionSigningKeyFile : string; fl_managementEnabled : bool;
  fl_management : management_flags; fl_privateControlEnabled : bool; fl_privateControl : link_flags; fl_floorInterrupt : bool; fl_noCrypto : bool
}.

(** [strconv.ParseBool], and [time.ParseDuration] of the library. *)
Definition ParseBool (value : list Z) : option bool :=
  if existsb (fun s => bytes_eqb value (str_bytes s)) ["1"; "t"; "T"; "TRUE"; "true"; "True"]%string then Some true
  else if existsb (fun s => bytes_eqb value (str_bytes s)) ["0"; "f"; "F"; "FALSE"; "false"; "False"]%string then Some false
  else None.
Class Durations := { ParseDuration : list Z -> option duration }.

(** A default from an environment variable: [dflt] when it is not set or not valid. *)
Definition env_default {A} (raw : string) (parse : list Z -> option A) (dflt : A) : A :=
  if bytes_eqb (str_bytes raw) [] then dflt else default dflt (parse (str_bytes raw)).
Definition env_string (raw dflt : string) : string := if String.eqb raw "" then dflt else raw.

(** A number in a range. *)
Definition atoi_in (lo hi : Z) (value : list Z) : option Z :=
  parsed ← Atoi value;
  if (lo <=? parsed) && (parsed <=? hi) then Some parsed else None.

(** The flags before [flag.Parse], from the environment. *)
Definition flag_defaults `{Durations} (Getenv : string -> string) : relay_flags :=
  let bool_flag name := env_default (Getenv name) ParseBool false in
  {| fl_port := 50000;
     fl_membershipLeaseSec := env_default (Getenv "INCOMUDON_MEMBERSHIP_LEASE_SEC") Atoi (Z.quot defaultMembershipLease Second);
     fl_keepaliveIntervalSec := env_default (Getenv "INCOMUDON_KEEPALIVE_INTERVAL_SEC") Atoi (Z.quot defaultKeepaliveInterval Second);
     fl_talkMaxSec := env_default (Getenv "INCOMUDON_TALK_MAX_SEC") (atoi_in 0 (2 ^ 63 - 1)) 0;
     fl_multiTalk := bool_flag "INCOMUDON_MULTI_TALK"%string;
     fl_maxActiveTalkers := env_default (Getenv "INCOMUDON_MAX_ACTIVE_TALKERS") (atoi_in 1 maxActiveTalkersV1) 2;
     fl_directoryEnabled := bool_flag "INCOMUDON_DIRECTORY_ENABLED"%string;
     fl_directoryTransport := Getenv "INCOMUDON_DIRECTORY_TRANSPORT";
     fl_directoryKeyFile := Getenv "INCOMUDON_DIRECTORY_KEY_FILE";
     fl_directoryChannelsCSV := Getenv "INCOMUDON_DIRECTORY_CHANNELS_CSV";
     fl_directorySpeakersCSV := Getenv "INCOMUDON_DIRECTORY_SPEAKERS_CSV";
     fl_directoryDedicatedListen := Getenv "INCOMUDON_DIRECTORY_DEDICATED_LISTEN";
     fl_directoryPublishInterval := env_default (Getenv "INCOMUDON_DIRECTORY_PUBLISH_INTERVAL") ParseDuration (30 * Second);
     fl_directoryFreshnessTTL := env_default (Getenv "INCOMUDON_DIRECTORY_FRESHNESS_TTL") ParseDuration (90 * Second);
     fl_controlAuthPolicy := env_string (Getenv "INCOMUDON_CONTROL_AUTH_POLICY") "off";
     fl_controlKeyFile := Getenv "INCOMUDON_CONTROL_KEY_FILE";
     fl_controlCookieSecretFile := Getenv "INCOMUDON_CONTROL_COOKIE_SECRET_FILE";
     fl_secretFilePermissions := Getenv "INCOMUDON_SECRET_FILE_PERMISSIONS";
     fl_identityAdmissionMode := env_string (Getenv "INCOMUDON_IDENTITY_ADMISSION_MODE") "off";
     fl_identityIssuer := Getenv "INCOMUDON_IDENTITY_ISSUER";
     fl_identityAudience := Getenv "INCOMUDON_IDENTITY_AUDIENCE";
     fl_identitySigningKeyFile := Getenv "INCOMUDON_IDENTITY_SIGNING_KEY_FILE";
     fl_serviceAdmissionMode := env_string (Getenv "INCOMUDON_SERVICE_ADMISSION_MODE") "off";
     fl_serviceAdmissionIssuer := Getenv "INCOMUDON_SERVICE_ADMISSION_ISSUER";
     fl_serviceAdmissionAudience := Getenv "INCOMUDON_SERVICE_ADMISSION_AUDIENCE";
     fl_serviceAdmissionSigningKeyFile := Getenv "INCOMUDON_SERVICE_ADMISSION_SIGNING_KEY_FILE";
     fl_managementEnabled := bool_flag "INCOMUDON_MANAGEMENT_ENABLED"%string;
     fl_management :=
       {| fm_listen := Getenv "INCOMUDON_MANAGEMENT_LISTEN"; fm_certificateFile := Getenv "INCOMUDON_MANAGEMENT_CERT_FILE";
          fm_privateKeyFile := Getenv "INCOMUDON_MANAGEMENT_KEY_FILE"; fm_clientCAFile := Getenv "INCOMUDON_MANAGEMENT_CLIENT_CA_FILE";
          fm_servicesCSV := Getenv "INCOMUDON_MANAGEMENT_SERVICES_CSV"; fm_channelACLCSV := Getenv "INCOMUDON_MANAGEMENT_CHANNEL_ACL_CSV";
          fm_globalPermissionsCSV := Getenv "INCOMUDON_MANAGEMENT_GLOBAL_PERMISSIONS_CSV";
          fm_signingKeyFile := Getenv "INCOMUDON_MANAGEMENT_SIGNING_KEY_FILE";
          fm_eventDelivery := env_string (Getenv "INCOMUDON_MANAGEMENT_EVENT_DELIVERY") "live" |};
     fl_privateControlEnabled := bool_flag "INCOMUDON_PRIVATE_CONTROL_ENABLED"%string;
     fl_privateControl :=
       {| fc_transport := Getenv "INCOMUDON_PRIVATE_CONTROL_TRANSPORT"; fc_listen := Getenv "INCOMUDON_PRIVATE_CONTROL_LISTEN";
          fc_certificateFile := Getenv "INCOMUDON_PRIVATE_CONTROL_CERT_FILE"; fc_privateKeyFile := Getenv "INCOMUDON_PRIVATE_CONTROL_KEY_FILE";
          fc_clientCAFile := Getenv "INCOMUDON_PRIVATE_CONTROL_CLIENT_CA_FILE"; fc_servicesCSV := Getenv "INCOMUDON_PRIVATE_CONTROL_SERVICES_CSV";
          fc_udsSocketPath := Getenv "INCOMUDON_PRIVATE_CONTROL_UDS_SOCKET_PATH"; fc_udsSocketGroup := Getenv "INCOMUDON_PRIVATE_CONTROL_UDS_SOCKET_GROUP";
          fc_udsServicesCSV := Getenv "INCOMUDON_PRIVATE_CONTROL_UDS_SERVICES_CSV"; fc_relayID := Getenv "INCOMUDON_PRIVATE_CONTROL_RELAY_ID";
          fc_stateFile := Getenv "INCOMUDON_PRIVATE_CONTROL_STATE_FILE" |};
     fl_floorInterrupt := bool_flag "INCOMUDON_FLOOR_INTERRUPT_ENABLED"%string; fl_noCrypto := false |}.

(** ** The configuration *)

Section main.
Context `{CSV} `{FileSystem} `{TLSFiles} `{Entropy} `{Ed25519Keys} `{RangeOrder} `{PrivateStateJSON} {host : Type} `{HostPaths host}.

(** A sum as an option: the errors of the constructors are fatal. *)
Definition ok_of {E A} (x : E + A) : option A := match x with inr a => Some a | inl _ => None end.

(** What the flags say before the socket is opened. *)
Record relay_config := {
  rc_talkMax : duration; rc_maxActiveTalkers : Z; rc_membershipLease : duration; rc_keepaliveInterval : duration;
  rc_secretPermissions : secretFilePermissionPolicy; rc_controlAuth : controlAuthState;
  rc_identityAdmission : option identityAdmissionState; rc_serviceAdmission : option serviceAdmissionState
}.

Definition configure_relay (f : relay_flags) : option relay_config :=
  if negb (validMaximumTalkSeconds (fl_talkMaxSec f)) then None
  else
    let maxActive := if fl_maxActiveTalkers f <? 1 then 1 else fl_maxActiveTalkers f in
    let maxActive := if maxActiveTalkersV1 <? maxActive then maxActiveTalkersV1 else maxActive in
    let membershipLease := i64 (fl_membershipLeaseSec f * Second) in
    let keepaliveInterval := i64 (fl_keepaliveIntervalSec f * Second) in
    if negb (validMembershipTiming membershipLease keepaliveInterval) then None
    else
      let talkMax := i64 (fl_talkMaxSec f * Second) in
      controlPolicy ← parseControlAuthPolicy (str_bytes (fl_controlAuthPolicy f));
      if fl_noCrypto f && bool_decide (controlPolicy = controlAuthRequired) then None
      else
        secretPermissions ← parseSecretFilePermissionPolicy (str_bytes (fl_secretFilePermissions f));
        controlKeys ← loadControlKeyStore (fl_controlKeyFile f) (Some secretPermissions);
        cookieSecret ← loadCookieSecret (fl_controlCookieSecretFile f) (Some secretPermissions);
        controlAuth ← ok_of (newControlAuthState controlPolicy controlKeys cookieSecret);
        identityMode ← parseIdentityAdmissionMode (str_bytes (fl_identityAdmissionMode f));
        identityKeys ← match identityMode with identityAdmissionOff => Some ∅ | _ => loadIdentitySigningKeys (fl_identitySigningKeyFile f) end;
        if bool_decide (identityMode = identityAdmissionRequired) && negb (bool_decide (controlPolicy = controlAuthRequired)) then None
        else
          identityAdmission ← ok_of (newIdentityAdmissionState identityMode (fl_identityIssuer f) (fl_identityAudience f) identityKeys);
          if fl_floorInterrupt f && (negb (identity_isRequired identityAdmission) || negb (bool_decide (controlPolicy = controlAuthRequired))) then None
          else
            serviceMode ← parseServiceAdmissionMode (str_bytes (fl_serviceAdmissionMode f));
            serviceKeys ←
              match serviceMode with
              | serviceAdmissionOff => Some ∅
              | serviceAdmissionEnabled =>
                  if bool_decide (controlPolicy = controlAuthOff) || (size controlKeys =? 0)%nat then None
                  else loadServiceSigningKeys (fl_serviceAdmissionSigningKeyFile f)
              end;
            serviceAdmission ← ok_of (newServiceAdmissionState serviceMode (fl_serviceAdmissionIssuer f) (fl_serviceAdmissionAudience f) serviceKeys);
            Some {| rc_talkMax := talkMax; rc_maxActiveTalkers := maxActive; rc_membershipLease := membershipLease;
                    rc_keepaliveInterval := keepaliveInterval; rc_secretPermissions := secretPermissions; rc_controlAuth := controlAuth;
                    rc_identityAdmission := identityAdmission; rc_serviceAdmission := serviceAdmission |}.

(** The server with its configuration. *)
Definition configured (f : relay_flags) (c : relay_config) (now : time) (diag : relayDiagnosticsState) : option server :=
  s ← configureMembershipTiming (rc_membershipLease c) (rc_keepaliveInterval c)
        (newServer (fl_noCrypto f) (rc_talkMax c) (fl_multiTalk f) (rc_maxActiveTalkers c) now diag);
  Some (configureServiceAdmission (rc_serviceAdmission c)
          (configureIdentityAdmission (rc_identityAdmission c) (fl_floorInterrupt f) (configureControlAuth (Some (rc_controlAuth c)) s))).

(** [loadDirectoryKeyStore] and [loadDirectoryMetadata] of the configured paths. *)
Definition start_directory (f : relay_flags) (secretPermissions : secretFilePermissionPolicy) : option directoryV3 :=
  if blank (fl_directoryKeyFile f) || negb (validateSecretFilePermissions (fl_directoryKeyFile f) (Some secretPermissions)) then None
  else if blank (fl_directoryChannelsCSV f) || blank (fl_directorySpeakersCSV f) then None
  else configureDirectory (str_bytes (fl_directoryTransport f)) (fl_directoryPublishInterval f) (fl_directoryFreshnessTTL f)
         (ReadFile (fl_directoryKeyFile f)) (ReadFile (fl_directoryChannelsCSV f)) (ReadFile (fl_directorySpeakersCSV f)).

Definition management_config (f : relay_flags) (delivery : managementEventDelivery) (secretPermissions : secretFilePermissionPolicy)
    : managementPlaneConfig :=
  let m := fl_management f in
  {| mc_listenAddress := fm_listen m; mc_certificateFile := fm_certificateFile m; mc_privateKeyFile := fm_privateKeyFile m;
     mc_clientCAFile := fm_clientCAFile m; mc_servicesCSV := fm_servicesCSV m; mc_channelACLCSV := fm_channelACLCSV m;
     mc_globalPermissionsCSV := fm_globalPermissionsCSV m; mc_signingKeyFile := fm_signingKeyFile m;
     mc_issuer := fl_serviceAdmissionIssuer f; mc_audience := fl_serviceAdmissionAudience f; mc_eventDelivery := delivery;
     mc_secretPermissions := Some secretPermissions |}.

Definition link_config_of (f : relay_flags) (secretPermissions : secretFilePermissionPolicy) : privateControlConfig :=
  let c := fl_privateControl f in
  {| pf_transport := fc_transport c; pf_listenAddress := fc_listen c; pf_certificateFile := fc_certificateFile c;
     pf_privateKeyFile := fc_privateKeyFile c; pf_clientCAFile := fc_clientCAFile c; pf_servicesCSV := fc_servicesCSV c;
     pf_udsSocketPath := fc_udsSocketPath c; pf_udsSocketGroup := fc_udsSocketGroup c; pf_udsServicesCSV := fc_udsServicesCSV c;
     pf_relayID := fc_relayID c; pf_stateFile := fc_stateFile c; pf_secretPermissions := Some secretPermissions |}.

(** [server.directory] and [server.management]. *)
Definition with_parts (s : server) (shared management : bool) : server :=
  {| channels := channels s; noCrypto := noCrypto s; sizes := sizes s; talkMax := talkMax s;
     multiTalk := multiTalk s; maxActiveTalkers := maxActiveTalkers s; controlAuth := controlAuth s;
     identityAdmissions := identityAdmissions s; serviceAdmissions := serviceAdmissions s;
     mediaDirectory := shared; has_management := management; has_privateControl := has_privateControl s;
     diagnostics := diagnostics s; floorInterrupt := floorInterrupt s; membershipLease := membershipLease s;
     keepaliveInterval := keepaliveInterval s; outboundSeq := outboundSeq s |}.

Record relay := {
  r_server : server; r_directory : option directoryV3; r_management : option managementPlane; r_link : option privateControlLink
}.

(** The parts of a Relay whose media socket is open.  [dedicated] says whether the
    dedicated Directory listener opens, [file] is the content of the state file. *)
Definition start_directory_part (f : relay_flags) (c : relay_config) (dedicated : bool) : option (option directoryV3) :=
  if negb (fl_directoryEnabled f) then Some None
  else
    transport ← parseDirectoryTransport (str_bytes (fl_directoryTransport f));
    if match transport with
       | directoryTransportDedicatedUDP => blank (fl_directoryDedicatedListen f) || negb dedicated
       | directoryTransportMediaPort => false
       end then None
    else Some <$> start_directory f (rc_secretPermissions c).

Definition shares_media (directory : option directoryV3) : bool :=
  match directory with
  | Some d => match d_transport d with directoryTransportMediaPort => true | directoryTransportDedicatedUDP => false end
  | None => false
  end.

Definition start_management_part (f : relay_flags) (c : relay_config) (now : time) : option (option managementPlane) :=
  if negb (fl_managementEnabled f) then Some None
  else
    delivery ← parseManagementEventDelivery (str_bytes (fm_eventDelivery (fl_management f)));
    Some <$> startManagementPlane (management_config f delivery (rc_secretPermissions c)) (rc_serviceAdmission c) now.

(** [main] after [flag.Parse]; [listening] says whether the media socket opens. *)
Definition start_relay (f : relay_flags) (listening dedicated : bool) (file : host -> option (list Z)) (diag : relayDiagnosticsState) (now : time)
    (h : host) : option relay * host :=
  match (c ← configure_relay f;
         if negb listening then None
         else
           s ← configured f c now diag;
           directory ← start_directory_part f c dedicated;
           management ← start_management_part f c now;
           Some (c, with_parts s (shares_media directory) (bool_decide (is_Some management)), directory, management)) with
  | None => (None, h)
  | Some (c, s, directory, management) =>
      if negb (fl_privateControlEnabled f) then
        (Some {| r_server := s; r_directory := directory; r_management := management; r_link := None |}, h)
      else if String.eqb (fc_transport (fl_privateControl f)) privateControlTransportMTLSTCP && fl_managementEnabled f
              && bytes_eqb (TrimSpace (str_bytes (fc_listen (fl_privateControl f)))) (TrimSpace (str_bytes (fm_listen (fl_management f))))
      then (None, h)
      else
        match startPrivateControlLink (link_config_of f (rc_secretPermissions c)) file now s h with
        | (Some (s, link), h) =>
            (Some {| r_server := s; r_directory := directory; r_management := management; r_link := Some link |}, h)
        | (None, h) => (None, h)
        end
  end.
End main.

(** ** What a start ensures *)

Section sound.
Context `{CSV} `{FileSystem} `{TLSFiles} `{Entropy} `{Ed25519Keys} `{RangeOrder} `{PrivateStateJSON} {host : Type} `{HostPaths host}.

Lemma size_nonempty {K A} `{Countable K} (m : gmap K A) : (size m =? 0)%nat = false -> m <> ∅.
Proof. intros E -> . by rewrite map_size_empty in E. Qed.

Lemma ok_of_Some {E A} (x : E + A) a : ok_of x = Some a -> x = inr a.
Proof. destruct x; [done|]. by intros [= ->]. Qed.

Lemma locked_keeps a r a' : newRelayInstanceIDLocked a = (r, a') ->
  policy a' = policy a /\ keys a' = keys a /\ cookieSecret a' = cookieSecret a.
Proof. intros E. pose proof (newRelayInstanceIDLocked_same a) as Hs. rewrite E in Hs. by destruct Hs as (-> & -> & ->). Qed.

(** The keys, the policy and the secret of a Control Authentication that is configured. *)
Lemma new_control_auth pol ks secret a : newControlAuthState pol ks secret = inr a ->
  policy a = pol /\ keys a = ks /\ cookieSecret a = secret /\
  (pol = controlAuthRequired -> ks <> ∅) /\ (ks <> ∅ -> 32 <= len secret).
Proof.
  unfold newControlAuthState. destruct (bool_decide _ && _) eqn:E1; [done|]. destruct (_ && (len secret <? 32)) eqn:E2; [done|]. intros E.
  assert (policy a = pol /\ keys a = ks /\ cookieSecret a = secret) as (-> & -> & ->).
  { case_bool_decide; [by injection E as <-|]. set (a0 := {| policy := pol |}) in E.
    destruct (newRelayInstanceIDLocked a0) as [[i|] a1] eqn:En; [|done]. apply locked_keeps in En as (Hp & Hk & Hs).
    injection E as <-. cbn. rewrite Hp, Hk, Hs. by split_and!. }
  split_and!; try done.
  - intros ->. rewrite bool_decide_eq_true_2 in E1 by done. by apply size_nonempty.
  - intros Hne. apply andb_false_iff in E2 as [E2|E2]; gobool; [|done]. exfalso. apply Hne, map_size_empty_inv.
    apply Nat.ltb_ge in E2. lia.
Qed.

(** What the configuration of a Relay that starts satisfies, of its server. *)
Record server_configured (f : relay_flags) (s : server) : Prop := {
  sc_talk : 0 <= fl_talkMaxSec f <= 65535 /\ talkMax s = fl_talkMaxSec f * Second;
  sc_talkers : 1 <= maxActiveTalkers s <= 16;
  sc_timing : validMembershipTiming (membershipLease s) (keepaliveInterval s) = true;
  sc_crypto : noCrypto s = fl_noCrypto f;
  sc_auth : exists a, controlAuth s = Some a /\ control_keys_ok (keys a) /\ (keys a <> ∅ -> 32 <= len (cookieSecret a)) /\
    (policy a = controlAuthRequired -> keys a <> ∅ /\ noCrypto s = false) /\
    (identity_isRequired (identityAdmissions s) = true -> policy a = controlAuthRequired) /\
    (is_Some (serviceAdmissions s) -> policy a <> controlAuthOff /\ keys a <> ∅);
  sc_identity : forall a, identityAdmissions s = Some a ->
    id_issuer a = fl_identityIssuer f /\ id_audience a = fl_identityAudience f /\ id_keys a <> ∅ /\ signing_keys_ok (id_keys a);
  sc_interrupt : floorInterrupt s = true -> identity_isRequired (identityAdmissions s) = true;
  sc_service : forall a, serviceAdmissions s = Some a ->
    sv_issuer a = fl_serviceAdmissionIssuer f /\ sv_audience a = fl_serviceAdmissionAudience f /\ sv_keys a <> ∅ /\ signing_keys_ok (sv_keys a)
}.

Lemma new_identity mode issuer audience ks oa : newIdentityAdmissionState mode issuer audience ks = inr oa ->
  (identity_isRequired oa = true -> mode = identityAdmissionRequired) /\
  forall a, oa = Some a -> mode <> identityAdmissionOff /\ id_issuer a = issuer /\ id_audience a = audience /\ id_keys a = ks /\ ks <> ∅.
Proof.
  unfold newIdentityAdmissionState. destruct mode; [by intros [= <-]|..]; (destruct (_ || _); [done|]);
    (destruct (size ks =? 0)%nat eqn:E; [done|]); intros [= <-]; (split; [by cbn; case_bool_decide|]); intros a [= <-]; split_and!; try done; by apply size_nonempty.
Qed.

Lemma new_service mode issuer audience ks oa : newServiceAdmissionState mode issuer audience ks = inr oa ->
  (is_Some oa -> mode = serviceAdmissionEnabled) /\
  forall a, oa = Some a -> sv_issuer a = issuer /\ sv_audience a = audience /\ sv_keys a = ks /\ ks <> ∅.
Proof.
  unfold newServiceAdmissionState. destruct mode; [intros [= <-]; split; [by intros []|done]|]. destruct (_ || _); [done|].
  destruct (size ks =? 0)%nat eqn:E; [done|]. intros [= <-]. split; [done|]. intros a [= <-]. split_and!; try done. by apply size_nonempty.
Qed.

Lemma seconds_i64 n : 0 <= n <= 65535 -> i64 (n * Second) = n * Second.
Proof. intros Hn. apply i64_small. unfold Second. lia. Qed.

(** [configure_relay] and the configuration of the server. *)
Lemma configured_ok f c now diag s : configure_relay f = Some c -> configured f c now diag = Some s ->
  server_configured f s /\ channels s = ∅ /\ serviceAdmissions s = rc_serviceAdmission c /\ has_privateControl s = false.
Proof.
  unfold configure_relay, configured. destruct (negb (validMaximumTalkSeconds _)) eqn:Et; [done|]. cbv zeta.
  destruct (negb (validMembershipTiming _ _)) eqn:Em; [done|]. intros (pol & _ & E)%bind_Some. destruct (fl_noCrypto f && _) eqn:En; [done|].
  apply bind_Some in E as (sp & _ & E). apply bind_Some in E as (ks & Hks & E). apply bind_Some in E as (secret & _ & E).
  apply bind_Some in E as (auth & Ha%ok_of_Some & E). apply bind_Some in E as (im & _ & E). apply bind_Some in E as (iks & Hiks & E).
  destruct (_ && negb _) eqn:Ei; [done|]. apply bind_Some in E as (ia & Hia%ok_of_Some & E). destruct (fl_floorInterrupt f && _) eqn:Ef; [done|].
  apply bind_Some in E as (sm & _ & E). apply bind_Some in E as (sks & Hsks & E). apply bind_Some in E as (sa & Hsa%ok_of_Some & E).
  injection E as <-. cbn [rc_membershipLease rc_keepaliveInterval rc_talkMax rc_maxActiveTalkers rc_controlAuth rc_identityAdmission rc_serviceAdmission].
  unfold configureMembershipTiming. rewrite Em. cbn [mbind option_bind]. intros E. injection E as <-. split; [|done].
  apply new_control_auth in Ha as (Hp & Hk & Hs & Hreq & Hlen). apply new_identity in Hia as [Hir Hia]. apply new_service in Hsa as [Hse Hsa].
  apply loaded_control_keys in Hks. apply negb_false_iff in Et, Em. unfold validMaximumTalkSeconds, maxTalkMaximumSecondsV1 in Et. gobool.
  constructor; cbn.
  - split; [lia|]. by apply seconds_i64.
  - unfold maxActiveTalkersV1. repeat case_match; lia.
  - done.
  - done.
  - exists auth. rewrite Hp, Hk, Hs. split_and!; try done.
    + intros ->. split; [by apply Hreq|]. rewrite bool_decide_eq_true_2, andb_true_r in En by done. done.
    + intros ->%Hir. rewrite bool_decide_eq_true_2 in Ei by done. cbn [andb] in Ei. by gobool.
    + intros ->%Hse. destruct (_ || _) eqn:Eo in Hsks; [done|]. apply orb_false_iff in Eo as [Eo Ez]. gobool. split; [done|by apply size_nonempty].
  - intros a (Hm & -> & -> & -> & Hne)%Hia. split_and!; try done. destruct im; [done|..]; eapply loaded_signing_keys; by left.
  - intros Hf. rewrite Hf in Ef. cbn [andb] in Ef. apply orb_false_iff in Ef as [Ef _]. by gobool.
  - intros a Ea. pose proof (Hse ltac:(by eexists)) as ->. apply Hsa in Ea as (-> & -> & -> & Hne). split_and!; try done.
    destruct (_ || _) in Hsks; [done|]. eapply loaded_signing_keys; by right.
Qed.

Lemma restore_rules_same now rules oa ob : restore_rules now rules oa = Some ob -> same_service oa ob.
Proof.
  revert oa. induction rules as [|rule rules IH]; intros oa E; [by injection E as <-|]. cbn [restore_rules] in E.
  apply bind_Some in E as (target & _ & E). cbv zeta in E. destruct (negb (After _ _)); [by apply IH|].
  pose proof (installRevocation_same oa target (Unix (pr_DenyUntil rule)) now) as Hi. destruct (installRevocation _ _ _ _) as [ok o1].
  destruct (negb ok); [done|]. etrans; [exact Hi|by apply IH].
Qed.

(** A link that starts changes the server in two places only. *)
Lemma link_start_server config file now s h s' link h' : startPrivateControlLink config file now s h = (Some (s', link), h') ->
  link_policy_ok (pl_policy link) /\ (is_Some (serviceAdmissions s) -> blank (pf_stateFile config) = false) /\
  same_service (serviceAdmissions s) (serviceAdmissions s') /\ s' = configurePrivateControl (with_service s (serviceAdmissions s')).
Proof.
  intros (h1 & link0 & Hd & Hp & _ & _ & Er & _ & Hs)%start_link_inv. split_and!; [by eapply transport_policy_ok|by intros [? _]%Hd| |done].
  destruct (negb _) in Er; [|by injection Er as <- _]. unfold restorePersistentState in Er. apply bind_Some in Er as (state & _ & Er).
  destruct (_ && _) in Er; [done|]. apply bind_Some in Er as (sa1 & Hr & Er). apply bind_Some in Er as (idem & _ & Er). injection Er as <- _.
  by eapply restore_rules_same.
Qed.

(** The configuration is part of what every transition keeps. *)
Lemma server_configured_same f s s' : same_config s s' -> server_configured f s -> server_configured f s'.
Proof.
  intros (E1 & E2 & E3 & E4 & E5 & Ea & Ei & Es & E6 & E7) [Ht ? Hm Hc Ha Hi Hf Hs].
  pose proof (same_identity_required _ _ Ei) as Er. assert (is_Some (serviceAdmissions s') -> is_Some (serviceAdmissions s)) as Hsome.
  { destruct (serviceAdmissions s), (serviceAdmissions s'); done || by intros []. }
  constructor; [by rewrite E3|by rewrite E2|by rewrite E6, E7|by rewrite E4| | |by rewrite E5, Er|].
  - destruct Ha as (a & Ea' & Hk & Hl & Hr & Hid & Hsv). rewrite Ea' in Ea. destruct (controlAuth s') as [b|]; [|done].
    destruct Ea as (Ep & Ek & Ec). exists b. rewrite <- Ep, <- Ek, <- Ec, E4, Er. split_and!; try done. intros ?%Hsome. by apply Hsv.
  - intros b Eb. rewrite Eb in Ei. destruct (identityAdmissions s) as [a|]; [|done]. destruct Ei as (_ & <- & <- & <-). by apply Hi.
  - intros b Eb. rewrite Eb in Es. destruct (serviceAdmissions s) as [a|]; [|done]. destruct Es as (<- & <- & <-). by apply Hs.
Qed.

Lemma link_same_config s sa : same_service (serviceAdmissions s) sa -> same_config s (configurePrivateControl (with_service s sa)).
Proof. intros Hs. unfold same_config. cbn. split_and!; done || reflexivity. Qed.

(** What a management plane that started, and a later one, has in common with the server. *)
Definition plane_started (s : server) (p : managementPlane) : Prop :=
  policy_ok (mg_policy p) /\ exists a, serviceAdmissions s = Some a /\ trusts a p.

(** The signing key of a plane: made of a seed, or the 64 bytes of the file, whose halves
    nothing compares. *)
Definition signer_of (f : relay_flags) (p : managementPlane) : Prop :=
  exists raw, signing_key (fm_signingKeyFile (fl_management f)) = Some raw /\
    (len raw = SeedSize /\ halves_match (gs_key (mg_signer p)) \/ len raw = PrivateKeySize /\ gs_key (mg_signer p) = raw).

Lemma management_started f c now s p : start_management_part f c now = Some (Some p) ->
  server_configured f s -> serviceAdmissions s = rc_serviceAdmission c -> plane_started s p /\ signer_of f p.
Proof.
  unfold start_management_part. destruct (negb _); [done|]. intros (delivery & _ & E)%bind_Some Hc Es.
  apply fmap_Some in E as (p' & E & [= <-]). apply startManagementPlane_sound in E as (Hp & Hiss & Haud & Hsg & _ & Hl & a & Ea & Hkey).
  split; [|by apply loaded_signer in Hsg as [_ Hsg]]. split; [done|]. rewrite <- Es in Ea. exists a. split; [done|].
  destruct (sc_service _ _ Hc a Ea) as (Ei & Eau & _). constructor; [by rewrite Hiss|by rewrite Haud|done|done].
Qed.

Lemma plane_started_same s s' p : same_config s s' -> plane_started s p -> plane_started s' p.
Proof.
  intros (_ & _ & _ & _ & _ & _ & _ & Es & _) (Hp & a & Ea & Ht). split; [done|]. rewrite Ea in Es.
  destruct (serviceAdmissions s') as [b|]; [|done]. destruct Es as (E1 & E2 & E3). exists b. split; [done|].
  destruct Ht as [? ? ? ?]. by constructor; rewrite <- ?E1, <- ?E2, <- ?E3.
Qed.

Lemma directory_part_enabled f c dedicated directory : start_directory_part f c dedicated = Some directory ->
  is_Some directory <-> fl_directoryEnabled f = true.
Proof.
  unfold start_directory_part. destruct (fl_directoryEnabled f); cbn [negb]; [|intros [= <-]; by split; [intros []|]].
  intros (t & _ & E)%bind_Some. destruct (match t with directoryTransportDedicatedUDP => _ | _ => _ end); [done|].
  apply fmap_Some in E as (d & _ & ->). split; [done|by eexists].
Qed.

Lemma management_part_enabled f c now management : start_management_part f c now = Some management ->
  is_Some management <-> fl_managementEnabled f = true.
Proof.
  unfold start_management_part. destruct (fl_managementEnabled f); cbn [negb]; [|intros [= <-]; by split; [intros []|]].
  intros (delivery & _ & E)%bind_Some. apply fmap_Some in E as (p & _ & ->). split; [done|by eexists].
Qed.

Lemma directory_part_sound `{SliceSort} f c dedicated d : start_directory_part f c dedicated = Some (Some d) -> directory_configured d.
Proof.
  unfold start_directory_part. destruct (negb _); [done|]. intros (t & _ & E)%bind_Some.
  destruct (match t with directoryTransportDedicatedUDP => _ | _ => _ end); [done|]. apply fmap_Some in E as (d' & E & [= <-]).
  unfold start_directory in E. destruct (_ || _) in E; [done|]. destruct (_ || _) in E; [done|]. by eapply configureDirectory_sound.
Qed.

(** The steps of a start that succeeds; [s] is the server before the link starts. *)
Lemma start_relay_inv f listening dedicated file diag now h r h' :
  start_relay f listening dedicated file diag now h = (Some r, h') -> exists c s1,
  configure_relay f = Some c /\ configured f c now diag = Some s1 /\
  start_directory_part f c dedicated = Some (r_directory r) /\ start_management_part f c now = Some (r_management r) /\
  let s := with_parts s1 (shares_media (r_directory r)) (bool_decide (is_Some (r_management r))) in
  if fl_privateControlEnabled f then
    exists link, r_link r = Some link /\
      startPrivateControlLink (link_config_of f (rc_secretPermissions c)) file now s h = (Some (r_server r, link), h')
  else r_link r = None /\ r_server r = s.
Proof.
  unfold start_relay. destruct (c ← configure_relay f; _) as [[[[c s0] directory] management]|] eqn:E0; [|done].
  apply bind_Some in E0 as (c' & Hc & E0). destruct (negb listening); [done|]. apply bind_Some in E0 as (s1 & Hs & E0).
  apply bind_Some in E0 as (d & Hd & E0). apply bind_Some in E0 as (m & Hm & E0). injection E0 as -> <- -> ->.
  destruct (fl_privateControlEnabled f); cbn [negb].
  - destruct (_ && _ && _); [done|]. destruct (startPrivateControlLink _ _ _ _ _) as [[[s3 link]|] h3] eqn:El; [|done]. intros E. injection E as <- <-.
    exists c, s1. split_and!; try done. by exists link.
  - intros E. injection E as <- <-. exists c, s1. by split_and!.
Qed.

(** The server of a Relay that starts, and what its link leaves of the configuration. *)
Lemma start_relay_server f c now diag s1 s : configure_relay f = Some c -> configured f c now diag = Some s1 ->
  forall directory management, let s2 := with_parts s1 directory management in same_config s2 s ->
  server_configured f s2 /\ server_configured f s /\ channels s2 = ∅ /\ has_privateControl s2 = false /\
  serviceAdmissions s2 = rc_serviceAdmission c.
Proof.
  intros Hc Hs directory management s2 Hcfg. destruct (configured_ok _ _ _ _ _ Hc Hs) as (Hok & Hch & Hsv & Hl).
  assert (server_configured f s2) as Hok2 by by destruct Hok. split_and!; try done. by eapply server_configured_same.
Qed.

(** C15. A Relay that starts is configured soundly: a talk limit of at most 65535 seconds,
    1 to 16 talkers and a valid membership timing; control keys of 32 bytes with a cookie
    secret; a required policy has keys and refuses the mode without cryptography;
    identity admission is required only under a required policy, and the Floor Interrupt
    only with both; service admission has signing keys and control keys.  The parts that
    were enabled and no others run; the Directory has sound keys and names; the management
    plane has a well-formed policy, the issuer and audience of the service admission of
    this server, and a signing key whose ID and public half that service admission has;
    the halves of the key match when the file holds a seed, while of a key of 64 bytes only
    the public half is compared; and a private control link has a valid policy and,
    with service admission, a state file. *)
Theorem relay_start_sound `{SliceSort} f listening dedicated file diag now h r h' :
  start_relay f listening dedicated file diag now h = (Some r, h') ->
  let s := r_server r in
  server_configured f s /\ channels s = ∅ /\
  (is_Some (r_directory r) <-> fl_directoryEnabled f = true) /\ mediaDirectory s = shares_media (r_directory r) /\
  (is_Some (r_management r) <-> fl_managementEnabled f = true) /\ has_management s = fl_managementEnabled f /\
  (is_Some (r_link r) <-> fl_privateControlEnabled f = true) /\ has_privateControl s = fl_privateControlEnabled f /\
  (forall d, r_directory r = Some d -> directory_configured d) /\
  (forall p, r_management r = Some p -> plane_started s p /\ signer_of f p) /\
  (forall link, r_link r = Some link -> link_policy_ok (pl_policy link) /\
     (is_Some (serviceAdmissions s) -> blank (fc_stateFile (fl_privateControl f)) = false)).
Proof.
  intros (c & s1 & Hc & Hs & Hd & Hm & Hl)%start_relay_inv. cbv zeta in *.
  set (s2 := with_parts s1 (shares_media (r_directory r)) (bool_decide (is_Some (r_management r)))) in *.
  assert (has_management s2 = fl_managementEnabled f) as Hhas.
  { pose proof (management_part_enabled _ _ _ _ Hm) as Hman. cbn. destruct (fl_managementEnabled f); case_bool_decide; naive_solver. }
  assert (forall d, r_directory r = Some d -> directory_configured d) as Hdir by (intros d Ed; rewrite Ed in Hd; by eapply directory_part_sound).
  pose proof (directory_part_enabled _ _ _ _ Hd). pose proof (management_part_enabled _ _ _ _ Hm).
  assert (server_configured f s2 -> serviceAdmissions s2 = rc_serviceAdmission c ->
    forall p, r_management r = Some p -> plane_started s2 p /\ signer_of f p) as Hp by (intros ?? p Ep; rewrite Ep in Hm; by eapply management_started).
  destruct (fl_privateControlEnabled f).
  - destruct Hl as (link & -> & El). apply link_start_server in El as (Hpol & Hst & Hsame & Es3).
    assert (same_config s2 (r_server r)) as Hcfg by (rewrite Es3; by apply link_same_config).
    destruct (start_relay_server _ _ _ _ _ _ Hc Hs _ _ Hcfg) as (Hok2 & Hok3 & Hch & _ & Hsv).
    split_and!; try done; try (by rewrite Es3).
    + intros p Ep. destruct (Hp Hok2 Hsv p Ep). split; [by eapply plane_started_same|done].
    + intros l [= <-]. split; [done|]. intros Hsv3. apply Hst. destruct (serviceAdmissions s2), (serviceAdmissions (r_server r)); done || by destruct Hsv3.
  - destruct Hl as [-> ->]. destruct (start_relay_server _ _ _ _ _ s2 Hc Hs _ _ (reflexivity s2)) as (Hok2 & _ & Hch & Hpc & Hsv).
    split_and!; try done. by apply Hp.
Qed.
End sound.

(** ** A concrete start *)

(** The files of a Relay with every part: the bytes 32 to 63 are the public key of the
    signing key, and the keys of the tickets and of a channel. *)
Definition relay_key : string := "ICEiIyQlJicoKSorLC0uLzAxMjM0NTY3ODk6Ozw9Pj8=".
Definition relay_files : FileSystem :=
  {| windows := false; Stat := fun _ => Some {| IsRegular := true; Perm := 0x180 |};
     ReadFile := fun path =>
       if String.eqb path "control-keys" then Some (csv_file [str_bytes <$> ["channel_id"; "key_id"; "key"]; str_bytes <$> ["100"; "7"; relay_key]]%string)
       else if String.eqb path "cookie" then Some (zeros 32)
       else if String.eqb path "verification-keys" then Some (csv_file [str_bytes <$> ["k1"; relay_key]]%string)
       else if String.eqb path "directory-keys" then Some keys_file
       else if String.eqb path "channels" then Some channels_file
       else if String.eqb path "speakers" then Some speakers_file
       else if String.eqb path "link-services" then Some link_services_file
       else @ReadFile example_files path |}.
Definition relay_tls : TLSFiles := {| LoadX509KeyPair := fun _ _ => true; AppendCertsFromPEM := fun _ => true |}.

Definition example_flags : relay_flags :=
  {| fl_port := 50000; fl_membershipLeaseSec := 60; fl_keepaliveIntervalSec := 20; fl_talkMaxSec := 65535; fl_multiTalk := true;
     fl_maxActiveTalkers := 40; fl_directoryEnabled := true; fl_directoryTransport := "media-port"; fl_directoryKeyFile := "directory-keys";
     fl_directoryChannelsCSV := "channels"; fl_directorySpeakersCSV := "speakers"; fl_directoryDedicatedListen := "";
     fl_directoryPublishInterval := 0; fl_directoryFreshnessTTL := 0; fl_controlAuthPolicy := " Required ";
     fl_controlKeyFile := "control-keys"; fl_controlCookieSecretFile := "cookie"; fl_secretFilePermissions := "";
     fl_identityAdmissionMode := "required"; fl_identityIssuer := "issuer"; fl_identityAudience := "relay";
     fl_identitySigningKeyFile := "verification-keys"; fl_serviceAdmissionMode := "enabled"; fl_serviceAdmissionIssuer := "issuer";
     fl_serviceAdmissionAudience := "relay"; fl_serviceAdmissionSigningKeyFile := "verification-keys"; fl_managementEnabled := true;
     fl_management :=
       {| fm_listen := ":9443"; fm_certificateFile := "cert"; fm_privateKeyFile := "key"; fm_clientCAFile := "ca"; fm_servicesCSV := "services";
          fm_channelACLCSV := "acl"; fm_globalPermissionsCSV := "permissions"; fm_signingKeyFile := "key"; fm_eventDelivery := "live" |};
     fl_privateControlEnabled := true;
     fl_privateControl :=
       {| fc_transport := "uds"; fc_listen := ""; fc_certificateFile := ""; fc_privateKeyFile := ""; fc_clientCAFile := ""; fc_servicesCSV := "";
          fc_udsSocketPath := "/run/incomudon/pcl.sock"; fc_udsSocketGroup := "1000"; fc_udsServicesCSV := "link-services";
          fc_relayID := "relay-1"; fc_stateFile := "/run/incomudon/state.json" |};
     fl_floorInterrupt := true; fl_noCrypto := false |}.

#[local] Existing Instances example_host relay_files relay_tls plain_csv number_json listing_order merge_sort_order counting_entropy example_keys
  example_verify.

Lemma relay_start_sound_witness : exists r h',
  start_relay example_flags true false (fun _ => None) toy_diagnostics example_now None = (Some r, h') /\
  server_configured example_flags (r_server r) /\ is_Some (r_link r).
Proof.
  destruct (start_relay example_flags true false (fun _ => None) toy_diagnostics example_now None) as [[r|] h'] eqn:E.
  - exists r, h'. split; [reflexivity|]. pose proof (relay_start_sound _ _ _ _ _ _ _ _ _ E) as (Hc & _ & _ & _ & _ & _ & Hl & _).
    split; [exact Hc|]. apply Hl. reflexivity.
  - exfalso. apply (f_equal (fun x => bool_decide (is_Some x.1))) in E. vm_compute in E. discriminate E.
Defined.

(** ** Without a configuration *)

Section default_relay.
Context `{CSV} `{FileSystem} `{TLSFiles} `{Entropy} `{Ed25519Keys} `{RangeOrder} `{PrivateStateJSON} {host : Type} `{HostPaths host} `{Durations}.

(** In an empty environment the Relay starts without reading a file, and only its server. *)
Lemma default_relay_starts dedicated file diag now h : exists r,
  start_relay (flag_defaults (fun _ => ""%string)) true dedicated file diag now h = (Some r, h) /\
  r_directory r = None /\ r_management r = None /\ r_link r = None /\ identityAdmissions (r_server r) = None /\
  serviceAdmissions (r_server r) = None /\ server_controlAuthRequired (r_server r) 0 = false /\
  membershipLease (r_server r) = 30 * Second /\ keepaliveInterval (r_server r) = 10 * Second /\ multiTalk (r_server r) = false.
Proof. eexists. split; [reflexivity|]. by split_and!. Qed.

(** The seconds of the membership timing are scaled before they are checked: a lease of
    [2 ^ 55 + 30] seconds wraps around to 30 and is accepted. *)
Lemma membership_lease_wraps (f : relay_flags) : fl_membershipLeaseSec f = 2 ^ 55 + 30 ->
  i64 (fl_membershipLeaseSec f * Second) = 30 * Second /\ validMembershipTiming (i64 (fl_membershipLeaseSec f * Second)) (10 * Second) = true.
Proof. intros ->. by vm_compute. Qed.
End default_relay.
