(* ===== verification/Running.v ===== *)
(** * The running Relay

    The parts of a Relay together: the server, the Directory, the management plane, the
    private control link and its state file.  The goroutines of [main.go] and of the parts
    are the operations of this file, each with the calls of one part into another; the
    transitions of all parts interleave, and what the parts keep on their own holds for
    the whole Relay. *)

From S2P Require Import Prelude GoTime GoNet Text Sha256 Base64 Packet ControlAuth Identity Service Diagnostics Server Membership Send Relay Steps RelaySpec DirectoryWire Directory DirectorySpec DirectoryConfig PrivateControl PrivateState PrivateLink PrivateSpec SecretFiles PolicyFiles Management ManagementSpec ManagementGrants ManagementAnswers KeyFiles LinkStart Start.

Open Scope eff_scope.

Record relay_world := {
  rw_server : server; rw_directory : option directoryV3; rw_plane : option plane_world; rw_link : option privateControlLink;
  rw_file : option (list Z); rw_tick : nat
}.

Abbreviation running := (M relay_world output).

(** A Relay that has just started with a state file. *)
Definition started (r : relay) (file : option (list Z)) : relay_world :=
  {| rw_server := r_server r; rw_directory := r_directory r; rw_plane := quiet <$> r_management r; rw_link := r_link r;
     rw_file := file; rw_tick := 0 |}.

Definition set_rw_server (w : relay_world) (s : server) : relay_world :=
  {| rw_server := s; rw_directory := rw_directory w; rw_plane := rw_plane w; rw_link := rw_link w; rw_file := rw_file w; rw_tick := rw_tick w |}.
Definition set_rw_directory (w : relay_world) (d : directoryV3) : relay_world :=
  {| rw_server := rw_server w; rw_directory := Some d; rw_plane := rw_plane w; rw_link := rw_link w; rw_file := rw_file w; rw_tick := rw_tick w |}.
Definition set_rw_plane (w : relay_world) (p : plane_world) (tick : nat) : relay_world :=
  {| rw_server := rw_server w; rw_directory := rw_directory w; rw_plane := Some p; rw_link := rw_link w; rw_file := rw_file w; rw_tick := tick |}.

(** What the private control link works on. *)
Definition control_of (w : relay_world) (l : privateControlLink) : pc_world :=
  {| w_server := rw_server w; w_link := l; w_file := rw_file w; w_tick := rw_tick w |}.
Definition set_link_world (w : relay_world) (c : pc_world) : relay_world :=
  {| rw_server := w_server c; rw_directory := rw_directory w; rw_plane := rw_plane w; rw_link := Some (w_link c);
     rw_file := w_file c; rw_tick := w_tick c |}.

Section operations.
Context `{Entropy} `{RangeOrder} `{SliceSort} `{Environment} `{Ed25519} `{TicketJSON} `{GrantJSON}.
Context `{PrivateControlJSON} `{PrivateStateJSON} `{PrivateEnvironment}.
Context `{DirectoryEnvironment} `{DirectoryJSON} `{DirectoryPayloadJSON} `{AEAD}.
Context `{RFC3339} `{CursorJSON} `{Ed25519Keys} `{GrantMarshal}.

(** ** The parts *)

(** A goroutine of the link. *)
Definition on_control (m : control unit) : running unit :=
  fun w => match rw_link w with
           | None => (tt, w, [])
           | Some l => let '(_, c, os) := m (control_of w l) in (tt, set_link_world w c, os)
           end.

(** A handler of the server; what it publishes reaches the link. *)
Definition on_relay_server (m : handler unit) : running unit :=
  fun w => match rw_link w with
           | None => let '(_, s, os) := m (rw_server w) in (tt, set_rw_server w s, os)
           | Some l => on_control (on_server m) w
           end.

(** A handler of the Directory; what it writes leaves on its socket. *)
Definition on_directory (m : dhandler unit) : running unit :=
  fun w => match rw_directory w with
           | None => (tt, w, [])
           | Some d => let '(_, d, ws) := m d in (tt, set_rw_directory w d, (fun x => Datagram (w_data x) (w_addr x)) <$> ws)
           end.

(** An operation of the plane, at a reading of the clock. *)
Definition on_management {A} (f : time -> managementPlane -> A * managementPlane) : running (option A) :=
  fun w => match rw_plane w with
           | None => (None, w, [])
           | Some p => let '(a, p') := f (pc_now (rw_tick w)) (pw_plane p) in
                       (Some a, set_rw_plane w {| pw_plane := p'; pw_sending := pw_sending p |} (S (rw_tick w)), [])
           end.

(** What the server calls in the plane and in the Directory. *)
Definition perform (o : output) : running unit :=
  match o with
  | ManagementEvent eventType channelID senderID serviceID reason =>
      on_management (fun now p => (tt, publishEvent eventType (Some channelID) (Some senderID) serviceID None None reason now p)) ;;; ret tt
  | RevocationAudit channelID =>
      on_management (fun now p => (tt, appendAudit
        {| ar_RecordID := []; ar_Timestamp := []; ar_ActorType := "relay"; ar_ActorID := "relay"; ar_ChannelID := Some channelID;
           ar_Action := str_bytes "service_admission_revoked"; ar_Result := str_bytes "success"; ar_FloorInterrupt := None;
           ar_sequence := 0 |} now p)) ;;; ret tt
  | DirectoryDatagram payload addr => on_directory (enqueue payload (Some addr) directoryTransportMedia)
  | _ => ret tt
  end.

(** An operation with its calls: the server does not read the plane or the Directory, so
    they are made when it is done. *)
Definition performing (m : running unit) : running unit :=
  fun w => let '(_, w, os) := m w in let '(_, w, os') := for_each os perform w in (tt, w, os ++ os').

(** ** The goroutines *)

(** One turn of [run], and one tick of [cleanupLoop]. *)
Definition relay_datagram (data : list Z) (addr : UDPAddr) : running unit := performing (on_relay_server (receive data addr)).
Definition relay_cleanup (now : time) : running unit := performing (on_relay_server (cleanupTick now)).

(** A connection to the link. *)
Definition relay_connection (remote : option (option string * string)) (serviceID : option string) (stream : list Z) : running unit :=
  performing (on_control (acceptConnection (privateControlFailureSource remote) serviceID stream ;;; ret tt)).

(** A request to the management API. *)
Definition relay_request (r : http_request) (jti : option (list Z)) : running (option http_response) :=
  let! s := gets rw_server in
  on_management (fun now p => handle_request s r jti now p).

(** A datagram on the dedicated socket of the Directory, a turn of a worker, of
    [publishLoop] and of its [cleanupLoop]; the participants of a channel are read at
    [now channelID]. *)
Definition relay_directory_datagram (data : list Z) (addr : option UDPAddr) : running unit := on_directory (dedicatedRead data addr).
Definition relay_worker (now : Z -> time) : running unit :=
  let! s := gets rw_server in on_directory (worker (fun channelID => directoryParticipants channelID (now channelID) s)).
Definition relay_publish (now : Z -> time) : running unit :=
  let! s := gets rw_server in on_directory (publishParticipants (fun channelID => directoryParticipants channelID (now channelID) s)).
Definition relay_directory_cleanup : running unit := on_directory directory_cleanup.

(** ** The transitions of all parts *)

Inductive relay_step (w : relay_world) : relay_world -> Prop :=
| run_server s : server_step (fun _ => True) (rw_server w) s -> relay_step w (set_rw_server w s)
| run_directory d t d' : rw_directory w = Some d -> directory_transition d t d' -> relay_step w (set_rw_directory w d')
| run_plane p p' n : rw_plane w = Some p -> plane_step p p' -> relay_step w (set_rw_plane w p' n)
| run_link l c : rw_link w = Some l -> control_step (control_of w l) c -> relay_step w (set_link_world w c)
| run_tick p n : rw_plane w = Some p -> relay_step w (set_rw_plane w p n).

(** ** The goroutines are runs of these transitions *)

Lemma set_control_id w l : rw_link w = Some l -> set_link_world w (control_of w l) = w.
Proof. intros E. destruct w. cbn in *. by subst. Qed.

Lemma run_server_steps w s : rtc (server_step (fun _ => True)) (rw_server w) s -> rtc relay_step w (set_rw_server w s).
Proof.
  remember (rw_server w) as s0 eqn:E. intros Hr. revert w E. induction Hr as [s|s1 s2 s3 Hst _ IH]; intros w ->.
  - by destruct w.
  - eapply rtc_l; [by apply run_server|]. by apply (IH (set_rw_server w s2)).
Qed.

Lemma run_link_steps w l c : rw_link w = Some l -> rtc control_step (control_of w l) c -> rtc relay_step w (set_link_world w c).
Proof.
  intros El. remember (control_of w l) as c0 eqn:E. intros Hr. revert w l El E. induction Hr as [c|c1 c2 c3 Hst _ IH]; intros w l El ->.
  - by rewrite set_control_id.
  - eapply rtc_l; [by eapply run_link|]. apply (IH (set_link_world w c2) (w_link c2) eq_refl). by destruct c2.
Qed.

Lemma run_directory_steps w d d' : rw_directory w = Some d -> directory_reachable d d' -> rtc relay_step w (set_rw_directory w d').
Proof.
  intros Ed Hr. revert w Ed. induction Hr as [d|d1 d2 d3 (t & _ & Hst) _ IH]; intros w Ed.
  - destruct w. cbn in *. by subst.
  - eapply rtc_l; [by eapply run_directory|]. by apply (IH (set_rw_directory w d2)).
Qed.

Lemma run_plane_steps w p p' n : rw_plane w = Some p -> rtc plane_step p p' -> rtc relay_step w (set_rw_plane w p' n).
Proof.
  intros Ep Hr. revert w Ep. induction Hr as [p|p1 p2 p3 Hst _ IH]; intros w Ep.
  - apply rtc_once. by apply run_tick.
  - eapply rtc_l; [by eapply (run_plane _ _ _ n)|]. by apply (IH (set_rw_plane w p2 n)).
Qed.

Lemma steps_on_control (m : control unit) : steps control_step m -> steps relay_step (on_control m).
Proof.
  intros Hm w. unfold on_control, final. destruct (rw_link w) as [l|] eqn:El; [|done]. specialize (Hm (control_of w l)). unfold final in Hm.
  destruct (m (control_of w l)) as [[[] c] os]. by eapply run_link_steps.
Qed.

Lemma steps_on_relay_server (m : handler unit) : steps (server_step (fun _ => True)) m -> steps relay_step (on_relay_server m).
Proof.
  intros Hm w. unfold on_relay_server. destruct (rw_link w) as [l|] eqn:El.
  - pose proof (steps_on_control (on_server m) (steps_on_server m Hm) w) as Hc. unfold final in *. by rewrite El in *.
  - specialize (Hm (rw_server w)). unfold final in *. rewrite El. destruct (m (rw_server w)) as [[[] s] os]. by apply run_server_steps.
Qed.

Lemma steps_on_directory (m : dhandler unit) : (forall d, directory_reachable d (final m d)) -> steps relay_step (on_directory m).
Proof.
  intros Hm w. unfold on_directory, final. destruct (rw_directory w) as [d|] eqn:Ed; [|done]. specialize (Hm d). unfold final in Hm.
  destruct (m d) as [[[] d'] ws]. by eapply run_directory_steps.
Qed.

Lemma steps_on_management {A} (f : time -> managementPlane -> A * managementPlane) :
  (forall now p, rtc plane_step p (on_plane (fun p => (f now p).2) p)) -> steps relay_step (on_management f).
Proof.
  intros Hf w. unfold on_management, final. destruct (rw_plane w) as [p|] eqn:Ep; [|done]. specialize (Hf (pc_now (rw_tick w)) p).
  unfold on_plane in Hf. destruct (f _ (pw_plane p)) as [a p']. by eapply run_plane_steps.
Qed.

Lemma steps_perform o : steps relay_step (perform o).
Proof.
  destruct o; try by intros w.
  - apply steps_bind; [|by intros ? w]. apply steps_on_management. intros now p. apply publishEvent_steps.
  - apply steps_bind; [|by intros ? w]. apply steps_on_management. intros now p. apply rtc_once, step_audit.
  - apply steps_on_directory. intros d. apply (directory_handlers_refine (fun _ => [])); exact [].
Qed.

Lemma steps_performing m : steps relay_step m -> steps relay_step (performing m).
Proof.
  intros Hm w. specialize (Hm w). unfold performing, final in *. destruct (m w) as [[[] w1] os].
  pose proof (steps_for_each relay_step os perform steps_perform w1) as Hp. unfold final in Hp.
  destruct (for_each os perform w1) as [[[] w2] os2]. cbn [fst snd] in *. by etrans.
Qed.
End operations.

(** A source of failures has a name when every network has one. *)
Lemma failure_source_named remote : (forall host network, remote = Some (host, network) -> network <> EmptyString) ->
  privateControlFailureSource remote <> EmptyString.
Proof.
  intros Hn. destruct remote as [[[host|] network]|]; cbn; [|by eapply Hn|done]. specialize (Hn _ _ eq_refl).
  destruct (String.eqb_spec host ""); by subst.
Qed.

(** ** What the parts keep *)

Section running.
Context `{Entropy} `{RangeOrder} `{SliceSort} `{Environment} `{Ed25519} `{TicketJSON} `{GrantJSON}.
Context `{PrivateControlJSON} `{PrivateStateJSON} `{PrivateEnvironment}.
Context `{DirectoryEnvironment} `{DirectoryJSON} `{DirectoryPayloadJSON} `{AEAD}.
Context `{RFC3339} `{CursorJSON} `{Ed25519Keys} `{GrantMarshal}.
Context `{CSV} `{FileSystem} `{TLSFiles} {host : Type} `{HostPaths host}.

Lemma plane_started_plane s p p' : same_plane p p' -> plane_started s p -> plane_started s p'.
Proof.
  intros (Ep & Es & Ei & Ea) (Hp & a & Esa & Ht). split; [by rewrite Ep|]. exists a. split; [done|].
  destruct Ht as [? ? ? ?]. by constructor; rewrite ?Es, ?Ei, ?Ea.
Qed.

(** A state file that has no more acknowledgements than their table; the restore does not
    compare, but a link within its limits writes no other. *)
Definition file_fits (content : option (list Z)) : Prop :=
  forall st, loadPrivateControlPersistentState content = Some st -> len (ps_Idempotency st) <= privateControlMaxIdempotency.

Lemma snapshot_fits now a l : Z.of_nat (size (pl_idempotency l)) <= privateControlMaxIdempotency ->
  len (ps_Idempotency (persistentStateSnapshot now a l)) <= privateControlMaxIdempotency.
Proof.
  intros Hl. unfold persistentStateSnapshot, persistent_state, snapshot_idempotency. cbn [ps_Idempotency fst].
  set (l' := cleanupIdempotencyLocked now l). assert (len (omap (persistent_entry now) (range (pl_idempotency l'))) <= len (range (pl_idempotency l'))) as Ho.
  { generalize (range (pl_idempotency l')). intros xs. unfold len. induction xs as [|x xs IH]; [done|].
    cbn [omap list_omap]. destruct (persistent_entry now x); cbn [length]; lia. }
  rewrite range_len in Ho. assert (size (pl_idempotency l') <= size (pl_idempotency l))%nat by apply map_subseteq_size, map_filter_subseteq. lia.
Qed.

Lemma restore_entries_size now es : forall idem idem', restore_entries now es idem = Some idem' ->
  Z.of_nat (size idem') <= Z.of_nat (size idem) + len es.
Proof.
  induction es as [|e es IH]; intros idem idem'; cbn [restore_entries]; [intros [= <-]; unfold len; cbn; lia|].
  destruct (_ || _); [done|]. intros (h & _ & E)%bind_Some. cbv zeta in E. case_bool_decide as Hn; [done|].
  apply IH in E. rewrite map_size_insert_None in E by by apply eq_None_not_Some. unfold len in *. cbn [length]. lia.
Qed.

Definition restored_fits (r : relay) : Prop :=
  forall l, r_link r = Some l -> Z.of_nat (size (pl_idempotency l)) <= privateControlMaxIdempotency.

(** The state of a running Relay that started as [r] with the flags [f], after [n] transitions. *)
Record relay_ok (f : relay_flags) (r : relay) (n : Z) (w : relay_world) : Prop := {
  ro_server : server_ok (rw_server w);
  ro_same : same_config (r_server r) (rw_server w);
  ro_configured : server_configured f (rw_server w);
  ro_directory : forall d, rw_directory w = Some d -> exists d0, r_directory r = Some d0 /\ directory_ok d0 d;
  ro_plane : forall p, rw_plane w = Some p -> plane_started (rw_server w) (pw_plane p) /\ world_ok (n + 1) p;
  ro_link : restored_fits r -> forall l, rw_link w = Some l -> link_ok l
}.

Lemma start_relay_config f listening dedicated file diag now h r h' : start_relay f listening dedicated file diag now h = (Some r, h') ->
  (forall p, r_management r = Some p -> plane_started (r_server r) p /\ signer_of f p) /\ server_configured f (r_server r) /\ channels (r_server r) = ∅.
Proof.
  intros (c & s1 & Hc & Hs & _ & Hm & Hl)%start_relay_inv. cbv zeta in *.
  set (s2 := with_parts s1 (shares_media (r_directory r)) (bool_decide (is_Some (r_management r)))) in *.
  assert (same_config s2 (r_server r) /\ channels (r_server r) = channels s2) as [Hcfg Ech].
  { destruct (fl_privateControlEnabled f); [|destruct Hl as [_ ->]; split; reflexivity]. destruct Hl as (link & _ & Hstart).
    apply link_start_server in Hstart as (_ & _ & Hsame & Es3). split; [rewrite Es3; by apply link_same_config|by rewrite Es3]. }
  destruct (start_relay_server _ _ _ _ _ _ Hc Hs _ _ Hcfg) as (Hok2 & Hok & Hch & _ & Hsv). fold s2 in Hok2, Hch, Hsv.
  split_and!; [|done|by rewrite Ech]. intros p Ep. rewrite Ep in Hm. destruct (management_started _ _ _ _ _ Hm Hok2 Hsv).
  split; [by eapply plane_started_same|done].
Qed.

Lemma file_restored_fits f listening dedicated file diag now h r h' : start_relay f listening dedicated file diag now h = (Some r, h') ->
  (forall h0, file_fits (file h0)) -> restored_fits r.
Proof.
  intros (c & s1 & _ & _ & _ & _ & Hl)%start_relay_inv Hf l El. cbv zeta in *. destruct (fl_privateControlEnabled f); [|destruct Hl as [Hl _]; congruence].
  destruct Hl as (link & El' & (h1 & link0 & _ & _ & _ & Hnew & Hrest & _)%start_link_inv). rewrite El in El'. injection El' as <-.
  assert (pl_idempotency link0 = ∅) as H0 by (unfold newPrivateControlLink in Hnew; destruct (_ || _); [done|]; by injection Hnew as <-).
  destruct (negb _) in Hrest; [|injection Hrest as _ <-; by rewrite H0].
  unfold restorePersistentState in Hrest. apply bind_Some in Hrest as (state & Est & E). destruct (_ && _) in E; [done|].
  apply bind_Some in E as (sa & _ & E). apply bind_Some in E as (idem & Ei & E). injection E as _ <-. cbn.
  apply restore_entries_size in Ei. rewrite H0, map_size_empty in Ei. specialize (Hf _ _ Est). lia.
Qed.

Lemma started_relay_ok f listening dedicated file diag now h r h' content :
  start_relay f listening dedicated file diag now h = (Some r, h') -> relay_ok f r 0 (started r content).
Proof.
  intros Hstart. destruct (start_relay_config _ _ _ _ _ _ _ _ _ Hstart) as (Hplane & Hok & Hch).
  apply start_relay_inv in Hstart as (c & s1 & _ & _ & Hd & Hm & Hl). cbv zeta in *.
  assert (restored_fits r -> forall l, r_link r = Some l -> link_ok l) as Hlink.
  { intros Hfits. destruct (fl_privateControlEnabled f); [|by destruct Hl as [-> _]]. destruct Hl as (link & El & Hstart). intros l E.
    rewrite El in E. injection E as <-. apply start_link_inv in Hstart as (h1 & link0 & _ & _ & _ & Hnew & Hrest & _).
    pose proof (link_ok_new _ _ _ Hnew) as H0. destruct (negb _) in Hrest; [|by injection Hrest as _ <-]. specialize (Hfits link El).
    unfold restorePersistentState in Hrest. apply bind_Some in Hrest as (state & _ & E). destruct (_ && _) in E; [done|].
    apply bind_Some in E as (sa1 & _ & E). apply bind_Some in E as (idem & _ & E). injection E as _ <-.
    by apply link_ok_control; [done|exact Hfits|apply H0..]. }
  constructor; cbn [started rw_server rw_directory rw_plane rw_link]; try done.
  - intros k ch Hk. by rewrite Hch in Hk.
  - intros d Ed. exists d. split; [done|]. rewrite Ed in Hd. unfold start_directory_part in Hd. destruct (negb _); [done|].
    apply bind_Some in Hd as (t & _ & Hd). destruct (match t with directoryTransportDedicatedUDP => _ | _ => _ end); [done|].
    apply fmap_Some in Hd as (d' & Hd & [= <-]). unfold start_directory in Hd. destruct (_ || _) in Hd; [done|]. destruct (_ || _) in Hd; [done|].
    unfold configureDirectory in Hd. apply bind_Some in Hd as (t' & _ & Hd). apply bind_Some in Hd as (ks & _ & Hd).
    apply bind_Some in Hd as (md & _ & Hd). by eapply fresh_directory_ok.
  - intros p (p0 & Ep & ->)%fmap_Some. split; [by apply Hplane|]. rewrite Ep in Hm. unfold start_management_part in Hm.
    destruct (negb _); [done|]. apply bind_Some in Hm as (delivery & _ & Hm). apply fmap_Some in Hm as (p' & Hm & [= <-]). by eapply started_plane_ok.
Qed.

Lemma server_keeps f r n w s : server_step (fun _ => True) (rw_server w) s -> relay_ok f r n w ->
  relay_ok f r n (set_rw_server w s).
Proof.
  intros Hst [Hs Hc Hcf Hd Hp Hl]. pose proof (server_step_frame _ _ _ Hst) as [Hcfg _]. constructor; cbn; try done.
  - by eapply server_step_ok.
  - by etrans.
  - by eapply server_configured_same.
  - intros p Ep. destruct (Hp p Ep) as [Hps Hw]. split; [by eapply plane_started_same|done].
Qed.

Lemma relay_ok_mono f r n w : relay_ok f r n w -> relay_ok f r (n + 1) w.
Proof.
  intros [Hs Hc Hcf Hd Hp Hl]. constructor; try done. intros p Ep. destruct (Hp p Ep) as [? Hw]. split; [done|]. by apply world_ok_mono.
Qed.

Lemma relay_step_ok f r n w w' : n + 2 < 2 ^ 64 -> relay_step w w' -> relay_ok f r n w -> relay_ok f r (n + 1) w'.
Proof.
  intros Hn Hstep Hok. destruct Hstep as [s Hst|d t d' Ed Hst|p p' m Ep Hst|l c El Hst|p m Ep].
  - by apply relay_ok_mono, server_keeps.
  - apply relay_ok_mono. destruct Hok as [Hs Hc Hcf Hd Hp Hl]. constructor; cbn; try done. intros d1 [= <-].
    destruct (Hd d Ed) as (d0 & E0 & H0). exists d0. split; [done|]. by eapply directory_transition_ok.
  - destruct Hok as [Hs Hc Hcf Hd Hp Hl]. constructor; cbn; try done. intros p1 [= <-]. destruct (Hp p Ep) as [Hps Hw]. split.
    + eapply plane_started_plane; [by eapply plane_step_same|done].
    + eapply plane_step_ok; [|exact Hw|exact Hst]. lia.
  - destruct Hst as [s Hst|ev l' Hst|outcome st|k].
    + cbn in Hst. pose proof (server_keeps f r n w s Hst Hok) as Hok'. apply relay_ok_mono. destruct Hok' as [Hs Hc Hcf Hd Hp Hl].
      constructor; try done. cbn. intros Hf l1 [= <-]. by apply (ro_link _ _ _ _ Hok Hf).
    + apply relay_ok_mono. destruct Hok as [Hs Hc Hcf Hd Hp Hl]. constructor; cbn; try done. intros Hf l1 [= <-].
      eapply link_ok_does; [exact Hst|]. by apply (Hl Hf).
    + apply relay_ok_mono. destruct Hok as [Hs Hc Hcf Hd Hp Hl]. constructor; cbn; try done. intros Hf l1 [= <-]. by apply (Hl Hf).
    + apply relay_ok_mono. destruct Hok as [Hs Hc Hcf Hd Hp Hl]. constructor; cbn; try done. intros Hf l1 [= <-]. by apply (Hl Hf).
  - apply relay_ok_mono. destruct Hok as [Hs Hc Hcf Hd Hp Hl]. constructor; cbn; try done. intros p1 [= <-]. by apply Hp.
Qed.

Lemma relay_steps_ok f r k n w w' : nsteps relay_step k w w' -> n + Z.of_nat k + 1 < 2 ^ 64 -> relay_ok f r n w -> relay_ok f r (n + Z.of_nat k) w'.
Proof.
  intros Hs. revert n. induction Hs as [w|k w1 w2 w3 Hst _ IH]; intros n Hn Hok; [by rewrite Z.add_0_r|].
  rewrite Nat2Z.inj_succ in *. replace (n + Z.succ (Z.of_nat k)) with (n + 1 + Z.of_nat k) by lia. apply IH; [lia|].
  eapply relay_step_ok; [lia|done|done].
Qed.

(** C2. The goroutines of a Relay, the receive loop and the cleanup tick with all their
    calls into the plane, the Directory and the link, the connections of the link, the
    requests to the management API and the loops of the Directory, change its state only
    by the transitions of its parts, so that an invariant of these transitions holds
    wherever another goroutine may run in between. *)
Theorem goroutines_refine_transitions :
  (forall data addr, steps relay_step (relay_datagram data addr)) /\
  (forall now, steps relay_step (relay_cleanup now)) /\
  (forall remote serviceID stream, (forall host network, remote = Some (host, network) -> network <> EmptyString) ->
     steps relay_step (relay_connection remote serviceID stream)) /\
  (forall q jti, steps relay_step (relay_request q jti)) /\
  (forall data addr, steps relay_step (relay_directory_datagram data addr)) /\
  (forall now, steps relay_step (relay_worker now)) /\
  (forall now, steps relay_step (relay_publish now)) /\ steps relay_step relay_directory_cleanup.
Proof.
  assert (forall (m : (Z -> list directoryParticipantRow) -> dhandler unit) (now : Z -> time),
    (forall ps d, directory_reachable d (final (m ps) d)) ->
    steps relay_step (let! s := gets rw_server in on_directory (m (fun channelID => directoryParticipants channelID (now channelID) s)))) as Hdir.
  { intros m now Hm. apply steps_bind; [by intros w|]. intros s. by apply steps_on_directory. }
  split_and!; intros.
  - apply steps_performing, steps_on_relay_server. by apply steps_receive.
  - apply steps_performing, steps_on_relay_server. by apply steps_cleanupTick.
  - apply steps_performing, steps_on_control, steps_bind; [by apply steps_accept, failure_source_named|by intros ? w].
  - apply steps_bind; [by intros w|]. intros s. apply steps_on_management. intros now p. apply handle_request_steps.
  - apply steps_on_directory. intros d. by apply (directory_handlers_refine (fun _ => []) data addr 0).
  - apply (Hdir worker). intros ps d. by apply (directory_handlers_refine ps [] None 0).
  - apply (Hdir publishParticipants). intros ps d. by apply (directory_handlers_refine ps [] None 0).
  - apply steps_on_directory. intros d. by apply (directory_handlers_refine (fun _ => []) [] None 0).
Qed.

(** C3. A Relay that started keeps all its invariants together over any run of fewer than
    2^64 - 2 transitions, however the goroutines of its parts interleave: its server is
    well-formed and configured as at the start, the Directory stays within its limits, the
    queues and the audit of the plane are bounded, and its policy, issuer, audience, key ID
    and public half of the signing key are still those the service admission of the server
    has.  The link stays within its limits when the state file it started from holds at
    most 1024 acknowledgements; the restore does not compare their number, but a link within its limits
    writes no more. *)
Theorem running_relay f listening dedicated file diag now h r h' content n w :
  start_relay f listening dedicated file diag now h = (Some r, h') ->
  nsteps relay_step n (started r content) w -> Z.of_nat n + 2 < 2 ^ 64 ->
  server_ok (rw_server w) /\ server_configured f (rw_server w) /\ same_config (r_server r) (rw_server w) /\
  (forall d, rw_directory w = Some d -> exists d0, r_directory r = Some d0 /\ directory_ok d0 d) /\
  (forall p, rw_plane w = Some p -> plane_started (rw_server w) (pw_plane p) /\ audit_newest (pw_plane p) /\
     forall id sb, subscribers (pw_plane p) !! id = Some sb -> queue_ok (pw_plane p) sb) /\
  ((forall h0, file_fits (file h0)) -> forall l, rw_link w = Some l -> link_ok l /\
     forall at_ a, len (ps_Idempotency (persistentStateSnapshot at_ a l)) <= privateControlMaxIdempotency).
Proof.
  intros Hstart Hsteps Hn. pose proof (started_relay_ok _ _ _ _ _ _ _ _ _ content Hstart) as H0.
  apply (relay_steps_ok _ _ _ 0 _ _ Hsteps ltac:(lia)) in H0. destruct H0 as [Hs Hc Hcf Hd Hp Hl]. split_and!; try done.
  - intros p Ep. destruct (Hp p Ep) as [Hps [_ _ _ Hq _ Hau]]. split_and!; [done..|]. intros id sb Esb. by destruct (Hq id sb Esb).
  - intros Hf l El. assert (link_ok l) as Hlk by (apply Hl; [by eapply file_restored_fits|done]).
    split; [exact Hlk|]. intros at_ a. apply snapshot_fits, Hlk.
Qed.

(** What no goroutine changes. *)
Lemma relay_steps_config w w' : rtc relay_step w w' -> same_config (rw_server w) (rw_server w') /\
  forall p', rw_plane w' = Some p' -> exists p, rw_plane w = Some p /\ same_plane (pw_plane p) (pw_plane p').
Proof.
  induction 1 as [w|w1 w2 w3 Hst _ [IHc IHp]]; [split; [reflexivity|]; intros p Ep; by exists p|].
  assert (same_config (rw_server w1) (rw_server w2)) as Hc.
  { destruct Hst as [s Hst|d t d' Ed Hst|p p' m Ep Hst|l c El Hst|p m Ep]; try reflexivity; [by apply server_step_frame in Hst as [? _]|].
    destruct Hst as [s Hst|ev l' Hst|outcome st|k]; try reflexivity. by apply server_step_frame in Hst as [? _]. }
  split; [by etrans|]. intros p3 E3. destruct (IHp p3 E3) as (p2 & E2 & Hs2).
  destruct Hst as [s Hst|d t d' Ed Hst|p p' m Ep Hst|l c El Hst|p m Ep]; cbn in E2; try by exists p2.
  - injection E2 as ->. exists p. split; [done|]. apply plane_step_same in Hst. unfold same_plane in *. naive_solver congruence.
  - injection E2 as ->. by exists p2.
Qed.

(** C19. A grant that the management API of a running Relay issues for one of its services
    is accepted by the service admission of the same Relay, in every state it reaches from
    there, from half a minute before the issue to the expiry: for the sender and service
    of the request and with exactly the permissions requested, which the channel ACL of
    the service allows, and the priority of that ACL for an interrupting service.  The
    signing key file holds a seed, or 64 bytes whose halves match, which the start does not
    check; the key ID, issuer and audience are text. *)
Theorem issued_grants_accepted `{!GrantCodec} `{!Ed25519Correct} f listening dedicated file diag now h r h' content w1 w2 p q service request jti t grant expiresAt permissions priority t' :
  start_relay f listening dedicated file diag now h = (Some r, h') -> rtc relay_step (started r content) w1 -> rtc relay_step w1 w2 ->
  rw_plane w1 = Some p -> serviceForRequest (pw_plane p) q = Some service ->
  issueGrant (pw_plane p) service request (Some jti) t = Some (grant, expiresAt, permissions, priority) ->
  (forall raw, signing_key (fm_signingKeyFile (fl_management f)) = Some raw -> len raw = SeedSize \/ halves_match raw) ->
  Forall utf8 [gs_keyID (mg_signer (pw_plane p)); mg_issuer (pw_plane p); mg_audience (pw_plane p)] -> bytes_ok jti -> length jti = 16%nat ->
  sane_time t -> toUnix t + 300 < 2 ^ 62 -> t - 30 * Second <= t' < Unix (toUnix expiresAt) ->
  exists a publicKey acl ad, serviceAdmissions (rw_server w2) = Some a /\ strictBase64URL (gr_ServicePublicKey request) = Some publicKey /\
    validateGrant a grant publicKey (gr_ChannelID request) (gr_SenderID request) t' = inr ad /\
    acl_at (mg_policy (pw_plane p)) (ms_serviceID service) (gr_ChannelID request) (gr_SenderID request) = Some acl /\ acl_grants acl request /\
    sa_serviceID ad = ms_serviceID service /\ sa_role ad = gr_Role request /\ sa_permissions ad = permissions /\ permissions = grant_permissions request /\
    sa_priority ad = (if gr_RequestInterrupt request then interruptPriority acl else 0) /\ sa_grantExpires ad = Unix (toUnix t + 300).
Proof.
  intros Hstart Hr1 Hr2 Ep Hsv Hi Hlaw Htext Hj Hj16 Hs Hb Ht. destruct (start_relay_config _ _ _ _ _ _ _ _ _ Hstart) as (Hplane & _ & _).
  apply relay_steps_config in Hr1 as [Hc1 Hp1]. apply relay_steps_config in Hr2 as [Hc2 _].
  destruct (Hp1 p Ep) as (p0 & E0 & Hsame). cbn in E0. apply fmap_Some in E0 as (p00 & E00 & ->).
  destruct (Hplane _ E00) as [Hst (raw & Eraw & Hraw)]. assert (halves_match (gs_key (mg_signer (pw_plane p)))) as Hhv.
  { destruct Hsame as (_ & Es & _). cbn in Es. rewrite Es. destruct Hraw as [[_ ?]|[Hl64 ->]]; [done|].
    destruct (Hlaw _ Eraw) as [Hl32|]; [|done]. unfold SeedSize, PrivateKeySize in *. lia. }
  assert (plane_started (rw_server w2) (pw_plane p)) as (Hpol & a & Ea & Htr).
  { eapply plane_started_same; [etrans; [exact Hc1|exact Hc2]|]. by eapply plane_started_plane. }
  apply serviceForRequest_service in Hsv as (cert & id & _ & _ & Hid & _). pose proof (po_services _ Hpol _ _ Hid) as Hsok.
  destruct (issued_grant_validates _ _ _ _ _ _ _ _ _ a t' Hi) as (publicKey & acl & ad & C1 & C2 & C3 & C4 & C5 & C6 & C7 & C8 & C9 & C10 & _); try done.
  - constructor; [done| |done]. by destruct Hsok as (-> & _).
  - exists a, publicKey, acl, ad. by split_and!.
Qed.
End running.

(** ** A concrete Relay *)

#[local] Existing Instances example_host relay_files relay_tls plain_csv number_json listing_order merge_sort_order counting_entropy example_keys
  example_verify example_correct example_json example_marshal example_codec plain_control_json counting_link_environment counting_environment
  toy_directory_json toy_payload_json toy_aead decimal_times example_cursor_json.

Definition example_start : option relay * option Z := start_relay example_flags true false (fun _ => None) toy_diagnostics example_now None.

(** The plane of a Relay issues a grant to the operator. *)
Definition issues (r : relay) : bool :=
  match r_management r with
  | None => false
  | Some p =>
      match serviceForRequest p (example_get "/v1/health" []) with
      | None => false
      | Some service =>
          match issueGrant p service example_request (Some (seqZ 0 16)) example_now with
          | Some (_, expiresAt, permissions, _) =>
              (example_now <? Unix (toUnix expiresAt)) && (permissions =? 7)
              && forallb (fun s => bool_decide (is_Some (rune_count (str_bytes s)))) [gs_keyID (mg_signer p); mg_issuer p; mg_audience p]
          | None => false
          end
      end
  end.

Lemma example_starts : exists r h', example_start = (Some r, h') /\ issues r = true /\ is_Some (r_link r).
Proof.
  assert (match example_start.1 with Some r => issues r && bool_decide (is_Some (r_link r)) | None => false end = true) as Hc by (vm_compute; reflexivity).
  destruct example_start as [[r|] h']; [|done]. cbn [fst] in Hc. apply andb_true_iff in Hc as [Hi Hf]. exists r, h'. split_and!; [done..|].
  by apply bool_decide_eq_true in Hf.
Qed.

Lemma running_relay_witness : exists r w, nsteps relay_step 1 (started r None) w /\ server_ok (rw_server w) /\
  is_Some (channels (rw_server w) !! 100) /\ exists l, rw_link w = Some l /\ link_ok l.
Proof.
  destruct example_starts as (r & h' & E & _ & l & El). set (s1 := joinPeer 100 7 (Some (endpoint 5001)) example_now (r_server r)).
  exists r, (set_rw_server (started r None) s1).
  assert (nsteps relay_step 1 (started r None) (set_rw_server (started r None) s1)) as Hs.
  { eapply nsteps_l; [|apply nsteps_O]. apply run_server. by apply step_join. }
  split; [exact Hs|]. destruct (running_relay _ _ _ _ _ _ _ _ _ None 1 _ E Hs ltac:(done)) as (Hok & _ & _ & _ & _ & Hl). split; [exact Hok|]. split.
  - cbn. unfold s1, joinPeer. destruct (getOrCreateChannel _ _) as [ch s2]. cbn. rewrite lookup_insert_eq. by eexists.
  - exists l. split; [exact El|]. apply (Hl ltac:(by intros h0 st [= <-]) l El).
Defined.

Lemma goroutines_refine_transitions_witness : steps relay_step (relay_connection (Some (Some "10.0.0.1", "tcp")) None []).
Proof. apply goroutines_refine_transitions. by intros host network [= _ <-]. Defined.

Lemma issued_grants_accepted_witness : exists r a publicKey grant ad, serviceAdmissions (r_server r) = Some a /\
  validateGrant a grant publicKey 100 1003 example_now = inr ad /\ sa_permissions ad = 7.
Proof.
  destruct example_starts as (r & h' & E & Hi & _). unfold issues in Hi. destruct (r_management r) as [p|] eqn:Ep; [|discriminate Hi].
  destruct (serviceForRequest p _) as [service|] eqn:Es; [|discriminate Hi].
  destruct (issueGrant p service example_request _ example_now) as [[[[grant expiresAt] permissions] priority]|] eqn:Eg; [|discriminate Hi].
  apply andb_true_iff in Hi as [[He Hp]%andb_true_iff Ht]. apply Z.eqb_eq in Hp as ->.
  assert (rw_plane (started r None) = Some (quiet p)) as Ew by (cbn; by rewrite Ep).
  destruct (issued_grants_accepted _ _ _ _ _ _ _ _ _ None (started r None) (started r None) (quiet p) _ service example_request (seqZ 0 16) example_now
    grant expiresAt 7 priority example_now E (rtc_refl _ _) (rtc_refl _ _) Ew Es Eg) as (a & publicKey & acl & ad & Ha & _ & Hv & _ & _ & _ & _ & Hpm & _).
  - intros raw Eraw. right. vm_compute in Eraw. injection Eraw as <-. vm_compute. reflexivity.
  - apply Forall_forall. intros x Hx. rewrite forallb_forall in Ht. apply list_elem_of_In, Ht in Hx. by apply bool_decide_eq_true in Hx.
  - unfold bytes_ok. apply Forall_forall. intros x Hx%elem_of_seqZ. unfold is_u8. lia.
  - reflexivity.
  - split; [vm_compute; congruence|vm_compute; reflexivity].
  - vm_compute. reflexivity.
  - split; [vm_compute; congruence|]. by apply Z.ltb_lt.
  - exists r, a, publicKey, grant, ad. split_and!; [exact Ha|exact Hv|exact Hpm].
Defined.
